(** * Fingerprint: the timeline-driven offline renderer

    A shallow embedding of the renderer of the Fingerprint repository
    (render-cli.js = v1, render-cli-v2.js = v2, render-cli-v4.js = v4,
    the browser VideoRenderer module and the extension's CookieAnalyzer)
    and of the engines that feed it (InferenceEngine, EntropyEngine,
    PricingEngine), followed by the properties its specification states
    about it and by further properties of the code.

    Conventions of the embedding.
    - A JavaScript number is a rational [Q]: arithmetic is exact, the
      rounding of IEEE doubles is not modelled.  Integers that the code
      keeps integral (frame counts, the generator's state) are [Z].
    - [Math.cos], [Math.sin], [Math.sqrt] and [Math.PI], the regular
      expressions of the monolog builder and [Date] parsing are taken as
      parameters.
    - An optional JSON field is an [option]; a JavaScript object used as
      a dictionary is a [gmap]; module-level [let] variables are threaded
      through the functions that read or write them. *)

From stdpp Require Import base option list gmap strings.
From Stdlib Require Import Ascii String ZArith QArith Qround Qminmax Qabs DecimalString Lia Lqa Sorted.

Set Default Proof Using "Type".
Local Open Scope Z_scope.

(** ** JavaScript built-ins used by the renderer *)

Module Js.

(** [a < b] on numbers. *)
Definition ltb (a b : Q) : bool := negb (Qle_bool b a).
(** [a <= b] on numbers. *)
Definition leb (a b : Q) : bool := Qle_bool a b.
(** [a > b], [a >= b]. *)
Definition gtb (a b : Q) : bool := ltb b a.
Definition geb (a b : Q) : bool := leb b a.

(** [Math.round]: the nearest integer, halves towards +infinity. *)
Definition round (x : Q) : Z := Qfloor (x + 0.5)%Q.

(** [Math.floor]. *)
Definition floor (x : Q) : Z := Qfloor x.

(** [Math.max(a, b)] and [Math.min(a, b)]. *)
Definition max (a b : Q) : Q := Qmax a b.
Definition min (a b : Q) : Q := Qmin a b.

(** [clamp(v, a, b)] of every renderer variant. *)
Definition clamp (v a b : Q) : Q := max a (min b v).

(** [String(n)] for an integral number. *)
Definition intToString (n : Z) : string :=
  NilZero.string_of_int (Z.to_int n).

(** Is the rational an integer? *)
Definition isInt (x : Q) : bool := Qeq_bool x (inject_Z (Qfloor x)).

(** [s.toLowerCase()] on the ASCII range. *)
Definition lowerAscii (c : ascii) : ascii :=
  let n := nat_of_ascii c in
  if (Nat.leb 65 n && Nat.leb n 90)%bool then ascii_of_nat (n + 32) else c.

Fixpoint toLowerCase (s : string) : string :=
  match s with
  | EmptyString => EmptyString
  | String c r => String (lowerAscii c) (toLowerCase r)
  end.

(** [s.startsWith(p)], [s.endsWith(p)], [s.includes(p)]. *)
Definition startsWith (s p : string) : bool := String.prefix p s.

Definition endsWith (s p : string) : bool :=
  let n := String.length s in
  let k := String.length p in
  (Nat.leb k n && String.eqb (String.substring (n - k) k s) p)%bool.

Definition includes (s p : string) : bool :=
  match String.index 0 p s with Some _ => true | None => false end.

(** [s.replace(p, r)] with a string pattern: the first occurrence only. *)
Definition replaceFirst (s p r : string) : string :=
  match String.index 0 p s with
  | Some i =>
      String.substring 0 i s +:+ r +:+
      String.substring (i + String.length p)
                       (String.length s - (i + String.length p)) s
  | None => s
  end.

(** [xs.join(sep)]. *)
Definition join (sep : string) (xs : list string) : string :=
  String.concat sep xs.

(** [xs.includes(x)] on an array of strings. *)
Definition inList (x : string) (xs : list string) : bool :=
  existsb (String.eqb x) xs.

(** The one-character string holding a double quote. *)
Definition dquote : string := String (ascii_of_nat 34) EmptyString.

(** [String(h).padStart(2, '0')]. *)
Definition pad2 (s : string) : string :=
  if Nat.ltb (String.length s) 2 then "0" +:+ s else s.

(** Digits of [n] padded on the left with zeros to width [w]. *)
Fixpoint padZeros (w : nat) (s : string) : string :=
  if Nat.ltb (String.length s) w
  then match w with
       | O => s
       | S w' => padZeros w' ("0" +:+ s)
       end
  else s.

(** [x.toFixed(d)]: [d] decimals of the magnitude, rounded half up,
    behind the sign of a negative number. *)
Definition toFixed (x : Q) (d : nat) : string :=
  let scale := 10 ^ Z.of_nat d in
  let n := round (Qabs x * inject_Z scale)%Q in
  let sign := if ltb x 0 then "-" else "" in
  let ip := intToString (n / scale) in
  match d with
  | O => sign +:+ ip
  | _ => sign +:+ ip +:+ "." +:+
         padZeros d (intToString (n mod scale))
  end.

End Js.

(** ** The seeded generator

    Both the v4 renderer ([_seed], [srand], [rng]) and the browser
    VideoRenderer ([seed], [rng]) use the same Lehmer generator over a
    module-level variable, which is the state threaded here.  The
    product [_seed * 16807] stays below 2^53, so it is exact in the
    source as well. *)

Module Rng.

Definition MODULUS : Z := 2147483647.
Definition MULT : Z := 16807.

(** [function srand(s) { _seed = s; }] *)
Definition srand (s : Z) (_old : Z) : Z := s.

(** [_seed = (_seed * 16807) % 2147483647; return (_seed - 1) / 2147483646;]
    JavaScript's [%] takes the sign of the dividend: [Z.rem]. *)
Definition rng (seed : Z) : Q * Z :=
  let seed' := Z.rem (seed * MULT) MODULUS in
  (inject_Z (seed' - 1) / inject_Z (MODULUS - 1), seed')%Q.

(** A state from which the generator yields values in [0, 1]. *)
Definition valid (seed : Z) : Prop := 1 <= seed < MODULUS.

End Rng.

(** ** v4: the scared-timing hold model (render-cli-v4.js) *)

Module V4Timing.

(** The position-in-timeline curve of [scaredTiming]. *)
Definition curve (progress : Q) : Q :=
  if Js.ltb progress 0.15 then 1.3
  else if Js.ltb progress 0.5 then 0.75
  else if Js.ltb progress 0.75 then 0.6
  else (1.1 + (progress - 0.75) * 4)%Q.

(** [importance === 'flash' ? 0.35 : importance === 'linger' ? 2.2 : 1.0] *)
Definition impMult (importance : string) : Q :=
  if String.eqb importance "flash" then 0.35
  else if String.eqb importance "linger" then 2.2
  else 1.0.

(** [0.75 + rng() * 0.5] *)
Definition jitterOf (r : Q) : Q := (0.75 + r * 0.5)%Q.

(** The product under the [Math.max] of [scaredTiming]. *)
Definition rawHold (index total lineCount : Z) (importance : string)
           (r : Q) : Q :=
  let progress := (inject_Z index / inject_Z (Z.max total 1))%Q in
  let base := (0.3 + inject_Z lineCount * 0.22)%Q in
  (base * curve progress * impMult importance * jitterOf r)%Q.

(** [function scaredTiming(index, total, lineCount, importance)];
    reads and advances the generator. *)
Definition scaredTiming (index total lineCount : Z) (importance : string)
           (seed : Z) : Q * Z :=
  let progress := (inject_Z index / inject_Z (Z.max total 1))%Q in
  let curve := curve progress in
  let base := (0.3 + inject_Z lineCount * 0.22)%Q in
  let impMult := impMult importance in
  let '(r, seed') := Rng.rng seed in
  let jitter := (0.75 + r * 0.5)%Q in
  (Js.max 0.25 (base * curve * impMult * jitter)%Q, seed').

(** The hold as the specification words it: the plain product, with no
    lower bound. *)
Definition plainProductHold (i t n : Z) (imp : string) (seed : Z) : Prop :=
  (fst (scaredTiming i t n imp seed)
   == rawHold i t n imp (fst (Rng.rng seed)))%Q.

End V4Timing.

(** ** The Profile Record as the v4 monolog builder reads it

    [buildMonolog(fpData, profile, entropy, uniqueness, pricing)] reads
    the fields below; every optional JSON field is an [option]. *)

Module Profile.

(** A value that the collector stores either as a string or a number. *)
Inductive JsPrim := PStr (s : string) | PNum (q : Q).

(** [fpData.basic] *)
Record Basic := {
  userAgent : option string;
  platform : option string;
  deviceMemory : option Q;
  hardwareConcurrency : option Q;
  devicePixelRatio : option Q;
  colorDepth : option Q;
  maxTouchPoints : option Q;
  doNotTrack : option JsPrim;
  cookieEnabled : option bool;
  screenWidth : option Q;
  screenHeight : option Q;
  timezone : option string;
  timezoneOffset : option Z;
  language : option string;
  connectionType : option string;
  connectionDownlink : option Q;
  connectionSaveData : option bool
}.

(** An entry of [cookies.topTrackers]. *)
Record Tracker := { domain : string; count : Z; category : string }.

(** [lifetimes] of the cookie analysis. *)
Record Lifetimes := {
  session : Z; shortLived : Z; persistent : Z; zombie : Z
}.

(** [fpData.extension.cookies], the result of [CookieAnalyzer.analyze]. *)
Record Cookies := {
  total : Z;
  trackerCount : Z;
  trackerPercentage : option Z;
  byCategory : option (gmap string Z);
  topTrackers : option (list Tracker);
  lifetimes : option Lifetimes
}.

(** [fpData] *)
Record FpData := {
  basic : option Basic;
  rendererUnmasked : option string; (* advanced.components.webGlBasics.value *)
  webglRenderer : option string;    (* webgl.renderer *)
  fonts : option (list string);
  advancedFonts : option (list string); (* advanced.components.fonts.value *)
  batteryLevel : option Q;
  batteryCharging : option bool;
  videoinput : option Q;
  audioinput : option Q;
  cookies : option Cookies;         (* extension.cookies *)
  collectedAt : option string;
  generatedAt : option string;
  visitorId : option string;        (* advanced.visitorId *)
  componentsVisitorId : option string (* advanced.components.visitorId *)
}.

(** [profile.device.parsed] *)
Record Parsed := {
  os : string; osVersion : string;
  browser : string; browserVersion : string;
  mobile : bool
}.

Record Profession := { label : string; confidence : Q }.

(** [profile], the result of [InferenceEngine.generateFullProfile] *)
Record Profile := {
  parsed : Parsed;
  deviceTier : string;
  country : string;
  market : string;
  bracket : string;
  estimate : string;
  techScore : option Q;
  professionAll : option (list Profession)
}.

Record Factor := { flabel : string; effect : string }.

(** [entropy], [uniqueness] and [pricing] *)
Record Scores := {
  totalBits : Q;
  populationSize : string;
  percent : Q;
  cpm : Q;
  annualValue : Q;
  factors : option (list Factor)
}.

(** What the JavaScript engine and the host supply: the capture of
    each regular expression ([""] when it does not match), the [Date]
    parser ([None] for an invalid date), the host-local minutes of a
    time stamp, and the decimal form of a non-integral number. *)
Record Host := {
  reAppleChip : string -> string;   (* group 1 of the Apple M-chip pattern *)
  reNvidia : string -> string;      (* group 1 of the RTX/GTX pattern *)
  reAmd : string -> string;         (* group 1 of the Radeon pattern *)
  reRtxHigh : string -> bool;       (* the RTX 30/40/50 pattern matches *)
  dateParse : string -> option Z;   (* new Date(s).getTime() *)
  getMinutes : Z -> Z;              (* new Date(ms).getMinutes() *)
  fracToString : Q -> string
}.

End Profile.

(** ** v4: the data-conditional monolog builder (render-cli-v4.js) *)

Module Monolog.
Import Profile.

(** A thought block as [buildMonolog] returns it. *)
Record Block := { lines : list string; importance : string }.

(** [raw.push({ lines: lines.filter(Boolean), importance: importance || 'normal' })] *)
Definition add (ls : list string) (imp : string) : Block :=
  {| lines := List.filter (fun s => negb (String.eqb s "")) ls;
     importance := if String.eqb imp "" then "normal" else imp |}.

(** Truthiness and [x || dflt] on optional strings and numbers. *)
Definition truthyS (o : option string) : bool :=
  match o with Some s => negb (String.eqb s "") | None => false end.
Definition orS (o : option string) (dflt : string) : string :=
  match o with
  | Some s => if String.eqb s "" then dflt else s
  | None => dflt
  end.
Definition truthyQ (o : option Q) : bool :=
  match o with Some q => negb (Qeq_bool q 0) | None => false end.
Definition orQ (o : option Q) (dflt : Q) : Q :=
  match o with
  | Some q => if Qeq_bool q 0 then dflt else q
  | None => dflt
  end.
Definition truthyB (o : option bool) : bool :=
  match o with Some b => b | None => false end.

(** [const d = fpData.basic || {}] *)
Definition emptyBasic : Basic :=
  {| userAgent := None; platform := None; deviceMemory := None;
     hardwareConcurrency := None; devicePixelRatio := None;
     colorDepth := None; maxTouchPoints := None; doNotTrack := None;
     cookieEnabled := None; screenWidth := None; screenHeight := None;
     timezone := None; timezoneOffset := None; language := None;
     connectionType := None; connectionDownlink := None;
     connectionSaveData := None |}.

Definition basicOf (fp : FpData) : Basic :=
  match basic fp with Some b => b | None => emptyBasic end.

Definition designFontNames : list string :=
  ["Futura"; "Avenir"; "Avenir Next"; "Gill Sans"; "Helvetica Neue";
   "Open Sans"; "Proxima Nova"; "Baskerville"; "Didot"; "Optima"].
Definition devFontNames : list string :=
  ["Menlo"; "Monaco"; "Consolas"; "Fira Code"; "Source Code Pro";
   "SF Mono"; "Courier New"; "Ubuntu Mono"; "DejaVu Sans Mono"].
Definition adobeFontNames : list string :=
  ["Myriad Pro"; "Minion Pro"; "Adobe Garamond"; "Kozuka Gothic";
   "Adobe Caslon"].

(** [new Date(ms).getUTCHours()] *)
Definition getUTCHours (ms : Z) : Z := (ms / 3600000) mod 24.

Section Builder.
Context (host : Host).

(** Number to string, as [+] with a string operand coerces it. *)
Definition numToString (q : Q) : string :=
  if Js.isInt q then Js.intToString (Qfloor q) else fracToString host q.

(** [x + '...'] for an optional number: [undefined] prints as such. *)
Definition optNumToString (o : option Q) : string :=
  match o with Some q => numToString q | None => "undefined" end.

(** [(x || '?')] coerced to a string. *)
Definition numOrQuestion (o : option Q) : string :=
  if truthyQ o then optNumToString o else "?".

(** A possibly-NaN integer printed by [String(.)]. *)
Definition nanToString (o : option Z) : string :=
  match o with Some z => Js.intToString z | None => "NaN" end.

Context (fpData : FpData) (profile : Profile) (scores : Scores).

Let d := basicOf fpData.
Let dev := parsed profile.

Definition gpu : string :=
  if truthyS (rendererUnmasked fpData)
  then orS (rendererUnmasked fpData) ""
  else orS (webglRenderer fpData) "".

(** [fpData.fonts || adv.components?.fonts?.value || []]; an empty
    array is truthy. *)
Definition fontList : list string :=
  match fonts fpData with
  | Some l => l
  | None => match advancedFonts fpData with Some l => l | None => [] end
  end.

Definition chip : string := reAppleChip host gpu.
Definition nvidia : string := reNvidia host gpu.
Definition amd : string := reAmd host gpu.
Definition nonEmpty (s : string) : bool := negb (String.eqb s "").

(** [fpData.collectedAt || fpData.generatedAt || ''] *)
Definition collectedAtStr : string :=
  if truthyS (collectedAt fpData) then orS (collectedAt fpData) ""
  else orS (generatedAt fpData) "".

(** [localHour]: [None] is [null]; [Some None] is NaN. *)
Definition localHour : option (option Z) :=
  if nonEmpty collectedAtStr then
    match timezoneOffset d with
    | Some off =>
        Some (match dateParse host collectedAtStr with
              | Some utc => Some (getUTCHours (utc - off * 60000))
              | None => None
              end)
    | None => None
    end
  else None.

Definition designFonts := List.filter (fun f => Js.inList f designFontNames) fontList.
Definition devFonts := List.filter (fun f => Js.inList f devFontNames) fontList.
Definition adobeFonts := List.filter (fun f => Js.inList f adobeFontNames) fontList.

Definition isMobile : bool := mobile dev.
Definition isApple : bool := String.eqb (os dev) "macOS" || String.eqb (os dev) "iOS".
Definition isLinux : bool := String.eqb (os dev) "Linux".
Definition isWindows : bool := String.eqb (os dev) "Windows".
Definition isChromeOS : bool :=
  match platform d with Some p => Js.includes p "CrOS" | None => false end.
Definition isPremium : bool := String.eqb (deviceTier profile) "Premium".
Definition isBudget : bool :=
  String.eqb (deviceTier profile) "Budget" || String.eqb (deviceTier profile) "Low".
Definition hasHighMemory : bool := Js.geb (orQ (deviceMemory d) 0) 8.
Definition hasHighCores : bool := Js.geb (orQ (hardwareConcurrency d) 0) 8.
Definition hasRetina : bool := Js.geb (orQ (devicePixelRatio d) 1) 2.
Definition hasWideColor : bool :=
  match colorDepth d with Some c => Js.geb c 30 | None => false end.
Definition hasWebcam : bool := Js.gtb (orQ (videoinput fpData) 0) 0.
Definition hasMic : bool := Js.gtb (orQ (audioinput fpData) 0) 0.
Definition hasDNT : bool :=
  match doNotTrack d with
  | Some (PStr s) => String.eqb s "1"
  | Some (PNum q) => Qeq_bool q 1
  | None => false
  end.
Definition hasCookies : bool :=
  match cookieEnabled d with Some false => false | _ => true end.
Definition isFirefox : bool := String.eqb (browser dev) "Firefox".
Definition isSafari : bool := String.eqb (browser dev) "Safari".
Definition isBrave : bool := Js.includes (orS (userAgent d) "") "Brave".
Definition isChrome : bool := String.eqb (browser dev) "Chrome" && negb isBrave.

(** 1. opening *)
Definition opening : list Block := [add ["scanning."] "normal"].

(** 2. device detection *)
Definition deviceDetection : list Block :=
  if isApple && nonEmpty chip then
    [add [Js.toLowerCase (os dev) +:+ " " +:+ osVersion dev +:+ ".";
          Js.toLowerCase chip +:+ "."; "apple silicon."] "normal";
     add ["premium hardware."] "flash"]
  else if isApple && negb (nonEmpty chip) then
    [add [Js.toLowerCase (os dev) +:+ " " +:+ osVersion dev +:+ ".";
          "apple. intel era."] "normal";
     add ["aging hardware. still premium brand."] "flash"]
  else if isWindows && nonEmpty nvidia then
    add ["windows " +:+ osVersion dev +:+ "."; Js.toLowerCase nvidia +:+ "."] "normal"
    :: (if reRtxHigh host nvidia
        then [add ["gaming rig. or workstation."; "either way: disposable income."] "normal"]
        else [add ["mid-range GPU."; "practical. budget-conscious."] "normal"])
  else if isWindows && nonEmpty amd then
    [add ["windows " +:+ osVersion dev +:+ "."; Js.toLowerCase amd +:+ "."] "normal";
     add ["AMD build. value-oriented."] "flash"]
  else if isWindows then
    add ["windows " +:+ osVersion dev +:+ "."] "normal"
    :: (if hasHighMemory && hasHighCores
        then [add ["powerful machine. workstation class."] "normal"]
        else if negb hasHighMemory
        then [add ["standard hardware.";
                   numOrQuestion (deviceMemory d) +:+ "GB RAM.";
                   "consumer tier."] "normal"]
        else [])
  else if isLinux then
    [add ["linux."] "normal";
     add ["technical subject."; "privacy-conscious? or just stubborn."] "normal"]
  else if isChromeOS then
    [add ["chromebook."] "normal";
     add ["cloud-dependent. budget hardware."; "student? or minimalist."] "normal"]
  else if String.eqb (os dev) "iOS" then
    [add ["iOS " +:+ osVersion dev +:+ "."; "apple ecosystem."] "normal";
     add ["high-value mobile target."] "flash"]
  else if String.eqb (os dev) "Android" then
    if hasHighMemory
    then [add ["android. " +:+ numOrQuestion (deviceMemory d) +:+ "GB RAM.";
               "flagship device."] "normal"]
    else [add ["android. " +:+ numOrQuestion (deviceMemory d) +:+ "GB RAM.";
               "budget device."; "emerging market?"] "normal"]
  else
    [add [Js.toLowerCase (os dev) +:+ " " +:+ osVersion dev +:+ "."] "normal"].

(** 3. form factor *)
Definition formFactor : list Block :=
  if negb isMobile && hasWebcam && hasMic
     && Qeq_bool (orQ (maxTouchPoints d) 0) 0 then
    if isApple
    then [add ["webcam. microphone. no touch."; "=laptop. probably macbook."] "normal"]
    else [add ["webcam. microphone. no touch."; "=laptop."] "normal"]
  else if negb isMobile && negb hasWebcam && hasMic then
    [add ["no webcam. external mic."; "desktop workstation."] "normal"]
  else if isMobile then
    if Js.gtb (orQ (maxTouchPoints d) 0) 3
    then [add ["multi-touch. " +:+ optNumToString (maxTouchPoints d)
                 +:+ " contact points."; "mobile device."] "normal"]
    else [add ["mobile device."] "flash"]
  else [].

(** 4. tech literacy *)
Definition techLiteracy : list Block :=
  let techScore := orQ (techScore profile) 50 in
  let head := "tech literacy: " +:+ numToString techScore +:+ "/100." in
  if Js.geb techScore 80 then
    [add [head; "expert level."] "normal";
     add ["knows shortcuts. skips tutorials."; "reads documentation. for fun."] "normal";
     add ["harder to monetize."; "resistant to clickbait."] "flash"]
  else if Js.geb techScore 60 then
    [add [head; "above average."] "normal";
     add ["will research before purchasing."; "serve comparison ads. reviews."] "normal"]
  else if Js.geb techScore 40 then
    [add [head; "average user."] "normal";
     add ["standard targeting effective."] "flash"]
  else
    [add [head; "below average."] "normal";
     add ["susceptible to urgency tactics.";
          Js.dquote +:+ "limited time offer" +:+ Js.dquote
            +:+ " works here."] "normal"].


(** 5. browser and tracking posture *)
Definition browserPosture : list Block :=
  if isBrave then
    [add ["brave browser."; "privacy-focused. actively hiding."] "normal";
     add ["still visible. still trackable."; "the fingerprint doesn't lie."] "linger"]
  else if isFirefox then
    add ["firefox."; if hasDNT then "do-not-track: enabled." else "no do-not-track."] "normal"
    :: (if hasDNT
        then [add ["irony: DNT makes the fingerprint more unique.";
                   "trying to hide. standing out instead."] "normal"]
        else [])
  else if isSafari then
    [add ["safari."; "some built-in protections."] "normal";
     add ["apple's privacy theater.";
          "enough to feel safe. not enough to be safe."] "normal"]
  else if isChrome then
    let posture :=
      ["chrome " +:+ browserVersion dev +:+ ".";
       if hasCookies then "cookies: enabled." else "cookies: blocked.";
       if hasDNT then "do-not-track: on." else "no do-not-track."] in
    add posture "normal"
    :: (if negb hasDNT && hasCookies
        then [add ["default settings. no resistance."] "flash";
              add ["thinks incognito means invisible."] "flash"]
        else [])
  else
    [add [Js.toLowerCase (browser dev) +:+ " " +:+ browserVersion dev +:+ "."] "normal"].

(** 6. hardware details *)
Definition hardwareDetails : list Block :=
  let hwLines :=
    (if truthyQ (hardwareConcurrency d)
     then [optNumToString (hardwareConcurrency d) +:+ " cores."] else [])
    ++ (if truthyQ (deviceMemory d)
        then [optNumToString (deviceMemory d) +:+ "GB RAM."] else []) in
  (if Nat.ltb 0 (List.length hwLines) then [add [Js.join " " hwLines] "normal"] else [])
  ++ (if truthyQ (screenWidth d) && truthyQ (screenHeight d)
      then [add [optNumToString (screenWidth d) +:+ "×"
                   +:+ optNumToString (screenHeight d) +:+ " @"
                   +:+ numToString (orQ (devicePixelRatio d) 1) +:+ "x."] "normal"]
      else [])
  ++ (if hasWideColor && hasRetina then
        [add [optNumToString (colorDepth d) +:+ "-bit color. wide gamut. HDR.";
              "professional-grade display."] "normal";
         add ["content creator? photographer? designer?"] "flash"]
      else if hasRetina then
        [add ["retina display.";
              if isPremium then "premium screen." else "consumer retina."] "flash"]
      else if truthyQ (colorDepth d) then
        [add [optNumToString (colorDepth d) +:+ "-bit. standard display."] "flash"]
      else []).

(** 7. battery *)
Definition batterySection : list Block :=
  match batteryLevel fpData with
  | Some level =>
      let pct := Js.round (level * 100)%Q in
      let p := Js.intToString pct in
      if truthyB (batteryCharging fpData) then
        [add ["battery: " +:+ p +:+ "%. charging."; "plugged in. stationary."] "normal";
         add ["settled in. not going anywhere."] "flash"]
      else if pct <=? 20 then
        [add ["battery: " +:+ p +:+ "%. not charging.";
              "running low. will leave soon."] "normal";
         add ["limited window. act fast."] "flash"]
      else if pct <=? 50 then
        [add ["battery: " +:+ p +:+ "%. on battery.";
              "mobile. or forgot the charger."] "normal"]
      else
        [add ["battery: " +:+ p +:+ "%."; "session could be long."] "normal"]
  | None => []
  end.

(** 8. time of day; a NaN hour fails every comparison. *)
Definition timeOfDay : list Block :=
  match localHour with
  | None => []
  | Some h =>
      let m :=
        if nonEmpty collectedAtStr
        then match dateParse host collectedAtStr with
             | Some ms => Some (getMinutes host ms)
             | None => None
             end
        else Some 0 in
      let timeStr := Js.pad2 (nanToString h) +:+ ":" +:+ Js.pad2 (nanToString m) in
      let head := timeStr +:+ " local time." in
      let test (p : Z -> bool) : bool :=
        match h with Some z => p z | None => false end in
      if test (fun h => (0 <=? h) && (h <? 5)) then
        [add [head; "deep night."] "normal";
         add ["impulse control lowest between midnight and 4am.";
              "increase bid."] "linger"]
      else if test (fun h => (22 <=? h) || (h =? 5)) then
        [add [head; "late night."] "normal";
         add ["can't sleep? or won't sleep?";
              "late night purchases convert 40% better."] "linger"]
      else if test (fun h => (6 <=? h) && (h <? 9)) then
        [add [head; "early session."] "normal";
         add ["routine browser. habitual.";
              "serve morning news. coffee ads."] "normal"]
      else if test (fun h => (9 <=? h) && (h <? 12)) then
        [add [head; "morning. work hours."] "normal";
         add ["should be working. procrastinating.";
              "receptive to distractions."] "normal"]
      else if test (fun h => (12 <=? h) && (h <? 14)) then
        [add [head; "lunch break."] "normal";
         add ["free time. browsing. shopping.";
              "food delivery ads? retail?"] "normal"]
      else if test (fun h => (14 <=? h) && (h <? 17)) then
        [add [head; "afternoon slump."] "normal";
         add ["attention fading. easier to convert."] "flash"]
      else if test (fun h => (17 <=? h) && (h <? 20)) then
        [add [head; "evening."] "normal";
         add ["decision fatigue setting in.";
              "emotional purchases peak now."] "normal"]
      else
        [add [head; "late evening."] "normal";
         add ["winding down. guard lowered."] "flash"]
  end.

(** 9. location and language.  [d.language.toLowerCase()] throws a
    TypeError when the language is absent: [None]. *)
Definition locationLanguage : option (list Block) :=
  let first :=
    add [Js.toLowerCase (orS (timezone d) "unknown timezone") +:+ ".";
         Js.toLowerCase (country profile) +:+ ".";
         Js.toLowerCase (market profile) +:+ " market."] "normal" in
  let langCode := Js.toLowerCase (String.substring 0 2 (orS (language d) "")) in
  let langInForeign :=
    String.eqb langCode "en"
    && negb (Js.inList (country profile)
               ["United States"; "United Kingdom"; "Canada"; "Australia";
                "Ireland"; "New Zealand"]) in
  let nonEnglishInEnglish :=
    negb (String.eqb langCode "en")
    && Js.inList (country profile)
         ["United States"; "United Kingdom"; "Canada"; "Australia"] in
  if langInForeign then
    Some [first;
          add ["english speaker in " +:+ Js.toLowerCase (country profile) +:+ ".";
               "expatriate? remote worker? digital nomad?"] "normal";
          add ["probably misses home.";
               "show airline ads. relocation services."] "normal"]
  else if nonEnglishInEnglish then
    match language d with
    | Some lang =>
        Some [first;
              add [Js.toLowerCase lang +:+ " speaker in "
                     +:+ Js.toLowerCase (country profile) +:+ ".";
                   "immigrant? international student?"] "normal";
              add ["target with community services.";
                   "language learning ads."] "normal"]
    | None => None
    end
  else Some [first].

(** 10. font forensics *)
Definition fontForensics : list Block :=
  let shown (k : nat) (fs : list string) : string :=
    Js.toLowerCase (Js.join ", " (firstn k fs)) in
  if Nat.ltb 0 (List.length devFonts) && Nat.ltb 0 (List.length designFonts) then
    [add ["developer fonts: " +:+ shown 2%nat devFonts +:+ ".";
          "design fonts: " +:+ shown 2%nat designFonts +:+ "."] "normal";
     add ["builds things AND makes them pretty.";
          "rare combination. high value."] "normal"]
  else if Nat.ltb 0 (List.length devFonts) then
    [add ["developer fonts detected."; shown 3%nat devFonts +:+ "."] "normal";
     add ["writes code."] "flash"]
  else if Nat.ltb 0 (List.length designFonts) then
    [add ["design fonts detected."; shown 3%nat designFonts +:+ "."] "normal";
     add ["visual professional."] "flash"]
  else if Nat.ltb 0 (List.length adobeFonts) then
    [add ["adobe creative suite fonts."; "creative professional."] "normal"]
  else if Nat.ltb 20 (List.length fontList) then
    [add [Js.intToString (Z.of_nat (List.length fontList)) +:+ " fonts installed.";
          "above average. creative field?"] "normal"]
  else [].

(** 11. profession *)
Definition professionSection : list Block :=
  let allProf := match professionAll profile with Some l => l | None => [] end in
  if Nat.ltb 0 (List.length allProf) then
    [add (map (fun p => Js.toLowerCase (label p) +:+ ". ("
                        +:+ Js.intToString (Js.round (confidence p * 100)%Q)
                        +:+ "%)")
              (firstn 3 allProf)) "normal"]
  else [].

(** 12. income *)
Definition incomeSection : list Block :=
  let est := "est. " +:+ Js.toLowerCase (estimate profile) +:+ "." in
  if String.eqb (bracket profile) "High"
     || String.eqb (bracket profile) "Upper-Middle" then
    [add [Js.toLowerCase (bracket profile) +:+ " income."; est] "normal";
     add ["premium ad inventory.";
          "luxury brands. SaaS. investment products."] "normal";
     add ["could afford to say no."; ""; "doesn't."] "linger"]
  else if String.eqb (bracket profile) "Middle" then
    [add ["middle income."; est] "normal";
     add ["volume target.";
          "discount codes. subscription trials. loyalty programs."] "normal"]
  else
    [add ["lower income bracket."; est] "normal";
     add ["cost-sensitive."; "payday loan ads. buy-now-pay-later.";
          "predatory? effective."] "normal"].

(** 13. connection *)
Definition connectionSection : list Block :=
  match connectionType d with
  | Some ct =>
      if nonEmpty ct then
        if String.eqb ct "4g" && Js.gtb (orQ (connectionDownlink d) 0) 5 then
          [add ["fast connection. " +:+ optNumToString (connectionDownlink d)
                  +:+ " mbps.";
                "serve rich media. video ads. interactive."] "normal"]
        else if String.eqb ct "4g" then
          [add [ct +:+ ". " +:+ numOrQuestion (connectionDownlink d)
                  +:+ " mbps."] "flash"]
        else if String.eqb ct "3g" || String.eqb ct "2g" then
          add ["slow connection. " +:+ ct +:+ ".";
               "text-only ads. lightweight creatives."] "normal"
          :: (if truthyB (connectionSaveData d)
              then [add ["data saver enabled. cost-conscious."] "flash"]
              else [])
        else []
      else []
  | None => []
  end.

(** [bycat.k > 0] on the category dictionary. *)
Definition catCount (bycat : gmap string Z) (k : string) : option Z :=
  match bycat !! k with
  | Some n => if 0 <? n then Some n else None
  | None => None
  end.

(** The first block of section 14: the cookie summary. *)
Definition cookieSummary (c : Cookies) : Block :=
  let pctSrc : Q :=
    match trackerPercentage c with
    | Some p => if p =? 0
                then (inject_Z (trackerCount c) / inject_Z (total c) * 100)%Q
                else inject_Z p
    | None => (inject_Z (trackerCount c) / inject_Z (total c) * 100)%Q
    end in
  add [Js.intToString (total c) +:+ " cookies found.";
       Js.intToString (trackerCount c) +:+ " belong to known trackers.";
       Js.intToString (Js.round pctSrc) +:+ "% surveillance."] "normal".

(** 14. cookie surveillance, only with extension data *)
Definition cookieSection : list Block :=
  match cookies fpData with
  | Some c =>
      if 0 <? total c then
        let bycat := match byCategory c with Some m => m | None => ∅ end in
        let top := match topTrackers c with Some l => l | None => [] end in
        let cat k suffix :=
          match catCount bycat k with
          | Some n => [Js.intToString n +:+ suffix]
          | None => []
          end in
        let breakdown :=
          cat "advertising" " advertising." ++ cat "social" " social media."
          ++ cat "data_brokers" " data brokers." in
        let topT := firstn 5 top in
        let zombies := match lifetimes c with Some l => zombie l | None => 0 end in
        let socialTrackers :=
          List.filter (fun t => String.eqb (category t) "social") top in
        let brokers :=
          List.filter (fun t => String.eqb (category t) "data_brokers") top in
        [cookieSummary c;
         add ["subject agreed to this."; "somewhere in a terms of service.";
              "subject didn't read it."] "linger"]
        ++ (if Nat.ltb 0 (List.length breakdown)
            then [add breakdown "normal"] else [])
        ++ (if Nat.ltb 0 (List.length topT)
            then [add (map (fun t => domain t +:+ ": "
                                     +:+ Js.intToString (count t) +:+ ".") topT)
                      "normal"]
            else [])
        ++ (if 0 <? zombies
            then [add [Js.intToString zombies +:+ " zombie cookies.";
                       "survive clearing. regenerate."] "normal";
                  add ["deleted cookies last week?"; ""; "they came back."] "linger"]
            else [])
        ++ (if Nat.leb 2 (List.length socialTrackers)
            then [add [Js.join ". "
                         (map (fun t => Js.replaceFirst (domain t) ".com" "")
                              socialTrackers) +:+ ".";
                       "tracking outside their platforms.";
                       "the social graph is the product."] "normal"]
            else [])
        ++ (if Nat.ltb 0 (List.length brokers)
            then [add [Js.join ". " (map domain brokers) +:+ ".";
                       "device graph company.";
                       "phone. laptop. tablet. all linked."] "linger"]
            else [])
      else []
  | None => []
  end.

(** 15. entropy and uniqueness *)
Definition entropySection : list Block :=
  let bits := totalBits scores in
  let b1 := Js.toFixed bits 1 in
  (if Js.gtb bits 50 then
     [add [b1 +:+ " bits of entropy."; "extremely unique."] "normal";
      add ["identifiable among " +:+ populationSize scores +:+ ".";
           numToString (percent scores) +:+ "%."] "normal"]
   else if Js.gtb bits 30 then
     [add [b1 +:+ " bits of entropy."; "highly unique."] "normal";
      add [numToString (percent scores) +:+ "% identifiable."] "flash"]
   else if Js.gtb bits 15 then
     [add [b1 +:+ " bits."; "moderately unique.";
           "combined with other signals: identifiable."] "normal"]
   else
     [add [b1 +:+ " bits."; "common profile.";
           "harder to single out. but not impossible."] "normal"])
  ++ [add ["canvas: unique."; "audio: unique."; "GPU: unique.";
           "every signal confirms: one subject."] "normal";
      add ["needle in a haystack?"; ""; "subject IS the needle."] "linger"].

(** 16. valuation *)
Definition valuationSection : list Block :=
  let fs := match factors scores with Some l => l | None => [] end in
  [add ["$" +:+ Js.toFixed (cpm scores) 2 +:+ " CPM.";
        "$" +:+ Js.toFixed (annualValue scores) 0 +:+ "/year."] "normal";
   add ["less than a coffee."; "but thousands of times a day."] "normal"]
  ++ (if Nat.ltb 0 (List.length fs)
      then [add (map (fun f => Js.toLowerCase (flabel f) +:+ ": "
                               +:+ Js.toLowerCase (effect f) +:+ ".")
                     (firstn 4 fs)) "normal"]
      else []).

(** 17. identification *)
Definition identificationSection : list Block :=
  let vid :=
    if truthyS (visitorId fpData) then orS (visitorId fpData) ""
    else orS (componentsVisitorId fpData) "00000000" in
  [add ["subject fully profiled."] "flash";
   add ["we gave it a name."; "it didn't choose it."] "normal";
   add ["visitor ID:"; vid] "normal";
   add ["collected in seconds."; "no permission required."] "normal"].

(** 18. ending *)
Definition endingSection : list Block :=
  [add ["classification:"; "advertising commodity."] "linger";
   add ["filed. indexed. sold."; "again and again and again."] "linger";
   add ["you can close this tab."; ""; "we already have what we need."] "linger";
   add ["you are the product."] "linger"].

(** [function buildMonolog(fpData, profile, entropy, uniqueness, pricing)]:
    the blocks in source order; [None] when section 9 throws. *)
Definition buildMonolog : option (list Block) :=
  match locationLanguage with
  | Some loc =>
      Some (opening ++ deviceDetection ++ formFactor ++ techLiteracy
            ++ browserPosture ++ hardwareDetails ++ batterySection
            ++ timeOfDay ++ loc ++ fontForensics ++ professionSection
            ++ incomeSection ++ connectionSection ++ cookieSection
            ++ entropySection ++ valuationSection
            ++ identificationSection ++ endingSection)
  | None => None
  end.

End Builder.

(** A block with the hold time that [main] attaches to it. *)
Record Timed := { block : Block; holdSec : Q }.

(** [vid.split('').reduce((a, c) => a + c.charCodeAt(0), 1)] for the
    visitor id [fpData.advanced?.visitorId || ''] (ASCII ids). *)
Fixpoint charCodeSum (acc : Z) (s : string) : Z :=
  match s with
  | EmptyString => acc
  | String c r => charCodeSum (acc + Z.of_nat (nat_of_ascii c)) r
  end.

Definition seedOf (fp : FpData) : Z :=
  charCodeSum 1 (orS (visitorId fp) "").

(** [for (let i = 0; i < blocks.length; i++)
       blocks[i].holdSec = scaredTiming(i, blocks.length,
                                        blocks[i].lines.length,
                                        blocks[i].importance);] *)
Fixpoint applyTimingFrom (i total : Z) (bs : list Block) (seed : Z)
  : list Timed * Z :=
  match bs with
  | [] => ([], seed)
  | b :: rest =>
      let '(h, seed1) :=
        V4Timing.scaredTiming i total (Z.of_nat (List.length (lines b)))
                              (importance b) seed in
      let '(ts, seed2) := applyTimingFrom (i + 1) total rest seed1 in
      ({| block := b; holdSec := h |} :: ts, seed2)
  end.

Definition applyTiming (bs : list Block) (seed : Z) : list Timed * Z :=
  applyTimingFrom 0 (Z.of_nat (List.length bs)) bs seed.

(** The schedule of one v4 run: [buildMonolog], [srand(seed)], then the
    hold times.  [prior] is the generator's state before the run;
    the result carries the generator's state after it. *)
Definition scheduleWith (host : Host) (fp : FpData) (p : Profile)
           (sc : Scores) (seed : Z) (prior : Z) : option (list Timed * Z) :=
  match buildMonolog host fp p sc with
  | Some blocks =>
      let s := Rng.srand seed prior in
      Some (applyTiming blocks s)
  | None => None
  end.

(** [main] seeds the generator from the visitor id. *)
Definition schedule (host : Host) (fp : FpData) (p : Profile) (sc : Scores)
           (prior : Z) : option (list Timed * Z) :=
  scheduleWith host fp p sc (seedOf fp) prior.

(** The host with another clock for [getMinutes]. *)
Definition withMinutes (h : Host) (clock : Z -> Z) : Host :=
  {| reAppleChip := reAppleChip h; reNvidia := reNvidia h; reAmd := reAmd h;
     reRtxHigh := reRtxHigh h; dateParse := dateParse h;
     getMinutes := clock; fracToString := fracToString h |}.

(** What the timeline reads of a block: its line count and its tag. *)
Definition blockShape (b : Block) : nat * string :=
  (List.length (lines b), importance b).

(** ... and of a timed block: with its hold. *)
Definition timedShape (t : Timed) : nat * string * Q :=
  (List.length (lines (block t)), importance (block t), holdSec t).

Definition scheduleShape (r : option (list Timed * Z))
  : option (list (nat * string * Q) * Z) :=
  option_map (fun '(ts, s) => (map timedShape ts, s)) r.

(** The block of the specification's example scenario. *)
Definition summaryBlock4012 : Block :=
  {| lines := ["40 cookies found."; "12 belong to known trackers.";
               "30% surveillance."];
     importance := "normal" |}.

End Monolog.

(** ** The frame timeline ([main] of v1, v2 and v4)

    The three variants run the same timing loop over their block list;
    only [BLOCK_BLACK] differs. *)

Module Timeline.

Definition FPS : Z := 30.

(** The tail of black frames: [totalFrames += 30]. *)
Definition TAIL : Z := 30.

Record Consts := {
  LINE_FADE : Z;   (* frames to fade in a line *)
  LINE_GAP : Z;    (* frames between lines appearing *)
  BLOCK_BLACK : Z; (* black frames between blocks *)
  FADE_OUT : Z     (* frames to fade out a block *)
}.

Definition v1 : Consts :=
  {| LINE_FADE := 8; LINE_GAP := 6; BLOCK_BLACK := 12; FADE_OUT := 10 |}.
Definition v2 : Consts :=
  {| LINE_FADE := 8; LINE_GAP := 6; BLOCK_BLACK := 12; FADE_OUT := 10 |}.
Definition v4 : Consts :=
  {| LINE_FADE := 8; LINE_GAP := 6; BLOCK_BLACK := 8; FADE_OUT := 10 |}.

(** What the loop reads of a block: its lines and its hold in seconds
    ([block.hold] in v1 and v2, [block.holdSec] in v4). *)
Record Block := { lines : list string; hold : Q }.

Definition ofTimed (t : Monolog.Timed) : Block :=
  {| lines := Monolog.lines (Monolog.block t); hold := Monolog.holdSec t |}.

(** An entry of [blockTimings]. *)
Record Timing := {
  start : Z; duration : Z; linesFrames : Z; holdFrames : Z
}.

Section Loop.
Context (c : Consts).

Definition linesFramesOf (b : Block) : Z :=
  Z.of_nat (List.length (lines b)) * LINE_GAP c + LINE_FADE c.

Definition holdFramesOf (b : Block) : Z :=
  Js.round (hold b * inject_Z FPS)%Q.

Definition blockDuration (b : Block) : Z :=
  linesFramesOf b + holdFramesOf b + FADE_OUT c + BLOCK_BLACK c.

(** [{ start: totalFrames, duration: blockDuration, linesFrames, holdFrames }] *)
Definition timingOf (totalFrames : Z) (b : Block) : Timing :=
  {| start := totalFrames; duration := blockDuration b;
     linesFrames := linesFramesOf b; holdFrames := holdFramesOf b |}.

(** The loop from the running [totalFrames]:
    [blockTimings.push(...); totalFrames += blockDuration]. *)
Fixpoint timingsFrom (totalFrames : Z) (blocks : list Block)
  : list Timing * Z :=
  match blocks with
  | [] => ([], totalFrames)
  | b :: rest =>
      let '(ts, total) := timingsFrom (totalFrames + blockDuration b) rest in
      (timingOf totalFrames b :: ts, total)
  end.

Definition blockTimings (blocks : list Block) : list Timing :=
  fst (timingsFrom 0 blocks).

(** [totalFrames] after the loop and [totalFrames += 30]. *)
Definition totalFrames (blocks : list Block) : Z :=
  snd (timingsFrom 0 blocks) + TAIL.

End Loop.

(** [f = gf - bt.start; if (f < 0 || f >= bt.duration) continue;]
    negated: the block's interval holds the frame. *)
Definition covers (t : Timing) (gf : Z) : bool :=
  let f := gf - start t in
  negb ((f <? 0) || (duration t <=? f)).

(** The rasterizer's scan over [blockTimings]: the index of the first
    block whose interval holds the global frame (the block it draws
    unless its alpha has faded to 0). *)
Fixpoint activeFrom (bi : nat) (ts : list Timing) (gf : Z) : option nat :=
  match ts with
  | [] => None
  | t :: rest => if covers t gf then Some bi else activeFrom (S bi) rest gf
  end.

Definition active (ts : list Timing) (gf : Z) : option nat :=
  activeFrom 0 ts gf.

Definition sumDurations (ts : list Timing) : Z :=
  fold_right (fun t acc => duration t + acc) 0 ts.

(** The claim as the specification words it: every frame of
    [0, totalFrames) lies in the interval of some block. *)
Definition everyFrameInABlock (c : Consts) (blocks : list Block) : Prop :=
  forall f, 0 <= f < totalFrames c blocks ->
            exists i t, blockTimings c blocks !! i = Some t /\ covers t f = true.

(** The first two blocks of a v2 monolog. *)
Definition v2Opening : list Block :=
  [{| lines := ["scanning."]; hold := 0.7 |};
   {| lines := ["macos 14."; "m1."; "premium device."]; hold := 1.0 |}].

(** The v4 frame timings of a schedule, with the frame total. *)
Definition v4Frames (r : option (list Monolog.Timed * Z))
  : option (list Timing * Z) :=
  option_map (fun '(ts, _) =>
                (blockTimings v4 (map ofTimed ts),
                 totalFrames v4 (map ofTimed ts))) r.

End Timeline.

(** ** The procedural world (the browser VideoRenderer module)

    The module keeps [seed], [nodes], [connections], [particles] and
    [rings] in module-level variables; [World] is that store. *)

Module World.

Definition W : Q := 1920.
Definition H : Q := 1080.
Definition CX : Q := (W / 2)%Q.
Definition CY : Q := (H / 2)%Q.

(** [Math.cos], [Math.sin], [Math.sqrt], [Math.PI]. *)
Record Trig := {
  cos : Q -> Q; sin : Q -> Q; sqrt : Q -> Q; PI : Q
}.

Record Node := {
  x : Q; y : Q; r : Q; bits : Q; label : string;
  orbit : Q; angle : Q; speed : Q; base : bool
}.

Record Connection := { a : nat; b : nat; dist : Q }.

Record Ring := { radius : Q; width : Q; rspeed : Q }.

Record Particle := {
  px : Q; py : Q; vx : Q; vy : Q; pr : Q; life : Q
}.

Record World := {
  seed : Z;
  nodes : list Node;
  connections : list Connection;
  particles : list Particle;
  rings : list Ring
}.

(** An entry of [entropy.contributions]. *)
Record Contribution := { cbits : Q; clabel : string; present : bool }.

Record Entropy := {
  contributions : option (list Contribution);
  totalBits : Q
}.

(** Computations that draw from the module's generator. *)
Definition Gen (A : Type) : Type := Z -> A * Z.

Definition ret {A} (v : A) : Gen A := fun s => (v, s).
Definition bind {A B} (m : Gen A) (k : A -> Gen B) : Gen B :=
  fun s => let '(v, s') := m s in k v s'.
Definition rng : Gen Q := Rng.rng.

Notation "'let*' x ':=' m 'in' k" := (bind m (fun x => k))
  (at level 10, x pattern, m at level 100, k at level 200).

(** A [for] loop over the elements of a list that pushes one result per
    element. *)
Fixpoint forEach {A B} (f : A -> Gen B) (xs : list A) : Gen (list B) :=
  match xs with
  | [] => ret []
  | v :: rest =>
      let* y := f v in
      let* ys := forEach f rest in
      ret (y :: ys)
  end.

(** A loop that pushes only for the elements that pass a drawn test. *)
Fixpoint forFilter {A B} (f : A -> Gen (option B)) (xs : list A)
  : Gen (list B) :=
  match xs with
  | [] => ret []
  | v :: rest =>
      let* y := f v in
      let* ys := forFilter f rest in
      ret (match y with Some w => w :: ys | None => ys end)
  end.

Section WithTrig.
Context (trig : Trig).

(** [Math.max(...contribs.map(c => c.bits), 1)] *)
Definition maxBitsOf (contribs : list Contribution) : Q :=
  fold_right (fun c acc => Js.max (cbits c) acc) 1%Q contribs.

(** The central node. *)
Definition centerNode (e : Entropy) : Node :=
  {| x := CX; y := CY; r := 6; bits := totalBits e; label := "";
     orbit := 0; angle := 0; speed := 0; base := true |}.

(** The body of the loop over the present contributions. *)
Definition dataNode (n : nat) (maxBits : Q) (ic : nat * Contribution)
  : Gen Node :=
  let '(i, c) := ic in
  let layer := Z.of_nat (i / 4) in
  let inLayer :=
    (inject_Z (Z.of_nat (i mod 4)) + (if 0 <? layer then 0.5 else 0))%Q in
  let count := Z.min (4 + layer) (Z.of_nat n - layer * 4) in
  let angle :=
    (inLayer / inject_Z (Z.max count 4) * PI trig * 2
     + inject_Z layer * 0.4)%Q in
  let dist :=
    (140 + inject_Z layer * 130 + cbits c / maxBits * 60)%Q in
  let r := (2 + cbits c / maxBits * 5)%Q in
  let* u := rng in
  ret {| x := (CX + cos trig angle * dist)%Q;
         y := (CY + sin trig angle * dist)%Q;
         r := r; bits := cbits c; label := clabel c;
         orbit := dist; angle := angle;
         speed := (0.002 + u * 0.004)%Q; base := false |}.

(** The body of the loop over the 30 ambient nodes. *)
Definition ambientNode (_ : nat) : Gen Node :=
  let* u1 := rng in
  let angle := (u1 * PI trig * 2)%Q in
  let* u2 := rng in
  let dist := (80 + u2 * 420)%Q in
  let* u3 := rng in
  let* u4 := rng in
  ret {| x := (CX + cos trig angle * dist)%Q;
         y := (CY + sin trig angle * dist)%Q;
         r := (0.5 + u3 * 1.5)%Q; bits := 0; label := "";
         orbit := dist; angle := angle;
         speed := (0.001 + u4 * 0.005)%Q; base := false |}.

(** The index pairs [i < j] in the order of the nested loops. *)
Definition pairs (n : nat) : list (nat * nat) :=
  flat_map (fun i => map (fun j => (i, j)) (seq (S i) (n - S i))) (seq 0 n).

(** The body of the connection loops; [rng()] is drawn only when the
    pair is near and neither endpoint carries bits. *)
Definition connect (ns : list Node) (ij : nat * nat)
  : Gen (option Connection) :=
  let '(i, j) := ij in
  match ns !! i, ns !! j with
  | Some ni, Some nj =>
      let dx := (x ni - x nj)%Q in
      let dy := (y ni - y nj)%Q in
      let d := sqrt trig (dx * dx + dy * dy)%Q in
      if Js.ltb d 220 then
        if Js.gtb (bits ni) 0 || Js.gtb (bits nj) 0 then
          ret (Some {| a := i; b := j; dist := d |})
        else
          let* u := rng in
          ret (if Js.gtb u 0.7
               then Some {| a := i; b := j; dist := d |} else None)
      else ret None
  | _, _ => ret None
  end.

Definition initialRings : list Ring :=
  [{| radius := 140; width := 0.5; rspeed := 0.003 |};
   {| radius := 270; width := 0.3; rspeed := -0.002 |};
   {| radius := 400; width := 0.2; rspeed := 0.001 |}].

(** The body of the loop over the 60 particles. *)
Definition particle (_ : nat) : Gen Particle :=
  let* u1 := rng in
  let* u2 := rng in
  let* u3 := rng in
  let* u4 := rng in
  let* u5 := rng in
  let* u6 := rng in
  ret {| px := (u1 * W)%Q; py := (u2 * H)%Q;
         vx := ((u3 - 0.5) * 0.5)%Q; vy := ((u4 - 0.5) * 0.5)%Q;
         pr := (0.5 + u5 * 1.5)%Q; life := u6 |}.

(** [function generateNetwork(data, entropy)]: resets the seed and
    the four arrays, then fills them. *)
Definition generateNetwork (entropy : Entropy) (prior : World) : World :=
  let seed0 := 42 in
  let contribs :=
    List.filter (fun c => present c)
           (match contributions entropy with Some l => l | None => [] end) in
  let maxBits := maxBitsOf contribs in
  let n := List.length contribs in
  let '(dataNodes, seed1) :=
    forEach (dataNode n maxBits) (combine (seq 0 n) contribs) seed0 in
  let '(ambient, seed2) := forEach ambientNode (seq 0 30) seed1 in
  let ns := centerNode entropy :: dataNodes ++ ambient in
  let '(conns, seed3) :=
    forFilter (connect ns) (pairs (List.length ns)) seed2 in
  let '(ps, seed4) := forEach particle (seq 0 60) seed3 in
  {| seed := seed4; nodes := ns; connections := conns;
     particles := ps; rings := initialRings |}.

(** The body of the node loop of [updateNodes]. *)
Definition moveNode (n : Node) : Node :=
  let angle' := (angle n + speed n)%Q in
  {| x := (CX + cos trig angle' * orbit n)%Q;
     y := (CY + sin trig angle' * orbit n)%Q;
     r := r n; bits := bits n; label := label n;
     orbit := orbit n; angle := angle'; speed := speed n;
     base := base n |}.

(** [if (p.x < 0) p.x = W; if (p.x > W) p.x = 0;] *)
Definition wrap (v bound : Q) : Q :=
  let v1 := if Js.ltb v 0 then bound else v in
  if Js.gtb v1 bound then 0%Q else v1.

(** The body of the particle loop of [updateNodes]. *)
Definition moveParticle (p : Particle) : Particle :=
  {| px := wrap (px p + vx p)%Q W; py := wrap (py p + vy p)%Q H;
     vx := vx p; vy := vy p; pr := pr p;
     life := (life p + 0.003)%Q |}.

(** [function updateNodes(t)]: the node loop starts at index 1. *)
Definition updateNodes (w : World) : World :=
  {| seed := seed w;
     nodes := match nodes w with
              | [] => []
              | n0 :: rest => n0 :: map moveNode rest
              end;
     connections := connections w;
     particles := map moveParticle (particles w);
     rings := rings w |}.

End WithTrig.

(** What [updateNodes] never writes: of a node, and of a particle. *)
Definition staticPart (n : Node) : Q * Q * string * Q * Q * bool :=
  (r n, bits n, label n, orbit n, speed n, base n).

Definition particleStatic (p : Particle) : Q * Q * Q :=
  (vx p, vy p, pr p).

(** The present contributions, one data node each. *)
Definition presentContribs (e : Entropy) : list Contribution :=
  List.filter (fun c => present c)
              (match contributions e with Some l => l | None => [] end).

End World.

(** ** The frame loop and the encoder's input channel (v1, v2, v4)

    [ffmpeg.stdin.write(buf)] hands the buffer to the stream and reports
    whether more may be written at once; after a [false] the loop awaits
    the stream's ['drain'] event. *)

Module Pipe.

Section WithFrames.
(** The pixel buffer and the rasterizer: [canvas.toBuffer('raw')]
    after painting global frame [gf]. *)
Context {Frame : Type} (paint : Z -> Frame).

(** The encoder's input channel.  [write] queues the buffer and
    answers [canWrite]; [drain] is the channel once ['drain'] has
    fired, or [None] when the event never comes (the encoder has
    stopped reading, or has gone). *)
Record Channel := {
  chan : Type;
  write : chan -> Frame -> chan * bool;
  drain : chan -> option chan
}.

(** How the loop ends: behind the last frame, or suspended for good in
    [await new Promise(resolve => ffmpeg.stdin.once('drain', resolve))]. *)
Inductive Outcome (C : Type) :=
| Finished (c : C)
| Suspended (c : C).

Definition finished {C} (o : Outcome C) : bool :=
match o with Finished _ _ => true | Suspended _ _ => false end.

Definition stateOf {C} (o : Outcome C) : C :=
match o with Finished _ c => c | Suspended _ c => c end.

(** The iterations of [for (let gf = 0; gf < totalFrames; gf++)]
    that remain: paint, write, and await the drain on a refusal. *)
Fixpoint loopFrom (ch : Channel) (frames : list Z) (c : chan ch)
  : Outcome (chan ch) :=
match frames with
| [] => Finished _ c
| gf :: rest =>
    let buf := paint gf in
    let '(c1, canWrite) := write ch c buf in
    if canWrite then loopFrom ch rest c1
    else
      match drain ch c1 with
      | Some c2 => loopFrom ch rest c2
      | None => Suspended _ c1
      end
end.

(** The global frame indices [0 .. totalFrames - 1]. *)
Definition frameIndices (totalFrames : Z) : list Z :=
  map Z.of_nat (seq 0 (Z.to_nat totalFrames)).

Definition frameLoop (ch : Channel) (totalFrames : Z) (c : chan ch)
  : Outcome (chan ch) :=
  loopFrom ch (frameIndices totalFrames) c.

(** What a channel sees of its caller: each write with the answer it
    gave, and each drain that the caller awaited and that fired. *)
Inductive Call :=
| Write (buf : Frame) (canWrite : bool)
| Drain.

(** The channel [ch] with the log of the calls made on it. *)
Definition logged (ch : Channel) : Channel :=
  {| chan := chan ch * list Call;
     write := fun s buf =>
                let '(c1, canWrite) := write ch (fst s) buf in
                ((c1, snd s ++ [Write buf canWrite]), canWrite);
     drain := fun s =>
                match drain ch (fst s) with
                | Some c2 => Some (c2, snd s ++ [Drain])
                | None => None
                end |}.

(** The buffers handed to the channel, in the order of the writes. *)
Fixpoint written (l : list Call) : list Frame :=
  match l with
  | [] => []
  | Write buf _ :: rest => buf :: written rest
  | Drain :: rest => written rest
  end.

Definition noDrainFirst (l : list Call) : bool :=
  match l with Drain :: _ => false | _ => true end.

(** Between a refused write and the next write the drain fired (or
    the log ends at the refused write), and no drain was awaited
    anywhere else. *)
Fixpoint paced (l : list Call) : bool :=
  match l with
  | [] => true
  | Write _ true :: rest => noDrainFirst rest && paced rest
  | Write _ false :: rest =>
      match rest with
      | [] => true
      | Drain :: rest' => noDrainFirst rest' && paced rest'
      | Write _ _ :: _ => false
      end
  | Drain :: _ => false
  end.

(** The log ends at a refused write. *)
Definition endsRefused (l : list Call) : bool :=
  match last l with Some (Write _ false) => true | _ => false end.

(** A channel on which every awaited drain arrives. *)
Definition live (ch : Channel) : Prop :=
  forall c, drain ch c <> None.

(** The claim as the specification words it: on every channel the
    loop hands over every frame. *)
Definition submitsEveryFrame : Prop :=
  forall (ch : Channel) (totalFrames : Z) (c : chan ch),
    written (snd (stateOf (frameLoop (logged ch) totalFrames (c, []))))
    = map paint (frameIndices totalFrames).

(** A Node.js writable stream feeding the encoder: [write] appends the
    buffer to the stream's queue and answers whether the queue is still
    below the high-water mark; by the time ['drain'] fires the encoder
    has read the queue. *)
Record Stream := { pending : list Frame; received : list Frame }.

Definition nodeStream (highWaterMark : nat) : Channel :=
  {| chan := Stream;
     write := fun c buf =>
                let q := pending c ++ [buf] in
                ({| pending := q; received := received c |},
                 Nat.ltb (List.length q) highWaterMark);
     drain := fun c =>
                Some {| pending := []; received := received c ++ pending c |} |}.

(** What the encoder has read once [ffmpeg.stdin.end()] has flushed the
    queue. *)
Definition encoderInput (c : Stream) : list Frame :=
  received c ++ pending c.

(** The channel of the specification's example: it accepts a write
    only every other call, and always drains. *)
Definition everyOther : Channel :=
  {| chan := nat;
     write := fun n _ => (S n, Nat.even n);
     drain := fun n => Some n |}.

(** A channel whose reader has stopped: it refuses every write and
    never drains. *)
Definition stuck : Channel :=
  {| chan := unit;
     write := fun c _ => (c, false);
     drain := fun _ => None |}.

End WithFrames.

End Pipe.

(** ** The render pipeline around the encoder ([main] of v1, v2, v4)

    The file system is a map from paths to contents; each external
    process is given by what it did on this run. *)

Module Render.

Definition Bytes := string.
Abbreviation FS := (gmap string Bytes).

(** How [main] ends: normally, or with status 1 behind the message of
    an error: through [main().catch] and [process.exit(1)], or on an
    error that nothing catches (an ['error'] event without a listener),
    which the runtime prints before it ends the process. *)
Inductive Exit := Done | Failed (msg : string).

(** The run of the spawned [ffmpeg], by the event that the program
    meets first.  [Closed]: the process reads the frames to the end of
    its input and exits: the ['close'] event with its exit code ([None]
    is [null]), the collected stderr and what the process left at its
    output path ([None]: the path was not touched).  [Broke]: the
    process exits while the frame loop is still writing, and a write to
    [ffmpeg.stdin] fails on the closed pipe.  [SpawnError]: the
    ['error'] event of a process that could not be started. *)
Inductive EncodeResult :=
| Closed (code : option Z) (stderr : string) (wrote : option Bytes)
| Broke (code : option Z) (stderr : string) (wrote : option Bytes)
| SpawnError (msg : string).


Definition stderrOf (r : EncodeResult) : string :=
  match r with
  | Closed _ e _ => e
  | Broke _ e _ => e
  | SpawnError _ => ""
  end.

(** The effect of a process that may have written [path]. *)
Definition applyWrote (path : string) (wrote : option Bytes) (fs : FS) : FS :=
  match wrote with Some b => <[path := b]> fs | None => fs end.

Definition encodeEffect (path : string) (r : EncodeResult) (fs : FS) : FS :=
  match r with
  | Closed _ _ wrote => applyWrote path wrote fs
  | Broke _ _ wrote => applyWrote path wrote fs
  | SpawnError _ => fs
  end.

(** [s.slice(-n)] *)
Definition sliceLast (n : nat) (s : string) : string :=
  String.substring (String.length s - n) n s.

Definition codeToString (code : option Z) : string :=
  match code with Some z => Js.intToString z | None => "null" end.

Definition newline : string := String (ascii_of_nat 10) EmptyString.

(** The frame loop's writes to [ffmpeg.stdin]: [None] when the loop
    runs to its end; when a write hits the pipe of an encoder that has
    exited, the stream emits ['error'] (write EPIPE), and as no variant
    listens for it on [ffmpeg.stdin] the error is thrown where nothing
    catches it: the message with which the process dies, before
    [await ffmpegDone] is reached. *)
Definition frameWrites (r : EncodeResult) : option string :=
  match r with
  | Broke _ _ _ => Some "write EPIPE"
  | _ => None
  end.

(** [await ffmpegDone], behind the frame loop: [None] when it resolves,
    the message of the rejection otherwise. *)
Definition awaitEncode (prefix : string) (tail : nat) (r : EncodeResult)
  : option string :=
  match r with
  | Closed (Some 0) _ _ | Broke (Some 0) _ _ => None
  | Closed code err _ | Broke code err _ =>
      Some (prefix +:+ codeToString code +:+ newline +:+ sliceLast tail err)
  | SpawnError msg => Some msg
  end.

(** [fs.statSync(path)] throws when the path does not exist. *)
Definition statSync (path : string) (fs : FS) : Exit :=
  match fs !! path with
  | Some _ => Done
  | None => Failed ("ENOENT: no such file or directory, stat '" +:+ path +:+ "'")
  end.

(** [fs.renameSync(src, dst)]: [None] when it throws. *)
Definition renameSync (src dst : string) (fs : FS) : option FS :=
  match fs !! src with
  | Some b => Some (<[dst := b]> (delete src fs))
  | None => None
  end.

(** [try { fs.unlinkSync(p); } catch(e) {}] *)
Definition unlinkQuiet (p : string) (fs : FS) : FS := delete p fs.

(** [outputPath.replace(/\.mp4$/, suffix)] *)
Definition replaceMp4 (outputPath suffix : string) : string :=
  if Js.endsWith outputPath ".mp4"
  then String.substring 0 (String.length outputPath - 4) outputPath +:+ suffix
  else outputPath.

Definition silentPathOf (outputPath : string) : string :=
  replaceMp4 outputPath "_silent.mp4".

Definition audioPathOf (outputPath : string) : string :=
  replaceMp4 outputPath ".wav".


(** The run of the muxing [ffmpeg]: the merged file, or a throw of
    [execSync] (non-zero exit or timeout) with what it left at the
    output path. *)
Inductive MuxResult :=
| MuxOk (merged : Bytes)
| MuxFail (wrote : option Bytes).

(** The [catch] of the audio step: fall back to the silent video. *)
Definition fallbackToSilent (silentPath outputPath : string) (fs : FS) : FS :=
  match renameSync silentPath outputPath fs with
  | Some fs' => fs'
  | None => fs
  end.

(** *** v2 (render-cli-v2.js) *)

(** What the sonifier and the muxer did on this run. *)
Record V2Env := {
  encode2 : EncodeResult;
  (** [execSync(img2sound ...)]: whether it returned, and the file
      system afterwards *)
  sonify : FS -> bool * FS;
  (** the scan for the newest additive wav: [None] when the scan
      throws, [Some None] when no wav is found *)
  wavSearch : FS -> option (option string);
  mux2 : FS -> string -> string -> MuxResult
}.

(** The [try] block of the sonification; [false] when it throws. *)
Definition v2Try (env : V2Env) (silentPath outputPath : string) (fs : FS)
  : FS * bool :=
  match sonify env fs with
  | (false, fsS) => (fsS, false)
  | (true, fsS) =>
      match wavSearch env fsS with
      | None => (fsS, false)
      | Some w =>
          let found :=
            match w with
            | Some wavPath =>
                match fsS !! wavPath with Some _ => Some wavPath | None => None end
            | None => None
            end in
          match found with
          | Some wavPath =>
              match mux2 env fsS silentPath wavPath with
              | MuxOk merged =>
                  (unlinkQuiet silentPath (<[outputPath := merged]> fsS), true)
              | MuxFail wrote => (applyWrote outputPath wrote fsS, false)
              end
          | None =>
              match renameSync silentPath outputPath fsS with
              | Some fs' => (fs', true)
              | None => (fsS, false)
              end
          end
      end
  end.

Definition v2Main (env : V2Env) (fs : FS) (outputPath : string) : Exit * FS :=
  let silentPath := silentPathOf outputPath in
  let fs1 := encodeEffect silentPath (encode2 env) fs in
  match frameWrites (encode2 env) with
  | Some e => (Failed e, fs1)
  | None =>
      match awaitEncode "ffmpeg exited with code " 500 (encode2 env) with
      | Some msg => (Failed msg, fs1)
      | None =>
          let '(fs2, ok) := v2Try env silentPath outputPath fs1 in
          let fs3 := if ok then fs2
                     else fallbackToSilent silentPath outputPath fs2 in
          (statSync outputPath fs3, fs3)
      end
  end.

(** *** v4 (render-cli-v4.js) *)

(** The run of [generateAudio]: the WAV that [fs.writeFileSync] stored
    at the audio path, or the error that the call threw. *)
Inductive AudioResult :=
| AudioWritten (wav : Bytes)
| AudioThrows (msg : string).

Record V4Env := {
  audioWrite : AudioResult;
  encode4 : EncodeResult;
  mux4 : FS -> string -> string -> MuxResult;
  (** the optional [img2sound] pass over the finished file, inside its
      own [try]/[catch]; [None] when the tool is not installed *)
  img2sound : option (FS -> FS)
}.

Definition v4Main (env : V4Env) (fs : FS) (outputPath : string) : Exit * FS :=
  let audioPath := audioPathOf outputPath in
  match audioWrite env with
  | AudioThrows msg => (Failed msg, fs)
  | AudioWritten wav =>
      let fs0 := <[audioPath := wav]> fs in
      let silentPath := silentPathOf outputPath in
      let fs1 := encodeEffect silentPath (encode4 env) fs0 in
      match frameWrites (encode4 env) with
      | Some e => (Failed e, fs1)
      | None =>
          match awaitEncode "ffmpeg: " 300 (encode4 env) with
          | Some msg => (Failed msg, fs1)
          | None =>
              let fs2 :=
                match mux4 env fs1 silentPath audioPath with
                | MuxOk merged =>
                    unlinkQuiet silentPath (<[outputPath := merged]> fs1)
                | MuxFail wrote =>
                    fallbackToSilent silentPath outputPath
                                     (applyWrote outputPath wrote fs1)
                end in
              let fs3 := match img2sound env with
                         | Some f => f fs2
                         | None => fs2
                         end in
              (statSync outputPath fs3, fs3)
          end
      end
  end.





(** The ways in which v2's audio step yields no merged file: the
    sonifier throws (fails or times out), the scan for its wav throws or
    finds none, the wav is missing, or the mux throws. *)
Definition audioStepFails2 (env : V2Env) (silent : string) (fs1 : FS) : Prop :=
  let fsS := snd (sonify env fs1) in
  fst (sonify env fs1) = false
  \/ wavSearch env fsS = None
  \/ wavSearch env fsS = Some None
  \/ exists wavPath,
       wavSearch env fsS = Some (Some wavPath)
       /\ (fsS !! wavPath = None
           \/ exists w, mux2 env fsS silent wavPath = MuxFail w).

(** A v2 run whose sonifier throws after a good encode. *)
Definition v2SonifierThrows : V2Env :=
  {| encode2 := Closed (Some 0) "" (Some "video");
     sonify := fun fs => (false, fs);
     wavSearch := fun _ => Some None;
     mux2 := fun _ _ _ => MuxOk "merged" |}.

(** A v4 run whose [generateAudio] throws while writing the WAV; the
    encoder and the muxer would both succeed. *)
Definition v4SynthesisThrows : V4Env :=
  {| audioWrite := AudioThrows "EISDIR: illegal operation on a directory, open 'out.wav'";
     encode4 := Closed (Some 0) "" (Some "video");
     mux4 := fun _ _ _ => MuxOk "merged";
     img2sound := None |}.

End Render.

(** ** The cookie analyzer (extension/js/cookies.js) *)

Module CookieAnalyzer.

(** A cookie as [chrome.cookies.getAll] returns it, with the fields that
    [analyze] reads. *)
Record Cookie := {
domain : string;
session : bool;
expirationDate : option Q
}.

Record TrackerCookie := { cookie : Cookie; trackerCategory : string }.

Record Lifetimes := {
lsession : Z; shortLived : Z; persistent : Z; zombie : Z
}.

Record TopTracker := { tdomain : string; tcount : Z; tcategory : string }.

(** The object that [analyze] returns. *)
Record Analysis := {
total : Z;
trackerCount : Z;
firstPartyCount : Z;
thirdPartyCount : Z;
uniqueDomains : Z;
byCategory : gmap string Z;
lifetimes : Lifetimes;
topTrackers : list TopTracker;
trackerPercentage : Z;
summary : list string
}.

(** The locals of [analyze] that its first loop updates. *)
Record Acc := {
trackerCookies : list TrackerCookie;
firstParty : list Cookie;
thirdParty : list Cookie;
byDomain : gmap string (list Cookie);
accCategory : gmap string Z;
accLifetimes : Lifetimes
}.

(** [cookie.domain.replace(/^\./, '')] *)
Definition stripDot (s : string) : string :=
match s with
| String c rest => if Ascii.eqb c "."%char then rest else s
| EmptyString => s
end.

Definition initialCategory : gmap string Z :=
<["advertising" := 0]> (<["analytics" := 0]> (<["social" := 0]>
(<["data_brokers" := 0]> (<["fingerprinting" := 0]>
(<["consent_management" := 0]> (<["unknown" := 0]> ∅)))))).

Definition initialAcc : Acc :=
{| trackerCookies := []; firstParty := []; thirdParty := [];
   byDomain := ∅; accCategory := initialCategory;
   accLifetimes := {| lsession := 0; shortLived := 0; persistent := 0; zombie := 0 |} |}.

(** [(m[k] || 0) + 1] stored back under [k]. *)
Definition bump (k : string) (m : gmap string Z) : gmap string Z :=
<[k := match m !! k with Some n => n + 1 | None => 1 end]> m.

(** The dictionary [trackerDomains] in insertion order, which is the
    order of [Object.entries] for host names: [{ count, category }]. *)
Fixpoint countDomain (d cat : string) (l : list TopTracker) : list TopTracker :=
match l with
| [] => [{| tdomain := d; tcount := 1; tcategory := cat |}]
| t :: rest =>
    if String.eqb (tdomain t) d
    then {| tdomain := tdomain t; tcount := tcount t + 1;
            tcategory := tcategory t |} :: rest
    else t :: countDomain d cat rest
end.

(** A stable sort by descending count: [.sort((a, b) => b.count - a.count)];
    an entry goes in front of the later entries that do not outrank it. *)
Fixpoint insertByCount (t : TopTracker) (l : list TopTracker) : list TopTracker :=
match l with
| [] => [t]
| u :: rest =>
    if tcount u <=? tcount t then t :: l else u :: insertByCount t rest
end.

Definition sortByCount (l : list TopTracker) : list TopTracker :=
fold_right insertByCount [] l.

Section Analyze.
(** [getTrackerCategory] of js/trackers.js: the category of a known
    tracker domain, [None] for any other domain. *)
Context (getTrackerCategory : string -> option string).
(** [Date.now() / 1000] *)
Context (now : Q).

Definition lifetimeStep (c : Cookie) (l : Lifetimes) : Lifetimes :=
if session c then
  {| lsession := lsession l + 1; shortLived := shortLived l;
     persistent := persistent l; zombie := zombie l |}
else
  match expirationDate c with
  | Some e =>
      if Qeq_bool e 0 then l
      else
        let daysUntilExpiry := ((e - now) / 86400)%Q in
        if Js.ltb daysUntilExpiry 1 then
          {| lsession := lsession l; shortLived := shortLived l + 1;
             persistent := persistent l; zombie := zombie l |}
        else if Js.gtb daysUntilExpiry 365 then
          {| lsession := lsession l; shortLived := shortLived l;
             persistent := persistent l; zombie := zombie l + 1 |}
        else
          {| lsession := lsession l; shortLived := shortLived l;
             persistent := persistent l + 1; zombie := zombie l |}
  | None => l
  end.

(** The names that a plain object inherits from [Object.prototype]:
    under such a key [byDomain[domain]] is a function (for [__proto__]
    the prototype itself) and never [undefined], although the object
    holds no entry of its own. *)
Definition inherited (k : string) : bool :=
Js.inList k ["constructor"; "__defineGetter__"; "__defineSetter__";
             "hasOwnProperty"; "__lookupGetter__"; "__lookupSetter__";
             "isPrototypeOf"; "propertyIsEnumerable"; "toString";
             "valueOf"; "__proto__"; "toLocaleString"].

(** The updates of one iteration for a domain under which [byDomain]
    holds an array or nothing. *)
Definition tally (acc : Acc) (c : Cookie) : Acc :=
let dom := stripDot (domain c) in
let byDomain' :=
  <[dom := match byDomain acc !! dom with
           | Some l => l ++ [c]
           | None => [c]
           end]> (byDomain acc) in
match getTrackerCategory dom with
| Some category =>
    {| trackerCookies :=
         trackerCookies acc ++ [{| cookie := c; trackerCategory := category |}];
       firstParty := firstParty acc;
       thirdParty := thirdParty acc ++ [c];
       byDomain := byDomain';
       accCategory := bump category (accCategory acc);
       accLifetimes := lifetimeStep c (accLifetimes acc) |}
| None =>
    {| trackerCookies := trackerCookies acc;
       firstParty := firstParty acc ++ [c];
       thirdParty := thirdParty acc;
       byDomain := byDomain';
       accCategory := bump "unknown" (accCategory acc);
       accLifetimes := lifetimeStep c (accLifetimes acc) |}
end.

(** The body of [for (const cookie of cookies)]: [None] is the
    TypeError of [byDomain[domain].push(cookie)] under an inherited
    key, where [if (!byDomain[domain])] finds a value, stores no array,
    and [push] is not a function. *)
Definition step (acc : Acc) (c : Cookie) : option Acc :=
if inherited (stripDot (domain c)) then None else Some (tally acc c).

(** The loop over the cookies, left at the first throw. *)
Fixpoint loop (cookies : list Cookie) (acc : Acc) : option Acc :=
match cookies with
| [] => Some acc
| c :: rest =>
    match step acc c with
    | Some acc' => loop rest acc'
    | None => None
    end
end.

(** [total > 0 ? Math.round((trackerCount / total) * 100) : 0] *)
Definition percentage (trackerCount total : Z) : Z :=
if 0 <? total
then Js.round (inject_Z trackerCount / inject_Z total * 100)%Q
else 0.

Definition catOf (m : gmap string Z) (k : string) : Z :=
match m !! k with Some n => n | None => 0 end.

(** [function generateCookieSummary(total, trackerCount, lifetimes, byCategory)] *)
Definition generateCookieSummary (total trackerCount : Z) (l : Lifetimes)
           (byCat : gmap string Z) : list string :=
let line (n : Z) (text : string) : list string :=
  if 0 <? n then [Js.intToString n +:+ text] else [] in
[Js.intToString total +:+ " cookies found across your browser.";
 Js.intToString trackerCount +:+ " ("
   +:+ Js.intToString (percentage trackerCount total)
   +:+ "%) belong to known tracking companies."]
++ line (catOf byCat "advertising")
        " advertising cookies are following you across websites."
++ line (catOf byCat "analytics")
        " analytics cookies are recording your behavior."
++ line (catOf byCat "social")
        " social media cookies track you even outside those platforms."
++ line (catOf byCat "data_brokers")
        " data broker cookies are building a profile to sell."
++ line (zombie l)
        (" " +:+ Js.dquote +:+ "zombie" +:+ Js.dquote
           +:+ " cookies expire more than a year from now.").

(** What [analyze] does behind its first loop, and the object that it
    returns. *)
Definition report (cookies : list Cookie) (acc : Acc) : Analysis :=
let total := Z.of_nat (List.length cookies) in
let trackerDomains :=
  fold_left (fun l tc => countDomain (stripDot (domain (cookie tc)))
                                     (trackerCategory tc) l)
            (trackerCookies acc) [] in
let topTrackers := firstn 20 (sortByCount trackerDomains) in
let trackerCount := Z.of_nat (List.length (trackerCookies acc)) in
{| total := total;
   trackerCount := trackerCount;
   firstPartyCount := Z.of_nat (List.length (firstParty acc));
   thirdPartyCount := Z.of_nat (List.length (thirdParty acc));
   uniqueDomains := Z.of_nat (size (byDomain acc));
   byCategory := accCategory acc;
   lifetimes := accLifetimes acc;
   topTrackers := topTrackers;
   trackerPercentage := percentage trackerCount total;
   summary := generateCookieSummary total trackerCount (accLifetimes acc)
                                    (accCategory acc) |}.

(** [function analyze(cookies)]; [None] when it throws. *)
Definition analyze (cookies : list Cookie) : option Analysis :=
match loop cookies initialAcc with
| Some acc => Some (report cookies acc)
| None => None
end.


(** The analysis as the extension stores it and the renderer reads it
    back from [fpData.extension.cookies]. *)
Definition toProfile (a : Analysis) : Profile.Cookies :=
{| Profile.total := total a;
   Profile.trackerCount := trackerCount a;
   Profile.trackerPercentage := Some (trackerPercentage a);
   Profile.byCategory := Some (byCategory a);
   Profile.topTrackers :=
     Some (map (fun t => {| Profile.domain := tdomain t;
                            Profile.count := tcount t;
                            Profile.category := tcategory t |})
               (topTrackers a));
   Profile.lifetimes :=
     Some {| Profile.session := lsession (lifetimes a);
             Profile.shortLived := shortLived (lifetimes a);
             Profile.persistent := persistent (lifetimes a);
             Profile.zombie := zombie (lifetimes a) |} |}.

End Analyze.

(** The tracker table of the examples. *)
Definition knownTrackers (d : string) : option string :=
  if String.eqb d "doubleclick.net" then Some "advertising"
  else if String.eqb d "facebook.com" then Some "social"
  else None.

(** One tracker cookie among three. *)
Definition threeCookies : list Cookie :=
  [{| domain := ".doubleclick.net"; session := false;
      expirationDate := Some 2000000000%Q |};
   {| domain := "example.org"; session := true; expirationDate := None |};
   {| domain := "shop.example"; session := false; expirationDate := None |}].

(** Forty cookies, twelve of them set by a known tracker. *)
Definition fortyCookies : list Cookie :=
  repeat {| domain := ".doubleclick.net";
            session := false;
            expirationDate := Some 2000000000%Q |} 12
  ++ repeat {| domain := "example.org";
               session := true;
               expirationDate := None |} 28.

End CookieAnalyzer.

(** ** The record of the specification's example scenario *)

Module Examples.
Import Profile Monolog.

Definition analyzedForty : option Cookies :=
  option_map CookieAnalyzer.toProfile
    (CookieAnalyzer.analyze CookieAnalyzer.knownTrackers 1700000000
                            CookieAnalyzer.fortyCookies).

(** A host whose patterns find no GPU name, whose clock is UTC and
    which prints fractions with two decimals. *)
Definition sampleHost : Host :=
  {| reAppleChip := fun _ => ""; reNvidia := fun _ => "";
     reAmd := fun _ => ""; reRtxHigh := fun _ => false;
     dateParse := fun _ => Some 1700000000000;
     getMinutes := fun ms => (ms / 60000) mod 60;
     fracToString := fun q => Js.toFixed q 2 |}.

(** The record of the example scenario: 34.2 bits of entropy and the
    analysis of the forty cookies. *)
Definition sampleFp : FpData :=
  {| basic := Some {| userAgent := Some "Mozilla/5.0 Chrome/120";
                      platform := Some "Linux x86_64";
                      deviceMemory := Some 8%Q;
                      hardwareConcurrency := Some 8%Q;
                      devicePixelRatio := Some 1%Q;
                      colorDepth := Some 24%Q;
                      maxTouchPoints := None; doNotTrack := None;
                      cookieEnabled := Some true;
                      screenWidth := Some 1920%Q;
                      screenHeight := Some 1080%Q;
                      timezone := Some "Europe/Prague";
                      timezoneOffset := Some (-60);
                      language := Some "cs-CZ";
                      connectionType := None; connectionDownlink := None;
                      connectionSaveData := None |};
     rendererUnmasked := None; webglRenderer := None;
     fonts := None; advancedFonts := None;
     batteryLevel := None; batteryCharging := None;
     videoinput := None; audioinput := None;
     cookies := analyzedForty;
     collectedAt := None; generatedAt := None;
     visitorId := Some "a1b2c3d4"; componentsVisitorId := None |}.

Definition sampleProfile : Profile :=
  {| parsed := {| os := "Linux"; osVersion := ""; browser := "Chrome";
                  browserVersion := "120"; mobile := false |};
     deviceTier := "Standard"; country := "Czech Republic";
     market := "Tier 2"; bracket := "Middle";
     estimate := "Around local median";
     techScore := Some 70%Q; professionAll := None |}.

Definition sampleScores : Scores :=
  {| totalBits := 34.2%Q; populationSize := "19.7 billion";
     percent := 99.99%Q; cpm := 3.25%Q; annualValue := 97.5%Q;
     factors := None |}.

End Examples.

(** ** The text rasterizer (the body of the frame loop of v1, v2 and v4)

    The three variants paint a frame in the same way; they differ in
    the frame constants and in the smallest font size they accept
    (36, 32 and 28).  The canvas is modelled by the list of drawing
    operations a frame issues; [ctx.measureText] is a parameter. *)

Module Raster.
Import Timeline.

Definition W : Q := 1920.
Definition H : Q := 1080.
Definition MARGIN_L : Q := 80.

(** [maxTextW = W - MARGIN_L * 2] *)
Definition maxTextW : Q := (W - MARGIN_L * 2)%Q.

(** [easeOut(t) = 1 - Math.pow(1 - clamp(t, 0, 1), 3)], on exact
    numbers: for [0 < t < 2^-53] the double [1 - t] is 1 and the
    code's value 0, where the exact one is a little above 0. *)
Definition easeOut (t : Q) : Q :=
  let u := (1 - Js.clamp t 0 1)%Q in (1 - u * u * u)%Q.

(** A renderer: its frame constants and the [minSize]
    it passes to [fitFontSize]. *)
Record Renderer := { consts : Consts; minFont : Z }.

Definition v1 : Renderer := {| consts := Timeline.v1; minFont := 36 |}.
Definition v2 : Renderer := {| consts := Timeline.v2; minFont := 32 |}.
Definition v4 : Renderer := {| consts := Timeline.v4; minFont := 28 |}.

(** An operation on the canvas: the black [fillRect] that starts every
    frame, a [fillText] in white at an alpha, and the cursor rectangle. *)
Inductive Op :=
| Clear
| Text (text : string) (size : Z) (alpha : Q) (x y : Q)
| Cursor (x y w h : Q) (alpha : Q).

(** An entry of [lineSizes]. *)
Record LineSize := { size : Z; text : string }.

Section Painter.
(** [ctx.measureText(text).width] under [bold <s>px "Neue Montreal"]. *)
Context (measure : Z -> string -> Q).

(** [for (let s = maxSize; s >= minSize; s -= 2)
       if (ctx.measureText(text).width <= maxW) return s;
     return minSize;]
    The loop tests at most [maxSize - minSize + 1] sizes. *)
Fixpoint fitFrom (fuel : nat) (text : string) (maxW : Q) (s minSize : Z) : Z :=
  match fuel with
  | O => minSize
  | S k =>
      if minSize <=? s then
        if Js.leb (measure s text) maxW then s
        else fitFrom k text maxW (s - 2) minSize
      else minSize
  end.

Definition fitFontSize (text : string) (maxW : Q) (maxSize minSize : Z) : Z :=
  fitFrom (S (Z.to_nat (maxSize - minSize))) text maxW maxSize minSize.

Context (v : Renderer).

(** [lineSizes]: an empty line is a 40 px spacer. *)
Definition lineSizeOf (line : string) : LineSize :=
  if String.eqb line "" then {| size := 40; text := "" |}
  else {| size := fitFontSize line maxTextW 120 (minFont v); text := line |}.

Definition lineSizes (ls : list string) : list LineSize := map lineSizeOf ls.

Definition lineSpacing : Q := 1.25.

(** [for (const ls of lineSizes) totalH += ls.size * lineSpacing] *)
Definition totalH (ls : list LineSize) : Q :=
  fold_left (fun acc l => (acc + inject_Z (size l) * lineSpacing)%Q) ls 0%Q.

(** [blockAlpha]: 1, fading to 0 over [FADE_OUT] frames from
    [contentEnd]. *)
Definition blockAlpha (f contentEnd : Z) : Q :=
  if contentEnd <=? f
  then (1 - Js.clamp (inject_Z (f - contentEnd) / inject_Z (FADE_OUT (consts v))) 0 1)%Q
  else 1%Q.

(** [lineAlpha = easeOut(clamp((f - li * LINE_GAP) / LINE_FADE, 0, 1))] *)
Definition lineAlpha (f li : Z) : Q :=
  easeOut (Js.clamp (inject_Z (f - li * LINE_GAP (consts v)) / inject_Z (LINE_FADE (consts v))) 0 1).

(** The loop over the lines from line [li] at base line [startY]: the
    texts it draws and the final [startY]. *)
Fixpoint drawLines (f : Z) (ba : Q) (li : Z) (startY : Q) (ls : list LineSize)
  : list Op * Q :=
  match ls with
  | [] => ([], startY)
  | l :: rest =>
      let next := (startY + inject_Z (size l) * lineSpacing)%Q in
      if String.eqb (text l) "" then drawLines f ba (li + 1) next rest
      else
        let alpha := (lineAlpha f li * ba)%Q in
        if Js.leb alpha 0 then drawLines f ba (li + 1) next rest
        else
          let '(ops, y) := drawLines f ba (li + 1) next rest in
          (Text (text l) (size l) alpha MARGIN_L startY :: ops, y)
  end.

(** [Math.min(block.lines.length, Math.floor(f / LINE_GAP) + 1)] *)
Definition visibleLines (n : nat) (f : Z) : Z :=
  Z.min (Z.of_nat n) (Js.floor (inject_Z f / inject_Z (LINE_GAP (consts v))) + 1).

(** [Math.floor(gf / 15) % 2 === 0] *)
Definition blink (gf : Z) : bool :=
  Z.rem (Js.floor (inject_Z gf / 15)) 2 =? 0.

(** The cursor after the last visible line; [None] is the TypeError of
    reading [.size] of an undefined [lastLS]. *)
Definition drawCursor (gf f contentEnd : Z) (ba : Q) (startY : Q)
           (ls : list LineSize) : option (list Op) :=
  let vis := visibleLines (List.length ls) f in
  if (f <? contentEnd) && Js.gtb ba 0.5 then
    if blink gf && (0 <? vis) then
      match ls !! Z.to_nat (vis - 1) with
      | Some lastLS =>
          let tw := measure (size lastLS) (text lastLS) in
          let cursorY := (startY - inject_Z (size lastLS) * lineSpacing)%Q in
          Some [Cursor (MARGIN_L + tw + 8)%Q
                       (cursorY - inject_Z (size lastLS) * 0.75)%Q
                       3 (inject_Z (size lastLS) * 0.85)%Q (0.7 * ba)%Q]
      | None => None
      end
    else Some []
  else Some [].

(** A block whose interval holds the frame and whose alpha is positive;
    [None] is the TypeError of [lineSizes[0].size] on a block without
    lines. *)
Definition drawBlock (gf f : Z) (bt : Timing) (ba : Q) (b : Block)
  : option (list Op) :=
  let sizes := lineSizes (lines b) in
  match sizes with
  | [] => None
  | first :: _ =>
      let startY := ((H - totalH sizes) / 2 + inject_Z (size first))%Q in
      let '(texts, endY) := drawLines f ba 0 startY sizes in
      match drawCursor gf f (linesFrames bt + holdFrames bt) ba endY sizes with
      | Some cur => Some (texts ++ cur)
      | None => None
      end
  end.

(** The scan [for (let bi = 0; bi < blocks.length; bi++)] of one frame:
    a block whose interval misses the frame, or whose alpha has faded
    to 0, is passed over; the first other block is drawn and ends the
    scan. *)
Fixpoint paintFrom (gf : Z) (bs : list (Block * Timing)) : option (list Op) :=
  match bs with
  | [] => Some []
  | (b, bt) :: rest =>
      if covers bt gf then
        let f := gf - start bt in
        let ba := blockAlpha f (linesFrames bt + holdFrames bt) in
        if Js.leb ba 0 then paintFrom gf rest
        else drawBlock gf f bt ba b
      else paintFrom gf rest
  end.

(** One frame of the film: the black background, then the scan. *)
Definition paintFrame (blocks : list Block) (gf : Z) : option (list Op) :=
  match paintFrom gf (zip blocks (blockTimings (consts v) blocks)) with
  | Some ops => Some (Clear :: ops)
  | None => None
  end.

End Painter.

(** The texts of a frame, in drawing order, with their alpha. *)
Definition textsOf (ops : list Op) : list (string * Q) :=
  flat_map (fun o => match o with Text t _ a _ _ => [(t, a)] | _ => [] end) ops.

(** A text measure for the examples: every glyph is half as wide as
    the font is high. *)
Definition halfEm (s : Z) (t : string) : Q :=
  (inject_Z (s * Z.of_nat (String.length t)) * 0.5)%Q.

Definition alphaOf (o : Op) : option Q :=
  match o with
  | Clear => None
  | Text _ _ a _ _ => Some a
  | Cursor _ _ _ _ a => Some a
  end.

End Raster.

(** ** The v4 film: the schedule of a record, rasterized *)

Module V4Film.
Import Profile Monolog.

(** A block as the rasterizer expects it: with at least one line, no
    empty line, and one of the three tags that [scaredTiming] knows. *)
Definition okBlock (b : Block) : Prop :=
  lines b <> []
  /\ Forall (fun s => s <> "") (lines b)
  /\ (importance b = "normal" \/ importance b = "flash" \/ importance b = "linger").

(** Frame [gf] of the film that [main] renders for a record: [None]
    when [buildMonolog] or the rasterizer throws. *)
Definition frame (measure : Z -> string -> Q) (host : Host) (fp : FpData)
           (p : Profile) (sc : Scores) (gf : Z) : option (list Raster.Op) :=
  match schedule host fp p sc 0 with
  | Some (ts, _) => Raster.paintFrame measure Raster.v4 (map Timeline.ofTimed ts) gf
  | None => None
  end.

End V4Film.

(** ** The audio track of v4 ([generateAudio])

    A [Buffer] is the list of its bytes.  [Math.sin], [Math.exp],
    [Math.PI] and the numbers that the successive calls of
    [Math.random] return are supplied by the host. *)

Module Audio.
Import Monolog.

Definition SR : Z := 44100.

Record Host := {
  sin : Q -> Q;
  exp : Q -> Q;
  PI : Q;
  random : nat -> Q   (* the value of the k-th call of Math.random *)
}.

Abbreviation Buffer := (list Z).

(** [Buffer.alloc(n)]: [n] zero bytes; a negative size throws. *)
Definition alloc (n : Z) : option Buffer :=
  if n <? 0 then None else Some (repeat 0 (Z.to_nat n)).

(** Byte [k] of the two's complement form of [v]. *)
Definition byteOf (k : Z) (v : Z) : Z := (v / 256 ^ k) mod 256.

(** Bytes stored at an offset; a write that leaves the buffer throws. *)
Definition writeBytes (bs : list Z) (off : Z) (buf : Buffer) : option Buffer :=
  if (0 <=? off) && (off + Z.of_nat (List.length bs) <=? Z.of_nat (List.length buf))
  then Some (firstn (Z.to_nat off) buf ++ bs
             ++ skipn (Z.to_nat off + List.length bs) buf)
  else None.

(** [buf.writeInt16LE(v, off)], [buf.writeUInt16LE(v, off)] and
    [buf.writeUInt32LE(v, off)]: a value out of the range throws. *)
Definition writeInt16LE (v off : Z) (buf : Buffer) : option Buffer :=
  if (-32768 <=? v) && (v <=? 32767)
  then writeBytes [byteOf 0 v; byteOf 1 v] off buf
  else None.

Definition writeUInt16LE (v off : Z) (buf : Buffer) : option Buffer :=
  if (0 <=? v) && (v <=? 65535)
  then writeBytes [byteOf 0 v; byteOf 1 v] off buf
  else None.

Definition writeUInt32LE (v off : Z) (buf : Buffer) : option Buffer :=
  if (0 <=? v) && (v <=? 4294967295)
  then writeBytes [byteOf 0 v; byteOf 1 v; byteOf 2 v; byteOf 3 v] off buf
  else None.

(** [buf.write(s, off)] for an ASCII string that fits. *)
Definition write (s : string) (off : Z) (buf : Buffer) : option Buffer :=
  writeBytes (map (fun c => Z.of_nat (nat_of_ascii c)) (list_ascii_of_string s))
             off buf.

(** [buf.readUInt16LE(off)], [buf.readInt16LE(off)] and
    [buf.readUInt32LE(off)], as a reader of the file decodes them. *)
Definition readUInt16LE (off : nat) (buf : Buffer) : option Z :=
  match buf !! off, buf !! S off with
  | Some b0, Some b1 => Some (b0 + 256 * b1)
  | _, _ => None
  end.

Definition readInt16LE (off : nat) (buf : Buffer) : option Z :=
  match readUInt16LE off buf with
  | Some u => Some (if u <? 32768 then u else u - 65536)
  | None => None
  end.

Definition readUInt32LE (off : nat) (buf : Buffer) : option Z :=
  match buf !! off, buf !! S off, buf !! S (S off), buf !! S (S (S off)) with
  | Some b0, Some b1, Some b2, Some b3 =>
      Some (b0 + 256 * b1 + 65536 * b2 + 16777216 * b3)
  | _, _, _, _ => None
  end.

(** An entry of [transientQueue]. *)
Record Transient := { sample : Z; intensity : Q }.

(** [for (...) { transientQueue.push({ sample: Math.floor(t * SR), intensity });
                 t += b.holdSec + (b.lines.length * 0.2) + 0.5; }],
    on exact numbers: the floor of the double product can be one
    sample off the floor of the exact one (1.15 * 44100 is 50715, the
    double product a little less). *)
Fixpoint queueFrom (t : Q) (blocks : list Timed) : list Transient :=
  match blocks with
  | [] => []
  | b :: rest =>
      {| sample := Js.floor (t * inject_Z SR);
         intensity := if String.eqb (importance (block b)) "linger"
                      then 0.7 else 0.4 |}
      :: queueFrom (t + (holdSec b
                         + inject_Z (Z.of_nat (List.length (lines (block b)))) * 0.2
                         + 0.5))%Q rest
  end.

Definition transientQueue (blocks : list Timed) : list Transient :=
  queueFrom 0 blocks.

Section Synthesis.
Context (h : Host).

(** The clicks of sample [i]: every transient that started less than
    0.05 s ago adds a burst of noise; [k] counts the calls of
    [Math.random]. *)
Fixpoint clicks (i : Z) (queue : list Transient) (click : Q) (k : nat)
  : Q * nat :=
  match queue with
  | [] => (click, k)
  | tr :: rest =>
      let dist := i - sample tr in
      if (0 <=? dist) && Js.ltb (inject_Z dist) (inject_Z SR * 0.05)
      then
        let env := exp h (- inject_Z dist / (inject_Z SR * 0.008))%Q in
        clicks i rest (click + env * intensity tr * (random h k * 2 - 1))%Q (S k)
      else clicks i rest click k
  end.

(** The body of the sample loop before the write: the 16-bit value of
    sample [i], the next phase of the drone and the count of random
    numbers drawn. *)
Definition sampleAt (droneFreq : Q) (totalSamples : Z) (queue : list Transient)
           (i : Z) (phase : Q) (k : nat) : Z * Q * nat :=
  let sec := (inject_Z i / inject_Z SR)%Q in
  let progress := (inject_Z i / inject_Z totalSamples)%Q in
  let droneAmp := (0.05 + progress * 0.15)%Q in
  let drone := (sin h phase * droneAmp)%Q in
  let phase' :=
    (phase + (2 * PI h * droneFreq * (1 + progress * 0.3)) / inject_Z SR)%Q in
  let subPulse := (sin h (2 * PI h * 25 * sec) * 0.03 * (1 + progress))%Q in
  let '(click, k1) := clicks i queue 0 k in
  let tensionFreq := (800 + progress * 3000)%Q in
  let tensionAmp := Js.max 0 ((progress - 0.3) * 0.08) in
  let tension :=
    (sin h (2 * PI h * tensionFreq * sec) * tensionAmp
     * (0.5 + 0.5 * sin h (2 * PI h * 0.3 * sec)))%Q in
  let noise := ((random h k1 * 2 - 1) * 0.01 * progress)%Q in
  let s := Js.clamp (drone + subPulse + click + tension + noise) (-0.95) 0.95 in
  (Js.floor (s * 32767), phase', S k1).

(** [for (let i = 0; i < totalSamples; i++) { ...;
       buf.writeInt16LE(int16, i * 2); }] from sample [i] on, for [n]
    more samples. *)
Fixpoint sampleLoop (droneFreq : Q) (totalSamples : Z) (queue : list Transient)
         (n : nat) (i : Z) (phase : Q) (k : nat) (buf : Buffer)
  : option Buffer :=
  match n with
  | O => Some buf
  | S n' =>
      let '(int16, phase', k') := sampleAt droneFreq totalSamples queue i phase k in
      match writeInt16LE int16 (i * 2) buf with
      | Some buf' => sampleLoop droneFreq totalSamples queue n' (i + 1) phase' k' buf'
      | None => None
      end
  end.

(** [Math.ceil(totalDurationSec * SR)] *)
Definition totalSamplesOf (totalDurationSec : Q) : Z :=
  Qceiling (totalDurationSec * inject_Z SR).

(** The samples of the track. *)
Definition samples (blocks : list Timed) (totalDurationSec : Q) : option Buffer :=
  let totalSamples := totalSamplesOf totalDurationSec in
  match alloc (totalSamples * 2) with
  | Some buf =>
      let droneFreq := (40 + random h 0 * 20)%Q in
      sampleLoop droneFreq totalSamples (transientQueue blocks)
                 (Z.to_nat totalSamples) 0 0 1 buf
  | None => None
  end.

End Synthesis.

(** The 44-byte header for [dataSize] bytes of samples. *)
Definition header (dataSize : Z) : option Buffer :=
  let fileSize := 36 + dataSize in
  hd ← alloc 44;
  hd ← write "RIFF" 0 hd;
  hd ← writeUInt32LE fileSize 4 hd;
  hd ← write "WAVE" 8 hd;
  hd ← write "fmt " 12 hd;
  hd ← writeUInt32LE 16 16 hd;
  hd ← writeUInt16LE 1 20 hd;
  hd ← writeUInt16LE 1 22 hd;
  hd ← writeUInt32LE SR 24 hd;
  hd ← writeUInt32LE (SR * 2) 28 hd;
  hd ← writeUInt16LE 2 32 hd;
  hd ← writeUInt16LE 16 34 hd;
  hd ← write "data" 36 hd;
  writeUInt32LE dataSize 40 hd.

(** [generateAudio(blocks, totalDurationSec, outputPath)]: the bytes
    that it passes to [fs.writeFileSync], [None] when it throws before. *)
Definition generateAudio (h : Host) (blocks : list Timed) (totalDurationSec : Q)
  : option Buffer :=
  buf ← samples h blocks totalDurationSec;
  hd ← header (Z.of_nat (List.length buf));
  Some (hd ++ buf).

End Audio.

(** ** The scenes of the browser VideoRenderer

    [render] plays the scenes that [buildScenes] pushes, one after the
    other; [tick] finds the scene of a frame by subtracting durations.
    Of a scene's [draw] the calls of [drawPulse] are modelled. *)

Module Scenes.

(** [lerp(a, b, t)] and [easeInOut(t)] *)
Definition lerp (a b t : Q) : Q := (a + (b - a) * Js.clamp t 0 1)%Q.

Definition easeInOut (t : Q) : Q :=
  let t := Js.clamp t 0 1 in
  if Js.ltb t 0.5 then (4 * t * t * t)%Q
  else
    let u := (-2 * t + 2)%Q in
    (1 - u * u * u / 2)%Q.

(** [Math.trunc] and the remainder [a % b] of JavaScript, which has the
    sign of [a]. *)
Definition trunc (x : Q) : Z :=
  if Js.ltb x 0 then - Qfloor (- x) else Qfloor x.

Definition rem (a b : Q) : Q := (a - b * inject_Z (trunc (a / b)))%Q.

(** What [drawPulse(x, y, t, maxR, alpha)] strokes: a circle of radius
    [(t % 1) * maxR] at alpha [(1 - t % 1) * alpha]. *)
Record Pulse := { radius : Q; palpha : Q }.

(** [ctx.arc] throws an IndexSizeError for a negative radius: [None]. *)
Definition drawPulse (t maxR alpha : Q) : option Pulse :=
  let r := (rem t 1 * maxR)%Q in
  let a := ((1 - rem t 1) * alpha)%Q in
  if Js.ltb r 0 then None else Some {| radius := r; palpha := a |}.

(** The durations of the six scenes, in the order of [scenes.push]. *)
Definition durations : list Z := [90; 180; 150; 135; 90; 120].

(** [scenes.reduce((sum, s) => sum + s.duration, 0)] *)
Definition totalFrames (ds : list Z) : Z := fold_left Z.add ds 0.

(** [for (const scene of scenes) {
       if (fi < scene.duration) { active = scene; break; }
       fi -= scene.duration; }] *)
Fixpoint findScene (i : nat) (fi : Z) (ds : list Z) : option (nat * Z) :=
  match ds with
  | [] => None
  | d :: rest =>
      if fi <? d then Some (i, fi) else findScene (S i) (fi - d) rest
  end.

(** What [tick] does at a frame: stop the recorder, or draw a scene at
    its local frame. *)
Inductive Tick := Stop | Draw (scene : nat) (fi : Z).

Definition tick (ds : list Z) (frame : Z) : Tick :=
  if totalFrames ds <=? frame then Stop
  else match findScene 0 frame ds with
       | Some (i, fi) => Draw i fi
       | None => Stop
       end.

(** The pulses of scene 1:
    [drawPulse(CX, CY, f / 60, 300, 0.1);
     if (f > 20) drawPulse(CX, CY, (f - 20) / 60, 200, 0.08);] *)
Definition emergencePulses (f : Z) : list (option Pulse) :=
  drawPulse (inject_Z f / 60) 300 0.1
  :: (if 20 <? f then [drawPulse (inject_Z (f - 20) / 60) 200 0.08] else []).

(** The pulses of the outro (scene 6):
    [if (collapse > 0.3) {
       drawPulse(CX, CY, (f - 15) / 40, 400, 0.08 * vis);
       drawPulse(CX, CY, (f - 25) / 50, 300, 0.06 * vis); }] *)
Definition outroPulses (f : Z) : list (option Pulse) :=
  let collapse := easeInOut (Js.clamp (inject_Z f / 50) 0 1) in
  let fadeIn := easeInOut (Js.clamp (inject_Z f / 30) 0 1) in
  let fadeOut := easeInOut (Js.clamp (inject_Z (120 - f) / 25) 0 1) in
  let vis := Js.min fadeIn fadeOut in
  if Js.gtb collapse 0.3 then
    [drawPulse (inject_Z (f - 15) / 40) 400 (0.08 * vis);
     drawPulse (inject_Z (f - 25) / 50) 300 (0.06 * vis)]
  else [].

(** Does the frame of a scene draw without an exception? *)
Definition draws (pulses : list (option Pulse)) : bool :=
  forallb (fun p => match p with Some _ => true | None => false end) pulses.

End Scenes.

(** ** The price calculator ([PricingEngine] of js/pricing.js)

    The three tables are looked up by their own keys; a missing key
    gives [undefined], which [||] replaces. *)

Module Pricing.

(** The fields of [profile] that the engine reads. *)
Record Profile := {
  market : option string;         (* location.market *)
  region : string;                (* location.region *)
  connectionType : option string; (* location.connectionType *)
  deviceTier : string;            (* device.deviceTier *)
  deviceType : string;            (* device.deviceType *)
  deviceGuess : string;           (* device.deviceGuess *)
  mobile : bool;                  (* device.parsed?.mobile *)
  score : option Q;               (* techLiteracy.score *)
  level : string;                 (* techLiteracy.level *)
  bracket : string                (* income.bracket *)
}.

Record Range := { min : Q; max : Q }.

Definition MARKET_CPMS (tier : string) : option Range :=
  if String.eqb tier "Tier 1" then Some {| min := 3.50; max := 12.00 |}
  else if String.eqb tier "Tier 2" then Some {| min := 1.50; max := 5.00 |}
  else if String.eqb tier "Tier 3" then Some {| min := 0.50; max := 2.50 |}
  else if String.eqb tier "Tier 4" then Some {| min := 0.10; max := 1.00 |}
  else None.

Definition DEVICE_MULTIPLIERS (tier : string) : option Q :=
  if String.eqb tier "Premium" then Some 1.6%Q
  else if String.eqb tier "Mid-range" then Some 1.0%Q
  else if String.eqb tier "Budget" then Some 0.6%Q
  else None.

Definition PLATFORM_MULTIPLIERS (type : string) : option Q :=
  if String.eqb type "Desktop" then Some 1.2%Q
  else if String.eqb type "Tablet" then Some 1.0%Q
  else if String.eqb type "Phone" then Some 0.8%Q
  else None.

(** [profile.location.market || 'Tier 3'] *)
Definition marketTierOf (p : Profile) : string := Monolog.orS (market p) "Tier 3".

(** [MARKET_CPMS[marketTier] || MARKET_CPMS['Tier 3']] *)
Definition baseOf (p : Profile) : Range :=
  match MARKET_CPMS (marketTierOf p) with
  | Some r => r
  | None => {| min := 0.50; max := 2.50 |}
  end.

Definition deviceMultOf (p : Profile) : Q :=
  Monolog.orQ (DEVICE_MULTIPLIERS (deviceTier p)) 1.0.

Definition platformMultOf (p : Profile) : Q :=
  Monolog.orQ (PLATFORM_MULTIPLIERS (deviceType p)) 1.0.

(** [profile.techLiteracy.score >= 70]; false for a missing score. *)
Definition adResistant (p : Profile) : bool :=
  match score p with Some s => Js.geb s 70 | None => false end.

Definition richBracket (p : Profile) : bool :=
  Js.includes (bracket p) "High" || Js.includes (bracket p) "Upper".

Definition poorBracket (p : Profile) : bool := Js.includes (bracket p) "Lower".

(** The value of [cpm] before the clamp to the market range. *)
Definition rawCPM (p : Profile) : Q :=
  let base := baseOf p in
  let cpm := ((min base + max base) / 2)%Q in
  let cpm := (cpm * deviceMultOf p)%Q in
  let cpm := (cpm * platformMultOf p)%Q in
  let cpm := if adResistant p then (cpm * 0.85)%Q else cpm in
  let cpm := if richBracket p then (cpm * 1.3)%Q
             else if poorBracket p then (cpm * 0.7)%Q else cpm in
  if mobile p && match connectionType p with
                 | Some c => String.eqb c "4g"
                 | None => false
                 end
  then (cpm * 1.1)%Q else cpm.

(** [function calculateCPM(profile)] *)
Definition calculateCPM (p : Profile) : Q :=
  let base := baseOf p in
  let cpm := Js.max (min base * 0.5) (Js.min (max base * 2) (rawCPM p)) in
  (inject_Z (Js.round (cpm * 100)) / 100)%Q.

Record Factor := { label : string; value : string; effect : string }.

Record Breakdown := { cpm : Q; annualValue : Q; factors : list Factor }.

(** A multiplier as a template literal prints it: [1] for 1.0. *)
Definition multToString (q : Q) : string :=
  if Js.isInt q then Js.intToString (Qfloor q) else Js.toFixed q 1.

(** [function getBreakdown(profile)]; [show] prints the score. *)
Definition getBreakdown (show : option Q -> string) (p : Profile) : Breakdown :=
  let marketTier := marketTierOf p in
  let base := baseOf p in
  let baseCPM := ((min base + max base) / 2)%Q in
  let finalCPM := calculateCPM p in
  {| cpm := finalCPM;
     annualValue := (inject_Z (Js.round (finalCPM * 30 * 100)) / 100)%Q;
     factors :=
       [{| label := "Geographic Market";
           value := region p +:+ " (" +:+ marketTier +:+ ")";
           effect := "Base: $" +:+ Js.toFixed baseCPM 2 |};
        {| label := "Device Tier";
           value := deviceGuess p +:+ " (" +:+ deviceTier p +:+ ")";
           effect := "×" +:+ multToString (deviceMultOf p) |};
        {| label := "Platform";
           value := deviceType p;
           effect := "×" +:+ multToString (platformMultOf p) |};
        {| label := "Tech Literacy";
           value := level p +:+ " (" +:+ show (score p) +:+ "/100)";
           effect := if adResistant p then "×0.85 (ad-resistant)" else "×1.0" |};
        {| label := "Income Estimate";
           value := bracket p;
           effect := if richBracket p then "×1.3"
                     else if poorBracket p then "×0.7" else "×1.0" |}] |}.

End Pricing.

(** ** The entropy estimate ([EntropyEngine] of js/entropy.js)

    [calculateEntropy] tests the record for twenty signals; [has k] is
    the outcome of the test for signal [k] (the cookie signal is
    always counted). *)

Module EntropyEngine.

Record Estimate := { ebits : Q; elabel : string; edescription : string }.

(** [ENTROPY_ESTIMATES], in the order of the object literal. *)
Definition ENTROPY_ESTIMATES : list (string * Estimate) :=
  [("userAgent", {| ebits := 10.0; elabel := "User Agent";
                    edescription := "Browser + OS version string" |});
   ("language", {| ebits := 3.8; elabel := "Language";
                   edescription := "Primary language setting" |});
   ("languages", {| ebits := 4.5; elabel := "Language List";
                    edescription := "All configured languages" |});
   ("timezone", {| ebits := 3.0; elabel := "Timezone";
                   edescription := "System timezone" |});
   ("screenResolution", {| ebits := 4.8; elabel := "Screen Resolution";
                           edescription := "Display dimensions + pixel ratio" |});
   ("colorDepth", {| ebits := 1.5; elabel := "Color Depth";
                     edescription := "Display color depth" |});
   ("hardwareConcurrency", {| ebits := 2.5; elabel := "CPU Cores";
                              edescription := "Number of logical processors" |});
   ("deviceMemory", {| ebits := 2.0; elabel := "Device Memory";
                       edescription := "Available RAM" |});
   ("platform", {| ebits := 3.0; elabel := "Platform";
                   edescription := "OS platform string" |});
   ("doNotTrack", {| ebits := 1.0; elabel := "Do Not Track";
                     edescription := "DNT header setting" |});
   ("cookieEnabled", {| ebits := 0.5; elabel := "Cookies";
                        edescription := "Cookie support" |});
   ("webglRenderer", {| ebits := 7.5; elabel := "WebGL Renderer";
                        edescription := "GPU model (most identifying single signal)" |});
   ("webglVendor", {| ebits := 3.0; elabel := "WebGL Vendor";
                      edescription := "GPU vendor" |});
   ("canvasHash", {| ebits := 6.0; elabel := "Canvas Fingerprint";
                     edescription := "Canvas rendering differences" |});
   ("audioFingerprint", {| ebits := 5.5; elabel := "Audio Fingerprint";
                           edescription := "Audio processing differences" |});
   ("fonts", {| ebits := 6.5; elabel := "Installed Fonts";
                edescription := "Available system fonts" |});
   ("plugins", {| ebits := 4.0; elabel := "Plugins";
                  edescription := "Browser plugins" |});
   ("touchSupport", {| ebits := 1.5; elabel := "Touch Support";
                       edescription := "Touch capabilities" |});
   ("connection", {| ebits := 2.0; elabel := "Connection";
                     edescription := "Network type and speed" |});
   ("devicePixelRatio", {| ebits := 2.5; elabel := "Pixel Ratio";
                           edescription := "Display scaling factor" |})].

(** [ENTROPY_ESTIMATES[key]] *)
Fixpoint estimateOf (key : string) (tbl : list (string * Estimate))
  : option Estimate :=
  match tbl with
  | [] => None
  | (k, e) :: rest => if String.eqb k key then Some e else estimateOf key rest
  end.

(** The object [checks], in the order of its keys. *)
Definition checks (has : string -> bool) : list (string * bool) :=
  [("userAgent", has "userAgent"); ("language", has "language");
   ("languages", has "languages"); ("timezone", has "timezone");
   ("screenResolution", has "screenResolution");
   ("colorDepth", has "colorDepth");
   ("hardwareConcurrency", has "hardwareConcurrency");
   ("deviceMemory", has "deviceMemory"); ("platform", has "platform");
   ("doNotTrack", has "doNotTrack"); ("cookieEnabled", true);
   ("webglRenderer", has "webglRenderer"); ("webglVendor", has "webglVendor");
   ("canvasHash", has "canvasHash");
   ("audioFingerprint", has "audioFingerprint"); ("fonts", has "fonts");
   ("plugins", has "plugins"); ("touchSupport", has "touchSupport");
   ("connection", has "connection");
   ("devicePixelRatio", has "devicePixelRatio")].

Record Contribution := {
  signal : string; label : string; description : string;
  bits : Q; present : bool
}.

(** [for (const [key, present] of Object.entries(checks))]: the
    contributions pushed and the running [totalBits]. *)
Fixpoint collect (cs : list (string * bool)) (acc : list Contribution)
         (totalBits : Q) : list Contribution * Q :=
  match cs with
  | [] => (acc, totalBits)
  | (key, pres) :: rest =>
      match estimateOf key ENTROPY_ESTIMATES with
      | None => collect rest acc totalBits
      | Some est =>
          let b := if pres then ebits est else 0%Q in
          collect rest
                  (acc ++ [{| signal := key; label := elabel est;
                              description := edescription est;
                              bits := b; present := pres |}])
                  (totalBits + b)%Q
      end
  end.

(** [contributions.sort((a, b) => b.bits - a.bits)]: a stable sort by
    descending bits. *)
Fixpoint insertByBits (c : Contribution) (l : list Contribution)
  : list Contribution :=
  match l with
  | [] => [c]
  | u :: rest =>
      if Js.leb (bits u) (bits c) then c :: l else u :: insertByBits c rest
  end.

Definition sortByBits (l : list Contribution) : list Contribution :=
  fold_right insertByBits [] l.

Record Entropy := { totalBits : Q; contributions : list Contribution }.

(** [function calculateEntropy(fingerprintData)] *)
Definition calculateEntropy (has : string -> bool) : Entropy :=
  let '(contribs, total) := collect (checks has) [] 0 in
  {| totalBits := total; contributions := sortByBits contribs |}.

(** [uniquenessPercent] of [calculateUniqueness(totalBits)]. *)
Definition uniquenessPercent (totalBits : Q) : Q :=
  if Js.geb totalBits 33 then 99.99
  else if Js.geb totalBits 25 then 99.9
  else if Js.geb totalBits 20 then 99.5
  else if Js.geb totalBits 18 then 99.0
  else if Js.geb totalBits 15 then 95.0
  else if Js.geb totalBits 10 then 80.0
  else 50.0.

(** The entropy as the VideoRenderer reads it. *)
Definition toWorld (e : Entropy) : World.Entropy :=
  {| World.contributions :=
       Some (map (fun c => {| World.cbits := bits c; World.clabel := label c;
                              World.present := present c |})
                 (contributions e));
     World.totalBits := totalBits e |}.

End EntropyEngine.

(** ** The monolog of v1 (render-cli.js)

    Fourteen blocks with fixed holds, and one more for an English
    speaker outside the United States and the United Kingdom.  The
    lines are not filtered: the empty line of block 3 is a spacer. *)

Module V1Monolog.
Import Profile Monolog.

(** The zero-width space U+200B in UTF-8. *)
Definition zwsp : string :=
  String (ascii_of_nat 226) (String (ascii_of_nat 128)
         (String (ascii_of_nat 139) EmptyString)).

Section Builder.
Context (host : Host) (fpData : FpData) (profile : Profile) (scores : Scores).
(** [profile.profession.primary] *)
Context (primary : string).

(** [const d = fpData.basic || {}] *)
Definition d : Basic := basicOf fpData.

Definition gpu : string :=
  if truthyS (rendererUnmasked fpData)
  then orS (rendererUnmasked fpData) ""
  else orS (webglRenderer fpData) "".

(** [fpData.advanced?.components?.fonts?.value || fpData.fonts || []] *)
Definition fontList : list string :=
  match advancedFonts fpData with
  | Some l => l
  | None => match fonts fpData with Some l => l | None => [] end
  end.

Definition osStr : string := os (parsed profile) +:+ " " +:+ osVersion (parsed profile).
Definition browserStr : string :=
  browser (parsed profile) +:+ " " +:+ browserVersion (parsed profile).
Definition chip : string := reAppleChip host gpu.

(** [d.language?.startsWith('en') && loc.country !== 'United States'
     && loc.country !== 'United Kingdom'] *)
Definition langInCZ : bool :=
  match language d with
  | Some l =>
      Js.startsWith l "en"
      && negb (String.eqb (country profile) "United States")
      && negb (String.eqb (country profile) "United Kingdom")
  | None => false
  end.

Definition buildMonolog : list Timeline.Block :=
  [ {| Timeline.lines := ["scanning."]; Timeline.hold := 0.8 |};
    {| Timeline.lines :=
         [Js.toLowerCase osStr +:+ ".";
          if negb (String.eqb chip "") then Js.toLowerCase chip +:+ "."
          else "apple hardware.";
          "premium device."];
       Timeline.hold := 1.2 |};
    {| Timeline.lines := ["power savvy,"; ""; "=power user?"];
       Timeline.hold := 1.5 |};
    {| Timeline.lines :=
         [Js.toLowerCase browserStr +:+ ".";
          if truthyB (cookieEnabled d) then "cookies enabled." else "cookies blocked.";
          match doNotTrack d with
          | Some (PStr "1") => "do-not-track: on."
          | _ => "no do-not-track."
          end;
          "no resistance."];
       Timeline.hold := 1.2 |};
    {| Timeline.lines :=
         [numOrQuestion host (hardwareConcurrency d) +:+ " cores.";
          numOrQuestion host (deviceMemory d) +:+ "GB RAM.";
          optNumToString host (screenWidth d) +:+ "x"
            +:+ optNumToString host (screenHeight d) +:+ " @"
            +:+ optNumToString host (devicePixelRatio d) +:+ "x.";
          if match devicePixelRatio d with Some q => Js.geb q 2 | None => false end
          then "retina display." else "standard display."];
       Timeline.hold := 1.2 |};
    {| Timeline.lines :=
         [if truthyS (timezone d)
          then Js.replaceFirst (Js.toLowerCase (orS (timezone d) "")) "/"
                               ("/" +:+ zwsp) +:+ "."
          else "unknown timezone.";
          Js.toLowerCase (country profile) +:+ ".";
          Js.toLowerCase (market profile) +:+ " market."];
       Timeline.hold := 1.2 |} ]
  ++ (if langInCZ then
        [ {| Timeline.lines :=
               [Js.toLowerCase (orS (language d) "") +:+ " speaker";
                "in " +:+ Js.toLowerCase (country profile) +:+ "?";
                "expat? digital nomad?";
                "target international ads."];
             Timeline.hold := 1.3 |} ]
      else [])
  ++ [ {| Timeline.lines :=
            ["fonts: " +:+ Js.toLowerCase (Js.join ", " (firstn 3 fontList)) +:+ ".";
             Js.toLowerCase primary +:+ "."];
          Timeline.hold := 1.0 |};
       {| Timeline.lines :=
            [Js.toLowerCase (bracket profile) +:+ ".";
             "est. " +:+ Js.toLowerCase (estimate profile) +:+ ".";
             "=sell premium ads?"];
          Timeline.hold := 1.3 |};
       {| Timeline.lines :=
            [Js.toFixed (totalBits scores) 1 +:+ " bits of entropy.";
             "unique among " +:+ populationSize scores +:+ ".";
             numToString host (percent scores) +:+ "% identifiable."];
          Timeline.hold := 1.3 |};
       {| Timeline.lines :=
            ["$" +:+ Js.toFixed (cpm scores) 2 +:+ " CPM.";
             "$" +:+ Js.toFixed (annualValue scores) 0 +:+ "/year."];
          Timeline.hold := 1.2 |};
       {| Timeline.lines :=
            [orS (connectionType d) "unknown" +:+ " / "
               +:+ numOrQuestion host (connectionDownlink d) +:+ " mbps.";
             "serve rich media."];
          Timeline.hold := 0.8 |};
       {| Timeline.lines := ["visitor ID:"; orS (visitorId fpData) "00000000"];
          Timeline.hold := 1.2 |};
       {| Timeline.lines := ["classification:"; "advertising commodity."];
          Timeline.hold := 1.5 |};
       {| Timeline.lines := ["you are the product."]; Timeline.hold := 2.5 |} ].

End Builder.

End V1Monolog.


(** ** The inference engine ([InferenceEngine] of shared/inference-engine.js)

    The regular expressions of [parseUserAgent] are literal texts,
    some followed by a run of digits with dots or underscores: a test
    is a substring search, a capture the longest run behind the first
    place where the text is followed by one.  Strings are ASCII; time
    zones and language codes are not names of [Object.prototype]. *)

Module Inference.
Import Profile.

(** What the engine reads of [data] beyond [Profile.FpData]. *)
Record Data := {
  fpData : FpData;
  languages : option (list string); (* basic.languages *)
  webdriver : bool;                 (* basic.webdriver is truthy *)
  canvas : bool                     (* data.canvas is truthy *)
}.

Definition isDigit (c : ascii) : bool :=
  let n := nat_of_ascii c in (Nat.leb 48 n && Nat.leb n 57)%bool.

(** The classes [[\d.]] and [[\d_]]. *)
Definition digitDot (c : ascii) : bool := isDigit c || Ascii.eqb c ".".
Definition digitUnderscore (c : ascii) : bool := isDigit c || Ascii.eqb c "_".

Fixpoint takeWhile (cls : ascii -> bool) (s : string) : string :=
  match s with
  | EmptyString => EmptyString
  | String c r => if cls c then String c (takeWhile cls r) else EmptyString
  end.

(** [s.slice(n)] *)
Definition sliceFrom (n : nat) (s : string) : string :=
  String.substring n (String.length s - n) s.

(** Group 1 of [/pat([cls]+)/] in [s]: the longest run of the class
    behind the leftmost [pat] that is followed by one; [None] when the
    pattern does not match. *)
Fixpoint capture (pat : string) (cls : ascii -> bool) (s : string)
  : option string :=
  match s with
  | EmptyString => None
  | String _ r =>
      if String.prefix pat s then
        match takeWhile cls (sliceFrom (String.length pat) s) with
        | EmptyString => capture pat cls r
        | run => Some run
        end
      else capture pat cls r
  end.

(** [v.replace(/_/g, '.')] *)
Fixpoint dots (s : string) : string :=
  match s with
  | EmptyString => EmptyString
  | String c r => String (if Ascii.eqb c "_" then "."%char else c) (dots r)
  end.

Definition orEmpty (o : option string) : string :=
  match o with Some s => s | None => "" end.

Definition unknownAgent : Parsed :=
  {| os := "Unknown"; osVersion := ""; browser := "Unknown";
     browserVersion := ""; mobile := false |}.

(** The chain of OS tests: the name, the version and whether the branch
    sets [result.mobile]. *)
Definition osOf (ua : string) : string * string * bool :=
  if Js.includes ua "Windows NT 10" then ("Windows", "10/11", false)
  else if Js.includes ua "Windows NT 6.3" then ("Windows", "8.1", false)
  else if Js.includes ua "Windows NT 6.1" then ("Windows", "7", false)
  else match capture "Mac OS X " digitUnderscore ua with
  | Some v => ("macOS", dots v, false)
  | None =>
  if Js.includes ua "CrOS" then ("Chrome OS", "", false)
  else if Js.includes ua "Linux" then ("Linux", "", false)
  else match capture "Android " digitDot ua with
  | Some v => ("Android", v, true)
  | None =>
  if Js.includes ua "iPhone" || Js.includes ua "iPad"
  then ("iOS", dots (orEmpty (capture "OS " digitUnderscore ua)), true)
  else ("Unknown", "", false)
  end end.

(** The chain of browser tests. *)
Definition browserOf (ua : string) : string * string :=
  match capture "Edg/" digitDot ua with
  | Some v => ("Edge", v)
  | None =>
  match capture "OPR/" digitDot ua with
  | Some v => ("Opera", v)
  | None =>
  match capture "Chrome/" digitDot ua, Js.includes ua "Chromium" with
  | Some v, false => ("Chrome", v)
  | _, _ =>
  match capture "Firefox/" digitDot ua with
  | Some v => ("Firefox", v)
  | None =>
  match capture "Safari/" digitDot ua, capture "Version/" digitDot ua with
  | Some _, Some v => ("Safari", v)
  | _, _ => ("Unknown", "")
  end end end end end.

(** [function parseUserAgent(ua)] *)
Definition parseUserAgent (ua : string) : Parsed :=
  if String.eqb ua "" then unknownAgent
  else
    let '(o, ov, m) := osOf ua in
    let '(b, bv) := browserOf ua in
    {| os := o; osVersion := ov; browser := b; browserVersion := bv;
       mobile := m || Js.includes ua "Mobile" || Js.includes ua "Android" |}.

Record Device := {
  deviceType : string; deviceGuess : string; deviceTier : string;
  dparsed : Parsed
}.

(** [basic?.userAgent || ''] *)
Definition uaOf (d : Data) : string :=
  Monolog.orS (userAgent (Monolog.basicOf (fpData d))) "".

(** [webgl?.renderer?.toLowerCase() || ''] *)
Definition rendererOf (d : Data) : string :=
  Js.toLowerCase (orEmpty (webglRenderer (fpData d))).

(** [function inferDeviceType(data)] *)
Definition inferDeviceType (d : Data) : Device :=
  let basic := Monolog.basicOf (fpData d) in
  let renderer := rendererOf d in
  let w := Monolog.orQ (screenWidth basic) 0 in
  let h := Monolog.orQ (screenHeight basic) 0 in
  let parsed := parseUserAgent (uaOf d) in
  let touch := match maxTouchPoints basic with
               | Some t => Js.gtb t 0
               | None => false
               end in
  let deviceType :=
    if mobile parsed || touch
    then if Js.geb (Js.min w h) 600 then "Tablet" else "Phone"
    else "Desktop" in
  let mem := Monolog.orQ (deviceMemory basic) 0 in
  let '(guess, tier) :=
    if String.eqb (os parsed) "macOS" then
      if Js.includes renderer "m1" || Js.includes renderer "m2"
         || Js.includes renderer "m3" || Js.includes renderer "m4"
      then ("Apple Mac (Apple Silicon)", "Premium")
      else if Js.includes renderer "radeon" || Js.includes renderer "intel"
      then ("Apple Mac (Intel)", "Premium")
      else ("Apple Mac", "Premium")
    else if String.eqb (os parsed) "iOS" then ("Apple iPhone/iPad", "Premium")
    else if String.eqb (os parsed) "Windows" then
      if Js.includes renderer "nvidia" || Js.includes renderer "geforce" then
        if Js.includes renderer "rtx 40" || Js.includes renderer "rtx 30"
        then ("High-end PC (NVIDIA RTX)", "Premium")
        else ("Gaming/Workstation PC (NVIDIA)", "Mid-range")
      else if Js.includes renderer "radeon" then ("PC (AMD GPU)", "Mid-range")
      else if Js.includes renderer "intel"
      then ("Standard PC (Intel integrated)", "Budget")
      else ("Windows PC", "Mid-range")
    else if String.eqb (os parsed) "Android" then
      if Js.geb mem 8 then ("High-end Android", "Mid-range")
      else if Js.geb mem 4 then ("Mid-range Android", "Budget")
      else ("Budget Android", "Budget")
    else if String.eqb (os parsed) "Linux" then ("Linux Workstation", "Mid-range")
    else if String.eqb (os parsed) "Chrome OS" then ("Chromebook", "Budget")
    else ("", "Mid-range") in
  {| deviceType := deviceType; deviceGuess := guess; deviceTier := tier;
     dparsed := parsed |}.

(** An entry of [tzToRegion]. *)
Record Place := { region : string; country : string; market : string }.

Definition tzToRegion : list (string * Place) :=
  [
   ("America/New_York",
      {| region := "US East Coast"; country := "United States"; market := "Tier 1" |});
   ("America/Chicago",
      {| region := "US Central"; country := "United States"; market := "Tier 1" |});
   ("America/Denver",
      {| region := "US Mountain"; country := "United States"; market := "Tier 1" |});
   ("America/Los_Angeles",
      {| region := "US West Coast"; country := "United States"; market := "Tier 1" |});
   ("America/Toronto",
      {| region := "Eastern Canada"; country := "Canada"; market := "Tier 1" |});
   ("America/Vancouver",
      {| region := "Western Canada"; country := "Canada"; market := "Tier 1" |});
   ("Europe/London",
      {| region := "United Kingdom"; country := "United Kingdom"; market := "Tier 1" |});
   ("Europe/Paris",
      {| region := "France"; country := "France"; market := "Tier 1" |});
   ("Europe/Berlin",
      {| region := "Germany"; country := "Germany"; market := "Tier 1" |});
   ("Europe/Amsterdam",
      {| region := "Netherlands"; country := "Netherlands"; market := "Tier 1" |});
   ("Europe/Zurich",
      {| region := "Switzerland"; country := "Switzerland"; market := "Tier 1" |});
   ("Europe/Stockholm",
      {| region := "Sweden"; country := "Sweden"; market := "Tier 1" |});
   ("Europe/Oslo",
      {| region := "Norway"; country := "Norway"; market := "Tier 1" |});
   ("Europe/Copenhagen",
      {| region := "Denmark"; country := "Denmark"; market := "Tier 1" |});
   ("Europe/Helsinki",
      {| region := "Finland"; country := "Finland"; market := "Tier 1" |});
   ("Europe/Dublin",
      {| region := "Ireland"; country := "Ireland"; market := "Tier 1" |});
   ("Europe/Brussels",
      {| region := "Belgium"; country := "Belgium"; market := "Tier 1" |});
   ("Europe/Vienna",
      {| region := "Austria"; country := "Austria"; market := "Tier 1" |});
   ("Europe/Madrid",
      {| region := "Spain"; country := "Spain"; market := "Tier 2" |});
   ("Europe/Rome",
      {| region := "Italy"; country := "Italy"; market := "Tier 2" |});
   ("Europe/Lisbon",
      {| region := "Portugal"; country := "Portugal"; market := "Tier 2" |});
   ("Europe/Prague",
      {| region := "Czech Republic"; country := "Czech Republic"; market := "Tier 2" |});
   ("Europe/Warsaw",
      {| region := "Poland"; country := "Poland"; market := "Tier 2" |});
   ("Europe/Budapest",
      {| region := "Hungary"; country := "Hungary"; market := "Tier 2" |});
   ("Europe/Bucharest",
      {| region := "Romania"; country := "Romania"; market := "Tier 3" |});
   ("Europe/Sofia",
      {| region := "Bulgaria"; country := "Bulgaria"; market := "Tier 3" |});
   ("Europe/Athens",
      {| region := "Greece"; country := "Greece"; market := "Tier 2" |});
   ("Europe/Istanbul",
      {| region := "Turkey"; country := "Turkey"; market := "Tier 3" |});
   ("Europe/Moscow",
      {| region := "Russia"; country := "Russia"; market := "Tier 3" |});
   ("Europe/Kiev",
      {| region := "Ukraine"; country := "Ukraine"; market := "Tier 3" |});
   ("Europe/Bratislava",
      {| region := "Slovakia"; country := "Slovakia"; market := "Tier 2" |});
   ("Europe/Ljubljana",
      {| region := "Slovenia"; country := "Slovenia"; market := "Tier 2" |});
   ("Europe/Zagreb",
      {| region := "Croatia"; country := "Croatia"; market := "Tier 2" |});
   ("Europe/Belgrade",
      {| region := "Serbia"; country := "Serbia"; market := "Tier 3" |});
   ("Asia/Tokyo",
      {| region := "Japan"; country := "Japan"; market := "Tier 1" |});
   ("Asia/Seoul",
      {| region := "South Korea"; country := "South Korea"; market := "Tier 1" |});
   ("Asia/Shanghai",
      {| region := "China"; country := "China"; market := "Tier 2" |});
   ("Asia/Hong_Kong",
      {| region := "Hong Kong"; country := "Hong Kong"; market := "Tier 1" |});
   ("Asia/Singapore",
      {| region := "Singapore"; country := "Singapore"; market := "Tier 1" |});
   ("Asia/Kolkata",
      {| region := "India"; country := "India"; market := "Tier 3" |});
   ("Asia/Dubai",
      {| region := "UAE"; country := "UAE"; market := "Tier 1" |});
   ("Australia/Sydney",
      {| region := "Australia (East)"; country := "Australia"; market := "Tier 1" |});
   ("Australia/Melbourne",
      {| region := "Australia (SE)"; country := "Australia"; market := "Tier 1" |});
   ("Pacific/Auckland",
      {| region := "New Zealand"; country := "New Zealand"; market := "Tier 1" |});
   ("America/Sao_Paulo",
      {| region := "Brazil"; country := "Brazil"; market := "Tier 3" |});
   ("America/Mexico_City",
      {| region := "Mexico"; country := "Mexico"; market := "Tier 3" |});
   ("America/Argentina/Buenos_Aires",
      {| region := "Argentina"; country := "Argentina"; market := "Tier 3" |});
   ("Africa/Johannesburg",
      {| region := "South Africa"; country := "South Africa"; market := "Tier 3" |});
   ("Africa/Lagos",
      {| region := "Nigeria"; country := "Nigeria"; market := "Tier 4" |});
   ("Africa/Cairo",
      {| region := "Egypt"; country := "Egypt"; market := "Tier 4" |}) ].

Definition langNames : list (string * string) :=
  [
   ("en", "English"); ("fr", "French"); ("de", "German");
   ("es", "Spanish"); ("it", "Italian"); ("pt", "Portuguese");
   ("nl", "Dutch"); ("pl", "Polish"); ("cs", "Czech"); ("sk", "Slovak");
   ("hu", "Hungarian"); ("ro", "Romanian"); ("bg", "Bulgarian");
   ("hr", "Croatian"); ("sr", "Serbian"); ("sl", "Slovenian");
   ("ja", "Japanese"); ("ko", "Korean"); ("zh", "Chinese");
   ("hi", "Hindi"); ("ar", "Arabic"); ("ru", "Russian");
   ("uk", "Ukrainian"); ("sv", "Swedish"); ("no", "Norwegian");
   ("da", "Danish"); ("fi", "Finnish"); ("el", "Greek"); ("tr", "Turkish");
   ("th", "Thai"); ("vi", "Vietnamese") ].

(** [table[key]] *)
Fixpoint lookupKey {A : Type} (key : string) (table : list (string * A))
  : option A :=
  match table with
  | [] => None
  | (k, v) :: rest => if String.eqb k key then Some v else lookupKey key rest
  end.

(** [lang.split('-')[0]] *)
Fixpoint beforeDash (s : string) : string :=
  match s with
  | EmptyString => EmptyString
  | String c r => if Ascii.eqb c "-" then EmptyString else String c (beforeDash r)
  end.

Record Location := {
  place : Place;
  primaryLanguage : string;
  allLanguages : list string;
  languageCode : string
}.

(** [function inferLocation(data)] *)
Definition inferLocation (d : Data) : Location :=
  let basic := Monolog.basicOf (fpData d) in
  let tz := orEmpty (timezone basic) in
  let lang := orEmpty (language basic) in
  let location :=
    match lookupKey tz tzToRegion with
    | Some p => p
    | None => {| region := if String.eqb tz "" then "Unknown" else tz;
                 country := "Unknown"; market := "Tier 3" |}
    end in
  let langCode := beforeDash lang in
  {| place := location;
     primaryLanguage := match lookupKey langCode langNames with
                        | Some n => n
                        | None => lang
                        end;
     allLanguages := match languages d with Some l => l | None => [] end;
     languageCode := langCode |}.

(** [fonts.filter(f => names.includes(f)).length] *)
Definition countIn (names fonts : list string) : Z :=
  Z.of_nat (List.length (List.filter (fun f => Js.inList f names) fonts)).

Definition fontsOf (d : Data) : list string :=
  match fonts (fpData d) with Some l => l | None => [] end.

(** [(data.basic?.hardwareConcurrency || 0)] *)
Definition coresOf (d : Data) : Q :=
  Monolog.orQ (hardwareConcurrency (Monolog.basicOf (fpData d))) 0.

(** [signals.sort((a, b) => b.confidence - a.confidence)]: a stable
    sort by descending confidence. *)
Fixpoint insertByConfidence (s : Profession) (l : list Profession)
  : list Profession :=
  match l with
  | [] => [s]
  | u :: rest =>
      if Js.leb (confidence u) (confidence s) then s :: l
      else u :: insertByConfidence s rest
  end.

Definition sortByConfidence (l : list Profession) : list Profession :=
  fold_right insertByConfidence [] l.

(** [if (cond) signals.push({ label, confidence })] *)
Definition signalIf (cond : bool) (l : string) (c : Q) : list Profession :=
  if cond then [{| label := l; confidence := c |}] else [].

(** The signals in the order of the pushes. *)
Definition professionSignals (d : Data) : list Profession :=
  let fonts := fontsOf d in
  let renderer := rendererOf d in
  let parsed := parseUserAgent (uaOf d) in
  let designFonts := ["Helvetica Neue"; "Futura"; "Avenir"; "Avenir Next";
                      "Proxima Nova"; "Brandon Grotesque"; "Gill Sans"] in
  let devFonts := ["Fira Code"; "Source Code Pro"; "Menlo"; "Monaco";
                   "Consolas"; "SF Mono"] in
  let adobeFonts := ["Adobe Caslon Pro"; "Adobe Garamond Pro"; "Myriad Pro";
                     "Minion Pro"] in
  let signals :=
    signalIf (0 <? countIn adobeFonts fonts)
             "Creative Professional (Adobe user)" 0.8
    ++ signalIf (3 <=? countIn designFonts fonts) "Design-oriented" 0.6
    ++ signalIf (2 <=? countIn devFonts fonts) "Software Developer" 0.7
    ++ signalIf (String.eqb (os parsed) "macOS")
                "Creative/Tech Professional" 0.5
    ++ signalIf (String.eqb (os parsed) "Linux")
                "Technical User / Developer" 0.7
    ++ signalIf (Js.includes renderer "quadro" || Js.includes renderer "firepro")
                "Professional Workstation User (CAD/3D)" 0.9
    ++ signalIf (Js.includes renderer "rtx 40" || Js.includes renderer "rtx 30")
                "Power User / Gamer" 0.6
    ++ signalIf (Js.geb (coresOf d) 16) "Power User / Professional" 0.5 in
  match signals with
  | [] => [{| label := "General Consumer"; confidence := 0.5 |}]
  | _ => signals
  end.

Record ProfessionResult := { primary : option string; all : list Profession }.

(** [function inferProfession(data)]; [primary] is [signals[0].label]. *)
Definition inferProfession (d : Data) : ProfessionResult :=
  let signals := sortByConfidence (professionSignals d) in
  {| primary := option_map label (head signals); all := signals |}.

Record TechLiteracy := { score : Z; level : string; reasons : list string }.

(** [if (cond) { score += pts; reasons.push(reason); }] *)
Definition bonus (cond : bool) (pts : Z) (reason : string)
           (acc : Z * list string) : Z * list string :=
  if cond then (fst acc + pts, snd acc ++ [reason]) else acc.

(** [function inferTechLiteracy(data)] *)
Definition inferTechLiteracy (d : Data) : TechLiteracy :=
  let basic := Monolog.basicOf (fpData d) in
  let parsed := parseUserAgent (uaOf d) in
  let devFonts := ["Fira Code"; "Source Code Pro"; "Menlo"; "Monaco";
                   "Consolas"] in
  let devFontCount := countIn devFonts (fontsOf d) in
  let acc := (50, []) in
  let acc := bonus (match doNotTrack basic with
                    | Some (PStr s) => String.eqb s "1"
                    | _ => false
                    end) 10 "Do Not Track enabled (+10)" acc in
  let acc := bonus (String.eqb (browser parsed) "Firefox") 15
                   "Using Firefox (+15)" acc in
  let acc := bonus (String.eqb (os parsed) "Linux") 20
                   "Running Linux (+20)" acc in
  let acc := bonus (webdriver d) 25 "WebDriver detected (+25)" acc in
  let acc := bonus (2 <=? devFontCount) 10
                   ("Developer fonts detected (" +:+ Js.intToString devFontCount
                    +:+ ") (+10)") acc in
  let acc := bonus (Js.geb (coresOf d) 8) 5 "High core count (+5)" acc in
  let acc := bonus (negb (canvas d)) 15
                   "Canvas fingerprinting blocked (+15)" acc in
  let score := Z.min 100 (Z.max 0 (fst acc)) in
  {| score := score;
     level := if 80 <=? score then "Expert"
              else if 60 <=? score then "Above Average"
              else if score <? 30 then "Below Average"
              else "Average";
     reasons := snd acc |}.

Record Income := { bracket : string; estimate : string; basedOn : list string }.

(** [function inferIncome(data)] *)
Definition inferIncome (d : Data) : Income :=
  let device := inferDeviceType d in
  let location := place (inferLocation d) in
  let premium := String.eqb (deviceTier device) "Premium" in
  let budget := String.eqb (deviceTier device) "Budget" in
  let '(b, e) :=
    if premium && String.eqb (market location) "Tier 1"
    then ("Upper-Middle to High", "$80,000 - $150,000+")
    else if premium && String.eqb (market location) "Tier 2"
    then ("Upper-Middle", "$50,000 - $100,000")
    else if premium then ("Above Average (local)", "Above local median")
    else if budget && String.eqb (market location) "Tier 1"
    then ("Lower-Middle", "$25,000 - $45,000")
    else if budget then ("Lower", "Below local median")
    else ("Middle", "$40,000 - $70,000") in
  {| bracket := b; estimate := e;
     basedOn := [deviceGuess device; country location] |}.

(** The five inferences of [generateFullProfile]; the display texts of
    its [inferences] list are not modelled. *)
Record FullProfile := {
  device : Device;
  location : Location;
  profession : ProfessionResult;
  techLiteracy : TechLiteracy;
  income : Income
}.

Definition generateFullProfile (d : Data) : FullProfile :=
  {| device := inferDeviceType d;
     location := inferLocation d;
     profession := inferProfession d;
     techLiteracy := inferTechLiteracy d;
     income := inferIncome d |}.

(** The generated profile as [PricingEngine] reads it:
    [location.connectionType] is a field that [inferLocation] never
    sets. *)
Definition toPricing (f : FullProfile) : Pricing.Profile :=
  {| Pricing.market := Some (market (place (location f)));
     Pricing.region := region (place (location f));
     Pricing.connectionType := None;
     Pricing.deviceTier := deviceTier (device f);
     Pricing.deviceType := deviceType (device f);
     Pricing.deviceGuess := deviceGuess (device f);
     Pricing.mobile := mobile (dparsed (device f));
     Pricing.score := Some (inject_Z (score (techLiteracy f)));
     Pricing.level := level (techLiteracy f);
     Pricing.bracket := bracket (income f) |}.

End Inference.

(** ** Concrete inputs of the examples *)
Module Cases.

(** A silent host for [generateAudio]: no drone, no noise. *)
Definition quietHost : Audio.Host :=
  {| Audio.sin := fun _ => 0%Q; Audio.exp := fun _ => 1%Q;
     Audio.PI := 3.14%Q; Audio.random := fun _ => 0.5%Q |}.

(** Two timed blocks: a one-line block held 0.5 s and the closing line. *)
Definition twoBlocks : list Monolog.Timed :=
  [ {| Monolog.block := {| Monolog.lines := ["scanning."];
                           Monolog.importance := "normal" |};
       Monolog.holdSec := 0.5%Q |};
    {| Monolog.block := {| Monolog.lines := ["you are the product."];
                           Monolog.importance := "linger" |};
       Monolog.holdSec := 2.5%Q |} ].

(** A host whose trigonometry is constant. *)
Definition flatTrig : World.Trig :=
  {| World.cos := fun _ => 1%Q; World.sin := fun _ => 0%Q;
     World.sqrt := fun q => q; World.PI := 3.14%Q |}.

Definition emptyWorld : World.World :=
  {| World.seed := 1; World.nodes := []; World.connections := [];
     World.particles := []; World.rings := [] |}.

(** The entropy of a browser in which every check succeeds. *)
Definition fullEntropy : World.Entropy :=
  EntropyEngine.toWorld (EntropyEngine.calculateEntropy (fun _ => true)).

(** A v4 run on which every tool succeeds; [img2sound] is not installed. *)
Definition v4AllGood : Render.V4Env :=
  {| Render.audioWrite := Render.AudioWritten "wav";
     Render.encode4 := Render.Closed (Some 0) "" (Some "video");
     Render.mux4 := fun _ _ _ => Render.MuxOk "merged";
     Render.img2sound := None |}.

(** A v2 run on which every tool succeeds: the sonifier leaves its wav
    at [additive.wav]. *)
Definition v2AllGood : Render.V2Env :=
  {| Render.encode2 := Render.Closed (Some 0) "" (Some "video");
     Render.sonify := fun fs => (true, <["additive.wav" := "wav"]> fs);
     Render.wavSearch := fun _ => Some (Some "additive.wav");
     Render.mux2 := fun _ _ _ => Render.MuxOk "merged" |}.

(** An Android phone as Chrome reports it. *)
Definition androidPhone : Inference.Data :=
  {| Inference.fpData :=
       {| Profile.basic :=
            Some {| Profile.userAgent :=
                      Some ("Mozilla/5.0 (Linux; Android 13; Pixel 7) "
                            +:+ "AppleWebKit/537.36 (KHTML, like Gecko) "
                            +:+ "Chrome/116.0.0.0 Mobile Safari/537.36");
                    Profile.platform := Some "Linux armv81";
                    Profile.deviceMemory := Some 8%Q;
                    Profile.hardwareConcurrency := Some 8%Q;
                    Profile.devicePixelRatio := Some 2.625%Q;
                    Profile.colorDepth := Some 24%Q;
                    Profile.maxTouchPoints := Some 5%Q;
                    Profile.doNotTrack := None;
                    Profile.cookieEnabled := Some true;
                    Profile.screenWidth := Some 412%Q;
                    Profile.screenHeight := Some 915%Q;
                    Profile.timezone := Some "Europe/Prague";
                    Profile.timezoneOffset := Some (-60);
                    Profile.language := Some "cs-CZ";
                    Profile.connectionType := Some "4g";
                    Profile.connectionDownlink := Some 10%Q;
                    Profile.connectionSaveData := Some false |};
          Profile.rendererUnmasked := None;
          Profile.webglRenderer := Some "Mali-G710";
          Profile.fonts := Some ["Roboto"];
          Profile.advancedFonts := None;
          Profile.batteryLevel := None; Profile.batteryCharging := None;
          Profile.videoinput := None; Profile.audioinput := None;
          Profile.cookies := None;
          Profile.collectedAt := None; Profile.generatedAt := None;
          Profile.visitorId := None; Profile.componentsVisitorId := None |};
     Inference.languages := Some ["cs-CZ"; "en"];
     Inference.webdriver := false;
     Inference.canvas := true |}.

End Cases.
(** * Properties *)

Section RngFacts.

Lemma gcd_modulus_mult : Z.gcd Rng.MODULUS Rng.MULT = 1.
Proof. reflexivity. Qed.

(** The generator never leaves the range [1, MODULUS - 1]. *)
Lemma rng_valid (seed : Z) :
  Rng.valid seed -> Rng.valid (snd (Rng.rng seed)).
Proof.
  unfold Rng.valid, Rng.rng. cbn [snd]. intros [Hlo Hhi].
  assert (Hm : 0 < Rng.MODULUS) by reflexivity.
  assert (Hpos : 0 <= seed * Rng.MULT) by (unfold Rng.MULT; lia).
  rewrite Z.rem_mod_nonneg by lia.
  pose proof (Z.mod_pos_bound (seed * Rng.MULT) Rng.MODULUS Hm) as Hb.
  split; [| lia].
  destruct (Z.eq_dec ((seed * Rng.MULT) mod Rng.MODULUS) 0) as [Hz | Hnz]; [| lia].
  exfalso.
  apply Z.mod_divide in Hz; [| lia].
  rewrite Z.mul_comm in Hz.
  apply Z.gauss in Hz; [| exact gcd_modulus_mult].
  apply Z.divide_pos_le in Hz; lia.
Qed.

(** From a valid state [rng()] is a number in [0, 1). *)
Lemma rng_unit_interval (seed : Z) :
  Rng.valid seed -> (0 <= fst (Rng.rng seed) /\ fst (Rng.rng seed) < 1)%Q.
Proof.
  intros Hv. pose proof (rng_valid seed Hv) as [Hlo Hhi].
  unfold Rng.rng in *. cbn [fst snd] in *.
  set (s := Z.rem (seed * Rng.MULT) Rng.MODULUS) in *.
  unfold Rng.MODULUS in *.
  split.
  - apply Qle_shift_div_l; [reflexivity |].
    rewrite Qmult_0_l. rewrite <- (Zle_Qle 0). lia.
  - apply Qlt_shift_div_r; [reflexivity |].
    rewrite Qmult_1_l. rewrite <- Zlt_Qlt. lia.
Qed.

End RngFacts.

Section JsFacts.

Lemma ltb_true (a b : Q) : Js.ltb a b = true <-> (a < b)%Q.
Proof.
  unfold Js.ltb. rewrite negb_true_iff.
  split.
  - intros H. apply Qnot_le_lt. intros Hle.
    apply Qle_bool_iff in Hle. congruence.
  - intros H. destruct (Qle_bool b a) eqn:E; [| reflexivity].
    apply Qle_bool_iff in E. exfalso. exact (Qlt_not_le _ _ H E).
Qed.

Lemma ltb_false (a b : Q) : Js.ltb a b = false <-> (b <= a)%Q.
Proof.
  unfold Js.ltb. rewrite negb_false_iff. apply Qle_bool_iff.
Qed.

Lemma round_nonneg (x : Q) : (0 <= x)%Q -> 0 <= Js.round x.
Proof.
  intros H. unfold Js.round.
  change 0 with (Qfloor 0). apply Qfloor_resp_le. lra.
Qed.

End JsFacts.

Section ScaredTiming.
Import V4Timing.

Lemma curve_front (p : Q) : (p < 0.15)%Q -> curve p = 1.3%Q.
Proof. intros H. unfold curve. apply ltb_true in H. now rewrite H. Qed.

Lemma curve_early (p : Q) : (0.15 <= p)%Q -> (p < 0.5)%Q -> curve p = 0.75%Q.
Proof.
  intros H1 H2. unfold curve.
  apply ltb_false in H1. apply ltb_true in H2. now rewrite H1, H2.
Qed.

Lemma curve_middle (p : Q) : (0.5 <= p)%Q -> (p < 0.75)%Q -> curve p = 0.6%Q.
Proof.
  intros H1 H2. unfold curve.
  assert (H0 : (0.15 <= p)%Q) by lra.
  apply ltb_false in H0, H1. apply ltb_true in H2. now rewrite H0, H1, H2.
Qed.

Lemma curve_last_quarter (p : Q) :
  (0.75 <= p)%Q -> curve p = (1.1 + (p - 0.75) * 4)%Q.
Proof.
  intros H. unfold curve.
  assert (H0 : (0.15 <= p)%Q) by lra.
  assert (H1 : (0.5 <= p)%Q) by lra.
  apply ltb_false in H0, H1, H. now rewrite H0, H1, H.
Qed.

Lemma jitter_band (r : Q) :
  (0 <= r)%Q -> (r < 1)%Q -> (0.75 <= jitterOf r /\ jitterOf r < 1.25)%Q.
Proof.
  intros H0 H1. unfold jitterOf. split; lra.
Qed.

Lemma scaredTiming_floor (i t n : Z) (imp : string) (seed : Z) :
  (0.25 <= fst (scaredTiming i t n imp seed))%Q.
Proof.
  unfold scaredTiming. destruct (Rng.rng seed) as [r s'] eqn:E. cbn [fst].
  apply Q.le_max_l.
Qed.

Lemma scaredTiming_state (i t n : Z) (imp : string) (seed : Z) :
  snd (scaredTiming i t n imp seed) = snd (Rng.rng seed).
Proof.
  unfold scaredTiming. now destruct (Rng.rng seed).
Qed.

Lemma scaredTiming_value (i t n : Z) (imp : string) (seed : Z) :
  fst (scaredTiming i t n imp seed)
  = Js.max 0.25 (rawHold i t n imp (fst (Rng.rng seed))).
Proof.
  unfold scaredTiming, rawHold, jitterOf. now destruct (Rng.rng seed).
Qed.

End ScaredTiming.

Section V4Schedule.
Import Monolog.

Lemma charCodeSum_bounds (s : string) (acc : Z) :
  acc <= charCodeSum acc s <= acc + 255 * Z.of_nat (String.length s).
Proof.
  revert acc. induction s as [| ch s IH]; intros acc; cbn [charCodeSum String.length].
  - lia.
  - specialize (IH (acc + Z.of_nat (nat_of_ascii ch))).
    pose proof (nat_ascii_bounded ch). lia.
Qed.

(** The seed that [main] derives from a visitor id of ordinary length is
    a valid state of the generator. *)
Lemma seedOf_valid (fp : Profile.FpData) :
  Z.of_nat (String.length (orS (Profile.visitorId fp) "")) < 8000000 ->
  Rng.valid (seedOf fp).
Proof.
  intros Hlen. unfold seedOf, Rng.valid, Rng.MODULUS.
  pose proof (charCodeSum_bounds (orS (Profile.visitorId fp) "") 1). lia.
Qed.

(** Every hold that [main] attaches is a quarter second or more. *)
Lemma applyTimingFrom_holds (bs : list Block) (i total s : Z) :
  Forall (fun t => (0.25 <= holdSec t)%Q) (fst (applyTimingFrom i total bs s)).
Proof.
  revert i s. induction bs as [| b rest IH]; intros i s; [constructor |].
  cbn [applyTimingFrom].
  pose proof (scaredTiming_floor i total (Z.of_nat (List.length (lines b)))
                (importance b) s) as Hfloor.
  destruct (V4Timing.scaredTiming i total (Z.of_nat (List.length (lines b)))
              (importance b) s) as [h s1].
  specialize (IH (i + 1) s1).
  destruct (applyTimingFrom (i + 1) total rest s1) as [ts s2].
  cbn [fst] in *. constructor; [exact Hfloor | exact IH].
Qed.

(** So the blocks of every v4 schedule have non-negative holds. *)
Lemma schedule_holds (host : Profile.Host) (fp : Profile.FpData)
      (p : Profile.Profile) (sc : Profile.Scores) (seed prior : Z)
      (ts : list Timed) (s' : Z) :
  scheduleWith host fp p sc seed prior = Some (ts, s') ->
  Forall (fun b => (0 <= Timeline.hold b)%Q) (map Timeline.ofTimed ts).
Proof.
  unfold scheduleWith, applyTiming.
  destruct (buildMonolog host fp p sc) as [bs |]; [| discriminate].
  intros [= Heq].
  pose proof (applyTimingFrom_holds bs 0 (Z.of_nat (List.length bs))
                (Rng.srand seed prior)) as Hh.
  destruct (applyTimingFrom 0 (Z.of_nat (List.length bs)) bs
              (Rng.srand seed prior)) as [ts0 s0].
  injection Heq as -> ->. cbn [fst] in Hh.
  apply Forall_fmap. eapply Forall_impl; [exact Hh |].
  intros t Ht. unfold compose, Timeline.ofTimed. cbn [Timeline.hold].
  cbv beta in Ht. lra.
Qed.

End V4Schedule.

Section ScaredTimingClaim.
Import V4Timing.

(** C4, as stated, fails: for block 5 of 10 with one line and the flash
    tag the product is below a quarter of a second, and [scaredTiming]
    returns the quarter second instead. *)
Lemma scaredTiming_plain_product_fails :
  ~ plainProductHold 5 10 1 "flash" 42
  /\ (fst (scaredTiming 5 10 1 "flash" 42) == 0.25)%Q.
Proof.
  split.
  - unfold plainProductHold. intros H. vm_compute in H. discriminate H.
  - vm_compute. reflexivity.
Qed.

(** C4, amended: the hold is the larger of 0.25 s and
    (0.3 + 0.22 n) * curve * impMult * jitter, where the curve is 1.3
    before 15% of the timeline, 0.75 up to 50%, 0.6 up to 75% and
    1.1 + (progress - 0.75) * 4 in the last quarter, impMult is 0.35,
    2.2 or 1 for flash, linger and any other tag, and the jitter
    0.75 + rng() * 0.5 of the seeded generator lies within 25% of 1. *)
Theorem scaredTiming_hold
        (index total lineCount : Z) (importance : string) (seed : Z)
        (Hseed : Rng.valid seed) :
  let progress := (inject_Z index / inject_Z (Z.max total 1))%Q in
  let base := (0.3 + inject_Z lineCount * 0.22)%Q in
  let r := fst (Rng.rng seed) in
  let jitter := (0.75 + r * 0.5)%Q in
  let m := impMult importance in
  let hold := fst (scaredTiming index total lineCount importance seed) in
  ((progress < 0.15)%Q -> hold = Js.max 0.25 (base * 1.3 * m * jitter)%Q)
  /\ ((0.15 <= progress)%Q -> (progress < 0.5)%Q ->
      hold = Js.max 0.25 (base * 0.75 * m * jitter)%Q)
  /\ ((0.5 <= progress)%Q -> (progress < 0.75)%Q ->
      hold = Js.max 0.25 (base * 0.6 * m * jitter)%Q)
  /\ ((0.75 <= progress)%Q ->
      hold = Js.max 0.25 (base * (1.1 + (progress - 0.75) * 4) * m * jitter)%Q)
  /\ (importance = "flash" -> m = 0.35%Q)
  /\ (importance = "linger" -> m = 2.2%Q)
  /\ (importance <> "flash" -> importance <> "linger" -> m = 1.0%Q)
  /\ (0 <= r /\ r < 1)%Q
  /\ (0.75 <= jitter /\ jitter < 1.25)%Q
  /\ (0.25 <= hold)%Q
  /\ snd (scaredTiming index total lineCount importance seed) = snd (Rng.rng seed)
  /\ Rng.valid (snd (scaredTiming index total lineCount importance seed)).
Proof.
  intros progress base r jitter m hold.
  assert (Hval : hold = Js.max 0.25 (base * curve progress * m * jitter)%Q).
  { subst hold. rewrite scaredTiming_value. reflexivity. }
  pose proof (rng_unit_interval seed Hseed) as [Hr0 Hr1].
  repeat match goal with |- _ /\ _ => split end.
  - intros H. rewrite Hval, (curve_front _ H). reflexivity.
  - intros H1 H2. rewrite Hval, (curve_early _ H1 H2). reflexivity.
  - intros H1 H2. rewrite Hval, (curve_middle _ H1 H2). reflexivity.
  - intros H. rewrite Hval, (curve_last_quarter _ H). reflexivity.
  - intros ->. reflexivity.
  - intros ->. reflexivity.
  - intros Hf Hl. subst m. unfold impMult.
    destruct (String.eqb_spec importance "flash"); [contradiction |].
    destruct (String.eqb_spec importance "linger"); [contradiction |].
    reflexivity.
  - exact Hr0.
  - exact Hr1.
  - apply (jitter_band r Hr0 Hr1).
  - apply (jitter_band r Hr0 Hr1).
  - apply scaredTiming_floor.
  - apply scaredTiming_state.
  - rewrite scaredTiming_state. apply rng_valid. exact Hseed.
Qed.

(** The amended claim at block 5 of 10, one line, flash, seed 42. *)
Lemma scaredTiming_hold_witness :
  Rng.valid 42
  /\ (0.25 <= fst (scaredTiming 5 10 1 "flash" 42))%Q.
Proof.
  assert (Hv : Rng.valid 42) by (unfold Rng.valid, Rng.MODULUS; lia).
  split; [exact Hv |].
  apply (scaredTiming_hold 5 10 1 "flash" 42 Hv).
Defined.

End ScaredTimingClaim.

Section TimelineFacts.
Import Timeline.
Context (c : Consts).

Lemma timingsFrom_cons (s : Z) (b : Block) (bs : list Block) :
  timingsFrom c s (b :: bs)
  = (timingOf c s b :: fst (timingsFrom c (s + blockDuration c b) bs),
     snd (timingsFrom c (s + blockDuration c b) bs)).
Proof.
  cbn [timingsFrom].
  now destruct (timingsFrom c (s + blockDuration c b) bs).
Qed.

Lemma timingsFrom_length (bs : list Block) (s : Z) :
  List.length (fst (timingsFrom c s bs)) = List.length bs.
Proof.
  revert s. induction bs as [| b bs IH]; intros s; [reflexivity |].
  rewrite timingsFrom_cons. cbn [fst List.length]. now rewrite IH.
Qed.

Lemma timingsFrom_total (bs : list Block) (s : Z) :
  snd (timingsFrom c s bs) = s + sumDurations (fst (timingsFrom c s bs)).
Proof.
  revert s. induction bs as [| b bs IH]; intros s.
  - cbn. lia.
  - rewrite timingsFrom_cons. cbn [fst snd sumDurations fold_right].
    rewrite IH. unfold sumDurations. cbn [duration timingOf]. lia.
Qed.

(** Entry [i] of the timings is built from block [i]. *)
Lemma timingsFrom_lookup (bs : list Block) (s : Z) (i : nat) (b : Block) :
  bs !! i = Some b ->
  exists t, fst (timingsFrom c s bs) !! i = Some t
            /\ duration t = blockDuration c b
            /\ linesFrames t = linesFramesOf c b
            /\ holdFrames t = holdFramesOf b
            /\ start t = s + sumDurations (firstn i (fst (timingsFrom c s bs))).
Proof.
  revert s i. induction bs as [| b0 bs IH]; intros s i Hb; [discriminate |].
  rewrite timingsFrom_cons. cbn [fst].
  destruct i as [| i].
  - injection Hb as <-. exists (timingOf c s b0). cbn. repeat split; lia.
  - cbn in Hb. destruct (IH (s + blockDuration c b0) i Hb)
      as (t & Ht & Hd & Hl & Hh & Hs).
    exists t. cbn [lookup list_lookup firstn]. split; [exact Ht |].
    repeat split; try assumption.
    rewrite Hs. unfold sumDurations. cbn [fold_right duration timingOf]. lia.
Qed.

(** Each interval starts where the one before it ends. *)
Lemma timingsFrom_consecutive (bs : list Block) (s : Z) (i : nat) (t t' : Timing) :
  fst (timingsFrom c s bs) !! i = Some t ->
  fst (timingsFrom c s bs) !! S i = Some t' ->
  start t' = start t + duration t.
Proof.
  revert s i. induction bs as [| b0 bs IH]; intros s i H1 H2; [discriminate |].
  rewrite timingsFrom_cons in H1, H2. cbn [fst] in H1, H2.
  destruct i as [| i].
  - injection H1 as <-. cbn in H2.
    destruct bs as [| b1 bs]; [discriminate |].
    rewrite timingsFrom_cons in H2. cbn in H2. injection H2 as <-.
    reflexivity.
  - cbn in H1, H2. exact (IH _ _ H1 H2).
Qed.

Lemma timingsFrom_first (bs : list Block) (s : Z) (t : Timing) :
  fst (timingsFrom c s bs) !! 0%nat = Some t -> start t = s.
Proof.
  destruct bs as [| b bs]; [discriminate |].
  rewrite timingsFrom_cons. cbn. now intros [= <-].
Qed.

End TimelineFacts.

Section TimelineCover.
Import Timeline.
Context (c : Consts).

Lemma covers_true (t : Timing) (f : Z) :
  covers t f = true <-> start t <= f < start t + duration t.
Proof.
  unfold covers. rewrite negb_true_iff, orb_false_iff, Z.ltb_ge, Z.leb_gt. lia.
Qed.

Lemma covers_false (t : Timing) (f : Z) :
  covers t f = false <-> f < start t \/ start t + duration t <= f.
Proof.
  unfold covers. rewrite negb_false_iff, orb_true_iff, Z.ltb_lt, Z.leb_le. lia.
Qed.

Lemma activeFrom_none (l : list Timing) (k : nat) (f : Z) :
  (forall j t, l !! j = Some t -> covers t f = false) ->
  activeFrom k l f = None.
Proof.
  revert k. induction l as [| t0 l IH]; intros k Hn; [reflexivity |].
  cbn [activeFrom]. rewrite (Hn 0%nat t0 eq_refl).
  apply IH. intros j t' Ht'. exact (Hn (S j) t' Ht').
Qed.

(** With positive durations every interval lies between the running
    total before the loop and the one after it. *)
Lemma timing_within (bs : list Block) (s : Z) (j : nat) (t : Timing) :
  Forall (fun b => 0 < blockDuration c b) bs ->
  fst (timingsFrom c s bs) !! j = Some t ->
  s <= start t /\ 0 < duration t
  /\ start t + duration t <= snd (timingsFrom c s bs).
Proof.
  intros Hpos. revert s j.
  induction Hpos as [| b bs Hb Hbs IH]; intros s j Ht; [discriminate |].
  rewrite timingsFrom_cons in *. cbn [fst snd] in *.
  destruct j as [| j].
  - injection Ht as <-. cbn [start duration timingOf].
    rewrite timingsFrom_total.
    assert (0 <= sumDurations (fst (timingsFrom c (s + blockDuration c b) bs))).
    { clear -Hbs. generalize (s + blockDuration c b). intros s0.
      revert s0. induction Hbs as [| b' bs' Hb' _ IH']; intros s0; [cbn; lia |].
      rewrite timingsFrom_cons. cbn [fst sumDurations fold_right].
      specialize (IH' (s0 + blockDuration c b')).
      unfold sumDurations in IH'. cbn [duration timingOf]. lia. }
    lia.
  - cbn in Ht. specialize (IH _ _ Ht). lia.
Qed.

(** A frame between the start of the loop and its final total lies in
    exactly one interval, and the rasterizer's scan finds it. *)
Lemma cover_unique (bs : list Block) (s f : Z) :
  Forall (fun b => 0 < blockDuration c b) bs ->
  s <= f < snd (timingsFrom c s bs) ->
  exists i t,
    fst (timingsFrom c s bs) !! i = Some t
    /\ covers t f = true
    /\ (forall k, activeFrom k (fst (timingsFrom c s bs)) f = Some (k + i)%nat)
    /\ (forall j t', fst (timingsFrom c s bs) !! j = Some t' ->
                     covers t' f = true -> j = i).
Proof.
  intros Hpos. revert s.
  induction Hpos as [| b bs Hb Hbs IH]; intros s Hf.
  - cbn in Hf. lia.
  - rewrite timingsFrom_cons in *. cbn [fst snd] in *.
    destruct (Z_lt_le_dec f (s + blockDuration c b)) as [Hin | Hout].
    + exists 0%nat, (timingOf c s b).
      assert (Hc : covers (timingOf c s b) f = true).
      { apply covers_true. cbn [start duration timingOf]. lia. }
      split; [reflexivity |]. split; [exact Hc |]. split.
      * intros k. cbn [activeFrom]. rewrite Hc. f_equal. lia.
      * intros [| j] t' Ht' Hc'; [reflexivity |]. exfalso.
        cbn in Ht'. apply covers_true in Hc'.
        pose proof (timing_within bs _ j t' Hbs Ht'). lia.
    + destruct (IH (s + blockDuration c b)) as (i & t & Ht & Hc & Hact & Huniq);
        [lia |].
      assert (Hhead : covers (timingOf c s b) f = false).
      { apply covers_false. cbn [start duration timingOf]. lia. }
      exists (S i), t. split; [exact Ht |]. split; [exact Hc |]. split.
      * intros k. cbn [activeFrom]. rewrite Hhead, Hact. f_equal. lia.
      * intros [| j] t' Ht' Hc'.
        -- cbn in Ht'. injection Ht' as <-. congruence.
        -- cbn in Ht'. f_equal. exact (Huniq j t' Ht' Hc').
Qed.

End TimelineCover.

Section TimelineClaims.
Import Timeline.

(** Every variant's timing constants and a non-negative hold give a
    positive duration. *)
Lemma duration_positive (c : Consts) (b : Block) :
  c = v1 \/ c = v2 \/ c = v4 -> (0 <= hold b)%Q -> 0 < blockDuration c b.
Proof.
  intros Hc Hh.
  assert (0 <= holdFramesOf b).
  { unfold holdFramesOf. apply round_nonneg.
    apply Qmult_le_0_compat; [exact Hh | discriminate]. }
  unfold blockDuration, linesFramesOf.
  destruct Hc as [-> | [-> | ->]];
    cbn [LINE_GAP LINE_FADE FADE_OUT BLOCK_BLACK v1 v2 v4]; lia.
Qed.

(** C3: the frame duration of every block is
    lines * LINE_GAP + LINE_FADE + round(hold * FPS) + FADE_OUT + BLOCK_BLACK,
    and a block without lines (whose hold is not negative) still takes
    LINE_FADE + FADE_OUT + BLOCK_BLACK frames or more. *)
Theorem block_duration_formula
        (c : Consts) (blocks : list Block) (i : nat) (b : Block)
        (Hb : blocks !! i = Some b) :
  exists t,
    blockTimings c blocks !! i = Some t
    /\ duration t
       = Z.of_nat (List.length (lines b)) * LINE_GAP c + LINE_FADE c
         + Js.round (hold b * inject_Z FPS)%Q + FADE_OUT c + BLOCK_BLACK c
    /\ (lines b = [] -> (0 <= hold b)%Q ->
        LINE_FADE c + FADE_OUT c + BLOCK_BLACK c <= duration t).
Proof.
  destruct (timingsFrom_lookup c blocks 0 i b Hb) as (t & Ht & Hd & _).
  exists t. split; [exact Ht |]. split.
  - rewrite Hd. reflexivity.
  - intros Hnil Hh. rewrite Hd. unfold blockDuration, linesFramesOf.
    rewrite Hnil. cbn [List.length].
    assert (0 <= holdFramesOf b).
    { unfold holdFramesOf. apply round_nonneg.
      apply Qmult_le_0_compat; [exact Hh | discriminate]. }
    lia.
Qed.

(** C3 at the v2 constants: an empty block that holds for one second
    takes 8 + 30 + 10 + 12 = 60 frames. *)
Lemma block_duration_formula_witness :
  exists t,
    blockTimings v2 [{| lines := []; hold := 1 |}] !! 0%nat = Some t
    /\ duration t = 60.
Proof.
  destruct (block_duration_formula v2 [{| lines := []; hold := 1 |}] 0
              {| lines := []; hold := 1 |} eq_refl) as (t & Ht & Hd & _).
  exists t. split; [exact Ht |]. rewrite Hd. reflexivity.
Defined.

(** C2, as stated, fails: v2's opening block lasts 57 frames, a film of
    this block alone 87, and frame 57 lies in no block. *)
Lemma tail_frames_in_no_block :
  ~ everyFrameInABlock v2 [{| lines := ["scanning."]; hold := 0.7 |}].
Proof.
  intros H. destruct (H 57) as (i & t & Ht & Hc).
  - vm_compute. split; [discriminate | reflexivity].
  - destruct i as [| i]; [| destruct i; discriminate Ht].
    injection Ht as <-. vm_compute in Hc. discriminate Hc.
Qed.

(** C2, amended: for a block list with non-negative holds the intervals
    are consecutive from frame 0, [totalFrames] is their total length
    plus the 30 tail frames, every frame below [totalFrames - 30] lies
    in exactly one interval (the one the rasterizer's scan finds), and
    the 30 tail frames lie in none. *)
Theorem timeline_partition
        (c : Consts) (blocks : list Block)
        (Hc : c = v1 \/ c = v2 \/ c = v4)
        (Hhold : Forall (fun b => (0 <= hold b)%Q) blocks) :
  let ts := blockTimings c blocks in
  let total := totalFrames c blocks in
  List.length ts = List.length blocks
  /\ (forall t, ts !! 0%nat = Some t -> start t = 0)
  /\ (forall i t t', ts !! i = Some t -> ts !! S i = Some t' ->
                     start t' = start t + duration t)
  /\ total = sumDurations ts + TAIL
  /\ (forall f, 0 <= f < total - TAIL ->
        exists i t, ts !! i = Some t /\ covers t f = true
                    /\ active ts f = Some i
                    /\ forall j t', ts !! j = Some t' ->
                                    covers t' f = true -> j = i)
  /\ (forall f, total - TAIL <= f < total ->
        active ts f = None
        /\ forall j t', ts !! j = Some t' -> covers t' f = false).
Proof.
  intros ts total. subst ts total. unfold blockTimings, totalFrames.
  assert (Hpos : Forall (fun b => 0 < blockDuration c b) blocks).
  { eapply Forall_impl; [exact Hhold |]. intros b Hb.
    apply duration_positive; assumption. }
  split; [apply timingsFrom_length |].
  split; [intros t Ht; exact (timingsFrom_first c blocks 0 t Ht) |].
  split; [intros i t t'; apply timingsFrom_consecutive |].
  split; [rewrite timingsFrom_total; lia |].
  split.
  - intros f Hf.
    destruct (cover_unique c blocks 0 f Hpos) as (i & t & Ht & Hcov & Hact & Hu);
      [lia |].
    exists i, t. split; [exact Ht |]. split; [exact Hcov |]. split.
    + unfold active. rewrite Hact. reflexivity.
    + exact Hu.
  - intros f Hf.
    assert (Hnone : forall j t', fst (timingsFrom c 0 blocks) !! j = Some t' ->
                                 covers t' f = false).
    { intros j t' Ht'. apply covers_false.
      pose proof (timing_within c blocks 0 j t' Hpos Ht'). lia. }
    split; [| exact Hnone].
    apply activeFrom_none. exact Hnone.
Qed.

(** C2 amended, at v2's first two blocks: 57 + 78 frames and the tail. *)
Lemma timeline_partition_witness :
  Forall (fun b => (0 <= hold b)%Q) v2Opening
  /\ totalFrames v2 v2Opening = sumDurations (blockTimings v2 v2Opening) + TAIL.
Proof.
  assert (Hh : Forall (fun b => (0 <= hold b)%Q) v2Opening).
  { repeat constructor; discriminate. }
  split; [exact Hh |].
  apply (timeline_partition v2 v2Opening (or_intror (or_introl eq_refl)) Hh).
Defined.

End TimelineClaims.

Section FrameLoop.
Import Pipe.
Context {Frame : Type} (paint : Z -> Frame) (ch : @Channel Frame).

(** What the channel logs of the loop: the monitor changes neither the
    channel nor the loop; the calls are paced; the writes are a prefix
    of the frames; the loop is suspended exactly at a refused write
    whose drain never comes. *)
Lemma loop_logged (frames : list Z) (c : chan ch) (l0 : list (@Call Frame)) :
  exists ext k,
    snd (stateOf (loopFrom paint (logged ch) frames (c, l0))) = l0 ++ ext
    /\ fst (stateOf (loopFrom paint (logged ch) frames (c, l0)))
       = stateOf (loopFrom paint ch frames c)
    /\ finished (loopFrom paint (logged ch) frames (c, l0))
       = finished (loopFrom paint ch frames c)
    /\ paced ext = true /\ noDrainFirst ext = true
    /\ (k <= List.length frames)%nat
    /\ written ext = map paint (firstn k frames)
    /\ (finished (loopFrom paint ch frames c) = true -> k = List.length frames)
    /\ (frames <> [] ->
        finished (loopFrom paint ch frames c) = negb (endsRefused ext))
    /\ (frames = [] -> ext = [])
    /\ (finished (loopFrom paint ch frames c) = false ->
        drain ch (stateOf (loopFrom paint ch frames c)) = None).
Proof.
  revert c l0. induction frames as [| gf rest IH]; intros c l0.
  - exists [], 0%nat. cbn. rewrite app_nil_r.
    repeat split; try reflexivity; try congruence; try lia.
  - cbn [loopFrom logged write drain fst snd].
    destruct (write ch c (paint gf)) as [c1 [|]] eqn:Hw; cbn [fst snd].
    + destruct (IH c1 (l0 ++ [Write (paint gf) true]))
        as (ext & k & Hlog & Hst & Hfin & Hp & Hn & Hk & Hwr & Hall & Hend
            & Hnil & Hdr).
      exists (Write (paint gf) true :: ext), (S k).
      rewrite Hlog, Hst, Hfin, <- app_assoc. cbn [app written firstn map paced].
      rewrite Hn, Hp, Hwr. cbn [List.length].
      split; [reflexivity |]. split; [reflexivity |]. split; [reflexivity |].
      split; [reflexivity |]. split; [reflexivity |]. split; [lia |].
      split; [reflexivity |].
      split; [intros H; f_equal; exact (Hall H) |].
      split; [| split; [discriminate | exact Hdr]].
      intros _. destruct rest as [| gf' rest'].
      * rewrite (Hnil eq_refl). reflexivity.
      * rewrite Hend by discriminate. f_equal.
        destruct ext as [| e ext']; [| reflexivity].
        exfalso. destruct k; cbn in Hwr; [| discriminate].
        specialize (Hend ltac:(discriminate)). cbn in Hend.
        specialize (Hall Hend). discriminate.
    + destruct (drain ch c1) as [c2 |] eqn:Hd.
      * destruct (IH c2 ((l0 ++ [Write (paint gf) false]) ++ [Drain]))
          as (ext & k & Hlog & Hst & Hfin & Hp & Hn & Hk & Hwr & Hall & Hend
              & Hnil & Hdr).
        exists (Write (paint gf) false :: Drain :: ext), (S k).
        rewrite Hlog, Hst, Hfin, <- !app_assoc.
        cbn [app written firstn map paced]. rewrite Hn, Hp, Hwr.
        cbn [List.length].
        split; [reflexivity |]. split; [reflexivity |]. split; [reflexivity |].
        split; [reflexivity |]. split; [reflexivity |]. split; [lia |].
        split; [reflexivity |].
        split; [intros H; f_equal; exact (Hall H) |].
        split; [| split; [discriminate | exact Hdr]].
        intros _. destruct rest as [| gf' rest'].
        -- rewrite (Hnil eq_refl). reflexivity.
        -- rewrite Hend by discriminate. f_equal.
           destruct ext as [| e ext']; [| reflexivity].
           exfalso. destruct k; cbn in Hwr; [| discriminate].
           specialize (Hend ltac:(discriminate)). cbn in Hend.
           specialize (Hall Hend). discriminate.
      * exists [Write (paint gf) false], 1%nat. cbn [stateOf finished fst snd].
        split; [reflexivity |]. split; [reflexivity |]. split; [reflexivity |].
        split; [reflexivity |]. split; [reflexivity |].
        split; [cbn; lia |]. split; [reflexivity |].
        split; [discriminate |]. split; [reflexivity |].
        split; [discriminate | intros _; exact Hd].
Qed.

(** On a channel whose drains arrive, the loop finishes. *)
Lemma loop_finishes (frames : list Z) (c : chan ch) :
  live ch -> finished (loopFrom paint ch frames c) = true.
Proof.
  intros Hlive. revert c. induction frames as [| gf rest IH]; intros c;
    [reflexivity |].
  cbn [loopFrom]. destruct (write ch c (paint gf)) as [c1 [|]].
  - apply IH.
  - destruct (drain ch c1) as [c2 |] eqn:E.
    + apply IH.
    + exfalso. exact (Hlive c1 E).
Qed.

(** On a Node stream the encoder reads the frames in the order of the
    loop, whatever the high-water mark. *)
Lemma nodeStream_input (hwm : nat) (frames : list Z) (c : Stream) :
  finished (loopFrom paint (nodeStream hwm) frames c) = true
  /\ encoderInput (stateOf (loopFrom paint (nodeStream hwm) frames c))
     = encoderInput c ++ map paint frames.
Proof.
  revert c. induction frames as [| gf rest IH]; intros c.
  - cbn. now rewrite app_nil_r.
  - cbn [loopFrom nodeStream write drain].
    destruct (Nat.ltb (List.length (pending c ++ [paint gf])) hwm).
    + destruct (IH {| pending := pending c ++ [paint gf];
                      received := received c |}) as [Hf Hi].
      split; [exact Hf |].
      rewrite Hi. unfold encoderInput. cbn [pending received map].
      now rewrite <- !app_assoc.
    + destruct (IH {| pending := [];
                      received := received c ++ pending c ++ [paint gf] |})
        as [Hf Hi].
      cbn [pending received] in *. split; [exact Hf |].
      rewrite Hi. unfold encoderInput. cbn [pending received map].
      rewrite app_nil_r. now rewrite <- !app_assoc.
Qed.

Lemma frameIndices_lookup (total : Z) (i : nat) :
  (i < Z.to_nat total)%nat -> frameIndices total !! i = Some (Z.of_nat i).
Proof.
  intros Hi. unfold frameIndices.
  rewrite list_lookup_fmap, lookup_seq_lt by exact Hi. reflexivity.
Qed.

Lemma frameIndices_length (total : Z) :
  List.length (frameIndices total) = Z.to_nat total.
Proof. unfold frameIndices. now rewrite length_map, length_seq. Qed.

Lemma endsRefused_spec (l : list (@Call Frame)) :
  endsRefused l = true <-> exists l' buf, l = l' ++ [Write buf false].
Proof.
  unfold endsRefused. split.
  - destruct (last l) as [[buf [|] |] |] eqn:Hl; try discriminate.
    intros _. apply last_Some in Hl as [l' ->]. now exists l', buf.
  - intros (l' & buf & ->). now rewrite last_snoc.
Qed.

End FrameLoop.

Section FrameLoopClaim.
Import Pipe.

(** C6, as stated, fails on a channel that never drains: after the
    refused write of frame 0 the loop stays suspended, and frame 1 is
    never handed over. *)
Lemma stuck_channel_starves : ~ submitsEveryFrame (fun gf : Z => gf).
Proof.
  intros H. specialize (H stuck 2 tt). vm_compute in H. discriminate H.
Qed.

(** C6, amended: for every frame count and every input channel, the
    channel sees the frames 0, 1, 2, ... written in this order, one
    write per frame, none skipped, repeated or reordered; between a
    refused write and the next write the channel's drain has fired, and
    the loop awaits a drain nowhere else; the loop stops short of
    [totalFrames] frames only suspended behind a refused write whose
    drain never comes; when the awaited drains arrive it hands over
    exactly [totalFrames] frames.  On a Node stream of any high-water
    mark the encoder reads them in that order. *)
Theorem frame_loop_backpressure
        {Frame : Type} (paint : Z -> Frame) (ch : @Channel Frame)
        (totalFrames : Z) (c : chan ch) :
  let o := frameLoop paint (logged ch) totalFrames (c, []) in
  let log := snd (stateOf o) in
  fst (stateOf o) = stateOf (frameLoop paint ch totalFrames c)
  /\ finished o = finished (frameLoop paint ch totalFrames c)
  /\ paced log = true
  /\ (exists k, (k <= Z.to_nat totalFrames)%nat
                /\ written log = map paint (firstn k (frameIndices totalFrames))
                /\ (finished o = true -> k = Z.to_nat totalFrames))
  /\ (finished o = false <-> exists l buf, log = l ++ [Write buf false])
  /\ (finished o = false -> drain ch (fst (stateOf o)) = None)
  /\ (live ch ->
      finished o = true
      /\ written log = map paint (frameIndices totalFrames)
      /\ List.length (written log) = Z.to_nat totalFrames)
  /\ (forall i, (i < Z.to_nat totalFrames)%nat ->
                frameIndices totalFrames !! i = Some (Z.of_nat i))
  /\ (forall highWaterMark s,
        encoderInput (stateOf (frameLoop paint (nodeStream highWaterMark)
                                         totalFrames s))
        = encoderInput s ++ map paint (frameIndices totalFrames)).
Proof.
  intros o log. subst o log. unfold frameLoop.
  destruct (loop_logged paint ch (frameIndices totalFrames) c [])
    as (ext & k & Hlog & Hst & Hfin & Hp & _ & Hk & Hwr & Hall & Hend & Hnil
        & Hdr).
  cbn [app] in Hlog. rewrite Hlog, Hst, Hfin.
  rewrite frameIndices_length in Hk, Hall.
  split; [reflexivity |]. split; [reflexivity |]. split; [exact Hp |].
  split; [exists k; split; [exact Hk | split; [exact Hwr | exact Hall]] |].
  split.
  { rewrite <- endsRefused_spec.
    destruct (frameIndices totalFrames) as [| gf rest] eqn:Hfr.
    - rewrite (Hnil eq_refl). cbn. split; discriminate.
    - rewrite Hend by discriminate.
      destruct (endsRefused ext); cbn; split; congruence. }
  split; [exact Hdr |].
  split; [| split; [intros i; apply frameIndices_lookup
                   | intros hwm s; apply nodeStream_input]].
  intros Hlive.
  pose proof (loop_finishes paint ch (frameIndices totalFrames) c Hlive) as Hf.
  specialize (Hall Hf). subst k.
  rewrite <- (frameIndices_length totalFrames), firstn_all in Hwr.
  split; [exact Hf |]. split; [exact Hwr |].
  rewrite Hwr, length_map. apply frameIndices_length.
Qed.

Lemma everyOther_live {Frame : Type} : live (@everyOther Frame).
Proof. intros c. discriminate. Qed.

(** C6 on the channel that accepts a write only every other call, with
    the frame index as the frame: four frames arrive in order. *)
Lemma frame_loop_backpressure_witness :
  live (@everyOther Z)
  /\ written (snd (stateOf (frameLoop (fun gf => gf) (logged everyOther) 4
                                      (0%nat, []))))
     = [0; 1; 2; 3].
Proof.
  split; [exact everyOther_live |].
  apply (frame_loop_backpressure (fun gf => gf) everyOther 4 0%nat).
  exact everyOther_live.
Defined.

End FrameLoopClaim.

Section PathFacts.
Import Render.

Lemma string_length_app (a b : string) :
  String.length (a +:+ b) = (String.length a + String.length b)%nat.
Proof.
  induction a as [| ch a IH]; [reflexivity |].
  change (S (String.length (a +:+ b)) = S (String.length a + String.length b)).
  now rewrite IH.
Qed.

Lemma substring_prefix_length (k : nat) (s : string) :
  (k <= String.length s)%nat -> String.length (String.substring 0 k s) = k.
Proof.
  revert s. induction k as [| k IH]; intros s Hk.
  - destruct s; reflexivity.
  - destruct s as [| ch s]; cbn in *; [lia |]. rewrite IH; [reflexivity | lia].
Qed.


Lemma endsWith_long (s p : string) :
  Js.endsWith s p = true ->
  (String.length p <= String.length s)%nat
  /\ String.substring (String.length s - String.length p) (String.length p) s = p.
Proof.
  unfold Js.endsWith. rewrite andb_true_iff, Nat.leb_le, String.eqb_eq. tauto.
Qed.

(** For an output path that ends in .mp4 the silent intermediate is a
    different path. *)
Lemma silentPath_differs (out : string) :
  Js.endsWith out ".mp4" = true -> silentPathOf out <> out.
Proof.
  intros H. unfold silentPathOf, replaceMp4. rewrite H.
  apply endsWith_long in H as [Hlen _]. cbn in Hlen.
  intros Heq. apply (f_equal String.length) in Heq.
  rewrite string_length_app, substring_prefix_length in Heq by lia.
  cbn in Heq. lia.
Qed.


Lemma silentPath_not_audioPath (out : string) :
  Js.endsWith out ".mp4" = true -> silentPathOf out <> audioPathOf out.
Proof.
  intros H. unfold silentPathOf, audioPathOf, replaceMp4. rewrite H.
  apply endsWith_long in H as [Hlen _]. cbn in Hlen.
  intros Heq. apply (f_equal String.length) in Heq.
  rewrite !string_length_app, !substring_prefix_length in Heq by lia.
  cbn in Heq. lia.
Qed.

End PathFacts.

Section EncodeFailure.
Import Render.





End EncodeFailure.

Section AudioFallback.
Import Render.

Lemma fallback_moves_silent (silent out : string) (video : Bytes) (fs : FS) :
  fs !! silent = Some video ->
  fallbackToSilent silent out fs = <[out := video]> (delete silent fs).
Proof. intros H. unfold fallbackToSilent, renameSync. now rewrite H. Qed.

Lemma stat_after_insert (out : string) (b : Bytes) (fs : FS) :
  statSync out (<[out := b]> fs) = Done.
Proof. unfold statSync. now rewrite lookup_insert_eq. Qed.

(** v2: whenever the audio step fails after a successful encode, the
    render succeeds and the output path holds the silent video, moved
    there by the rename. *)
Lemma v2_audio_fallback
      (env : V2Env) (fs : FS) (out : string) (err : string) (video : Bytes) :
  Js.endsWith out ".mp4" = true ->
  encode2 env = Closed (Some 0) err (Some video) ->
  snd (sonify env (<[silentPathOf out := video]> fs)) !! silentPathOf out
    = Some video ->
  audioStepFails2 env (silentPathOf out) (<[silentPathOf out := video]> fs) ->
  exists fs',
    v2Main env fs out = (Done, fs')
    /\ fs' !! out = Some video
    /\ fs' !! silentPathOf out = None.
Proof.
  intros Hmp4 Henc Hkeep Hfail.
  pose proof (silentPath_differs out Hmp4) as Hne.
  unfold v2Main. rewrite Henc. cbn [frameWrites awaitEncode encodeEffect applyWrote].
  set (silent := silentPathOf out) in *.
  set (fs1 := <[silent := video]> fs) in *.
  unfold audioStepFails2 in Hfail. unfold v2Try.
  destruct (sonify env fs1) as [ok fsS]. cbn [fst snd] in *.
  assert (Hmove : forall fsX, fsX !! silent = Some video ->
            exists fs', (statSync out (<[out := video]> (delete silent fsX)),
                         <[out := video]> (delete silent fsX)) = (Done, fs')
                        /\ fs' !! out = Some video /\ fs' !! silent = None).
  { intros fsX _. eexists. rewrite stat_after_insert. split; [reflexivity |].
    split; [apply lookup_insert_eq |].
    rewrite lookup_insert_ne by congruence. apply lookup_delete_eq. }
  assert (Hrename : renameSync silent out fsS
                    = Some (<[out := video]> (delete silent fsS))).
  { unfold renameSync. now rewrite Hkeep. }
  destruct ok.
  - destruct Hfail as [Hf | [Hf | [Hf | (wp & Hw & Hf)]]]; [discriminate | | |].
    + rewrite Hf. rewrite (fallback_moves_silent _ _ _ _ Hkeep). now apply Hmove.
    + rewrite Hf, Hrename. now apply Hmove.
    + rewrite Hw. destruct Hf as [Hmiss | (w & Hmux)].
      * rewrite Hmiss, Hrename. now apply Hmove.
      * destruct (fsS !! wp) as [wavBytes |].
        -- rewrite Hmux.
           assert (Hk : applyWrote out w fsS !! silent = Some video).
           { destruct w as [b |]; cbn; [| exact Hkeep].
             rewrite lookup_insert_ne by congruence. exact Hkeep. }
           rewrite (fallback_moves_silent _ _ _ _ Hk).
           destruct w as [b |]; cbn [applyWrote]; now apply Hmove.
        -- rewrite Hrename. now apply Hmove.
  - rewrite (fallback_moves_silent _ _ _ _ Hkeep). now apply Hmove.
Qed.

(** v4: when the mux throws after a successful encode, the render
    succeeds with the silent video at the output path. *)
Lemma v4_mux_fallback
      (env : V4Env) (fs : FS) (out : string) (err : string)
      (wav video : Bytes) (w : option Bytes) :
  Js.endsWith out ".mp4" = true ->
  audioWrite env = AudioWritten wav ->
  encode4 env = Closed (Some 0) err (Some video) ->
  mux4 env (<[silentPathOf out := video]> (<[audioPathOf out := wav]> fs))
       (silentPathOf out) (audioPathOf out) = MuxFail w ->
  (forall f fsX, img2sound env = Some f -> f fsX !! out = fsX !! out) ->
  exists fs', v4Main env fs out = (Done, fs') /\ fs' !! out = Some video.
Proof.
  intros Hmp4 Hwav Henc Hmux Himg.
  pose proof (silentPath_differs out Hmp4) as Hne.
  unfold v4Main. rewrite Hwav, Henc.
  cbn [frameWrites awaitEncode encodeEffect applyWrote]. rewrite Hmux.
  set (silent := silentPathOf out) in *.
  set (fs1 := <[silent := video]> _) in *.
  assert (Hk : applyWrote out w fs1 !! silent = Some video).
  { subst fs1. destruct w as [b |]; cbn.
    - rewrite lookup_insert_ne by congruence. apply lookup_insert_eq.
    - apply lookup_insert_eq. }
  rewrite (fallback_moves_silent _ _ _ _ Hk).
  set (fs2 := <[out := video]> _).
  assert (H2 : fs2 !! out = Some video) by apply lookup_insert_eq.
  destruct (img2sound env) as [f |] eqn:Ef.
  - exists (f fs2). unfold statSync.
    rewrite (Himg f fs2 eq_refl), H2. split; reflexivity.
  - exists fs2. unfold statSync. rewrite H2. split; reflexivity.
Qed.

(** C8 on the code: v2 falls back to the silent video when its audio
    synthesis throws, but v4 calls [generateAudio] outside every [try]:
    when it throws the render fails and no file reaches the output
    path. *)
Theorem v4_synthesis_failure_aborts :
  v2Main v2SonifierThrows ∅ "out.mp4" = (Done, <["out.mp4" := "video"]> ∅)
  /\ fst (v4Main v4SynthesisThrows ∅ "out.mp4")
     = Failed "EISDIR: illegal operation on a directory, open 'out.wav'"
  /\ snd (v4Main v4SynthesisThrows ∅ "out.mp4") !! "out.mp4" = None.
Proof.
  split; [| split].
  - vm_compute. reflexivity.
  - reflexivity.
  - reflexivity.
Qed.

End AudioFallback.

Section CookieFacts.
Import CookieAnalyzer.
Context (getTrackerCategory : string -> option string) (now : Q).

Abbreviation tally := (CookieAnalyzer.tally getTrackerCategory now).
Abbreviation loop := (CookieAnalyzer.loop getTrackerCategory now).
Abbreviation analyze := (CookieAnalyzer.analyze getTrackerCategory now).

(** A cookie whose domain [byDomain] can hold. *)
Abbreviation storable :=
  (fun c : Cookie => inherited (stripDot (domain c)) = false).

(** The loop completes exactly when no domain is an inherited key, and
    then it has tallied every cookie. *)
Lemma loop_tally (cookies : list Cookie) (acc acc' : Acc) :
  loop cookies acc = Some acc' -> acc' = fold_left tally cookies acc.
Proof.
  revert acc. induction cookies as [| c rest IH]; intros acc; cbn [loop fold_left].
  - now intros [= <-].
  - unfold CookieAnalyzer.step.
    destruct (inherited (stripDot (domain c))); [discriminate | apply IH].
Qed.

Lemma loop_defined (cookies : list Cookie) (acc : Acc) :
  is_Some (loop cookies acc) <-> Forall storable cookies.
Proof.
  revert acc. induction cookies as [| c rest IH]; intros acc; cbn [loop].
  - split; [constructor | eauto].
  - unfold CookieAnalyzer.step.
    destruct (inherited (stripDot (domain c))) eqn:Hin.
    + split; [intros [x Hx]; discriminate |].
      intros H. inversion H as [| ? ? Hc _]. cbv beta in Hc. congruence.
    + rewrite IH. split; [now constructor | intros H; now inversion H].
Qed.

Lemma analyze_report (cookies : list Cookie) (a : Analysis) :
  analyze cookies = Some a ->
  a = report cookies (fold_left tally cookies initialAcc)
  /\ Forall storable cookies.
Proof.
  unfold CookieAnalyzer.analyze.
  destruct (loop cookies initialAcc) as [acc |] eqn:Hl; [| discriminate].
  intros [= <-]. rewrite (loop_tally _ _ _ Hl). split; [reflexivity |].
  apply (loop_defined cookies initialAcc). now rewrite Hl.
Qed.







End CookieFacts.

Section CookieClaims.
Import CookieAnalyzer.




End CookieClaims.

Section CookieExample.
Import Profile Monolog.

(** Section 9 returns its blocks whenever the language is present. *)
Lemma locationLanguage_defined (fp : FpData) (p : Profile) :
  language (basicOf fp) <> None -> locationLanguage fp p <> None.
Proof.
  intros Hlang. unfold locationLanguage.
  repeat match goal with
         | |- context [if ?b then _ else _] => destruct b
         end; try discriminate.
  destruct (language (basicOf fp)); [discriminate | contradiction].
Qed.

(** The cookie summary stands first in section 14. *)
Lemma cookieSection_head (fp : FpData) (c : Cookies) :
  cookies fp = Some c -> 0 < total c ->
  exists rest, cookieSection fp = cookieSummary c :: rest.
Proof.
  intros Hc Hpos. unfold cookieSection. rewrite Hc.
  apply Z.ltb_lt in Hpos. rewrite Hpos. eexists. reflexivity.
Qed.

(** C9: for cookie data with total 40 and tracker count 12 (its stored
    percentage absent or the analyzer's) the builder emits the block
    "40 cookies found." / "12 belong to known trackers." /
    "30% surveillance.", 30 being round(12 / 40 * 100). *)
Theorem cookie_summary_example
        (host : Host) (fp : FpData) (p : Profile) (sc : Scores) (c : Cookies)
        (Hc : cookies fp = Some c)
        (Htotal : total c = 40)
        (Htrackers : trackerCount c = 12)
        (Hpct : trackerPercentage c = None
                \/ trackerPercentage c = Some (CookieAnalyzer.percentage 12 40))
        (Hlang : language (basicOf fp) <> None) :
  Js.round (12 / 40 * 100)%Q = 30
  /\ exists blocks,
       buildMonolog host fp p sc = Some blocks
       /\ In summaryBlock4012 blocks.
Proof.
  split; [reflexivity |].
  unfold buildMonolog.
  destruct (locationLanguage fp p) as [loc |] eqn:Eloc;
    [| exfalso; exact (locationLanguage_defined fp p Hlang Eloc)].
  eexists. split; [reflexivity |].
  destruct (cookieSection_head fp c Hc) as [rest Hrest]; [lia |].
  rewrite Hrest.
  assert (Hsum : cookieSummary c = summaryBlock4012).
  { unfold cookieSummary. rewrite Htotal, Htrackers.
    destruct Hpct as [-> | ->]; reflexivity. }
  rewrite Hsum.
  do 13 (apply in_or_app; right).
  apply in_or_app. left. left. reflexivity.
Qed.

End CookieExample.

Section CookieExampleWitness.
Import Profile Monolog Examples.

(** C9 on the example record, whose cookie data is the analyzer's
    result for forty cookies with twelve trackers. *)
Lemma cookie_summary_example_witness :
  exists c,
    analyzedForty = Some c
    /\ total c = 40
    /\ trackerCount c = 12
    /\ trackerPercentage c = Some (CookieAnalyzer.percentage 12 40)
    /\ exists blocks,
         buildMonolog sampleHost sampleFp sampleProfile sampleScores = Some blocks
         /\ In summaryBlock4012 blocks.
Proof.
  destruct analyzedForty as [c |] eqn:Hc; [| vm_compute in Hc; discriminate Hc].
  assert (Hfp : cookies sampleFp = Some c) by exact Hc.
  assert (Hv : total c = 40 /\ trackerCount c = 12
               /\ trackerPercentage c = Some (CookieAnalyzer.percentage 12 40)).
  { vm_compute in Hc. injection Hc as <-. vm_compute. repeat split. }
  destruct Hv as (Ht & Hk & Hp).
  exists c. split; [reflexivity |].
  split; [exact Ht |]. split; [exact Hk |]. split; [exact Hp |].
  apply (cookie_summary_example sampleHost sampleFp sampleProfile sampleScores
           c Hfp Ht Hk (or_intror Hp)).
  discriminate.
Defined.

End CookieExampleWitness.

Section WorldFacts.
Import World.
Context (trig : Trig).

Lemma forEach_length {A B} (f : A -> Gen B) (xs : list A) (s : Z) :
  List.length (fst (forEach f xs s)) = List.length xs.
Proof.
  revert s. induction xs as [| v rest IH]; intros s; [reflexivity |].
  cbn [forEach]. unfold bind, ret.
  destruct (f v s) as [y s1]. specialize (IH s1).
  destruct (forEach f rest s1) as [ys s2]. cbn in *. now rewrite IH.
Qed.

Lemma forEach_Forall {A B} (f : A -> Gen B) (P : B -> Prop) (xs : list A) (s : Z) :
  (forall v s0, P (fst (f v s0))) -> Forall P (fst (forEach f xs s)).
Proof.
  intros Hf. revert s. induction xs as [| v rest IH]; intros s; [constructor |].
  cbn [forEach]. unfold bind, ret.
  pose proof (Hf v s) as Hv. destruct (f v s) as [y s1].
  specialize (IH s1). destruct (forEach f rest s1) as [ys s2].
  cbn in *. now constructor.
Qed.

Lemma forFilter_Forall {A B} (f : A -> Gen (option B)) (P : B -> Prop)
      (xs : list A) (s : Z) :
  (forall v s0 w, In v xs -> fst (f v s0) = Some w -> P w) ->
  Forall P (fst (forFilter f xs s)).
Proof.
  revert s. induction xs as [| v rest IH]; intros s Hf; [constructor |].
  cbn [forFilter]. unfold bind, ret.
  pose proof (Hf v s) as Hv. destruct (f v s) as [y s1].
  assert (IH' : Forall P (fst (forFilter f rest s1))).
  { apply IH. intros v0 s0 w Hin. apply Hf. now right. }
  destruct (forFilter f rest s1) as [ys s2]. cbn in *.
  destruct y as [w |]; [| exact IH'].
  constructor; [apply (Hv w); [now left | reflexivity] | exact IH'].
Qed.

Lemma pairs_ordered (n i j : nat) :
  In (i, j) (pairs n) -> (i < j < n)%nat.
Proof.
  unfold pairs. rewrite in_flat_map. intros (i0 & Hi0 & Hin).
  apply in_map_iff in Hin as (j0 & [= -> ->] & Hj0).
  apply in_seq in Hi0. apply in_seq in Hj0. lia.
Qed.

Lemma dataNode_base (n : nat) (m : Q) (ic : nat * Contribution) (s : Z) :
  base (fst (dataNode trig n m ic s)) = false.
Proof.
  unfold dataNode. destruct ic as [i c]. unfold bind, ret, rng.
  now destruct (Rng.rng s).
Qed.

Lemma ambientNode_base (i : nat) (s : Z) :
  base (fst (ambientNode trig i s)) = false.
Proof.
  unfold ambientNode, bind, ret, rng.
  destruct (Rng.rng s) as [u1 s1]. destruct (Rng.rng s1) as [u2 s2].
  destruct (Rng.rng s2) as [u3 s3]. now destruct (Rng.rng s3).
Qed.

Lemma connect_endpoints (ns : list Node) (ij : nat * nat) (s : Z) (c : Connection) :
  fst (connect trig ns ij s) = Some c -> a c = fst ij /\ b c = snd ij.
Proof.
  unfold connect. destruct ij as [i j].
  destruct (ns !! i) as [ni |]; [| discriminate].
  destruct (ns !! j) as [nj |]; [| discriminate].
  destruct (Js.ltb _ 220); [| discriminate].
  destruct (Js.gtb (bits ni) 0 || Js.gtb (bits nj) 0).
  - cbn. intros [= <-]. now split.
  - unfold bind, ret, rng. destruct (Rng.rng s) as [u s1]. cbn.
    destruct (Js.gtb u 0.7); [| discriminate]. intros [= <-]. now split.
Qed.

(** The world as [generateNetwork] leaves it: the center node first,
    then one node per present contribution and 30 ambient nodes, none
    of them a base node; connections between existing nodes; the three
    rings; 60 particles. *)
Lemma generateNetwork_shape (e : Entropy) (prior : World) :
  let w0 := generateNetwork trig e prior in
  exists rest,
    nodes w0 = centerNode e :: rest
    /\ Forall (fun n => base n = false) rest
    /\ List.length rest = (List.length (presentContribs e) + 30)%nat
    /\ Forall (fun c => (a c < b c < List.length (nodes w0))%nat) (connections w0)
    /\ rings w0 = initialRings
    /\ List.length (particles w0) = 60%nat.
Proof.
  unfold generateNetwork. fold (presentContribs e).
  set (contribs := presentContribs e).
  set (n := List.length contribs).
  pose proof (forEach_length (dataNode trig n (maxBitsOf contribs))
                (combine (seq 0 n) contribs) 42) as Hlen1.
  pose proof (forEach_Forall (dataNode trig n (maxBitsOf contribs))
                (fun nd => base nd = false) (combine (seq 0 n) contribs) 42
                (dataNode_base n (maxBitsOf contribs))) as Hb1.
  destruct (forEach (dataNode trig n (maxBitsOf contribs))
                    (combine (seq 0 n) contribs) 42) as [dataNodes seed1].
  pose proof (forEach_length (ambientNode trig) (seq 0 30) seed1) as Hlen2.
  pose proof (forEach_Forall (ambientNode trig) (fun nd => base nd = false)
                (seq 0 30) seed1 ambientNode_base) as Hb2.
  destruct (forEach (ambientNode trig) (seq 0 30) seed1) as [ambient seed2].
  set (ns := centerNode e :: dataNodes ++ ambient).
  pose proof (forFilter_Forall (connect trig ns)
                (fun c => (a c < b c < List.length ns)%nat)
                (pairs (List.length ns)) seed2) as Hconn.
  destruct (forFilter (connect trig ns) (pairs (List.length ns)) seed2)
    as [conns seed3].
  pose proof (forEach_length particle (seq 0 60) seed3) as Hlen3.
  destruct (forEach particle (seq 0 60) seed3) as [ps seed4].
  cbn [fst snd nodes connections rings particles] in *.
  exists (dataNodes ++ ambient).
  split; [reflexivity |].
  split; [apply Forall_app; split; assumption |].
  split.
  - rewrite length_app, Hlen1, Hlen2, length_combine, !length_seq.
    subst n. lia.
  - split; [| split; [reflexivity | now rewrite Hlen3, length_seq]].
    apply Hconn. intros [i j] s0 c Hin Hc.
    apply connect_endpoints in Hc as [-> ->]. cbn [fst snd].
    exact (pairs_ordered _ _ _ Hin).
Qed.

Lemma moveNode_static (n : Node) : staticPart (moveNode trig n) = staticPart n.
Proof. reflexivity. Qed.

Lemma moveParticle_static (p : Particle) :
  particleStatic (moveParticle p) = particleStatic p.
Proof. reflexivity. Qed.

(** A coordinate wrapped at a non-negative bound stays inside it. *)
Lemma wrap_inside (v bound : Q) :
  (0 <= bound)%Q -> (0 <= wrap v bound /\ wrap v bound <= bound)%Q.
Proof.
  intros Hb. unfold wrap.
  destruct (Js.ltb v 0) eqn:E0.
  - destruct (Js.gtb bound bound) eqn:E1; [split; [apply Qle_refl | exact Hb] |].
    split; [exact Hb | apply Qle_refl].
  - apply ltb_false in E0.
    destruct (Js.gtb v bound) eqn:E1; [split; [apply Qle_refl | exact Hb] |].
    unfold Js.gtb in E1. apply ltb_false in E1. split; assumption.
Qed.

(** A coordinate inside the bound is kept; one that has left the
    frame on the low side re-enters at the bound, one that has left on
    the high side at 0. *)
Lemma wrap_cases (v bound : Q) :
  (0 < bound)%Q ->
  ((0 <= v <= bound)%Q -> wrap v bound = v)
  /\ ((v < 0)%Q -> wrap v bound = bound)
  /\ ((bound < v)%Q -> wrap v bound = 0%Q).
Proof.
  intros Hb. unfold wrap.
  destruct (Js.ltb v 0) eqn:E0.
  - apply ltb_true in E0.
    destruct (Js.gtb bound bound) eqn:E1.
    + unfold Js.gtb in E1. apply ltb_true in E1. lra.
    + split; [lra |]. split; [reflexivity | lra].
  - apply ltb_false in E0.
    destruct (Js.gtb v bound) eqn:E1; unfold Js.gtb in E1.
    + apply ltb_true in E1. split; [lra |]. split; [lra | reflexivity].
    + apply ltb_false in E1. split; [reflexivity |]. split; lra.
Qed.

(** One update keeps everything but angles, positions and particle
    phases. *)
Lemma updateNodes_static (w : World) :
  map staticPart (nodes (updateNodes trig w)) = map staticPart (nodes w)
  /\ connections (updateNodes trig w) = connections w
  /\ rings (updateNodes trig w) = rings w
  /\ map particleStatic (particles (updateNodes trig w))
     = map particleStatic (particles w)
  /\ seed (updateNodes trig w) = seed w
  /\ nodes (updateNodes trig w) !! 0%nat = nodes w !! 0%nat.
Proof.
  unfold updateNodes. cbn [nodes connections rings particles seed].
  repeat match goal with |- _ /\ _ => split end; try reflexivity.
  - destruct (nodes w) as [| n0 rest]; [reflexivity |].
    cbn [map]. f_equal. rewrite map_map. apply map_ext. intros n.
    apply moveNode_static.
  - rewrite map_map. apply map_ext. intros p. apply moveParticle_static.
  - now destruct (nodes w).
Qed.

(** After any number of updates the world still has the static part it
    was generated with. *)
Lemma frames_static (w0 : World) (k : nat) :
  map staticPart (nodes (Nat.iter k (updateNodes trig) w0))
  = map staticPart (nodes w0)
  /\ connections (Nat.iter k (updateNodes trig) w0) = connections w0
  /\ rings (Nat.iter k (updateNodes trig) w0) = rings w0
  /\ map particleStatic (particles (Nat.iter k (updateNodes trig) w0))
     = map particleStatic (particles w0)
  /\ seed (Nat.iter k (updateNodes trig) w0) = seed w0
  /\ nodes (Nat.iter k (updateNodes trig) w0) !! 0%nat = nodes w0 !! 0%nat.
Proof.
  induction k as [| k IH]; [cbn; tauto |].
  rewrite Nat.iter_succ.
  destruct IH as (H1 & H2 & H3 & H4 & H5 & H6).
  destruct (updateNodes_static (Nat.iter k (updateNodes trig) w0))
    as (G1 & G2 & G3 & G4 & G5 & G6).
  repeat match goal with |- _ /\ _ => split end; congruence.
Qed.

End WorldFacts.

Section WorldClaim.
Import World.

(** C5: in a world made by [generateNetwork], after any number of
    frames, one more [updateNodes] leaves the node, connection, particle
    and ring sets as generated (same counts, orbits, speeds, bits,
    endpoints, radii); it leaves the center node alone, turns every
    other node by its speed and puts it back on its orbit around the
    center, and moves every particle by its velocity, wrapped into the
    frame (its phase [life] advancing by 0.003): a particle that stays
    inside the frame is at its old position plus its velocity, one that
    leaves on the left or at the top re-enters at W or H, one that
    leaves on the right or at the bottom re-enters at 0. *)
Theorem world_step_invariant
        (trig : Trig) (e : Entropy) (prior : World) (k : nat) :
  let w0 := generateNetwork trig e prior in
  let w := Nat.iter k (updateNodes trig) w0 in
  let w' := updateNodes trig w in
  map staticPart (nodes w') = map staticPart (nodes w0)
  /\ List.length (nodes w') = (31 + List.length (presentContribs e))%nat
  /\ connections w' = connections w0
  /\ Forall (fun c => (a c < b c < List.length (nodes w'))%nat) (connections w')
  /\ rings w' = initialRings
  /\ map particleStatic (particles w') = map particleStatic (particles w0)
  /\ List.length (particles w') = 60%nat
  /\ nodes w' !! 0%nat = Some (centerNode e)
  /\ (forall i n, nodes w !! S i = Some n ->
        base n = false
        /\ exists n', nodes w' !! S i = Some n'
             /\ angle n' = (angle n + speed n)%Q
             /\ x n' = (CX + cos trig (angle n') * orbit n)%Q
             /\ y n' = (CY + sin trig (angle n') * orbit n)%Q
             /\ staticPart n' = staticPart n)
  /\ (forall i p, particles w !! i = Some p ->
        exists p', particles w' !! i = Some p'
             /\ px p' = wrap (px p + vx p)%Q W
             /\ py p' = wrap (py p + vy p)%Q H
             /\ (0 <= px p' /\ px p' <= W)%Q
             /\ (0 <= py p' /\ py p' <= H)%Q
             /\ life p' = (life p + 0.003)%Q
             /\ particleStatic p' = particleStatic p
             /\ ((0 <= px p + vx p <= W)%Q -> px p' = (px p + vx p)%Q)
             /\ ((px p + vx p < 0)%Q -> px p' = W)
             /\ ((W < px p + vx p)%Q -> px p' = 0%Q)
             /\ ((0 <= py p + vy p <= H)%Q -> py p' = (py p + vy p)%Q)
             /\ ((py p + vy p < 0)%Q -> py p' = H)
             /\ ((H < py p + vy p)%Q -> py p' = 0%Q)).
Proof.
  intros w0 w w'.
  destruct (generateNetwork_shape trig e prior)
    as (rest & Hnodes & Hbase & Hlen & Hconn & Hrings & Hparts).
  fold w0 in Hnodes, Hconn, Hrings, Hparts.
  destruct (frames_static trig w0 (S k)) as (S1 & S2 & S3 & S4 & _ & S6).
  rewrite Nat.iter_succ in S1, S2, S3, S4, S6. fold w in S1, S2, S3, S4, S6.
  fold w' in S1, S2, S3, S4, S6.
  destruct (frames_static trig w0 k) as (T1 & _ & _ & _ & _ & _).
  fold w in T1.
  assert (Hn' : List.length (nodes w') = List.length (nodes w0)).
  { rewrite <- (length_map staticPart (nodes w')), S1. apply length_map. }
  repeat match goal with |- _ /\ _ => split end.
  - exact S1.
  - rewrite Hn', Hnodes. cbn [List.length]. rewrite Hlen. lia.
  - exact S2.
  - rewrite S2, Hn'. exact Hconn.
  - now rewrite S3.
  - exact S4.
  - rewrite <- (length_map particleStatic (particles w')), S4, length_map.
    exact Hparts.
  - rewrite S6, Hnodes. reflexivity.
  - intros i n Hi. split.
    + assert (Hs : map staticPart (nodes w) !! S i = Some (staticPart n)).
      { rewrite list_lookup_fmap, Hi. reflexivity. }
      rewrite T1, Hnodes in Hs. cbn [map] in Hs.
      change (map staticPart rest !! i = Some (staticPart n)) in Hs.
      rewrite list_lookup_fmap in Hs.
      destruct (rest !! i) as [n0 |] eqn:En0; [| discriminate].
      injection Hs as Hs.
      rewrite Forall_forall in Hbase.
      assert (Hb0 : base n0 = false).
      { apply Hbase. eapply list_elem_of_lookup_2. exact En0. }
      congruence.
    + exists (moveNode trig n). subst w'. unfold updateNodes. cbn [nodes].
      destruct (nodes w) as [| n0 tl]; [discriminate |].
      change (tl !! i = Some n) in Hi. split.
      * change ((map (moveNode trig) tl) !! i = Some (moveNode trig n)).
        rewrite list_lookup_fmap, Hi. reflexivity.
      * repeat split.
  - intros i p Hi. exists (moveParticle p). subst w'.
    unfold updateNodes. cbn [particles].
    rewrite list_lookup_fmap, Hi. split; [reflexivity |].
    split; [reflexivity |]. split; [reflexivity |].
    split; [apply wrap_inside; discriminate |].
    split; [apply wrap_inside; discriminate |].
    split; [reflexivity |]. split; [reflexivity |].
    cbn [px py moveParticle].
    destruct (wrap_cases (px p + vx p) W ltac:(reflexivity)) as (X1 & X2 & X3).
    destruct (wrap_cases (py p + vy p) H ltac:(reflexivity)) as (Y1 & Y2 & Y3).
    now repeat split.
Qed.

End WorldClaim.

Section Determinism.
Import Profile Monolog.

Lemma append_nonempty (a b : string) : b <> "" -> a +:+ b <> "".
Proof.
  intros Hb Heq. apply (f_equal String.length) in Heq.
  rewrite string_length_app in Heq. destruct b; [contradiction | cbn in Heq; lia].
Qed.

Lemma add_shape_head (h1 h2 : string) (rest : list string) (imp : string) :
  h1 <> "" -> h2 <> "" ->
  blockShape (add (h1 :: rest) imp) = blockShape (add (h2 :: rest) imp).
Proof.
  intros H1 H2. unfold blockShape, add. cbn [lines importance List.filter].
  apply String.eqb_neq in H1, H2. rewrite H1, H2. reflexivity.
Qed.

(** Section 8 has the same shape under every clock. *)
Lemma timeOfDay_shape (h : Host) (c1 c2 : Z -> Z) (fp : FpData) :
  map blockShape (timeOfDay (withMinutes h c1) fp)
  = map blockShape (timeOfDay (withMinutes h c2) fp).
Proof.
  unfold timeOfDay.
  change (localHour (withMinutes h c1) fp) with (localHour h fp).
  change (localHour (withMinutes h c2) fp) with (localHour h fp).
  destruct (localHour h fp) as [hr |]; [| reflexivity].
  cbv zeta.
  repeat match goal with
         | |- context [if ?b then _ else _] =>
             lazymatch b with
             | context [nonEmpty] => fail
             | _ => destruct b
             end
         end;
    cbn [map]; f_equal;
    apply add_shape_head;
    apply append_nonempty; discriminate.
Qed.

(** The monolog has the same shape under every clock. *)
Lemma buildMonolog_shape (h : Host) (c1 c2 : Z -> Z)
      (fp : FpData) (p : Profile) (sc : Scores) :
  option_map (map blockShape) (buildMonolog (withMinutes h c1) fp p sc)
  = option_map (map blockShape) (buildMonolog (withMinutes h c2) fp p sc).
Proof.
  unfold buildMonolog.
  destruct (locationLanguage fp p) as [loc |]; [| reflexivity].
  cbn [option_map]. f_equal. rewrite !map_app.
  rewrite (timeOfDay_shape h c1 c2 fp). reflexivity.
Qed.

(** The hold times read only the shape of the blocks. *)
Lemma applyTimingFrom_shape (bs1 bs2 : list Block) :
  map blockShape bs1 = map blockShape bs2 ->
  forall i total s,
    map timedShape (fst (applyTimingFrom i total bs1 s))
    = map timedShape (fst (applyTimingFrom i total bs2 s))
    /\ snd (applyTimingFrom i total bs1 s) = snd (applyTimingFrom i total bs2 s).
Proof.
  revert bs2. induction bs1 as [| b1 r1 IH]; intros [| b2 r2] Hs i total s;
    try discriminate; [now split |].
  cbn [map] in Hs. unfold blockShape at 1 3 in Hs. injection Hs as Hl Hi Hr.
  cbn [applyTimingFrom]. rewrite Hl, Hi.
  destruct (V4Timing.scaredTiming i total (Z.of_nat (List.length (lines b2)))
              (importance b2) s) as [hold s1].
  destruct (IH r2 Hr (i + 1) total s1) as [IH1 IH2].
  destruct (applyTimingFrom (i + 1) total r1 s1) as [ts1 s2].
  destruct (applyTimingFrom (i + 1) total r2 s1) as [ts2 s2'].
  cbn [fst snd] in *. split; [| exact IH2].
  cbn [map]. rewrite IH1. unfold timedShape at 1 3. cbn [block holdSec].
  now rewrite Hl, Hi.
Qed.

(** The frame timings read only the shape of the timed blocks. *)
Lemma timingsFrom_shape (c : Timeline.Consts) (ts1 ts2 : list Timed) :
  map timedShape ts1 = map timedShape ts2 ->
  forall s, Timeline.timingsFrom c s (map Timeline.ofTimed ts1)
            = Timeline.timingsFrom c s (map Timeline.ofTimed ts2).
Proof.
  revert ts2. induction ts1 as [| t1 r1 IH]; intros [| t2 r2] Hs s;
    try discriminate; [reflexivity |].
  cbn [map] in Hs. unfold timedShape at 1 3 in Hs. injection Hs as Hl Hi Hh Hr.
  cbn [map]. rewrite !timingsFrom_cons.
  assert (Hd : Timeline.timingOf c s (Timeline.ofTimed t1)
               = Timeline.timingOf c s (Timeline.ofTimed t2)).
  { unfold Timeline.timingOf, Timeline.blockDuration, Timeline.linesFramesOf,
      Timeline.holdFramesOf, Timeline.ofTimed.
    cbn [Timeline.lines Timeline.hold]. now rewrite Hl, Hh. }
  assert (Hdur : Timeline.blockDuration c (Timeline.ofTimed t1)
                 = Timeline.blockDuration c (Timeline.ofTimed t2)).
  { exact (f_equal Timeline.duration Hd). }
  rewrite Hd, Hdur, (IH r2 Hr). reflexivity.
Qed.

End Determinism.

Section DeterminismClaim.
Import Profile Monolog.

Lemma scheduleWith_shape (h : Host) (c1 c2 : Z -> Z)
      (fp : FpData) (p : Profile) (sc : Scores) (seed prior1 prior2 : Z) :
  scheduleShape (scheduleWith (withMinutes h c1) fp p sc seed prior1)
  = scheduleShape (scheduleWith (withMinutes h c2) fp p sc seed prior2)
  /\ Timeline.v4Frames (scheduleWith (withMinutes h c1) fp p sc seed prior1)
     = Timeline.v4Frames (scheduleWith (withMinutes h c2) fp p sc seed prior2).
Proof.
  unfold scheduleWith.
  pose proof (buildMonolog_shape h c1 c2 fp p sc) as Hb.
  destruct (buildMonolog (withMinutes h c1) fp p sc) as [bs1 |];
    destruct (buildMonolog (withMinutes h c2) fp p sc) as [bs2 |];
    try discriminate Hb; [| now split].
  cbn [option_map] in Hb. injection Hb as Hb.
  unfold scheduleShape, Timeline.v4Frames, applyTiming, Rng.srand. cbn [option_map].
  assert (Hlen : List.length bs1 = List.length bs2).
  { rewrite <- (length_map blockShape bs1), Hb. apply length_map. }
  rewrite Hlen.
  destruct (applyTimingFrom_shape bs1 bs2 Hb 0 (Z.of_nat (List.length bs2)) seed)
    as [H1 H2].
  destruct (applyTimingFrom 0 (Z.of_nat (List.length bs2)) bs1 seed) as [ts1 s1].
  destruct (applyTimingFrom 0 (Z.of_nat (List.length bs2)) bs2 seed) as [ts2 s2].
  cbn [fst snd] in H1, H2. subst s2. rewrite H1.
  split; [reflexivity |].
  unfold Timeline.blockTimings, Timeline.totalFrames.
  now rewrite (timingsFrom_shape Timeline.v4 ts1 ts2 H1 0).
Qed.

(** C1: the schedule of a run (blocks, lines and holds) is a function of
    the Profile Record and the seed alone: the generator's earlier state
    does not reach it, since [srand] replaces it, and the host's clock
    changes neither the block count nor any line count, hold or frame
    duration.  The world that [generateNetwork] builds, and every frame
    after it, is a function of the entropy input alone: the earlier
    contents of the module's variables do not reach it. *)
Theorem schedule_and_world_deterministic
        (host : Host) (fp : FpData) (p : Profile) (sc : Scores)
        (seed prior1 prior2 : Z) (clock1 clock2 : Z -> Z)
        (trig : World.Trig) (e : World.Entropy) (w1 w2 : World.World)
        (k : nat) :
  scheduleWith host fp p sc seed prior1 = scheduleWith host fp p sc seed prior2
  /\ schedule host fp p sc prior1 = schedule host fp p sc prior2
  /\ scheduleShape (scheduleWith (withMinutes host clock1) fp p sc seed prior1)
     = scheduleShape (scheduleWith (withMinutes host clock2) fp p sc seed prior2)
  /\ Timeline.v4Frames (scheduleWith (withMinutes host clock1) fp p sc seed prior1)
     = Timeline.v4Frames (scheduleWith (withMinutes host clock2) fp p sc seed prior2)
  /\ World.generateNetwork trig e w1 = World.generateNetwork trig e w2
  /\ Nat.iter k (World.updateNodes trig) (World.generateNetwork trig e w1)
     = Nat.iter k (World.updateNodes trig) (World.generateNetwork trig e w2).
Proof.
  split; [reflexivity |]. split; [reflexivity |].
  destruct (scheduleWith_shape host clock1 clock2 fp p sc seed prior1 prior2)
    as [Hs Hf].
  split; [exact Hs |]. split; [exact Hf |].
  split; reflexivity.
Qed.

End DeterminismClaim.

(** ** The definitions evaluated on concrete inputs *)

Section Evaluations.

Example rng_from_42 : snd (Rng.rng 42) = 705894.
Proof. reflexivity. Qed.

Example rng_value_from_42 : (fst (Rng.rng 42) == 705893 # 2147483646)%Q.
Proof. reflexivity. Qed.

Example round_half_up : Js.round 2.5 = 3 /\ Js.round (-2.5) = -2 /\ Js.round 7.5 = 8.
Proof. repeat split. Qed.

Example toFixed_entropy : Js.toFixed 34.25 1 = "34.3" /\ Js.toFixed 5.236 2 = "5.24".
Proof. split; reflexivity. Qed.

Example toLowerCase_mixed : Js.toLowerCase "Europe/Prague" = "europe/prague".
Proof. reflexivity. Qed.

Example v2_opening_timings :
  Timeline.blockTimings Timeline.v2 Timeline.v2Opening
  = [{| Timeline.start := 0; Timeline.duration := 57;
        Timeline.linesFrames := 14; Timeline.holdFrames := 21 |};
     {| Timeline.start := 57; Timeline.duration := 78;
        Timeline.linesFrames := 26; Timeline.holdFrames := 30 |}]
  /\ Timeline.totalFrames Timeline.v2 Timeline.v2Opening = 165.
Proof. split; reflexivity. Qed.

Example v2_opening_scan :
  let ts := Timeline.blockTimings Timeline.v2 Timeline.v2Opening in
  Timeline.active ts 56 = Some 0%nat
  /\ Timeline.active ts 57 = Some 1%nat
  /\ Timeline.active ts 134 = Some 1%nat
  /\ Timeline.active ts 135 = None.
Proof. repeat split. Qed.

Example every_other_log :
  snd (Pipe.stateOf (Pipe.frameLoop (fun gf => gf) (Pipe.logged Pipe.everyOther)
                                    3 (0%nat, [])))
  = [Pipe.Write 0 true; Pipe.Write 1 false; Pipe.Drain; Pipe.Write 2 true].
Proof. reflexivity. Qed.

Example silent_path_of_mp4 :
  Render.silentPathOf "out.mp4" = "out_silent.mp4"
  /\ Render.audioPathOf "out.mp4" = "out.wav"
  /\ Render.silentPathOf "out.mkv" = "out.mkv".
Proof. repeat split. Qed.

Example analyze_three_cookies :
  option_map
    (fun a => (CookieAnalyzer.total a, CookieAnalyzer.trackerCount a,
               CookieAnalyzer.uniqueDomains a,
               CookieAnalyzer.zombie (CookieAnalyzer.lifetimes a),
               CookieAnalyzer.byCategory a !! "advertising",
               CookieAnalyzer.byCategory a !! "unknown",
               CookieAnalyzer.topTrackers a))
    (CookieAnalyzer.analyze CookieAnalyzer.knownTrackers 1700000000
                            CookieAnalyzer.threeCookies)
  = Some (3, 1, 3, 1, Some 1, Some 2,
          [{| CookieAnalyzer.tdomain := "doubleclick.net";
              CookieAnalyzer.tcount := 1;
              CookieAnalyzer.tcategory := "advertising" |}]).
Proof. vm_compute. reflexivity. Qed.

Example broken_pipe_ends_v2 :
  Render.v2Main
    {| Render.encode2 := Render.Broke (Some 1) "Conversion failed!" (Some "partial");
       Render.sonify := fun fs => (true, fs);
       Render.wavSearch := fun _ => Some None;
       Render.mux2 := fun _ _ _ => Render.MuxOk "merged" |}
    ∅ "out.mp4"
  = (Render.Failed "write EPIPE", <["out_silent.mp4" := "partial"]> ∅).
Proof. reflexivity. Qed.

Example sample_schedule_length :
  option_map (fun r => List.length (fst r))
             (Monolog.schedule Examples.sampleHost Examples.sampleFp
                               Examples.sampleProfile Examples.sampleScores 7)
  = Some 34%nat.
Proof. vm_compute. reflexivity. Qed.

End Evaluations.

(** ** The text rasterizer *)

Section ClampFacts.

Lemma leb_true (a b : Q) : Js.leb a b = true <-> (a <= b)%Q.
Proof. unfold Js.leb. apply Qle_bool_iff. Qed.

Lemma leb_false (a b : Q) : Js.leb a b = false <-> (b < a)%Q.
Proof.
  unfold Js.leb. split.
  - intros H. apply Qnot_le_lt. intros Hle. apply Qle_bool_iff in Hle. congruence.
  - intros H. destruct (Qle_bool a b) eqn:E; [| reflexivity].
    apply Qle_bool_iff in E. exfalso. exact (Qlt_not_le _ _ H E).
Qed.

Lemma clamp_range (v a b : Q) : (a <= b)%Q -> (a <= Js.clamp v a b <= b)%Q.
Proof.
  intros Hab. unfold Js.clamp, Js.max, Js.min. split.
  - apply Q.le_max_l.
  - apply Q.max_lub; [exact Hab | apply Q.le_min_l].
Qed.

Lemma clamp_low (v a b : Q) : (a <= b)%Q -> (v <= a)%Q -> (Js.clamp v a b == a)%Q.
Proof.
  intros Hab Hv. unfold Js.clamp, Js.max, Js.min.
  apply Q.max_l. apply Qle_trans with v; [apply Q.le_min_r | exact Hv].
Qed.

Lemma clamp_high (v a b : Q) : (a <= b)%Q -> (b <= v)%Q -> (Js.clamp v a b == b)%Q.
Proof.
  intros Hab Hv. unfold Js.clamp, Js.max, Js.min.
  rewrite (Q.min_l b v Hv). apply Q.max_r. exact Hab.
Qed.

Lemma clamp_mid (v a b : Q) : (a <= v)%Q -> (v <= b)%Q -> (Js.clamp v a b == v)%Q.
Proof.
  intros Ha Hb. unfold Js.clamp, Js.max, Js.min.
  rewrite (Q.min_r b v Hb). apply Q.max_r. exact Ha.
Qed.

Lemma clamp_mono (v w a b : Q) :
  (v <= w)%Q -> (Js.clamp v a b <= Js.clamp w a b)%Q.
Proof.
  intros H. unfold Js.clamp, Js.max, Js.min.
  apply Q.max_le_compat_l. apply Q.min_le_compat_l. exact H.
Qed.

End ClampFacts.

Section EaseOut.
Import Raster.

Lemma cube_mono (u w : Q) : (0 <= u)%Q -> (u <= w)%Q -> (u * u * u <= w * w * w)%Q.
Proof.
  intros H0 H. assert (Hw : (0 <= w)%Q) by lra.
  assert (H2 : (u * u <= w * w)%Q) by nra.
  assert (H3 : (0 <= u * u)%Q) by nra.
  nra.
Qed.

(** The cubic ease-out on exact numbers. *)
Lemma easeOut_exact (t : Q) :
  (0 <= easeOut t <= 1)%Q
  /\ ((t <= 0)%Q -> (easeOut t == 0)%Q)
  /\ ((1 <= t)%Q -> (easeOut t == 1)%Q)
  /\ ((0 < t)%Q -> (0 < easeOut t)%Q)
  /\ (forall t', (t <= t')%Q -> (easeOut t <= easeOut t')%Q).
Proof.
  unfold easeOut. cbv zeta.
  assert (Hr : forall x, (0 <= 1 - Js.clamp x 0 1 <= 1)%Q).
  { intros x. pose proof (clamp_range x 0 1 ltac:(discriminate)). lra. }
  assert (Hc : forall u, (0 <= u <= 1)%Q -> (0 <= u * u * u <= 1)%Q).
  { intros u [H0 H1]. split.
    - apply Qmult_le_0_compat; [apply Qmult_le_0_compat |]; assumption.
    - pose proof (cube_mono u 1 H0 H1). lra. }
  repeat match goal with |- _ /\ _ => split end.
  - pose proof (Hc _ (Hr t)). lra.
  - pose proof (Hc _ (Hr t)). lra.
  - intros Ht. rewrite (clamp_low t 0 1 ltac:(discriminate) Ht). lra.
  - intros Ht. rewrite (clamp_high t 0 1 ltac:(discriminate) Ht). lra.
  - intros Ht.
    set (u := (1 - Js.clamp t 0 1)%Q).
    assert (Hu : (0 <= u)%Q) by apply Hr.
    assert (Hu1 : (u < 1)%Q).
    { subst u. destruct (Qlt_le_dec t 1) as [Hlt | Hge].
      - rewrite (clamp_mid t 0 1); lra.
      - rewrite (clamp_high t 0 1); [lra | discriminate | exact Hge]. }
    clearbody u.
    assert (H2 : (u * u <= u)%Q) by nra.
    assert (H3 : (0 <= u * u)%Q) by nra.
    assert (H4 : (u * u * u <= u * u)%Q) by nra.
    lra.
  - intros t' Htt.
    pose proof (clamp_mono t t' 0 1 Htt) as Hm.
    pose proof (cube_mono (1 - Js.clamp t' 0 1) (1 - Js.clamp t 0 1)
                  (proj1 (Hr t')) ltac:(lra)).
    lra.
Qed.

(** X1: [easeOut] maps every number into [0, 1], is 0 up to 0 and 1 from 1
    on, positive from 2^-53 on (the least [t] for which the double
    [1 - t] is below 1), and never decreases. *)
Theorem easeOut_profile (t : Q) :
  (0 <= easeOut t <= 1)%Q
  /\ ((t <= 0)%Q -> (easeOut t == 0)%Q)
  /\ ((1 <= t)%Q -> (easeOut t == 1)%Q)
  /\ ((1 # 9007199254740992 <= t)%Q -> (0 < easeOut t)%Q)
  /\ (forall t', (t <= t')%Q -> (easeOut t <= easeOut t')%Q).
Proof.
  destruct (easeOut_exact t) as (Hr & H0 & H1 & Hp & Hm).
  split; [exact Hr |]. split; [exact H0 |]. split; [exact H1 |].
  split; [| exact Hm].
  intros Ht. apply Hp.
  apply Qlt_le_trans with (1 # 9007199254740992)%Q; [reflexivity | exact Ht].
Qed.

End EaseOut.

Section FitFontSize.
Import Raster.
Context (measure : Z -> string -> Q).

Lemma fitFrom_spec (text : string) (maxW : Q) (minSize : Z) (fuel : nat) (s : Z) :
  let r := fitFrom measure fuel text maxW s minSize in
  (r = minSize
   \/ (minSize <= r <= s /\ (measure r text <= maxW)%Q
       /\ exists k, 0 <= k /\ r = s - 2 * k))
  /\ (forall k, 0 <= k < Z.of_nat fuel -> minSize <= s - 2 * k -> r < s - 2 * k ->
                ~ (measure (s - 2 * k) text <= maxW)%Q).
Proof.
  revert s. induction fuel as [| fuel IH]; intros s; cbn [fitFrom].
  - split; [now left | intros k Hk; lia].
  - destruct (minSize <=? s) eqn:Hs.
    + apply Z.leb_le in Hs.
      destruct (Js.leb (measure s text) maxW) eqn:Hfit.
      * apply leb_true in Hfit. split.
        -- right. split; [lia |]. split; [exact Hfit |]. exists 0. lia.
        -- intros k Hk Hmin Hlt. lia.
      * apply leb_false in Hfit.
        destruct (IH (s - 2)) as [IH1 IH2]. split.
        -- destruct IH1 as [-> | (Hr & Hf & k & Hk & Hrk)]; [now left |].
           right. split; [lia |]. split; [exact Hf |]. exists (k + 1). lia.
        -- intros k Hk Hmin Hlt.
           destruct (Z.eq_dec k 0) as [-> | Hk0].
           ++ replace (s - 2 * 0) with s by lia. lra.
           ++ replace (s - 2 * k) with (s - 2 - 2 * (k - 1)) in * by lia.
              apply IH2; lia.
    + apply Z.leb_gt in Hs. split; [now left |]. intros k Hk Hmin Hlt. lia.
Qed.

(** X2: [fitFontSize] returns the largest size of maxSize, maxSize - 2, ...
    not below minSize at which the text fits, and minSize when none
    fits: it never goes below minSize, whether or not the text fits
    there. *)
Theorem fitFontSize_largest (text : string) (maxW : Q) (maxSize minSize : Z) :
  let r := fitFontSize measure text maxW maxSize minSize in
  (minSize <= maxSize -> minSize <= r <= maxSize)
  /\ (maxSize < minSize -> r = minSize)
  /\ (r = minSize
      \/ ((measure r text <= maxW)%Q /\ exists k, 0 <= k /\ r = maxSize - 2 * k))
  /\ (forall k, 0 <= k -> minSize <= maxSize - 2 * k -> r < maxSize - 2 * k ->
                ~ (measure (maxSize - 2 * k) text <= maxW)%Q).
Proof.
  unfold fitFontSize.
  destruct (fitFrom_spec text maxW minSize (S (Z.to_nat (maxSize - minSize))) maxSize)
    as [H1 H2].
  cbv zeta in *.
  set (r := fitFrom measure (S (Z.to_nat (maxSize - minSize))) text maxW maxSize minSize) in *.
  clearbody r.
  repeat match goal with |- _ /\ _ => split end.
  - intros Hle. destruct H1 as [-> | (Hr & _)]; lia.
  - intros Hlt. destruct H1 as [-> | (Hr & _)]; lia.
  - destruct H1 as [-> | (_ & Hf & Hk)]; [now left | right; now split].
  - intros k Hk Hmin Hlt. apply H2; lia.
Qed.

End FitFontSize.

Section PainterFacts.
Import Timeline Raster.
Context (measure : Z -> string -> Q) (v : Renderer).

Lemma blockAlpha_range (f ce : Z) : (0 <= blockAlpha v f ce <= 1)%Q.
Proof.
  unfold blockAlpha. destruct (ce <=? f); [| split; discriminate].
  pose proof (clamp_range (inject_Z (f - ce) / inject_Z (FADE_OUT (consts v))) 0 1
                ltac:(discriminate)).
  lra.
Qed.

Lemma blockAlpha_before (f ce : Z) : f < ce -> blockAlpha v f ce = 1%Q.
Proof.
  intros H. unfold blockAlpha. apply Z.leb_gt in H. now rewrite H.
Qed.

Lemma inject_Z_pos (b : Z) : 0 < b -> (0 < inject_Z b)%Q.
Proof. intros H. change 0%Q with (inject_Z 0). now rewrite <- Zlt_Qlt. Qed.

Lemma div_spec (a b : Z) :
  0 < b -> (inject_Z a / inject_Z b * inject_Z b == inject_Z a)%Q.
Proof.
  intros Hb. pose proof (inject_Z_pos b Hb). field. lra.
Qed.

(** The quotient of two integers against 0 and 1. *)
Lemma div_sign (a b : Z) :
  0 < b ->
  ((a <= 0 -> (inject_Z a / inject_Z b <= 0)%Q)
   /\ (0 < a -> (0 < inject_Z a / inject_Z b)%Q)
   /\ (0 <= a -> (0 <= inject_Z a / inject_Z b)%Q)
   /\ (b <= a -> (1 <= inject_Z a / inject_Z b)%Q)
   /\ (a < b -> (inject_Z a / inject_Z b < 1)%Q)).
Proof.
  intros Hb. pose proof (inject_Z_pos b Hb) as HB.
  pose proof (div_spec a b Hb) as Hx.
  set (x := (inject_Z a / inject_Z b)%Q) in *. clearbody x.
  repeat match goal with |- _ /\ _ => split end; intros Ha.
  - rewrite Zle_Qle in Ha. change (inject_Z 0) with 0%Q in Ha. nra.
  - rewrite Zlt_Qlt in Ha. change (inject_Z 0) with 0%Q in Ha. nra.
  - rewrite Zle_Qle in Ha. change (inject_Z 0) with 0%Q in Ha. nra.
  - rewrite Zle_Qle in Ha. nra.
  - rewrite Zlt_Qlt in Ha. nra.
Qed.

Hypothesis Hv : v = Raster.v1 \/ v = Raster.v2 \/ v = Raster.v4.

Lemma variant_consts :
  LINE_FADE (consts v) = 8 /\ LINE_GAP (consts v) = 6
  /\ FADE_OUT (consts v) = 10 /\ 0 < BLOCK_BLACK (consts v).
Proof using Hv.
  destruct Hv as [-> | [-> | ->]]; cbn; repeat split; lia.
Qed.

Lemma variant_timeline :
  consts v = Timeline.v1 \/ consts v = Timeline.v2 \/ consts v = Timeline.v4.
Proof using Hv.
  destruct Hv as [-> | [-> | ->]]; cbn; auto.
Qed.

Lemma blockAlpha_faded (f ce : Z) :
  ce + FADE_OUT (consts v) <= f -> (blockAlpha v f ce <= 0)%Q.
Proof using Hv.
  intros H. destruct variant_consts as (_ & _ & Hfo & _).
  unfold blockAlpha.
  assert (Hle : (ce <=? f) = true) by (apply Z.leb_le; lia).
  rewrite Hle.
  rewrite (clamp_high _ 0 1); [lra | discriminate |].
  apply (div_sign (f - ce) (FADE_OUT (consts v))); lia.
Qed.

Lemma blockAlpha_fading (f ce : Z) :
  f < ce + FADE_OUT (consts v) -> (0 < blockAlpha v f ce)%Q.
Proof using Hv.
  intros H. destruct variant_consts as (_ & _ & Hfo & _).
  unfold blockAlpha. destruct (ce <=? f) eqn:Hle; [| reflexivity].
  apply Z.leb_le in Hle.
  destruct (div_sign (f - ce) (FADE_OUT (consts v)) ltac:(lia))
    as (_ & _ & H0 & _ & H1).
  rewrite (clamp_mid _ 0 1); [| apply H0; lia | apply Qlt_le_weak; apply H1; lia].
  specialize (H1 ltac:(lia)). lra.
Qed.

Lemma lineAlpha_range (f li : Z) : (0 <= lineAlpha v f li <= 1)%Q.
Proof. unfold lineAlpha. apply easeOut_exact. Qed.

Lemma lineAlpha_hidden (f li : Z) :
  f <= li * LINE_GAP (consts v) -> (lineAlpha v f li == 0)%Q.
Proof using Hv.
  intros H. destruct variant_consts as (Hlf & _).
  unfold lineAlpha. apply easeOut_exact.
  rewrite (clamp_low _ 0 1); [lra | discriminate |].
  apply (div_sign (f - li * LINE_GAP (consts v)) (LINE_FADE (consts v))); lia.
Qed.

Lemma lineAlpha_shown (f li : Z) :
  li * LINE_GAP (consts v) < f -> (0 < lineAlpha v f li)%Q.
Proof using Hv.
  intros H. destruct variant_consts as (Hlf & _).
  unfold lineAlpha. apply easeOut_exact.
  destruct (div_sign (f - li * LINE_GAP (consts v)) (LINE_FADE (consts v))
              ltac:(lia)) as (_ & H0 & _).
  specialize (H0 ltac:(lia)).
  pose proof (clamp_range (inject_Z (f - li * LINE_GAP (consts v))
                           / inject_Z (LINE_FADE (consts v))) 0 1
                ltac:(discriminate)) as Hr.
  destruct (Qlt_le_dec (inject_Z (f - li * LINE_GAP (consts v))
                        / inject_Z (LINE_FADE (consts v))) 1) as [Hlt | Hge].
  - rewrite (clamp_mid _ 0 1); lra.
  - rewrite (clamp_high _ 0 1); [lra | discriminate | exact Hge].
Qed.

Lemma lineAlpha_full (f li : Z) :
  li * LINE_GAP (consts v) + LINE_FADE (consts v) <= f ->
  (lineAlpha v f li == 1)%Q.
Proof using Hv.
  intros H. destruct variant_consts as (Hlf & _).
  unfold lineAlpha. apply easeOut_exact.
  rewrite (clamp_high _ 0 1); [lra | discriminate |].
  apply (div_sign (f - li * LINE_GAP (consts v)) (LINE_FADE (consts v))); lia.
Qed.


(** The texts of the line loop: the non-empty lines that have started
    to appear, in order. *)
Lemma drawLines_texts (f : Z) (ba : Q) (ls : list LineSize) (li : Z) (y : Q) :
  (0 < ba)%Q ->
  map fst (textsOf (fst (drawLines v f ba li y ls)))
  = map text (List.filter (fun l => negb (String.eqb (text l) ""))
                (firstn (Z.to_nat ((f + 5) / 6 - li)) ls)).
Proof using Hv.
  intros Hba. destruct variant_consts as (_ & Hgap & _).
  revert li y. induction ls as [| l rest IH]; intros li y.
  - now rewrite firstn_nil.
  - cbn [drawLines].
    destruct (Z_lt_le_dec (li * 6) f) as [Hin | Hout].
    + replace (Z.to_nat ((f + 5) / 6 - li))
        with (S (Z.to_nat ((f + 5) / 6 - (li + 1)))).
      2:{ assert (li + 1 <= (f + 5) / 6) by (apply Z.div_le_lower_bound; lia).
          generalize dependent ((f + 5) / 6). intros; lia. }
      cbn [firstn List.filter].
      destruct (String.eqb (text l) "") eqn:He; cbn [negb]; [apply IH |].
      assert (Hpos : (0 < lineAlpha v f li * ba)%Q).
      { pose proof (lineAlpha_shown f li ltac:(rewrite Hgap; lia)). nra. }
      apply leb_false in Hpos. rewrite Hpos.
      specialize (IH (li + 1) (y + inject_Z (size l) * lineSpacing)%Q).
      destruct (drawLines v f ba (li + 1) (y + inject_Z (size l) * lineSpacing) rest)
        as [ops y'].
      cbn [fst textsOf flat_map app map] in *. now rewrite IH.
    + replace (Z.to_nat ((f + 5) / 6 - li)) with 0%nat.
      2:{ assert ((f + 5) / 6 < li + 1) by (apply Z.div_lt_upper_bound; lia).
          generalize dependent ((f + 5) / 6). intros; lia. }
      cbn [firstn List.filter map].
      assert (Hnext : map fst (textsOf (fst (drawLines v f ba (li + 1)
                        (y + inject_Z (size l) * lineSpacing) rest))) = []).
      { rewrite IH.
        replace (Z.to_nat ((f + 5) / 6 - (li + 1))) with 0%nat; [reflexivity |].
        assert ((f + 5) / 6 < li + 1) by (apply Z.div_lt_upper_bound; lia).
        generalize dependent ((f + 5) / 6). intros; lia. }
      destruct (String.eqb (text l) ""); [exact Hnext |].
      assert (Hz : (lineAlpha v f li * ba <= 0)%Q).
      { pose proof (lineAlpha_hidden f li ltac:(rewrite Hgap; lia)) as H0.
        rewrite H0. lra. }
      apply leb_true in Hz. rewrite Hz. exact Hnext.
Qed.

Lemma drawLines_opaque (f : Z) (ls : list LineSize) (li : Z) (y : Q) (ba : Q) :
  (ba == 1)%Q ->
  (li + Z.of_nat (List.length ls)) * 6 + 2 <= f ->
  Forall (fun ta => (snd ta == 1)%Q) (textsOf (fst (drawLines v f ba li y ls))).
Proof using Hv.
  intros Hba. destruct variant_consts as (Hfade & Hgap & _).
  revert li y. induction ls as [| l rest IH]; intros li y Hf.
  - constructor.
  - cbn [drawLines]. cbn [List.length] in Hf.
    assert (Hrest : (li + 1 + Z.of_nat (List.length rest)) * 6 + 2 <= f) by lia.
    destruct (String.eqb (text l) ""); [apply IH; exact Hrest |].
    destruct (Js.leb (lineAlpha v f li * ba) 0) eqn:Hz; [apply IH; exact Hrest |].
    specialize (IH (li + 1) (y + inject_Z (size l) * lineSpacing)%Q Hrest).
    destruct (drawLines v f ba (li + 1) (y + inject_Z (size l) * lineSpacing) rest)
      as [ops y'].
    cbn [fst textsOf flat_map app] in *. constructor; [| exact IH].
    cbn [snd]. rewrite (lineAlpha_full f li); [rewrite Hba; reflexivity |].
    rewrite Hfade, Hgap. lia.
Qed.


Lemma textsOf_app (a b : list Op) : textsOf (a ++ b) = textsOf a ++ textsOf b.
Proof. unfold textsOf. apply flat_map_app. Qed.

(** The cursor step draws no text; with at least one line it finds the
    line it follows. *)
Lemma drawCursor_defined (gf f ce : Z) (ba y : Q) (ls : list LineSize) :
  0 <= f -> ls <> [] ->
  exists cur, drawCursor measure v gf f ce ba y ls = Some cur
              /\ textsOf cur = []
              /\ Forall (fun o => exists a, alphaOf o = Some a
                                            /\ (a == 0.7 * ba)%Q
                                            /\ (0.5 < ba)%Q) cur.
Proof using Hv.
  intros Hf Hls. destruct variant_consts as (_ & Hgap & _).
  unfold drawCursor.
  destruct ((f <? ce) && Js.gtb ba 0.5) eqn:Hc; [| exists []; now repeat split].
  destruct (blink gf && (0 <? visibleLines v (List.length ls) f)) eqn:Hb;
    [| exists []; now repeat split].
  apply andb_true_iff in Hc as [_ Hgt]. apply ltb_true in Hgt.
  assert (Hq : 0 <= Js.floor (inject_Z f / inject_Z (LINE_GAP (consts v)))).
  { unfold Js.floor. change 0 with (Qfloor 0). apply Qfloor_resp_le.
    apply (div_sign f (LINE_GAP (consts v))); lia. }
  assert (Hlen : (0 < List.length ls)%nat) by (destruct ls; [congruence | cbn; lia]).
  assert (Hvis : 1 <= visibleLines v (List.length ls) f <= Z.of_nat (List.length ls)).
  { unfold visibleLines. lia. }
  destruct (lookup_lt_is_Some_2 ls (Z.to_nat (visibleLines v (List.length ls) f - 1)))
    as [lastLS Hlast]; [lia |].
  rewrite Hlast. eexists. split; [reflexivity |]. split; [reflexivity |].
  constructor; [| constructor]. eexists. split; [reflexivity |].
  split; [reflexivity | exact Hgt].
Qed.

Lemma lineSizes_text (ls : list string) : map text (lineSizes measure v ls) = ls.
Proof.
  unfold lineSizes. rewrite map_map. rewrite <- (map_id ls) at 2.
  apply map_ext. intros l. unfold lineSizeOf.
  destruct (String.eqb l "") eqn:He; [| reflexivity].
  apply String.eqb_eq in He. now subst.
Qed.

Lemma filter_map_text (ls : list string) (k : nat) :
  map text (List.filter (fun l => negb (String.eqb (text l) ""))
              (firstn k (lineSizes measure v ls)))
  = List.filter (fun s => negb (String.eqb s "")) (firstn k ls).
Proof.
  rewrite <- (lineSizes_text ls) at 2.
  generalize (lineSizes measure v ls). intros l.
  revert k. induction l as [| x l IH]; intros [| k]; try reflexivity.
  cbn [firstn map List.filter].
  destruct (String.eqb (text x) ""); cbn [negb map]; now rewrite IH.
Qed.

Lemma drawLines_ops (f : Z) (ba : Q) (ls : list LineSize) (li : Z) (y : Q) :
  (0 < ba <= 1)%Q ->
  Forall (fun o => match o with
                   | Text _ _ a _ _ => (0 < a <= 1)%Q
                   | _ => False
                   end) (fst (drawLines v f ba li y ls)).
Proof.
  intros Hba. revert li y. induction ls as [| l rest IH]; intros li y.
  - constructor.
  - cbn [drawLines].
    destruct (String.eqb (text l) ""); [apply IH |].
    destruct (Js.leb (lineAlpha v f li * ba) 0) eqn:Hz; [apply IH |].
    apply leb_false in Hz.
    specialize (IH (li + 1) (y + inject_Z (size l) * lineSpacing)%Q).
    destruct (drawLines v f ba (li + 1) (y + inject_Z (size l) * lineSpacing) rest)
      as [ops y'].
    cbn [fst] in *. constructor; [| exact IH].
    pose proof (lineAlpha_range f li). split; [exact Hz | nra].
Qed.

(** A block with lines, at one of its frames with a positive block
    alpha: the frame is drawn, and its texts are the revealed lines. *)
Lemma drawBlock_texts (gf f : Z) (bt : Timing) (ba : Q) (b : Block) :
  0 <= f -> (0 < ba <= 1)%Q -> lines b <> [] ->
  exists ops,
    drawBlock measure v gf f bt ba b = Some ops
    /\ map fst (textsOf ops)
       = List.filter (fun s => negb (String.eqb s ""))
           (firstn (Z.to_nat ((f + 5) / 6)) (lines b))
    /\ ((ba == 1)%Q -> Z.of_nat (List.length (lines b)) * 6 + 2 <= f ->
        Forall (fun ta => (snd ta == 1)%Q) (textsOf ops))
    /\ Forall (fun o => match o with
                        | Clear => False
                        | Text _ _ a _ _ => (0 < a <= 1)%Q
                        | Cursor _ _ _ _ a => (0.35 < a <= 0.7)%Q
                        end) ops.
Proof using Hv.
  intros Hf Hba Hl. unfold drawBlock.
  pose proof (filter_map_text (lines b) (Z.to_nat ((f + 5) / 6))) as Hfm.
  assert (Hlen : List.length (lineSizes measure v (lines b))
                 = List.length (lines b)).
  { unfold lineSizes. apply length_map. }
  assert (Hs : lineSizes measure v (lines b) <> []).
  { unfold lineSizes. destruct (lines b); [congruence | discriminate]. }
  destruct (lineSizes measure v (lines b)) as [| first rest]; [congruence |].
  set (L := first :: rest) in *.
  set (y0 := ((H - totalH L) / 2 + inject_Z (size first))%Q).
  pose proof (drawLines_texts f ba L 0 y0 (proj1 Hba)) as Ht.
  pose proof (drawLines_ops f ba L 0 y0 Hba) as Ha.
  pose proof (fun Hb1 => drawLines_opaque f L 0 y0 ba Hb1) as Ho.
  destruct (drawLines v f ba 0 y0 L) as [texts endY].
  cbn [fst] in Ht, Ha, Ho.
  destruct (drawCursor_defined gf f (linesFrames bt + holdFrames bt) ba endY
              L Hf Hs) as (cur & Hcur & Hnt & Hca).
  rewrite Hcur. exists (texts ++ cur).
  split; [reflexivity |].
  rewrite textsOf_app, Hnt, app_nil_r.
  split.
  { rewrite Ht, Z.sub_0_r. exact Hfm. }
  split.
  { intros Hb1 Hlen'. apply Ho; [exact Hb1 |]. rewrite Hlen. lia. }
  apply Forall_app. split.
  - eapply Forall_impl; [exact Ha |]. intros o Ho'. destruct o; tauto.
  - eapply Forall_impl; [exact Hca |]. intros o (a & Ho1 & Ho2 & Ho3).
    destruct o; cbn in Ho1; try discriminate; injection Ho1 as ->;
      rewrite Ho2; lra.
Qed.

Lemma drawCursor_ops (gf f ce : Z) (ba y : Q) (ls : list LineSize) (cur : list Op) :
  (ba <= 1)%Q ->
  drawCursor measure v gf f ce ba y ls = Some cur ->
  Forall (fun o => match o with
                   | Cursor _ _ _ _ a => (0.35 < a <= 0.7)%Q
                   | _ => False
                   end) cur.
Proof.
  intros Hba. unfold drawCursor.
  destruct ((f <? ce) && Js.gtb ba 0.5) eqn:Hc; [| intros [= <-]; constructor].
  destruct (blink gf && (0 <? visibleLines v (List.length ls) f));
    [| intros [= <-]; constructor].
  apply andb_true_iff in Hc as [_ Hgt]. apply ltb_true in Hgt.
  destruct (ls !! Z.to_nat (visibleLines v (List.length ls) f - 1)); [| discriminate].
  intros [= <-]. constructor; [lra | constructor].
Qed.

Lemma drawBlock_ops (gf f : Z) (bt : Timing) (ba : Q) (b : Block) (ops : list Op) :
  (0 < ba <= 1)%Q ->
  drawBlock measure v gf f bt ba b = Some ops ->
  Forall (fun o => match o with
                   | Clear => False
                   | Text _ _ a _ _ => (0 < a <= 1)%Q
                   | Cursor _ _ _ _ a => (0.35 < a <= 0.7)%Q
                   end) ops.
Proof.
  intros Hba. unfold drawBlock.
  destruct (lineSizes measure v (lines b)) as [| first rest]; [discriminate |].
  set (L := first :: rest).
  set (y0 := ((H - totalH L) / 2 + inject_Z (size first))%Q).
  pose proof (drawLines_ops f ba L 0 y0 Hba) as Ha.
  destruct (drawLines v f ba 0 y0 L) as [texts endY]. cbn [fst] in Ha.
  destruct (drawCursor measure v gf f (linesFrames bt + holdFrames bt) ba endY L)
    as [cur |] eqn:Hcur; [| discriminate].
  intros [= <-]. apply Forall_app. split.
  - eapply Forall_impl; [exact Ha |]. intros o Ho.
    destruct o; [destruct Ho | exact Ho | destruct Ho].
  - eapply Forall_impl; [exact (drawCursor_ops _ _ _ _ _ _ _ (proj2 Hba) Hcur) |].
    intros o Ho. destruct o; [destruct Ho | destruct Ho | exact Ho].
Qed.

(** The scan passes over the blocks whose interval misses the frame. *)
Lemma paintFrom_outside (gf : Z) (l : list (Block * Timing)) :
  (forall j b t, l !! j = Some (b, t) -> covers t gf = false) ->
  paintFrom measure v gf l = Some [].
Proof.
  induction l as [| [b t] l IH]; intros Hn; [reflexivity |].
  cbn [paintFrom]. rewrite (Hn 0%nat b t eq_refl).
  apply IH. intros j b' t' Hj. exact (Hn (S j) b' t' Hj).
Qed.

(** ... and draws the only block whose interval holds it, unless that
    block has faded out. *)
Lemma paintFrom_at (gf : Z) (l : list (Block * Timing)) (i : nat)
      (b : Block) (t : Timing) :
  l !! i = Some (b, t) -> covers t gf = true ->
  (forall j b' t', l !! j = Some (b', t') -> covers t' gf = true -> j = i) ->
  paintFrom measure v gf l
  = let f := gf - start t in
    let ba := blockAlpha v f (linesFrames t + holdFrames t) in
    if Js.leb ba 0 then Some [] else drawBlock measure v gf f t ba b.
Proof.
  revert i. induction l as [| [b0 t0] l IH]; intros i Hi Hc Hu; [discriminate |].
  cbn [paintFrom]. destruct i as [| i].
  - injection Hi as -> ->. rewrite Hc. cbv zeta.
    destruct (Js.leb (blockAlpha v (gf - start t) (linesFrames t + holdFrames t)) 0);
      [| reflexivity].
    apply paintFrom_outside. intros j b' t' Hj.
    destruct (covers t' gf) eqn:Hc'; [| reflexivity].
    specialize (Hu (S j) b' t' Hj Hc'). discriminate.
  - destruct (covers t0 gf) eqn:Hc0.
    + specialize (Hu 0%nat b0 t0 eq_refl Hc0). discriminate.
    + apply (IH i Hi Hc). intros j b' t' Hj Hc'.
      specialize (Hu (S j) b' t' Hj Hc'). now injection Hu.
Qed.

Context (blocks : list Block).
Hypothesis Hhold : Forall (fun b => (0 <= hold b)%Q) blocks.

Lemma blocks_positive : Forall (fun b => 0 < blockDuration (consts v) b) blocks.
Proof using Hv Hhold.
  eapply Forall_impl; [exact Hhold |]. intros b Hb.
  apply duration_positive; [exact variant_timeline | exact Hb].
Qed.

Lemma zip_timings_lookup (j : nat) (b : Block) (t : Timing) :
  zip blocks (blockTimings (consts v) blocks) !! j = Some (b, t)
  <-> blocks !! j = Some b /\ blockTimings (consts v) blocks !! j = Some t.
Proof.
  split.
  - intros H. apply lookup_zip_with_Some in H as (x & y & [= -> ->] & Hx & Hy).
    now split.
  - intros [Hx Hy]. apply lookup_zip_with_Some. now exists b, t.
Qed.

(** A frame outside every block's interval is black. *)
Lemma paintFrame_outside (gf : Z) :
  (forall j t, blockTimings (consts v) blocks !! j = Some t -> covers t gf = false) ->
  paintFrame measure v blocks gf = Some [Clear].
Proof.
  intros Hn. unfold paintFrame. rewrite paintFrom_outside; [reflexivity |].
  intros j b t Hj. apply zip_timings_lookup in Hj as [_ Ht]. exact (Hn j t Ht).
Qed.

(** A frame in the interval of block [i] shows that block, or black
    once the block has faded out. *)
Lemma paintFrame_at (gf : Z) (i : nat) (b : Block) (t : Timing) :
  blocks !! i = Some b -> blockTimings (consts v) blocks !! i = Some t ->
  covers t gf = true ->
  paintFrame measure v blocks gf
  = let f := gf - start t in
    let ba := blockAlpha v f (linesFrames t + holdFrames t) in
    if Js.leb ba 0 then Some [Clear]
    else match drawBlock measure v gf f t ba b with
         | Some ops => Some (Clear :: ops)
         | None => None
         end.
Proof using Hv Hhold.
  intros Hb Ht Hc. unfold paintFrame.
  rewrite (paintFrom_at gf _ i b t).
  - cbv zeta.
    now destruct (Js.leb (blockAlpha v (gf - start t) (linesFrames t + holdFrames t)) 0).
  - apply zip_timings_lookup. now split.
  - exact Hc.
  - intros j b' t' Hj Hc'. apply zip_timings_lookup in Hj as [_ Ht'].
    pose proof blocks_positive as Hpos.
    apply covers_true in Hc as Hr.
    pose proof (timing_within (consts v) blocks 0 i t Hpos Ht) as Hw.
    destruct (cover_unique (consts v) blocks 0 gf Hpos ltac:(lia))
      as (i0 & t0 & _ & _ & _ & Hu).
    rewrite (Hu j t' Ht' Hc'). symmetry. exact (Hu i t Ht Hc).
Qed.

Lemma timing_fields (i : nat) (b : Block) (t : Timing) :
  blocks !! i = Some b -> blockTimings (consts v) blocks !! i = Some t ->
  linesFrames t = Z.of_nat (List.length (lines b)) * 6 + 8
  /\ 0 <= holdFrames t
  /\ duration t = linesFrames t + holdFrames t + 10 + BLOCK_BLACK (consts v).
Proof using Hv Hhold.
  intros Hb Ht. destruct variant_consts as (Hlf & Hgap & Hfo & Hbb).
  destruct (timingsFrom_lookup (consts v) blocks 0 i b Hb)
    as (t' & Ht' & Hd & Hl & Hh & _).
  unfold blockTimings in Ht. rewrite Ht in Ht'. injection Ht' as <-.
  rewrite Hd, Hl, Hh. unfold blockDuration, linesFramesOf. rewrite Hlf, Hgap, Hfo.
  repeat split; try lia.
  unfold holdFramesOf. apply round_nonneg.
  apply Qmult_le_0_compat; [| discriminate].
  rewrite Forall_forall in Hhold. apply Hhold.
  eapply list_elem_of_lookup_2. exact Hb.
Qed.

(** With a line in every block no frame fails. *)
Lemma paintFrame_total :
  Forall (fun b => lines b <> []) blocks ->
  forall gf, is_Some (paintFrame measure v blocks gf).
Proof using Hv Hhold.
  destruct variant_consts as (Hlf & Hgap & Hfo & Hbb).
  pose proof blocks_positive as Hpos.
  intros Hlines gf.
  destruct (Z_lt_le_dec gf 0) as [Hneg | Hnn].
  { rewrite paintFrame_outside; [eauto |].
    intros j t Ht. apply covers_false.
    pose proof (timing_within (consts v) blocks 0 j t Hpos Ht). lia. }
  destruct (Z_lt_le_dec gf (snd (timingsFrom (consts v) 0 blocks))) as [Hin | Hout].
  2:{ rewrite paintFrame_outside; [eauto |].
      intros j t Ht. apply covers_false.
      pose proof (timing_within (consts v) blocks 0 j t Hpos Ht). lia. }
  destruct (cover_unique (consts v) blocks 0 gf Hpos ltac:(lia))
    as (i & t & Ht & Hc & _).
  assert (Hi : (i < List.length blocks)%nat).
  { rewrite <- (timingsFrom_length (consts v) blocks 0).
    eapply lookup_lt_Some. exact Ht. }
  destruct (lookup_lt_is_Some_2 blocks i Hi) as [b Hb].
  rewrite (paintFrame_at gf i b t Hb Ht Hc).
  cbv zeta.
  destruct (Js.leb (blockAlpha v (gf - start t) (linesFrames t + holdFrames t)) 0)
    eqn:Hz; [eauto |].
  apply leb_false in Hz.
  apply covers_true in Hc.
  destruct (drawBlock_texts gf (gf - start t) t _ b
              ltac:(lia) (conj Hz (proj2 (blockAlpha_range _ _)))
              (proj1 (Forall_lookup _ _) Hlines i b Hb))
    as (ops & Hops & _).
  rewrite Hops. eauto.
Qed.

End PainterFacts.

Section PainterClaims.
Import Timeline Raster.
Context (measure : Z -> string -> Q) (v : Renderer).

Lemma paintFrom_ops (gf : Z) (l : list (Block * Timing)) (ops : list Op) :
  paintFrom measure v gf l = Some ops ->
  Forall (fun o => match o with
                   | Clear => False
                   | Text _ _ a _ _ => (0 < a <= 1)%Q
                   | Cursor _ _ _ _ a => (0.35 < a <= 0.7)%Q
                   end) ops.
Proof.
  induction l as [| [b t] l IH]; cbn [paintFrom].
  - intros [= <-]. constructor.
  - destruct (covers t gf); [| exact IH].
    destruct (Js.leb (blockAlpha v (gf - start t) (linesFrames t + holdFrames t)) 0)
      eqn:Hz; [exact IH |].
    apply leb_false in Hz.
    apply drawBlock_ops. split; [exact Hz | apply blockAlpha_range].
Qed.

(** X5: whatever the blocks and the frame, a text is drawn at an alpha
    in (0, 1] and the cursor at an alpha in (0.35, 0.7]: the colour
    strings [rgba(255,255,255,alpha)] are always valid and nothing is
    drawn at alpha 0. *)
Theorem frame_alphas (blocks : list Block) (gf : Z) (ops : list Op) :
  paintFrame measure v blocks gf = Some ops ->
  Forall (fun o => match o with
                   | Clear => True
                   | Text _ _ a _ _ => (0 < a <= 1)%Q
                   | Cursor _ _ _ _ a => (0.35 < a <= 0.7)%Q
                   end) ops.
Proof.
  unfold paintFrame.
  destruct (paintFrom measure v gf (zip blocks (blockTimings (consts v) blocks)))
    as [ops0 |] eqn:Hp; [| discriminate].
  intros [= <-]. constructor; [exact I |].
  eapply Forall_impl; [exact (paintFrom_ops _ _ _ Hp) |].
  intros o Ho. destruct o; [destruct Ho | exact Ho | exact Ho].
Qed.

Context (blocks : list Block).
Hypothesis Hv : v = Raster.v1 \/ v = Raster.v2 \/ v = Raster.v4.
Hypothesis Hhold : Forall (fun b => (0 <= hold b)%Q) blocks.

(** X3: the last BLOCK_BLACK frames of every block's interval, and
    every frame from the 30-frame tail on, are black: the frame holds
    the background fill and nothing else. *)
Theorem black_between_blocks :
  (forall i t, blockTimings (consts v) blocks !! i = Some t ->
     duration t - BLOCK_BLACK (consts v)
     = linesFrames t + holdFrames t + FADE_OUT (consts v)
     /\ forall gf, start t + duration t - BLOCK_BLACK (consts v) <= gf
                   < start t + duration t ->
                   paintFrame measure v blocks gf = Some [Clear])
  /\ (forall gf, gf < 0 \/ totalFrames (consts v) blocks - TAIL <= gf ->
                 paintFrame measure v blocks gf = Some [Clear]).
Proof using Hv Hhold.
  destruct (variant_consts v Hv) as (Hlf & Hgap & Hfo & Hbb).
  pose proof (blocks_positive v Hv blocks Hhold) as Hpos.
  split.
  - intros i t Ht.
    assert (Hi : (i < List.length blocks)%nat).
    { rewrite <- (timingsFrom_length (consts v) blocks 0).
      eapply lookup_lt_Some. exact Ht. }
    destruct (lookup_lt_is_Some_2 blocks i Hi) as [b Hb].
    destruct (timing_fields v Hv blocks Hhold i b t Hb Ht) as (Hl & Hh & Hd).
    split; [rewrite Hfo; lia |].
    intros gf Hgf.
    rewrite (paintFrame_at measure v Hv blocks Hhold gf i b t Hb Ht).
    2:{ apply covers_true. lia. }
    cbv zeta.
    assert (Hz : (blockAlpha v (gf - start t) (linesFrames t + holdFrames t) <= 0)%Q).
    { apply blockAlpha_faded; [exact Hv |]. rewrite Hfo. lia. }
    apply leb_true in Hz. now rewrite Hz.
  - intros gf Hgf. apply paintFrame_outside.
    intros j t Ht. apply covers_false.
    pose proof (timing_within (consts v) blocks 0 j t Hpos Ht) as Hw.
    unfold totalFrames, TAIL in Hgf. lia.
Qed.

(** X4: at frame [f] of a block with lines, before the block has faded
    out, the frame shows the non-empty lines among the first
    ceil(f / LINE_GAP), in order; from [LINE_GAP] frames before
    [linesFrames] until the end of the hold it shows every non-empty
    line at alpha 1. *)
Theorem lines_revealed (i : nat) (b : Block) (t : Timing) (gf : Z) :
  blocks !! i = Some b -> blockTimings (consts v) blocks !! i = Some t ->
  lines b <> [] ->
  let f := gf - start t in
  let gap := LINE_GAP (consts v) in
  0 <= f < linesFrames t + holdFrames t + FADE_OUT (consts v) ->
  exists ops,
    paintFrame measure v blocks gf = Some (Clear :: ops)
    /\ map fst (textsOf ops)
       = List.filter (fun s => negb (String.eqb s ""))
           (firstn (Z.to_nat ((f + gap - 1) / gap)) (lines b))
    /\ (linesFrames t - gap <= f < linesFrames t + holdFrames t ->
        map fst (textsOf ops)
        = List.filter (fun s => negb (String.eqb s "")) (lines b)
        /\ Forall (fun ta => (snd ta == 1)%Q) (textsOf ops)).
Proof using Hv Hhold.
  intros Hb Ht Hl f gap Hf. subst f gap.
  destruct (variant_consts v Hv) as (Hlf & Hgap & Hfo & Hbb).
  destruct (timing_fields v Hv blocks Hhold i b t Hb Ht) as (Hlines & Hh & Hd).
  rewrite (paintFrame_at measure v Hv blocks Hhold gf i b t Hb Ht).
  2:{ apply covers_true. lia. }
  cbv zeta.
  pose proof (blockAlpha_fading v Hv (gf - start t) (linesFrames t + holdFrames t)
                ltac:(lia)) as Hpos.
  pose proof (blockAlpha_range v (gf - start t) (linesFrames t + holdFrames t))
    as Hrange.
  apply leb_false in Hpos as Hz. rewrite Hz.
  destruct (drawBlock_texts measure v Hv gf (gf - start t) t _ b
              ltac:(lia) (conj Hpos (proj2 Hrange)) Hl)
    as (ops & Hops & Htexts & Hfull & _).
  rewrite Hops. exists ops. split; [reflexivity |].
  rewrite Hgap. replace (gf - start t + 6 - 1) with (gf - start t + 5) by lia.
  split; [exact Htexts |].
  intros Hphase. split.
  - rewrite Htexts. f_equal. apply firstn_all2.
    assert (Z.of_nat (List.length (lines b)) <= (gf - start t + 5) / 6).
    { apply Z.div_le_lower_bound; lia. }
    lia.
  - apply Hfull; [| lia].
    rewrite (blockAlpha_before v (gf - start t) (linesFrames t + holdFrames t)
               ltac:(lia)).
    reflexivity.
Qed.

(** X6: the rasterizer completes every frame of the film if and only if
    no block is without lines (on a block without lines
    [lineSizes[0].size] is a TypeError at the block's first frame). *)
Theorem paintFrame_defined :
  (forall gf, is_Some (paintFrame measure v blocks gf))
  <-> Forall (fun b => lines b <> []) blocks.
Proof using Hv Hhold.
  destruct (variant_consts v Hv) as (Hlf & Hgap & Hfo & Hbb).
  pose proof (blocks_positive v Hv blocks Hhold) as Hpos.
  split.
  - intros Hall. apply Forall_lookup. intros i b Hb Hnil.
    destruct (timingsFrom_lookup (consts v) blocks 0 i b Hb) as (t & Ht & _).
    destruct (timing_fields v Hv blocks Hhold i b t Hb Ht) as (Hlines & Hh & Hd).
    destruct (Hall (start t)) as [ops Hops].
    rewrite (paintFrame_at measure v Hv blocks Hhold (start t) i b t Hb Ht) in Hops.
    2:{ apply covers_true. lia. }
    cbv zeta in Hops.
    rewrite (blockAlpha_before v (start t - start t)
               (linesFrames t + holdFrames t) ltac:(lia)) in Hops.
    change (Js.leb 1 0) with false in Hops.
    unfold drawBlock in Hops. rewrite Hnil in Hops. discriminate Hops.
  - exact (paintFrame_total measure v Hv blocks Hhold).
Qed.

End PainterClaims.

Section PainterWitnesses.
Import Timeline Raster.

Lemma v2Opening_holds : Forall (fun b => (0 <= hold b)%Q) v2Opening.
Proof. repeat constructor; discriminate. Qed.

(** X5 at frame 10 of v2's opening. *)
Lemma frame_alphas_witness :
  exists ops,
    paintFrame halfEm Raster.v2 v2Opening 10 = Some ops
    /\ Forall (fun o => match o with
                        | Clear => True
                        | Text _ _ a _ _ => (0 < a <= 1)%Q
                        | Cursor _ _ _ _ a => (0.35 < a <= 0.7)%Q
                        end) ops.
Proof.
  eexists. split; [vm_compute; reflexivity |].
  apply (frame_alphas halfEm Raster.v2 v2Opening 10). vm_compute. reflexivity.
Defined.

(** X3 at v2's opening: its first block takes frames 0 to 56, of which
    45 to 56 are black. *)
Lemma black_between_blocks_witness :
  Forall (fun b => (0 <= hold b)%Q) v2Opening
  /\ paintFrame halfEm Raster.v2 v2Opening 50 = Some [Clear].
Proof.
  split; [exact v2Opening_holds |].
  destruct (black_between_blocks halfEm Raster.v2 v2Opening
              (or_intror (or_introl eq_refl)) v2Opening_holds) as [Hb _].
  destruct (Hb 0%nat {| start := 0; duration := 57; linesFrames := 14;
                        holdFrames := 21 |} eq_refl) as [_ Hgf].
  apply Hgf. cbn. lia.
Defined.

(** X4 at frame 30 of v2's second block, which starts at frame 57. *)
Lemma lines_revealed_witness :
  exists ops,
    paintFrame halfEm Raster.v2 v2Opening 87 = Some (Clear :: ops)
    /\ map fst (textsOf ops) = ["macos 14."; "m1."; "premium device."].
Proof.
  destruct (lines_revealed halfEm Raster.v2 v2Opening
              (or_intror (or_introl eq_refl)) v2Opening_holds 1%nat
              {| lines := ["macos 14."; "m1."; "premium device."]; hold := 1.0 |}
              {| start := 57; duration := 78; linesFrames := 26; holdFrames := 30 |}
              87 eq_refl eq_refl ltac:(discriminate) ltac:(cbn; lia))
    as (ops & Hops & _ & Hfull).
  exists ops. split; [exact Hops |].
  apply Hfull. cbn. lia.
Defined.

(** X6 at v2's opening: both blocks have lines, so every frame is
    painted. *)
Lemma paintFrame_defined_witness :
  Forall (fun b => (0 <= hold b)%Q) v2Opening
  /\ forall gf, is_Some (paintFrame halfEm Raster.v2 v2Opening gf).
Proof.
  split; [exact v2Opening_holds |].
  apply (paintFrame_defined halfEm Raster.v2 v2Opening
           (or_intror (or_introl eq_refl)) v2Opening_holds).
  repeat constructor; discriminate.
Defined.

End PainterWitnesses.

(** ** The blocks of the v4 monolog *)

Section MonologBlocks.
Import Profile Monolog V4Film.

Lemma prepend_nonempty (a b : string) : a <> "" -> a +:+ b <> "".
Proof.
  intros Ha Heq. apply (f_equal String.length) in Heq.
  rewrite string_length_app in Heq. destruct a; [contradiction | cbn in Heq; lia].
Qed.

Lemma filter_nonempty (ls : list string) :
  Forall (fun s => s <> "") (List.filter (fun s => negb (String.eqb s "")) ls).
Proof.
  induction ls as [| s ls IH]; [constructor |]. cbn [List.filter].
  destruct (String.eqb s "") eqn:He; cbn [negb]; [exact IH |].
  constructor; [now apply String.eqb_neq | exact IH].
Qed.

Lemma add_ok (h : string) (rest : list string) (imp : string) :
  h <> "" -> imp = "normal" \/ imp = "flash" \/ imp = "linger" ->
  okBlock (add (h :: rest) imp).
Proof.
  intros Hh Himp. unfold okBlock, add. cbn [lines importance].
  split; [| split; [apply filter_nonempty |]].
  - cbn [List.filter]. apply String.eqb_neq in Hh. rewrite Hh. discriminate.
  - destruct Himp as [-> | [-> | ->]]; cbn; auto.
Qed.

Ltac nonempty_tac :=
  repeat first
    [ discriminate
    | apply prepend_nonempty; discriminate
    | apply append_nonempty ].

Ltac tag_tac := first [ now left | now (right; left) | now (right; right) ].

Ltac ok_blocks :=
  repeat match goal with
         | |- Forall _ [] => constructor
         | |- Forall _ (_ :: _) =>
             constructor; [apply add_ok; [nonempty_tac | tag_tac] |]
         | |- Forall _ (_ ++ _) => apply Forall_app; split
         end.

Ltac break_ifs :=
  repeat match goal with
         | |- context [if ?b then _ else _] => destruct b eqn:?
         end.

Section Sections.
Context (host : Host) (fp : FpData) (p : Profile) (sc : Scores).

Lemma opening_ok :
  Forall okBlock opening /\ (1 <= List.length opening <= 1)%nat.
Proof. unfold opening. split; [ok_blocks | cbn; lia]. Qed.

Lemma deviceDetection_ok :
  Forall okBlock (deviceDetection host fp p)
  /\ (1 <= List.length (deviceDetection host fp p) <= 2)%nat.
Proof.
  unfold deviceDetection. break_ifs; (split; [ok_blocks | cbn; lia]).
Qed.

Lemma formFactor_ok :
  Forall okBlock (formFactor host fp p)
  /\ (0 <= List.length (formFactor host fp p) <= 1)%nat.
Proof.
  unfold formFactor. break_ifs; (split; [ok_blocks | cbn; lia]).
Qed.

Lemma techLiteracy_ok :
  Forall okBlock (techLiteracy host p)
  /\ (2 <= List.length (techLiteracy host p) <= 3)%nat.
Proof.
  unfold techLiteracy. cbv zeta. break_ifs; (split; [ok_blocks | cbn; lia]).
Qed.

Lemma browserPosture_ok :
  Forall okBlock (browserPosture fp p)
  /\ (1 <= List.length (browserPosture fp p) <= 3)%nat.
Proof.
  unfold browserPosture. cbv zeta. break_ifs; (split; [ok_blocks | cbn; lia]).
Qed.

Lemma batterySection_ok :
  Forall okBlock (batterySection fp)
  /\ (0 <= List.length (batterySection fp) <= 2)%nat.
Proof.
  unfold batterySection. destruct (batteryLevel fp); cbv zeta;
    break_ifs; (split; [ok_blocks | cbn; lia]).
Qed.

Lemma timeOfDay_ok :
  Forall okBlock (timeOfDay host fp)
  /\ (0 <= List.length (timeOfDay host fp) <= 2)%nat.
Proof.
  unfold timeOfDay. destruct (localHour host fp); cbv zeta;
    [| split; [constructor | cbn; lia]].
  repeat match goal with
         | |- context [if ?b then _ else _] =>
             lazymatch b with
             | context [nonEmpty] => fail
             | _ => destruct b
             end
         end; (split; [ok_blocks | cbn; lia]).
Qed.

Lemma locationLanguage_ok (loc : list Block) :
  locationLanguage fp p = Some loc ->
  Forall okBlock loc /\ (1 <= List.length loc <= 3)%nat.
Proof.
  unfold locationLanguage. cbv zeta. break_ifs.
  - intros [= <-]. split; [ok_blocks | cbn; lia].
  - destruct (language (basicOf fp)); [| discriminate].
    intros [= <-]. split; [ok_blocks | cbn; lia].
  - intros [= <-]. split; [ok_blocks | cbn; lia].
Qed.

Lemma fontForensics_ok :
  Forall okBlock (fontForensics fp)
  /\ (0 <= List.length (fontForensics fp) <= 2)%nat.
Proof.
  unfold fontForensics. cbv zeta. break_ifs; (split; [ok_blocks | cbn; lia]).
Qed.

Lemma incomeSection_ok :
  Forall okBlock (incomeSection p)
  /\ (2 <= List.length (incomeSection p) <= 3)%nat.
Proof.
  unfold incomeSection. cbv zeta. break_ifs; (split; [ok_blocks | cbn; lia]).
Qed.

Lemma connectionSection_ok :
  Forall okBlock (connectionSection host fp)
  /\ (0 <= List.length (connectionSection host fp) <= 2)%nat.
Proof.
  unfold connectionSection. destruct (connectionType (basicOf fp));
    break_ifs; (split; [ok_blocks | cbn; lia]).
Qed.

Lemma entropySection_ok :
  Forall okBlock (entropySection host sc)
  /\ (3 <= List.length (entropySection host sc) <= 4)%nat.
Proof.
  unfold entropySection. cbv zeta. break_ifs; (split; [ok_blocks | cbn; lia]).
Qed.

Lemma identificationSection_ok :
  Forall okBlock (identificationSection fp)
  /\ (4 <= List.length (identificationSection fp) <= 4)%nat.
Proof.
  unfold identificationSection. cbv zeta. split; [ok_blocks | cbn; lia].
Qed.

Lemma endingSection_ok :
  Forall okBlock endingSection /\ (4 <= List.length endingSection <= 4)%nat.
Proof. unfold endingSection. split; [ok_blocks | cbn; lia]. Qed.

Lemma hardwareDetails_ok :
  Forall okBlock (hardwareDetails host fp p)
  /\ (0 <= List.length (hardwareDetails host fp p) <= 4)%nat.
Proof.
  unfold hardwareDetails. cbv zeta.
  destruct (truthyQ (hardwareConcurrency (basicOf fp)));
    destruct (truthyQ (deviceMemory (basicOf fp)));
    cbn [app List.length Nat.ltb Nat.leb Js.join String.concat];
    break_ifs; (split; [ok_blocks | cbn; lia]).
Qed.

Lemma professionSection_ok :
  Forall okBlock (professionSection p)
  /\ (0 <= List.length (professionSection p) <= 1)%nat.
Proof.
  unfold professionSection. cbv zeta.
  destruct (professionAll p) as [[| x l] |]; cbn [List.length Nat.ltb Nat.leb];
    try solve [split; [constructor | cbn; lia]].
  cbn [firstn map]. split; [ok_blocks | cbn; lia].
Qed.

Lemma valuationSection_ok :
  Forall okBlock (valuationSection sc)
  /\ (2 <= List.length (valuationSection sc) <= 3)%nat.
Proof.
  unfold valuationSection. cbv zeta.
  destruct (factors sc) as [[| x l] |]; cbn [List.length Nat.ltb Nat.leb firstn map];
    (split; [ok_blocks | cbn; lia]).
Qed.

Lemma cookieSummary_ok (c : Cookies) : okBlock (cookieSummary c).
Proof. unfold cookieSummary. cbv zeta. apply add_ok; [nonempty_tac | tag_tac]. Qed.

Lemma cookieSection_ok :
  Forall okBlock (cookieSection fp)
  /\ (0 <= List.length (cookieSection fp) <= 8)%nat.
Proof.
  unfold cookieSection.
  destruct (cookies fp) as [c |]; [| split; [constructor | cbn; lia]].
  destruct (0 <? total c); [| split; [constructor | cbn; lia]].
  cbv zeta.
  set (bycat := match byCategory c with Some m => m | None => ∅ end).
  set (top := match topTrackers c with Some l => l | None => [] end).
  set (zombies := match lifetimes c with Some l => zombie l | None => 0 end).
  assert (Hb :
    Forall okBlock
      (if Nat.ltb 0 (List.length
            ((match catCount bycat "advertising" with
              | Some n => [Js.intToString n +:+ " advertising."]
              | None => []
              end)
             ++ (match catCount bycat "social" with
                 | Some n => [Js.intToString n +:+ " social media."]
                 | None => []
                 end)
             ++ (match catCount bycat "data_brokers" with
                 | Some n => [Js.intToString n +:+ " data brokers."]
                 | None => []
                 end)))
       then [add ((match catCount bycat "advertising" with
                   | Some n => [Js.intToString n +:+ " advertising."]
                   | None => []
                   end)
                  ++ (match catCount bycat "social" with
                      | Some n => [Js.intToString n +:+ " social media."]
                      | None => []
                      end)
                  ++ (match catCount bycat "data_brokers" with
                      | Some n => [Js.intToString n +:+ " data brokers."]
                      | None => []
                      end)) "normal"]
       else [])).
  { destruct (catCount bycat "advertising"); destruct (catCount bycat "social");
      destruct (catCount bycat "data_brokers");
      cbn [app List.length Nat.ltb Nat.leb]; ok_blocks. }
  assert (Ht :
    Forall okBlock
      (if Nat.ltb 0 (List.length (firstn 5 top))
       then [add (map (fun t => domain t +:+ ": "
                                +:+ Js.intToString (count t) +:+ ".")
                      (firstn 5 top)) "normal"]
       else [])).
  { destruct top as [| t0 top']; cbn [firstn List.length Nat.ltb Nat.leb map];
      ok_blocks. }
  split.
  - apply Forall_app. split.
    { constructor; [apply cookieSummary_ok |]. ok_blocks. }
    apply Forall_app. split; [exact Hb |].
    apply Forall_app. split; [exact Ht |].
    break_ifs; ok_blocks.
  - rewrite !length_app. cbn [List.length].
    repeat match goal with
           | |- context [List.length (if ?b then _ else _)] => destruct b
           end; cbn [List.length]; lia.
Qed.

Lemma buildMonolog_ok (bs : list Block) :
  buildMonolog host fp p sc = Some bs ->
  Forall okBlock bs /\ (21 <= List.length bs <= 52)%nat.
Proof.
  unfold buildMonolog.
  destruct (locationLanguage fp p) as [loc |] eqn:Hloc; [| discriminate].
  intros Heq. apply (inj Some) in Heq. subst bs.
  destruct opening_ok, deviceDetection_ok, formFactor_ok, techLiteracy_ok,
    browserPosture_ok, hardwareDetails_ok, batterySection_ok, timeOfDay_ok,
    (locationLanguage_ok loc Hloc), fontForensics_ok, professionSection_ok,
    incomeSection_ok, connectionSection_ok, cookieSection_ok, entropySection_ok,
    valuationSection_ok, identificationSection_ok, endingSection_ok.
  split.
  - repeat match goal with
           | |- Forall _ (_ ++ _) => apply Forall_app; split; [assumption |]
           end.
    assumption.
  - rewrite !length_app. lia.
Qed.

End Sections.

End MonologBlocks.

Section V4FilmFacts.
Import Profile Monolog V4Film.

Lemma applyTimingFrom_blocks (bs : list Block) (i total s : Z) :
  map block (fst (applyTimingFrom i total bs s)) = bs.
Proof.
  revert i s. induction bs as [| b rest IH]; intros i s; [reflexivity |].
  cbn [applyTimingFrom].
  destruct (V4Timing.scaredTiming i total (Z.of_nat (List.length (lines b)))
              (importance b) s) as [h s1].
  specialize (IH (i + 1) s1).
  destruct (applyTimingFrom (i + 1) total rest s1) as [ts s2].
  cbn [fst map block] in *. now rewrite IH.
Qed.

Lemma scheduleWith_blocks (host : Host) (fp : FpData) (p : Profile) (sc : Scores)
      (seed prior : Z) (ts : list Timed) (s' : Z) :
  scheduleWith host fp p sc seed prior = Some (ts, s') ->
  buildMonolog host fp p sc = Some (map block ts).
Proof.
  unfold scheduleWith, applyTiming.
  destruct (buildMonolog host fp p sc) as [bs |]; [| discriminate].
  intros Heq. apply (inj Some) in Heq.
  pose proof (applyTimingFrom_blocks bs 0 (Z.of_nat (List.length bs))
                (Rng.srand seed prior)) as Hb.
  rewrite Heq in Hb. cbn [fst] in Hb. now rewrite Hb.
Qed.

(** X7: whenever [buildMonolog] returns, it returns between 21 and 52
    blocks; each has at least one line, no empty line (the spacers are
    filtered out) and one of the tags normal, flash and linger; the
    first block is "scanning." and the last "you are the product.". *)
Theorem monolog_blocks (host : Host) (fp : FpData) (p : Profile) (sc : Scores)
        (bs : list Block) :
  buildMonolog host fp p sc = Some bs ->
  Forall okBlock bs
  /\ (21 <= List.length bs <= 52)%nat
  /\ head bs = Some {| lines := ["scanning."]; importance := "normal" |}
  /\ last bs = Some {| lines := ["you are the product."];
                       importance := "linger" |}.
Proof.
  intros Hb. destruct (buildMonolog_ok host fp p sc bs Hb) as [Hok Hlen].
  split; [exact Hok |]. split; [exact Hlen |].
  unfold buildMonolog in Hb.
  destruct (locationLanguage fp p) as [loc |]; [| discriminate].
  apply (inj Some) in Hb. subst bs. split; [reflexivity |].
  rewrite !app_assoc. unfold endingSection.
  rewrite last_app_cons. reflexivity.
Qed.

(** X9: [buildMonolog] throws exactly on a record without a language
    whose country is one of United States, United Kingdom, Canada and
    Australia ([d.language.toLowerCase()] on undefined). *)
Theorem buildMonolog_throws_iff (host : Host) (fp : FpData) (p : Profile)
        (sc : Scores) :
  buildMonolog host fp p sc = None
  <-> language (basicOf fp) = None
      /\ Js.inList (country p)
           ["United States"; "United Kingdom"; "Canada"; "Australia"] = true.
Proof.
  unfold buildMonolog.
  assert (Hl : locationLanguage fp p = None
               <-> language (basicOf fp) = None
                   /\ Js.inList (country p)
                        ["United States"; "United Kingdom"; "Canada"; "Australia"]
                      = true).
  { unfold locationLanguage. cbv zeta.
    destruct (language (basicOf fp)) as [lang |] eqn:Hlang.
    - split; [| intros [? _]; discriminate].
      repeat match goal with
             | |- context [if ?b then _ else _] => destruct b
             end; discriminate.
    - cbn [orS]. change (Js.toLowerCase (String.substring 0 2 "")) with "".
      change (String.eqb "" "en") with false. cbn [andb negb].
      destruct (Js.inList (country p)
                  ["United States"; "United Kingdom"; "Canada"; "Australia"]).
      + split; [now split | reflexivity].
      + split; [discriminate | intros [_ ?]; discriminate]. }
  destruct (locationLanguage fp p) as [loc |].
  - split; [discriminate |]. intros H. apply Hl in H. discriminate.
  - rewrite <- Hl. tauto.
Qed.

(** X8: a frame of the v4 film fails only if [buildMonolog] throws:
    every block the builder returns has a line, and every hold that
    [scaredTiming] attaches is positive, so the rasterizer completes
    every frame. *)
Theorem v4_frame_defined (measure : Z -> string -> Q) (host : Host)
        (fp : FpData) (p : Profile) (sc : Scores) (gf : Z) :
  frame measure host fp p sc gf = None <-> buildMonolog host fp p sc = None.
Proof.
  unfold frame, schedule.
  destruct (scheduleWith host fp p sc (seedOf fp) 0) as [[ts s'] |] eqn:Hs.
  - pose proof (scheduleWith_blocks _ _ _ _ _ _ _ _ Hs) as Hb.
    pose proof (schedule_holds _ _ _ _ _ _ _ _ Hs) as Hh.
    destruct (buildMonolog_ok host fp p sc _ Hb) as [Hok _].
    rewrite Hb. split; [| discriminate]. intros Hnone. exfalso.
    destruct (paintFrame_total measure Raster.v4
                (or_intror (or_intror eq_refl)) (map Timeline.ofTimed ts) Hh)
      with (gf := gf) as [ops Hops]; [| congruence].
    apply Forall_fmap. rewrite Forall_fmap in Hok.
    eapply Forall_impl; [exact Hok |]. intros t Ht. exact (proj1 Ht).
  - unfold scheduleWith in Hs.
    destruct (buildMonolog host fp p sc); [discriminate | tauto].
Qed.

End V4FilmFacts.

(** ** The audio track of v4 *)

Section AudioBuffer.
Import Audio.

Lemma writeBytes_length (bs : list Z) (off : Z) (buf buf' : Buffer) :
  writeBytes bs off buf = Some buf' -> List.length buf' = List.length buf.
Proof.
  unfold writeBytes.
  destruct ((0 <=? off) && (off + Z.of_nat (List.length bs) <=? Z.of_nat (List.length buf)))
    eqn:Hc; [| discriminate].
  apply andb_true_iff in Hc as [H0 H1]. apply Z.leb_le in H0, H1.
  intros Heq. apply (inj Some) in Heq. subst buf'. rewrite !length_app, length_take, length_drop. lia.
Qed.

Lemma writeBytes_inside (bs : list Z) (off : Z) (buf buf' : Buffer) (j : nat) :
  writeBytes bs off buf = Some buf' -> (j < List.length bs)%nat ->
  buf' !! (Z.to_nat off + j)%nat = bs !! j.
Proof.
  unfold writeBytes.
  destruct ((0 <=? off) && (off + Z.of_nat (List.length bs) <=? Z.of_nat (List.length buf)))
    eqn:Hc; [| discriminate].
  apply andb_true_iff in Hc as [H0 H1]. apply Z.leb_le in H0, H1.
  intros Heq Hj. apply (inj Some) in Heq. subst buf'.
  rewrite lookup_app_r; rewrite length_take; [| lia].
  replace (Z.to_nat off + j - Z.to_nat off `min` List.length buf)%nat with j by lia.
  now rewrite lookup_app_l.
Qed.

Lemma writeBytes_outside (bs : list Z) (off : Z) (buf buf' : Buffer) (j : nat) :
  writeBytes bs off buf = Some buf' ->
  (j < Z.to_nat off \/ Z.to_nat off + List.length bs <= j)%nat ->
  buf' !! j = buf !! j.
Proof.
  unfold writeBytes.
  destruct ((0 <=? off) && (off + Z.of_nat (List.length bs) <=? Z.of_nat (List.length buf)))
    eqn:Hc; [| discriminate].
  apply andb_true_iff in Hc as [H0 H1]. apply Z.leb_le in H0, H1.
  intros Heq Hj'. apply (inj Some) in Heq. subst buf'. destruct Hj' as [Hj | Hj].
  - rewrite lookup_app_l; [| rewrite length_take; lia].
    apply lookup_take_lt. lia.
  - rewrite lookup_app_r; rewrite length_take; [| lia].
    rewrite lookup_app_r; [| lia].
    rewrite lookup_drop. f_equal. lia.
Qed.

Lemma writeBytes_fits (bs : list Z) (off : Z) (buf : Buffer) :
  0 <= off -> off + Z.of_nat (List.length bs) <= Z.of_nat (List.length buf) ->
  is_Some (writeBytes bs off buf).
Proof.
  intros H0 H1. unfold writeBytes.
  apply Z.leb_le in H0, H1. rewrite H0, H1. cbn. eauto.
Qed.

Lemma bytes16_value (v : Z) :
  0 <= v <= 65535 -> byteOf 0 v + 256 * byteOf 1 v = v.
Proof.
  intros Hv. unfold byteOf. change (256 ^ 0) with 1. change (256 ^ 1) with 256.
  rewrite Z.div_1_r.
  rewrite (Z.mod_small (v / 256) 256).
  - pose proof (Z.div_mod v 256 ltac:(lia)). lia.
  - split; [apply Z.div_pos; lia | apply Z.div_lt_upper_bound; lia].
Qed.

Lemma bytes16_signed (v : Z) :
  -32768 <= v <= 32767 ->
  let u := byteOf 0 v + 256 * byteOf 1 v in
  (if u <? 32768 then u else u - 65536) = v.
Proof.
  intros Hv. unfold byteOf. change (256 ^ 0) with 1. change (256 ^ 1) with 256.
  rewrite Z.div_1_r. cbv zeta.
  pose proof (Z.div_mod v 256 ltac:(lia)) as H1.
  pose proof (Z.mod_pos_bound v 256 ltac:(lia)) as H2.
  pose proof (Z.div_mod (v / 256) 256 ltac:(lia)) as H3.
  pose proof (Z.mod_pos_bound (v / 256) 256 ltac:(lia)) as H4.
  assert (H5 : -128 <= v / 256 < 128).
  { split; [apply Z.div_le_lower_bound; lia | apply Z.div_lt_upper_bound; lia]. }
  set (q := v / 256) in *. set (r := v mod 256) in *.
  set (q' := q / 256) in *. set (r' := q mod 256) in *.
  clearbody q r q' r'.
  destruct (r + 256 * r' <? 32768) eqn:Hc;
    [apply Z.ltb_lt in Hc | apply Z.ltb_ge in Hc]; lia.
Qed.

Lemma bytes32_value (v : Z) :
  0 <= v <= 4294967295 ->
  byteOf 0 v + 256 * byteOf 1 v + 65536 * byteOf 2 v + 16777216 * byteOf 3 v = v.
Proof.
  intros Hv. unfold byteOf.
  change (256 ^ 0) with 1. change (256 ^ 1) with 256.
  change (256 ^ 2) with (256 * 256). change (256 ^ 3) with (256 * 256 * 256).
  rewrite Z.div_1_r. rewrite <- !Z.div_div by lia.
  pose proof (Z.div_mod v 256 ltac:(lia)) as H1.
  pose proof (Z.mod_pos_bound v 256 ltac:(lia)) as H2.
  set (q1 := v / 256) in *.
  pose proof (Z.div_mod q1 256 ltac:(lia)) as H3.
  pose proof (Z.mod_pos_bound q1 256 ltac:(lia)) as H4.
  set (q2 := q1 / 256) in *.
  pose proof (Z.div_mod q2 256 ltac:(lia)) as H5.
  pose proof (Z.mod_pos_bound q2 256 ltac:(lia)) as H6.
  set (q3 := q2 / 256) in *.
  assert (H7 : 0 <= q3 < 256).
  { subst q3 q2 q1. rewrite !Z.div_div by lia.
    split; [apply Z.div_pos; lia | apply Z.div_lt_upper_bound; lia]. }
  rewrite (Z.mod_small q3 256 H7).
  clearbody q3. lia.
Qed.

End AudioBuffer.

Section AudioTrack.
Import Monolog Audio.
Context (h : Host).

(** The 16-bit value of every sample lies within the clamp. *)
Lemma sampleAt_range (droneFreq : Q) (totalSamples : Z) (queue : list Transient)
      (i : Z) (phase : Q) (k : nat) :
  -31129 <= fst (fst (sampleAt h droneFreq totalSamples queue i phase k)) <= 31128.
Proof.
  unfold sampleAt. cbv zeta.
  destruct (clicks h i queue 0 k) as [click k1]. cbn [fst].
  match goal with
  | |- _ <= Js.floor (Js.clamp ?x _ _ * _) <= _ =>
      pose proof (clamp_range x (-0.95) 0.95 ltac:(discriminate)) as Hr;
      set (s := Js.clamp x (-0.95) 0.95) in *; clearbody s
  end.
  unfold Js.floor. split.
  - change (-31129) with (Qfloor (-31128.65)). apply Qfloor_resp_le. lra.
  - change 31128 with (Qfloor 31128.65). apply Qfloor_resp_le. lra.
Qed.

Lemma readInt16LE_written (v off : Z) (buf buf' : Buffer) :
  writeInt16LE v off buf = Some buf' ->
  readInt16LE (Z.to_nat off) buf' = Some v.
Proof.
  unfold writeInt16LE.
  destruct ((-32768 <=? v) && (v <=? 32767)) eqn:Hc; [| discriminate].
  apply andb_true_iff in Hc as [H0 H1]. apply Z.leb_le in H0, H1.
  intros Hw. unfold readInt16LE, readUInt16LE.
  pose proof (writeBytes_inside _ _ _ _ 0 Hw ltac:(cbn; lia)) as Hb0.
  pose proof (writeBytes_inside _ _ _ _ 1 Hw ltac:(cbn; lia)) as Hb1.
  rewrite Nat.add_0_r in Hb0. rewrite Nat.add_1_r in Hb1.
  rewrite Hb0, Hb1. cbn [lookup list_lookup].
  f_equal. apply (bytes16_signed v). lia.
Qed.

(** The sample loop fills the buffer from sample [i] on and leaves the
    rest of it as it was. *)
Lemma sampleLoop_spec (droneFreq : Q) (totalSamples : Z) (queue : list Transient)
      (n : nat) (i : Z) (phase : Q) (k : nat) (buf : Buffer) :
  0 <= i -> 2 * (i + Z.of_nat n) <= Z.of_nat (List.length buf) ->
  exists buf',
    sampleLoop h droneFreq totalSamples queue n i phase k buf = Some buf'
    /\ List.length buf' = List.length buf
    /\ (forall j, (j < 2 * Z.to_nat i)%nat -> buf' !! j = buf !! j)
    /\ (forall j, i <= j < i + Z.of_nat n ->
          exists s, readInt16LE (2 * Z.to_nat j) buf' = Some s
                    /\ -31129 <= s <= 31128).
Proof.
  revert i phase k buf. induction n as [| n IH]; intros i phase k buf Hi Hlen.
  - exists buf. cbn [sampleLoop]. repeat split; try reflexivity. intros j Hj. lia.
  - cbn [sampleLoop].
    pose proof (sampleAt_range droneFreq totalSamples queue i phase k) as Hr.
    destruct (sampleAt h droneFreq totalSamples queue i phase k)
      as [[int16 phase'] k']. cbn [fst] in Hr.
    assert (Hw : is_Some (writeInt16LE int16 (i * 2) buf)).
    { unfold writeInt16LE.
      assert (Hc : (-32768 <=? int16) && (int16 <=? 32767) = true).
      { apply andb_true_iff. split; apply Z.leb_le; lia. }
      rewrite Hc. apply writeBytes_fits; cbn [List.length]; lia. }
    destruct Hw as [buf1 Hw]. rewrite Hw.
    assert (Hlen1 : List.length buf1 = List.length buf).
    { unfold writeInt16LE in Hw.
      destruct ((-32768 <=? int16) && (int16 <=? 32767)); [| discriminate].
      exact (writeBytes_length _ _ _ _ Hw). }
    destruct (IH (i + 1) phase' k' buf1 ltac:(lia) ltac:(lia))
      as (buf' & Hloop & Hlen' & Hlow & Hhigh).
    exists buf'. split; [exact Hloop |]. split; [lia |]. split.
    + intros j Hj. rewrite Hlow by lia.
      unfold writeInt16LE in Hw.
      destruct ((-32768 <=? int16) && (int16 <=? 32767)); [| discriminate].
      apply (writeBytes_outside _ _ _ _ j Hw). lia.
    + intros j Hj. destruct (Z.eq_dec j i) as [-> | Hne].
      * exists int16. split; [| exact Hr].
        pose proof (readInt16LE_written _ _ _ _ Hw) as Hread.
        replace (Z.to_nat (i * 2)) with (2 * Z.to_nat i)%nat in Hread by lia.
        unfold readInt16LE, readUInt16LE in *.
        rewrite !Hlow by lia. exact Hread.
      * apply Hhigh. lia.
Qed.


(** The header, byte by byte. *)
Lemma header_bytes (dataSize : Z) :
  0 <= 36 + dataSize <= 4294967295 -> 0 <= dataSize ->
  header dataSize
  = Some [82; 73; 70; 70;
          byteOf 0 (36 + dataSize); byteOf 1 (36 + dataSize);
          byteOf 2 (36 + dataSize); byteOf 3 (36 + dataSize);
          87; 65; 86; 69; 102; 109; 116; 32;
          16; 0; 0; 0; 1; 0; 1; 0;
          68; 172; 0; 0; 136; 88; 1; 0; 2; 0; 16; 0;
          100; 97; 116; 97;
          byteOf 0 dataSize; byteOf 1 dataSize;
          byteOf 2 dataSize; byteOf 3 dataSize].
Proof.
  intros Hf Hd. unfold header, writeUInt32LE. cbv zeta.
  assert (Hc1 : (0 <=? 36 + dataSize) && (36 + dataSize <=? 4294967295) = true).
  { apply andb_true_iff. split; apply Z.leb_le; lia. }
  assert (Hc2 : (0 <=? dataSize) && (dataSize <=? 4294967295) = true).
  { apply andb_true_iff. split; apply Z.leb_le; lia. }
  rewrite Hc1, Hc2.
  generalize (byteOf 0 (36 + dataSize)), (byteOf 1 (36 + dataSize)),
    (byteOf 2 (36 + dataSize)), (byteOf 3 (36 + dataSize)),
    (byteOf 0 dataSize), (byteOf 1 dataSize), (byteOf 2 dataSize),
    (byteOf 3 dataSize).
  intros a0 a1 a2 a3 d0 d1 d2 d3. vm_compute. reflexivity.
Qed.


Lemma header_fails (dataSize : Z) :
  4294967295 < 36 + dataSize -> header dataSize = None.
Proof.
  intros Hf. unfold header, writeUInt32LE. cbv zeta.
  assert (Hc : (0 <=? 36 + dataSize) && (36 + dataSize <=? 4294967295) = false).
  { apply andb_false_iff. right. apply Z.leb_gt. lia. }
  rewrite Hc. reflexivity.
Qed.

(** The samples: two bytes for each of the [totalSamplesOf] samples. *)
Lemma samples_spec (blocks : list Timed) (dur : Q) :
  let n := totalSamplesOf dur in
  (n < 0 -> samples h blocks dur = None)
  /\ (0 <= n ->
      exists buf, samples h blocks dur = Some buf
                  /\ Z.of_nat (List.length buf) = 2 * n
                  /\ forall j, 0 <= j < n ->
                       exists s, readInt16LE (2 * Z.to_nat j) buf = Some s
                                 /\ -31129 <= s <= 31128).
Proof.
  cbv zeta. unfold samples. cbv zeta. unfold alloc.
  set (n := totalSamplesOf dur). clearbody n. split.
  - intros Hn. assert (Hc : (n * 2 <? 0) = true) by (apply Z.ltb_lt; lia).
    now rewrite Hc.
  - intros Hn. assert (Hc : (n * 2 <? 0) = false) by (apply Z.ltb_ge; lia).
    rewrite Hc.
    destruct (sampleLoop_spec (40 + random h 0 * 20)%Q n (transientQueue blocks)
                (Z.to_nat n) 0 0%Q 1%nat (repeat 0 (Z.to_nat (n * 2)))
                ltac:(lia) ltac:(rewrite repeat_length; lia))
      as (buf & Hloop & Hlen & _ & Hs).
    exists buf. split; [exact Hloop |]. split.
    + rewrite Hlen, repeat_length. lia.
    + intros j Hj. apply Hs. lia.
Qed.

Lemma generateAudio_parts (blocks : list Timed) (dur : Q) (file : Buffer) :
  generateAudio h blocks dur = Some file ->
  let n := totalSamplesOf dur in
  exists hd buf,
    file = hd ++ buf
    /\ header (2 * n) = Some hd
    /\ 0 <= n /\ 36 + 2 * n <= 4294967295
    /\ Z.of_nat (List.length buf) = 2 * n
    /\ forall j, 0 <= j < n ->
         exists s, readInt16LE (2 * Z.to_nat j) buf = Some s
                   /\ -31129 <= s <= 31128.
Proof.
  cbv zeta. unfold generateAudio.
  destruct (samples_spec blocks dur) as [Hneg Hpos]. cbv zeta in *.
  destruct (Z_lt_le_dec (totalSamplesOf dur) 0) as [Hn | Hn].
  { rewrite (Hneg Hn). discriminate. }
  destruct (Hpos Hn) as (buf & Hbuf & Hlen & Hs). rewrite Hbuf.
  cbn [mbind option_bind]. rewrite Hlen.
  destruct (Z_lt_le_dec 4294967295 (36 + 2 * totalSamplesOf dur)) as [Hbig | Hfit].
  { rewrite (header_fails _ Hbig). discriminate. }
  destruct (header (2 * totalSamplesOf dur)) as [hd |] eqn:Hhd; [| discriminate].
  cbn [mbind option_bind]. intros Heq. apply (inj Some) in Heq. subst file.
  exists hd, buf. repeat split; try assumption; lia.
Qed.

(** X10: [generateAudio] returns a file exactly when the duration is not
    negative and the sample data fit the 32-bit size fields; the file is
    a 44-byte header followed by two bytes per sample, and the header's
    fields are consistent: RIFF size = file length - 8, data size = file
    length - 44, PCM, mono, 44100 Hz, 16 bits, byte rate 88200, block
    align 2. *)
Theorem wav_header (blocks : list Timed) (dur : Q) :
  let n := totalSamplesOf dur in
  (is_Some (generateAudio h blocks dur) <-> 0 <= n /\ 36 + 2 * n <= 4294967295)
  /\ forall file, generateAudio h blocks dur = Some file ->
       let len := Z.of_nat (List.length file) in
       len = 44 + 2 * n
       /\ firstn 4 file = [82; 73; 70; 70]
       /\ readUInt32LE 4 file = Some (len - 8)
       /\ firstn 8 (skipn 8 file) = [87; 65; 86; 69; 102; 109; 116; 32]
       /\ readUInt32LE 16 file = Some 16
       /\ readUInt16LE 20 file = Some 1
       /\ readUInt16LE 22 file = Some 1
       /\ readUInt32LE 24 file = Some SR
       /\ readUInt32LE 28 file = Some (SR * 1 * 16 / 8)
       /\ readUInt16LE 32 file = Some (1 * 16 / 8)
       /\ readUInt16LE 34 file = Some 16
       /\ firstn 4 (skipn 36 file) = [100; 97; 116; 97]
       /\ readUInt32LE 40 file = Some (len - 44).
Proof.
  cbv zeta. split.
  - split.
    + intros [file Hfile].
      destruct (generateAudio_parts blocks dur file Hfile)
        as (hd & buf & _ & _ & Hn & Hfit & _).
      split; assumption.
    + intros [Hn Hfit]. unfold generateAudio.
      destruct (samples_spec blocks dur) as [_ Hpos]. cbv zeta in Hpos.
      destruct (Hpos Hn) as (buf & Hbuf & Hlen & _). rewrite Hbuf.
      cbn [mbind option_bind]. rewrite Hlen.
      rewrite (header_bytes (2 * totalSamplesOf dur)) by lia.
      cbn [mbind option_bind]. eauto.
  - intros file Hfile.
    destruct (generateAudio_parts blocks dur file Hfile)
      as (hd & buf & -> & Hhd & Hn & Hfit & Hlen & _).
    rewrite header_bytes in Hhd by lia. apply (inj Some) in Hhd. subst hd.
    pose proof (bytes32_value (36 + 2 * totalSamplesOf dur) ltac:(lia)) as Hf.
    pose proof (bytes32_value (2 * totalSamplesOf dur) ltac:(lia)) as Hd.
    rewrite length_app, Nat2Z.inj_add, Hlen. cbn [List.length].
    unfold readUInt32LE, readUInt16LE. cbn [app lookup list_lookup firstn skipn].
    repeat match goal with |- _ /\ _ => split end;
      try reflexivity; try lia; f_equal; lia.
Qed.

(** X11: every sample of the file is a 16-bit value between -31129 and
    31128, the clamp to [-0.95, 0.95] scaled by 32767: [writeInt16LE]
    never throws and the track never reaches full scale. *)
Theorem samples_in_range (blocks : list Timed) (dur : Q) (file : Buffer) :
  generateAudio h blocks dur = Some file ->
  forall j, 0 <= j < totalSamplesOf dur ->
    exists s, readInt16LE (44 + 2 * Z.to_nat j) file = Some s
              /\ -31129 <= s <= 31128.
Proof.
  intros Hfile j Hj.
  destruct (generateAudio_parts blocks dur file Hfile)
    as (hd & buf & -> & Hhd & Hn & Hfit & Hlen & Hs).
  rewrite header_bytes in Hhd by lia. apply (inj Some) in Hhd. subst hd.
  destruct (Hs j Hj) as (s & Hread & Hr). exists s. split; [| exact Hr].
  unfold readInt16LE, readUInt16LE in *.
  change (S (44 + 2 * Z.to_nat j)) with (44 + S (2 * Z.to_nat j))%nat.
  rewrite !lookup_app_r by (cbn [List.length]; lia).
  cbn [List.length].
  replace (44 + 2 * Z.to_nat j - 44)%nat with (2 * Z.to_nat j)%nat by lia.
  replace (44 + S (2 * Z.to_nat j) - 44)%nat with (S (2 * Z.to_nat j)) by lia.
  exact Hread.
Qed.

End AudioTrack.

Section AudioDrift.
Import Monolog Audio.

Lemma round_error (x : Q) :
  (x - 0.5 < inject_Z (Js.round x) <= x + 0.5)%Q.
Proof.
  unfold Js.round.
  pose proof (Qfloor_le (x + 0.5)) as H1.
  pose proof (Qlt_floor (x + 0.5)) as H2.
  rewrite inject_Z_plus in H2. change (inject_Z 1) with 1%Q in H2.
  split; lra.
Qed.

(** The transient of a block against the block's first frame, from any
    point of the two loops. *)
Lemma queue_vs_timings (ts : list Timed) (t : Q) (s : Z) (lo hi : Q) :
  (lo <= inject_Z s / 30 - t <= hi)%Q ->
  forall (i : nat) tr tm,
    queueFrom t ts !! i = Some tr ->
    fst (Timeline.timingsFrom Timeline.v4 s (map Timeline.ofTimed ts)) !! i = Some tm ->
    exists ti : Q,
      sample tr = Js.floor (ti * inject_Z SR)
      /\ (lo + 0.35 * inject_Z (Z.of_nat i)
          <= inject_Z (Timeline.start tm) / 30 - ti
          <= hi + (23 # 60) * inject_Z (Z.of_nat i))%Q.
Proof.
  revert t s lo hi. induction ts as [| b rest IH]; intros t s lo hi Hb i tr tm Hq Ht;
    [discriminate |].
  cbn [map] in Ht. rewrite timingsFrom_cons in Ht. cbn [fst] in Ht.
  cbn [queueFrom] in Hq.
  destruct i as [| i].
  - injection Hq as <-. injection Ht as <-. exists t.
    cbn [sample Timeline.start Timeline.timingOf]. split; [reflexivity |].
    change (inject_Z (Z.of_nat 0)) with 0%Q. lra.
  - cbn [lookup list_lookup] in Hq, Ht.
    set (n := Z.of_nat (List.length (lines (block b)))) in *.
    set (t' := (t + (holdSec b + inject_Z n * 0.2 + 0.5))%Q) in *.
    destruct (IH t' (s + Timeline.blockDuration Timeline.v4 (Timeline.ofTimed b))
                (lo + 0.35)%Q (hi + (23 # 60))%Q) with (i := i) (tr := tr) (tm := tm)
      as (ti & Hs & Hbound); [| exact Hq | exact Ht |].
    + unfold Timeline.blockDuration, Timeline.linesFramesOf, Timeline.holdFramesOf,
        Timeline.ofTimed.
      cbn [Timeline.lines Timeline.hold Timeline.LINE_GAP Timeline.LINE_FADE
             Timeline.FADE_OUT Timeline.BLOCK_BLACK Timeline.v4].
      fold n. change (inject_Z Timeline.FPS) with 30%Q.
      pose proof (round_error (holdSec b * 30)) as Hr.
      set (r := Js.round (holdSec b * 30)) in *. clearbody r.
      rewrite !inject_Z_plus, inject_Z_mult.
      change (inject_Z 6) with 6%Q. change (inject_Z 8) with 8%Q.
      change (inject_Z 10) with 10%Q.
      subst t'. set (x := inject_Z s) in *. set (y := inject_Z n) in *.
      set (z := inject_Z r) in *. clearbody x y z.
      assert (Hdiv : forall a : Q, (a / 30 == a * (1 # 30))%Q) by (intros; field).
      rewrite Hdiv in Hb |- *. split; lra.
    + exists ti. split; [exact Hs |].
      rewrite Nat2Z.inj_succ, <- Z.add_1_r, inject_Z_plus.
      change (inject_Z 1) with 1%Q. lra.
Qed.

(** X12: the transient of block [i] is queued between 0.35 i and
    (0.35 + 1/30) i seconds before the first frame of block [i], to
    within one sample (15435 i to 16905 i samples at 44100 Hz against
    frames at 30 per second; the one sample is the room that the floor
    of the double product [t * SAMPLE_RATE] needs): the clicks run
    ahead of the picture, further with every block. *)
Theorem transients_lead_blocks (ts : list Timed) (i : nat)
        (tr : Transient) (tm : Timeline.Timing) :
  transientQueue ts !! i = Some tr ->
  Timeline.blockTimings Timeline.v4 (map Timeline.ofTimed ts) !! i = Some tm ->
  15435 * Z.of_nat i - 1 <= Timeline.start tm * 1470 - sample tr
  <= 16905 * Z.of_nat i + 1.
Proof.
  intros Hq Ht.
  destruct (queue_vs_timings ts 0 0 0 0 ltac:(split; discriminate) i tr tm Hq Ht)
    as (ti & Hs & Hlo & Hhi).
  rewrite Hs. unfold Js.floor.
  pose proof (Qfloor_le (ti * inject_Z SR)) as H1.
  pose proof (Qlt_floor (ti * inject_Z SR)) as H2.
  set (m := Qfloor (ti * inject_Z SR)) in *. clearbody m.
  change (inject_Z SR) with 44100%Q in *.
  rewrite inject_Z_plus in H2. change (inject_Z 1) with 1%Q in H2.
  assert (Hdiv : forall a : Q, (a / 30 == a * (1 # 30))%Q) by (intros; field).
  rewrite Hdiv in Hlo, Hhi.
  split.
  - assert (Hle : 15435 * Z.of_nat i + m <= Timeline.start tm * 1470); [| lia].
    rewrite Zle_Qle. rewrite inject_Z_plus, !inject_Z_mult.
    change (inject_Z 15435) with 15435%Q. change (inject_Z 1470) with 1470%Q.
    lra.
  - assert (Hlt : Timeline.start tm * 1470 < 16905 * Z.of_nat i + (m + 1)); [| lia].
    rewrite Zlt_Qlt. rewrite !inject_Z_plus, !inject_Z_mult.
    change (inject_Z 16905) with 16905%Q. change (inject_Z 1470) with 1470%Q.
    change (inject_Z 1) with 1%Q.
    lra.
Qed.

End AudioDrift.

(** ** The cookie analyzer: what the counters add up to *)

Section CookieCounters.
Import CookieAnalyzer.
Context (getTrackerCategory : string -> option string) (now : Q).

(** The lifetime class that the loop counts a cookie in, if any. *)
Lemma lifetimeStep_sum (c : Cookie) (l : Lifetimes) :
  let l' := lifetimeStep now c l in
  let dated := session c
               || match expirationDate c with
                  | Some e => negb (Qeq_bool e 0)
                  | None => false
                  end in
  lsession l' = lsession l + (if session c then 1 else 0)
  /\ lsession l' + shortLived l' + persistent l' + zombie l'
     = lsession l + shortLived l + persistent l + zombie l
       + (if dated then 1 else 0)
  /\ shortLived l <= shortLived l' /\ persistent l <= persistent l'
  /\ zombie l <= zombie l'.
Proof.
  cbv zeta. unfold lifetimeStep.
  destruct (session c); cbn [orb lsession shortLived persistent zombie];
    [repeat split; lia |].
  destruct (expirationDate c) as [e |]; [| repeat split; lia].
  destruct (Qeq_bool e 0); cbn [negb]; [repeat split; lia |].
  destruct (Js.ltb ((e - now) / 86400) 1);
    [cbn [lsession shortLived persistent zombie]; repeat split; lia |].
  destruct (Js.gtb ((e - now) / 86400) 365);
    cbn [lsession shortLived persistent zombie]; repeat split; lia.
Qed.

Lemma step_lifetimes (acc : Acc) (c : Cookie) :
  accLifetimes (CookieAnalyzer.tally getTrackerCategory now acc c)
  = lifetimeStep now c (accLifetimes acc).
Proof.
  unfold CookieAnalyzer.tally.
  now destruct (getTrackerCategory (stripDot (domain c))).
Qed.

Lemma loop_lifetimes (cookies : list Cookie) (acc : Acc) :
  let dated (c : Cookie) :=
    session c
    || match expirationDate c with
       | Some e => negb (Qeq_bool e 0)
       | None => false
       end in
  let l := accLifetimes acc in
  let l' := accLifetimes (fold_left (CookieAnalyzer.tally getTrackerCategory now)
                            cookies acc) in
  lsession l' = lsession l + Z.of_nat (List.length (List.filter session cookies))
  /\ lsession l' + shortLived l' + persistent l' + zombie l'
     = lsession l + shortLived l + persistent l + zombie l
       + Z.of_nat (List.length (List.filter dated cookies))
  /\ shortLived l <= shortLived l' /\ persistent l <= persistent l'
  /\ zombie l <= zombie l'.
Proof.
  cbv zeta. revert acc. induction cookies as [| c rest IH]; intros acc.
  - cbn. repeat split; lia.
  - cbn [fold_left List.filter].
    specialize (IH (CookieAnalyzer.tally getTrackerCategory now acc c)).
    rewrite step_lifetimes in IH.
    pose proof (lifetimeStep_sum c (accLifetimes acc)) as Hs. cbv zeta in Hs.
    destruct (session c); cbn [orb] in *; cbn [List.length];
      [repeat split; lia |].
    destruct (match expirationDate c with
              | Some e => negb (Qeq_bool e 0)
              | None => false
              end); cbn [List.length]; repeat split; lia.
Qed.

(** X13: in every analysis that [analyze] returns, the four lifetime
    counters are not negative; [session] counts the session cookies,
    and together the four count the cookies that are session cookies or
    carry a non-zero expiration date: a cookie that is neither is in no
    lifetime class, so the counters add up to at most the total. *)
Theorem lifetimes_partition (cookies : list Cookie) (a : Analysis) :
  analyze getTrackerCategory now cookies = Some a ->
  let l := lifetimes a in
  let dated (c : Cookie) :=
    session c
    || match expirationDate c with
       | Some e => negb (Qeq_bool e 0)
       | None => false
       end in
  0 <= shortLived l /\ 0 <= persistent l /\ 0 <= zombie l
  /\ lsession l = Z.of_nat (List.length (List.filter session cookies))
  /\ lsession l + shortLived l + persistent l + zombie l
     = Z.of_nat (List.length (List.filter dated cookies))
  /\ lsession l + shortLived l + persistent l + zombie l <= total a.
Proof.
  intros Ha. apply analyze_report in Ha as [-> _].
  cbv zeta. unfold report. cbn [lifetimes total].
  pose proof (loop_lifetimes cookies initialAcc) as H. cbv zeta in H.
  cbn [initialAcc accLifetimes lsession shortLived persistent zombie] in H.
  destruct H as (H1 & H2 & H3 & H4 & H5).
  repeat match goal with |- _ /\ _ => split end; try lia.
  rewrite H2.
  match goal with
  | |- context [List.filter ?f cookies] =>
      pose proof (List.filter_length_le f cookies)
  end.
  lia.
Qed.


Lemma sum_insert_new (m : gmap string Z) (k : string) (x : Z) :
  m !! k = None ->
  map_fold (fun _ n s => n + s) 0 (<[k := x]> m)
  = x + map_fold (fun _ n s => n + s) 0 m.
Proof.
  intros Hk. apply (map_fold_insert_L (fun (_ : string) n s => n + s));
    [intros; lia | exact Hk].
Qed.

Lemma sum_insert_old (m : gmap string Z) (k : string) (v x : Z) :
  m !! k = Some v ->
  map_fold (fun _ n s => n + s) 0 (<[k := x]> m)
  = map_fold (fun _ n s => n + s) 0 m - v + x.
Proof.
  intros Hk. rewrite <- insert_delete_eq.
  rewrite sum_insert_new by apply lookup_delete_eq.
  rewrite (map_fold_delete_L (fun (_ : string) n s => n + s) 0 k v m);
    [lia | intros; lia | exact Hk].
Qed.

Lemma sum_bump (m : gmap string Z) (k : string) :
  map_fold (fun _ n s => n + s) 0 (bump k m)
  = map_fold (fun _ n s => n + s) 0 m + 1.
Proof.
  unfold bump. destruct (m !! k) as [v |] eqn:Hk.
  - rewrite (sum_insert_old m k v _ Hk). lia.
  - rewrite (sum_insert_new m k _ Hk). lia.
Qed.

Lemma bump_lookup (m : gmap string Z) (k j : string) :
  bump k m !! j
  = if String.eqb j k
    then Some (match m !! k with Some n => n + 1 | None => 1 end)
    else m !! j.
Proof.
  unfold bump. destruct (String.eqb j k) eqn:He.
  - apply String.eqb_eq in He. subst. apply lookup_insert_eq.
  - apply String.eqb_neq in He. apply lookup_insert_ne. congruence.
Qed.

(** What the loop keeps of the category counters. *)
Lemma loop_categories (cookies : list Cookie) (acc : Acc) :
  let acc' := fold_left (CookieAnalyzer.tally getTrackerCategory now) cookies acc in
  (forall k n, accCategory acc !! k = Some n -> 0 <= n) ->
  map_fold (fun _ n s => n + s) 0 (accCategory acc')
  = map_fold (fun _ n s => n + s) 0 (accCategory acc)
    + Z.of_nat (List.length cookies)
  /\ (forall k n, accCategory acc' !! k = Some n -> 0 <= n)
  /\ (forall k, is_Some (accCategory acc !! k) -> is_Some (accCategory acc' !! k))
  /\ catOf (accCategory acc) "unknown"
     + Z.of_nat (List.length (firstParty acc'))
     - Z.of_nat (List.length (firstParty acc))
     <= catOf (accCategory acc') "unknown"
  /\ ((forall d, getTrackerCategory d <> Some "unknown") ->
      catOf (accCategory acc') "unknown"
      = catOf (accCategory acc) "unknown"
        + Z.of_nat (List.length (firstParty acc'))
        - Z.of_nat (List.length (firstParty acc))).
Proof.
  cbv zeta. revert acc. induction cookies as [| c rest IH]; intros acc Hnn.
  - cbn [fold_left List.length]. repeat split; auto; try lia.
  - cbn [fold_left].
    set (acc1 := CookieAnalyzer.tally getTrackerCategory now acc c).
    assert (Hcat : exists k, accCategory acc1 = bump k (accCategory acc)
                   /\ ((k = "unknown"
                        /\ List.length (firstParty acc1)
                           = S (List.length (firstParty acc)))
                       \/ (getTrackerCategory (stripDot (domain c)) = Some k
                           /\ firstParty acc1 = firstParty acc))).
    { subst acc1. unfold CookieAnalyzer.tally.
      destruct (getTrackerCategory (stripDot (domain c))) as [k |].
      - exists k. split; [reflexivity |]. right. now split.
      - exists "unknown". split; [reflexivity |]. left. split; [reflexivity |].
        cbn [firstParty]. rewrite length_app. cbn. lia. }
    destruct Hcat as (k & Hk & Hfp).
    assert (Hnn1 : forall j n, accCategory acc1 !! j = Some n -> 0 <= n).
    { intros j n. rewrite Hk, bump_lookup.
      destruct (String.eqb j k); [| apply Hnn].
      intros [= <-]. destruct (accCategory acc !! k) as [v |] eqn:Hv; [| lia].
      specialize (Hnn k v Hv). lia. }
    destruct (IH acc1 Hnn1) as (IH1 & IH2 & IH3 & IH4 & IH5).
    assert (Hunk : catOf (accCategory acc1) "unknown"
                   = catOf (accCategory acc) "unknown"
                     + (if String.eqb "unknown" k then 1 else 0)).
    { unfold catOf. rewrite Hk, bump_lookup.
      destruct (String.eqb "unknown" k) eqn:He; [| lia].
      apply String.eqb_eq in He. subst k.
      destruct (accCategory acc !! "unknown"); lia. }
    split; [rewrite IH1, Hk, sum_bump; cbn [List.length]; lia |].
    split; [exact IH2 |].
    split.
    { intros j Hj. apply IH3. rewrite Hk, bump_lookup.
      destruct (String.eqb j k); [eauto | exact Hj]. }
    split.
    { destruct Hfp as [[-> Hlen] | [Hg Hsame]].
      - change (String.eqb "unknown" "unknown") with true in Hunk.
        cbv iota in Hunk. lia.
      - rewrite Hsame in IH4. destruct (String.eqb "unknown" k); lia. }
    intros Hno. specialize (IH5 Hno).
    destruct Hfp as [[-> Hlen] | [Hg Hsame]].
    + change (String.eqb "unknown" "unknown") with true in Hunk.
        cbv iota in Hunk. lia.
    + rewrite Hsame in IH5.
      destruct (String.eqb "unknown" k) eqn:He; [| lia].
      apply String.eqb_eq in He. subst k. exfalso. exact (Hno _ Hg).
Qed.

(** X14: for a tracker table none of whose category names is
    inherited from [Object.prototype] (under such a name the counter of
    the plain object [byCategory] would start from the inherited
    value), in every analysis that [analyze] returns the category
    counters add up to the number of cookies: every cookie is counted
    once, under its tracker category or under [unknown]; the seven
    categories of the initial object are always present and no counter
    is negative; [unknown] holds at least the first-party cookies, and
    exactly those when no tracker is listed under the category name
    unknown. *)
Theorem categories_partition (cookies : list Cookie) (a : Analysis) :
  (forall d c, getTrackerCategory d = Some c -> inherited c = false) ->
  analyze getTrackerCategory now cookies = Some a ->
  map_fold (fun _ n s => n + s) 0 (byCategory a) = total a
  /\ (forall k n, byCategory a !! k = Some n -> 0 <= n)
  /\ Forall (fun k => is_Some (byCategory a !! k))
       ["advertising"; "analytics"; "social"; "data_brokers"; "fingerprinting";
        "consent_management"; "unknown"]
  /\ firstPartyCount a <= catOf (byCategory a) "unknown"
  /\ ((forall d, getTrackerCategory d <> Some "unknown") ->
      catOf (byCategory a) "unknown" = firstPartyCount a).
Proof.
  intros _ Ha. apply analyze_report in Ha as [-> _].
  unfold report. cbn [byCategory total firstPartyCount].
  assert (Hinit : forall k n, accCategory initialAcc !! k = Some n -> 0 <= n).
  { intros k n. cbn [initialAcc accCategory]. unfold initialCategory.
    rewrite !lookup_insert_Some, lookup_empty. intros H.
    repeat match type of H with
           | _ \/ _ => destruct H as [[_ <-] | [_ H]]
           end; try lia; discriminate. }
  destruct (loop_categories cookies initialAcc Hinit) as (H1 & H2 & H3 & H4 & H5).
  assert (Hsum0 : map_fold (fun (_ : string) n s => n + s) 0
                    (accCategory initialAcc) = 0).
  { cbn [initialAcc accCategory]. unfold initialCategory.
    rewrite !sum_insert_new; [reflexivity | ..]; vm_compute; reflexivity. }
  assert (Hunk0 : catOf (accCategory initialAcc) "unknown" = 0) by reflexivity.
  cbn [initialAcc firstParty List.length] in H4, H5.
  split; [rewrite H1, Hsum0; lia |].
  split; [exact H2 |].
  split.
  { repeat constructor; apply H3; cbn [initialAcc accCategory];
      unfold initialCategory; vm_compute; eauto. }
  split; [lia |].
  intros Hno. rewrite (H5 Hno). lia.
Qed.

End CookieCounters.

Section TopTrackers.
Import CookieAnalyzer.
Context (getTrackerCategory : string -> option string) (now : Q).

(** The sum of the counts of a tracker list. *)
Abbreviation countSum l := (fold_right (fun t s => tcount t + s) 0 l).

Lemma countDomain_sum (d cat : string) (l : list TopTracker) :
  countSum (countDomain d cat l) = countSum l + 1.
Proof.
  induction l as [| t l IH]; cbn [countDomain fold_right tcount]; [lia |].
  destruct (String.eqb (tdomain t) d); cbn [fold_right tcount]; lia.
Qed.

Lemma countDomain_domains (d cat : string) (l : list TopTracker) :
  map tdomain (countDomain d cat l)
  = if Js.inList d (map tdomain l) then map tdomain l else map tdomain l ++ [d].
Proof.
  induction l as [| t l IH]; [reflexivity |].
  cbn [countDomain map Js.inList existsb].
  unfold Js.inList in IH.
  rewrite (String.eqb_sym d (tdomain t)).
  destruct (String.eqb (tdomain t) d); cbn [orb map tdomain]; [reflexivity |].
  rewrite IH. now destruct (existsb (String.eqb d) (map tdomain l)).
Qed.

Lemma inList_false (d : string) (l : list string) :
  Js.inList d l = false -> d ∉ l.
Proof.
  unfold Js.inList. induction l as [| x l IH]; cbn [existsb]; intros H.
  - apply not_elem_of_nil.
  - apply orb_false_iff in H as [Hx Hl]. apply String.eqb_neq in Hx.
    apply not_elem_of_cons. split; [exact Hx | exact (IH Hl)].
Qed.

Lemma countDomain_NoDup (d cat : string) (l : list TopTracker) :
  NoDup (map tdomain l) -> NoDup (map tdomain (countDomain d cat l)).
Proof.
  intros Hnd. rewrite countDomain_domains.
  destruct (Js.inList d (map tdomain l)) eqn:Hin; [exact Hnd |].
  apply NoDup_app. split; [exact Hnd |]. split.
  - intros x Hx Hd. apply list_elem_of_singleton in Hd. subst x.
    exact (inList_false _ _ Hin Hx).
  - apply NoDup_singleton.
Qed.

Lemma countDomain_Forall (P : TopTracker -> Prop) (d cat : string)
      (l : list TopTracker) :
  P {| tdomain := d; tcount := 1; tcategory := cat |} ->
  (forall t, P t -> P {| tdomain := tdomain t; tcount := tcount t + 1;
                         tcategory := tcategory t |}) ->
  Forall P l -> Forall P (countDomain d cat l).
Proof.
  intros Hnew Hinc. induction 1 as [| t l Ht Hl IH]; cbn [countDomain].
  - constructor; [exact Hnew | constructor].
  - destruct (String.eqb (tdomain t) d); constructor; auto.
Qed.

(** The dictionary [trackerDomains] after the second loop. *)
Lemma trackerDomains_spec (tcs : list TrackerCookie) (l : list TopTracker) :
  let good (t : TopTracker) :=
    1 <= tcount t /\ getTrackerCategory (tdomain t) = Some (tcategory t) in
  let l' := fold_left (fun l tc => countDomain (stripDot (domain (cookie tc)))
                                               (trackerCategory tc) l) tcs l in
  Forall (fun tc => getTrackerCategory (stripDot (domain (cookie tc)))
                    = Some (trackerCategory tc)) tcs ->
  NoDup (map tdomain l) -> Forall good l ->
  NoDup (map tdomain l') /\ Forall good l'
  /\ countSum l' = countSum l + Z.of_nat (List.length tcs).
Proof.
  cbv zeta. revert l. induction tcs as [| tc tcs IH]; intros l Hcat Hnd Hgood.
  - cbn. repeat split; auto. lia.
  - cbn [fold_left]. apply Forall_cons in Hcat as [Hc Hcat].
    destruct (IH (countDomain (stripDot (domain (cookie tc))) (trackerCategory tc) l)
                Hcat) as (H1 & H2 & H3).
    + now apply countDomain_NoDup.
    + apply countDomain_Forall;
        [cbn [tcount tdomain tcategory]; split; [lia | exact Hc] | | exact Hgood].
      intros t [Ht1 Ht2]. cbn [tcount tdomain tcategory]. split; [lia | exact Ht2].
    + split; [exact H1 |]. split; [exact H2 |].
      rewrite H3, countDomain_sum. cbn [List.length]. lia.
Qed.

Lemma loop_trackerCookies (cookies : list Cookie) (acc : Acc) :
  Forall (fun tc => getTrackerCategory (stripDot (domain (cookie tc)))
                    = Some (trackerCategory tc)) (trackerCookies acc) ->
  Forall (fun tc => getTrackerCategory (stripDot (domain (cookie tc)))
                    = Some (trackerCategory tc))
         (trackerCookies (fold_left (CookieAnalyzer.tally getTrackerCategory now)
                            cookies acc)).
Proof.
  revert acc. induction cookies as [| c rest IH]; intros acc Hacc; [exact Hacc |].
  cbn [fold_left]. apply IH. unfold CookieAnalyzer.tally.
  destruct (getTrackerCategory (stripDot (domain c))) as [k |] eqn:Hk;
    cbn [trackerCookies]; [| exact Hacc].
  apply Forall_app. split; [exact Hacc |].
  constructor; [exact Hk | constructor].
Qed.

Lemma insertByCount_perm (t : TopTracker) (l : list TopTracker) :
  insertByCount t l ≡ₚ t :: l.
Proof.
  induction l as [| u l IH]; cbn [insertByCount]; [reflexivity |].
  destruct (tcount u <=? tcount t); [reflexivity |].
  rewrite IH. apply perm_swap.
Qed.

Lemma sortByCount_perm (l : list TopTracker) : sortByCount l ≡ₚ l.
Proof.
  unfold sortByCount. induction l as [| t l IH]; cbn [fold_right]; [reflexivity |].
  rewrite insertByCount_perm. now rewrite IH.
Qed.

Lemma insertByCount_sorted (t : TopTracker) (l : list TopTracker) :
  StronglySorted (fun a b => tcount b <= tcount a) l ->
  StronglySorted (fun a b => tcount b <= tcount a) (insertByCount t l).
Proof.
  induction 1 as [| u l Hs IH Hu]; cbn [insertByCount].
  - repeat constructor.
  - destruct (tcount u <=? tcount t) eqn:Hc.
    + apply Z.leb_le in Hc. constructor; [now constructor |].
      constructor; [exact Hc |].
      eapply Forall_impl; [exact Hu |]. intros x Hx. cbv beta in *. lia.
    + apply Z.leb_gt in Hc. constructor; [exact IH |].
      rewrite insertByCount_perm. constructor; [lia | exact Hu].
Qed.

Lemma sortByCount_sorted (l : list TopTracker) :
  StronglySorted (fun a b => tcount b <= tcount a) (sortByCount l).
Proof.
  unfold sortByCount. induction l as [| t l IH]; cbn [fold_right]; [constructor |].
  now apply insertByCount_sorted.
Qed.

Lemma countSum_perm (l k : list TopTracker) : l ≡ₚ k -> countSum l = countSum k.
Proof. induction 1; cbn [fold_right]; lia. Qed.

Lemma sorted_take (n : nat) (l : list TopTracker) :
  StronglySorted (fun a b => tcount b <= tcount a) l ->
  StronglySorted (fun a b => tcount b <= tcount a) (firstn n l).
Proof.
  intros Hs. revert n. induction Hs as [| t l Hs IH Ht]; intros [| n];
    cbn [firstn]; try constructor; [apply IH | now apply Forall_take].
Qed.

Lemma sorted_lookup (l : list TopTracker) (i j : nat) (ti tj : TopTracker) :
  StronglySorted (fun a b => tcount b <= tcount a) l ->
  (i <= j)%nat -> l !! i = Some ti -> l !! j = Some tj -> tcount tj <= tcount ti.
Proof.
  intros Hs. revert i j. induction Hs as [| t l Hs IH Ht]; intros i j Hij Hi Hj;
    [discriminate |].
  destruct i as [| i], j as [| j]; cbn in Hi, Hj.
  - injection Hi as <-. injection Hj as <-. lia.
  - injection Hi as <-. rewrite Forall_forall in Ht. apply Ht.
    eapply list_elem_of_lookup_2. exact Hj.
  - lia.
  - apply (IH i j); [lia | assumption | assumption].
Qed.

Lemma NoDup_take_map (n : nat) (l : list TopTracker) :
  NoDup (map tdomain l) -> NoDup (map tdomain (firstn n l)).
Proof.
  revert n. induction l as [| t l IH]; intros [| n] Hnd; cbn [firstn map];
    try apply NoDup_nil_2.
  cbn [map] in Hnd. apply NoDup_cons in Hnd as [Hnot Hnd].
  apply NoDup_cons. split; [| now apply IH].
  intros Hin. apply Hnot.
  apply list_elem_of_fmap in Hin as (x & -> & Hx).
  apply list_elem_of_fmap. exists x. split; [reflexivity |].
  eapply elem_of_sublist; [exact Hx | apply sublist_take].
Qed.

Lemma countSum_take (n : nat) (l : list TopTracker) :
  Forall (fun t => 1 <= tcount t) l ->
  countSum (firstn n l) <= countSum l
  /\ ((List.length l <= n)%nat -> countSum (firstn n l) = countSum l)
  /\ Z.of_nat (List.length l) <= countSum l.
Proof.
  intros Hpos. revert n. induction Hpos as [| t l Ht Hl IH]; intros n.
  - rewrite firstn_nil. cbn. repeat split; lia.
  - destruct n as [| n]; cbn [firstn fold_right List.length].
    + destruct (IH 0%nat) as (_ & _ & H3). repeat split; lia.
    + destruct (IH n) as (H1 & H2 & H3). repeat split; try lia.
Qed.

(** X15: in every analysis that [analyze] returns, [topTrackers]
    lists at most 20 tracker domains, each once, by descending cookie
    count; every count is at least 1 and every entry
    carries the category of its domain; the counts add up to at most
    the number of tracker cookies, and to exactly that number when the
    list has fewer than 20 entries; the list is empty only without
    tracker cookies. *)
Theorem topTrackers_ranked (cookies : list Cookie) (a : Analysis) :
  analyze getTrackerCategory now cookies = Some a ->
  (List.length (topTrackers a) <= 20)%nat
  /\ (forall i j ti tj, (i <= j)%nat ->
        topTrackers a !! i = Some ti -> topTrackers a !! j = Some tj ->
        tcount tj <= tcount ti)
  /\ NoDup (map tdomain (topTrackers a))
  /\ Forall (fun t => 1 <= tcount t
                      /\ getTrackerCategory (tdomain t) = Some (tcategory t))
            (topTrackers a)
  /\ countSum (topTrackers a) <= trackerCount a
  /\ ((List.length (topTrackers a) < 20)%nat ->
      countSum (topTrackers a) = trackerCount a)
  /\ (topTrackers a = [] <-> trackerCount a = 0).
Proof.
  intros Ha. apply analyze_report in Ha as [-> _].
  unfold report. cbn [topTrackers trackerCount].
  set (acc := fold_left (CookieAnalyzer.tally getTrackerCategory now) cookies
                initialAcc).
  pose proof (loop_trackerCookies cookies initialAcc (List.Forall_nil _)) as Hcat.
  fold acc in Hcat.
  destruct (trackerDomains_spec (trackerCookies acc) [] Hcat
              (NoDup_nil_2) (List.Forall_nil _)) as (Hnd & Hgood & Hsum).
  cbv zeta in Hnd, Hgood, Hsum.
  set (doms := fold_left (fun l tc => countDomain (stripDot (domain (cookie tc)))
                                                  (trackerCategory tc) l)
                 (trackerCookies acc) []) in *.
  cbn [fold_right] in Hsum.
  pose proof (sortByCount_perm doms) as Hperm.
  pose proof (sortByCount_sorted doms) as Hsorted.
  assert (Hgood' : Forall (fun t => 1 <= tcount t
                     /\ getTrackerCategory (tdomain t) = Some (tcategory t))
                     (sortByCount doms)).
  { rewrite Hperm. exact Hgood. }
  assert (Hpos : Forall (fun t => 1 <= tcount t) (sortByCount doms)).
  { eapply Forall_impl; [exact Hgood' |]. intros t Ht. exact (proj1 Ht). }
  destruct (countSum_take 20 (sortByCount doms) Hpos) as (Hle & Heq & Hlen).
  rewrite (countSum_perm _ _ Hperm) in Hle, Heq, Hlen.
  repeat match goal with |- _ /\ _ => split end.
  - rewrite length_take. lia.
  - intros i j ti tj Hij Hi Hj.
    exact (sorted_lookup _ i j ti tj (sorted_take 20 _ Hsorted) Hij Hi Hj).
  - apply NoDup_take_map. rewrite Hperm. exact Hnd.
  - now apply Forall_take.
  - lia.
  - intros Hshort. rewrite length_take in Hshort. rewrite Heq; lia.
  - split.
    + intros Hnil. apply (f_equal (@List.length _)) in Hnil.
      rewrite length_take in Hnil. cbn [List.length] in Hnil.
      assert (Hl : List.length doms = 0%nat) by (rewrite <- Hperm; lia).
      destruct doms; [cbn [fold_right] in Hsum; lia | discriminate].
    + intros H0. assert (Hl : List.length (sortByCount doms) = 0%nat) by lia.
      destruct (sortByCount doms); [reflexivity | discriminate].
Qed.

Lemma step_byDomain (acc : Acc) (c : Cookie) :
  dom (byDomain (CookieAnalyzer.tally getTrackerCategory now acc c))
  = ({[ stripDot (domain c) ]} ∪ dom (byDomain acc) : gset string).
Proof.
  unfold CookieAnalyzer.tally.
  destruct (getTrackerCategory (stripDot (domain c))); cbn [byDomain];
    apply dom_insert_L.
Qed.

Lemma loop_byDomain (cookies : list Cookie) (acc : Acc) :
  dom (byDomain (fold_left (CookieAnalyzer.tally getTrackerCategory now) cookies acc))
  = (list_to_set (map (fun c => stripDot (domain c)) cookies)
     ∪ dom (byDomain acc) : gset string).
Proof.
  revert acc. induction cookies as [| c rest IH]; intros acc.
  - cbn [fold_left map list_to_set]. now rewrite union_empty_l_L.
  - cbn [fold_left map list_to_set]. rewrite IH, step_byDomain.
    rewrite (comm_L (∪) {[stripDot (domain c)]} (list_to_set _)).
    now rewrite (assoc_L (∪)).
Qed.

(** X16: in every analysis that [analyze] returns, [uniqueDomains] is
    the number of distinct cookie domains after the leading dot is
    stripped (".example.org" and "example.org" count once), none of
    them a name inherited from [Object.prototype]; it is at most the
    number of cookies and 0 only for none. *)
Theorem uniqueDomains_distinct (cookies : list Cookie) (a : Analysis) :
  analyze getTrackerCategory now cookies = Some a ->
  uniqueDomains a
  = Z.of_nat (size (list_to_set (map (fun c => stripDot (domain c)) cookies)
                    : gset string))
  /\ uniqueDomains a <= total a
  /\ (uniqueDomains a = 0 <-> cookies = [])
  /\ Forall (fun c => inherited (stripDot (domain c)) = false) cookies.
Proof.
  intros Ha. apply analyze_report in Ha as [-> Hown].
  unfold report. cbn [uniqueDomains total].
  rewrite <- size_dom, loop_byDomain.
  cbn [initialAcc byDomain]. rewrite dom_empty_L, union_empty_r_L.
  set (ds := map (fun c => stripDot (domain c)) cookies).
  assert (Hle : (size (list_to_set ds : gset string) <= List.length ds)%nat).
  { clear. induction ds as [| d ds IH]; cbn [list_to_set List.length].
    - rewrite size_empty. lia.
    - pose proof (size_union_alt ({[d]} : gset string) (list_to_set ds)) as Hu.
      assert (Hd : (size (list_to_set ds ∖ {[d]} : gset string)
                    <= size (list_to_set ds : gset string))%nat).
      { apply subseteq_size, subseteq_difference_l. reflexivity. }
      rewrite Hu, size_singleton. lia. }
  assert (Hlen : List.length ds = List.length cookies) by apply length_map.
  split; [reflexivity |]. split; [lia |]. split; [| exact Hown]. split.
  - intros H0. destruct cookies as [| c rest]; [reflexivity |]. exfalso.
    subst ds. cbn [map list_to_set] in H0.
    rewrite size_union_alt, size_singleton in H0. lia.
  - intros ->. reflexivity.
Qed.

End TopTrackers.

(** ** The scenes of the browser VideoRenderer *)

Section SceneFacts.
Import Scenes.

Lemma fold_add (ds : list Z) (s : Z) :
  fold_left Z.add ds s = s + fold_left Z.add ds 0.
Proof.
  revert s. induction ds as [| d ds IH]; intros s; cbn [fold_left]; [lia |].
  rewrite (IH (s + d)), (IH (0 + d)). lia.
Qed.

Lemma findScene_spec (ds : list Z) (i : nat) (fi : Z) :
  0 <= fi ->
  match findScene i fi ds with
  | Some (j, g) =>
      exists k d, j = (i + k)%nat /\ ds !! k = Some d /\ 0 <= g < d
                  /\ fi = totalFrames (firstn k ds) + g
  | None => totalFrames ds <= fi
  end.
Proof.
  revert i fi. induction ds as [| d ds IH]; intros i fi Hfi; cbn [findScene].
  - cbn. lia.
  - destruct (fi <? d) eqn:Hlt.
    + apply Z.ltb_lt in Hlt. exists 0%nat, d. cbn. repeat split; lia.
    + apply Z.ltb_ge in Hlt. specialize (IH (S i) (fi - d) ltac:(lia)).
      destruct (findScene (S i) (fi - d) ds) as [[j g] |].
      * destruct IH as (k & d' & -> & Hk & Hg & Hsum).
        exists (S k), d'. cbn [lookup list_lookup firstn].
        unfold totalFrames in *. cbn [fold_left]. rewrite fold_add.
        repeat split; try lia. exact Hk.
      * unfold totalFrames in *. cbn [fold_left]. rewrite fold_add. lia.
Qed.

(** X17: whatever the durations, [tick] stops the recorder exactly from
    frame [totalFrames] on; at every earlier frame it draws the scene
    whose interval of consecutive durations holds the frame, at the
    frame's offset in that interval (so the second stop, for a frame
    that no scene claims, is never reached).  The six scenes of
    [buildScenes] take 765 frames. *)
Theorem scene_of_frame (ds : list Z) (frame : Z) :
  0 <= frame ->
  (tick ds frame = Stop <-> totalFrames ds <= frame)
  /\ (frame < totalFrames ds ->
      exists i fi d,
        tick ds frame = Draw i fi /\ ds !! i = Some d /\ 0 <= fi < d
        /\ frame = totalFrames (firstn i ds) + fi)
  /\ totalFrames durations = 765.
Proof.
  intros Hf. pose proof (findScene_spec ds 0 frame Hf) as Hs.
  unfold tick. destruct (totalFrames ds <=? frame) eqn:Hle.
  - apply Z.leb_le in Hle. split; [tauto |]. split; [lia | reflexivity].
  - apply Z.leb_gt in Hle.
    destruct (findScene 0 frame ds) as [[j g] |]; [| lia].
    destruct Hs as (k & d & -> & Hk & Hg & Hsum).
    split; [split; [discriminate | lia] |]. split; [| reflexivity].
    intros _. exists k, g, d. repeat split; try assumption; lia.
Qed.

Lemma interval_check (P : Z -> bool) (n : nat) :
  forallb P (map Z.of_nat (seq 0 n)) = true ->
  forall f, 0 <= f < Z.of_nat n -> P f = true.
Proof.
  intros Hall f Hf. rewrite forallb_forall in Hall. apply Hall.
  apply in_map_iff. exists (Z.to_nat f). split; [lia |].
  apply in_seq. lia.
Qed.

(** X18: in scene 1 every pulse has a radius that [ctx.arc] accepts; in
    the outro the second pulse, [drawPulse(CX, CY, (f - 25) / 50, ...)],
    is reached from frame 22 on (collapse > 0.3) with a negative time at
    frames 22, 23 and 24: the remainder [t % 1] keeps the sign, the
    radius is negative and [ctx.arc] throws. *)
Theorem outro_pulse_radius (f : Z) :
  (0 <= f < 90 -> draws (emergencePulses f) = true)
  /\ (0 <= f < 120 -> (draws (outroPulses f) = false <-> 22 <= f <= 24)).
Proof.
  split.
  - apply (interval_check (fun f => draws (emergencePulses f)) 90).
    vm_compute. reflexivity.
  - intros Hf.
    pose proof (interval_check
                  (fun f => Bool.eqb (draws (outroPulses f))
                                     (negb ((22 <=? f) && (f <=? 24))))
                  120 ltac:(vm_compute; reflexivity) f Hf) as Hc.
    cbv beta in Hc. apply Bool.eqb_prop in Hc. rewrite Hc.
    rewrite negb_false_iff, andb_true_iff, !Z.leb_le. tauto.
Qed.

End SceneFacts.

(** ** The price calculator *)

Section PricingFacts.
Import Pricing.

Lemma baseOf_cases (p : Profile) :
  baseOf p = {| min := 3.50; max := 12.00 |}
  \/ baseOf p = {| min := 1.50; max := 5.00 |}
  \/ baseOf p = {| min := 0.50; max := 2.50 |}
  \/ baseOf p = {| min := 0.10; max := 1.00 |}.
Proof.
  unfold baseOf, MARKET_CPMS.
  repeat match goal with
         | |- context [if ?b then _ else _] => destruct b
         end; auto.
Qed.

Lemma deviceMultOf_cases (p : Profile) :
  deviceMultOf p = 1.6%Q \/ deviceMultOf p = 1.0%Q \/ deviceMultOf p = 0.6%Q.
Proof.
  unfold deviceMultOf, DEVICE_MULTIPLIERS.
  repeat match goal with
         | |- context [if ?b then _ else _] => destruct b
         end; cbn; auto.
Qed.

Lemma platformMultOf_cases (p : Profile) :
  platformMultOf p = 1.2%Q \/ platformMultOf p = 1.0%Q
  \/ platformMultOf p = 0.8%Q.
Proof.
  unfold platformMultOf, PLATFORM_MULTIPLIERS.
  repeat match goal with
         | |- context [if ?b then _ else _] => destruct b
         end; cbn; auto.
Qed.

Ltac price_cases p :=
  unfold calculateCPM, rawCPM;
  destruct (baseOf_cases p) as [-> | [-> | [-> | ->]]];
  destruct (deviceMultOf_cases p) as [-> | [-> | ->]];
  destruct (platformMultOf_cases p) as [-> | [-> | ->]];
  destruct (adResistant p);
  (destruct (richBracket p); [| destruct (poorBracket p)]);
  destruct (mobile p && match connectionType p with
                        | Some c => String.eqb c "4g"
                        | None => false
                        end).

(** X19: the clamp of [calculateCPM] to the market range never changes
    the price: the product of the multipliers stays strictly inside
    [min * 0.5, max * 2] for every profile; the result is that product
    rounded to cents, between 0.16 and 21.28. *)
Theorem cpm_within_market (p : Profile) :
  (min (baseOf p) * 0.5 < rawCPM p < max (baseOf p) * 2)%Q
  /\ (calculateCPM p == inject_Z (Js.round (rawCPM p * 100)) / 100)%Q
  /\ (0.16 <= calculateCPM p <= 21.28)%Q.
Proof.
  price_cases p; vm_compute; repeat split; congruence.
Qed.

Lemma cents_integral (p : Profile) :
  (calculateCPM p * 100 == inject_Z (Js.round (calculateCPM p * 100)))%Q
  /\ (calculateCPM p * 30 * 100
      == inject_Z (Js.round (calculateCPM p * 30 * 100)))%Q.
Proof.
  price_cases p; vm_compute; split; reflexivity.
Qed.

(** X20: the annual value of [getBreakdown] is exactly 30 times its CPM:
    the CPM is a whole number of cents, so the second rounding changes
    nothing. *)
Theorem annual_value_is_30_cpm (show : option Q -> string) (p : Profile) :
  (annualValue (getBreakdown show p) == 30 * cpm (getBreakdown show p))%Q
  /\ (cpm (getBreakdown show p) * 100
      == inject_Z (Js.round (cpm (getBreakdown show p) * 100)))%Q.
Proof.
  unfold getBreakdown. cbn [annualValue cpm].
  destruct (cents_integral p) as [H1 H2]. split; [| exact H1].
  rewrite <- H2. field.
Qed.

End PricingFacts.

(** ** The entropy estimate *)

Section EntropyFacts.
Import EntropyEngine.

Lemma insertByBits_perm (c : Contribution) (l : list Contribution) :
  insertByBits c l ≡ₚ c :: l.
Proof.
  induction l as [| u l IH]; cbn [insertByBits]; [reflexivity |].
  destruct (Js.leb (bits u) (bits c)); [reflexivity |].
  rewrite IH. apply perm_swap.
Qed.

Lemma sortByBits_perm (l : list Contribution) : sortByBits l ≡ₚ l.
Proof.
  unfold sortByBits. induction l as [| t l IH]; cbn [fold_right]; [reflexivity |].
  rewrite insertByBits_perm. now rewrite IH.
Qed.

Lemma insertByBits_sorted (c : Contribution) (l : list Contribution) :
  StronglySorted (fun a b => (bits b <= bits a)%Q) l ->
  StronglySorted (fun a b => (bits b <= bits a)%Q) (insertByBits c l).
Proof.
  induction 1 as [| u l Hs IH Hu]; cbn [insertByBits].
  - repeat constructor.
  - destruct (Js.leb (bits u) (bits c)) eqn:Hc.
    + apply leb_true in Hc. constructor; [now constructor |].
      constructor; [exact Hc |].
      eapply Forall_impl; [exact Hu |]. intros x Hx. cbv beta in *. lra.
    + apply leb_false in Hc. constructor; [exact IH |].
      rewrite insertByBits_perm. constructor; [lra | exact Hu].
Qed.

Lemma sortByBits_sorted (l : list Contribution) :
  StronglySorted (fun a b => (bits b <= bits a)%Q) (sortByBits l).
Proof.
  unfold sortByBits. induction l as [| t l IH]; cbn [fold_right]; [constructor |].
  now apply insertByBits_sorted.
Qed.

Lemma sortedBits_lookup (l : list Contribution) (i j : nat) (ci cj : Contribution) :
  StronglySorted (fun a b => (bits b <= bits a)%Q) l ->
  (i <= j)%nat -> l !! i = Some ci -> l !! j = Some cj ->
  (bits cj <= bits ci)%Q.
Proof.
  intros Hs. revert i j. induction Hs as [| t l Hs IH Ht]; intros i j Hij Hi Hj;
    [discriminate |].
  destruct i as [| i], j as [| j]; cbn in Hi, Hj.
  - injection Hi as <-. injection Hj as <-. lra.
  - injection Hi as <-. rewrite Forall_forall in Ht. apply Ht.
    eapply list_elem_of_lookup_2. exact Hj.
  - lia.
  - apply (IH i j); [lia | assumption | assumption].
Qed.

Lemma bitsSum_perm (l k : list Contribution) :
  l ≡ₚ k ->
  (fold_right (fun c s => bits c + s) 0 l
   == fold_right (fun c s => bits c + s) 0 k)%Q.
Proof.
  induction 1; cbn [fold_right]; lra.
Qed.

Lemma estimateOf_range (key : string) (est : Estimate) :
  estimateOf key ENTROPY_ESTIMATES = Some est -> (0 <= ebits est <= 10)%Q.
Proof.
  unfold ENTROPY_ESTIMATES. cbn [estimateOf].
  repeat match goal with
         | |- context [if ?b then _ else _] =>
             destruct b; [intros [= <-]; split; discriminate |]
         end.
  discriminate.
Qed.

Lemma collect_good (cs : list (string * bool)) (acc : list Contribution) (t : Q) :
  let good c :=
    (present c = false -> bits c = 0%Q)
    /\ (0 <= bits c <= 10)%Q
    /\ exists est, estimateOf (signal c) ENTROPY_ESTIMATES = Some est
                   /\ label c = elabel est
                   /\ (present c = true -> bits c = ebits est) in
  Forall good acc -> Forall good (fst (collect cs acc t)).
Proof.
  cbv zeta. revert acc t. induction cs as [| [key pres] cs IH]; intros acc t Hacc;
    [exact Hacc |].
  cbn [collect].
  destruct (estimateOf key ENTROPY_ESTIMATES) as [est |] eqn:He; [| now apply IH].
  apply IH. apply Forall_app. split; [exact Hacc |].
  constructor; [| constructor]. cbn [present bits signal label].
  pose proof (estimateOf_range key est He) as Hr.
  split; [intros ->; reflexivity |]. split.
  - destruct pres; [exact Hr | split; [discriminate | lra]].
  - exists est. split; [exact He |]. split; [reflexivity |]. now intros ->.
Qed.

(** X21: [calculateEntropy] returns twenty contributions, one per
    signal, ordered by descending bits; a signal that is absent
    contributes 0 bits and no signal more than 10; [totalBits] is the
    sum of the contributions, between 0.5 (the cookie signal is always
    counted) and 75.1. *)
Theorem entropy_contributions (has : string -> bool) :
  let e := calculateEntropy has in
  List.length (contributions e) = 20%nat
  /\ (forall i j ci cj, (i <= j)%nat ->
        contributions e !! i = Some ci -> contributions e !! j = Some cj ->
        (bits cj <= bits ci)%Q)
  /\ Forall (fun c => (present c = false -> bits c = 0%Q)
                      /\ (0 <= bits c <= 10)%Q
                      /\ exists est, estimateOf (signal c) ENTROPY_ESTIMATES = Some est
                                     /\ label c = elabel est
                                     /\ (present c = true -> bits c = ebits est))
            (contributions e)
  /\ (totalBits e == fold_right (fun c s => bits c + s) 0 (contributions e))%Q
  /\ (0.5 <= totalBits e <= 75.1)%Q
  /\ Exists (fun c => signal c = "cookieEnabled" /\ present c = true)
            (contributions e).
Proof.
  cbv zeta. unfold calculateEntropy.
  destruct (collect (checks has) [] 0) as [contribs total] eqn:Hc.
  cbn [contributions totalBits]. pose proof Hc as Hc0.
  cbv -[Qplus] in Hc. injection Hc as Hcs Ht.
  pose proof (sortByBits_perm contribs) as Hperm.
  assert (Hgood : Forall (fun c =>
             (present c = false -> bits c = 0%Q)
             /\ (0 <= bits c <= 10)%Q
             /\ exists est, estimateOf (signal c) ENTROPY_ESTIMATES = Some est
                            /\ label c = elabel est
                            /\ (present c = true -> bits c = ebits est))
           contribs).
  { pose proof (collect_good (checks has) [] 0 (List.Forall_nil _)) as Hg.
    rewrite Hc0 in Hg. exact Hg. }
  split; [rewrite Hperm; subst contribs; reflexivity |].
  split.
  { intros i j ci cj Hij Hi Hj.
    exact (sortedBits_lookup _ i j ci cj (sortByBits_sorted contribs) Hij Hi Hj). }
  split; [rewrite Hperm; exact Hgood |].
  assert (Hbounds : forall (b : bool) (x : Q),
             (0 <= x)%Q -> (0 <= (if b then x else 0) <= x)%Q).
  { intros [|] x Hx; lra. }
  split; [| split].
  - rewrite (bitsSum_perm _ _ Hperm). subst contribs total.
    cbn [fold_right bits]. ring.
  - subst total.
    repeat match goal with
           | |- context [if has ?k then ?x else _] =>
               let Hb := fresh "Hb" in
               pose proof (Hbounds (has k) x ltac:(discriminate)) as Hb;
               generalize dependent (if has k then x else 0%Q); intros
           end.
    lra.
  - rewrite Hperm. subst contribs.
    apply Exists_exists. eexists. split.
    + do 10 right. left.
    + cbn. split; reflexivity.
Qed.

Lemma uniquenessPercent_cases (b : Q) :
  ((33 <= b)%Q /\ uniquenessPercent b = 99.99%Q)
  \/ ((25 <= b < 33)%Q /\ uniquenessPercent b = 99.9%Q)
  \/ ((20 <= b < 25)%Q /\ uniquenessPercent b = 99.5%Q)
  \/ ((18 <= b < 20)%Q /\ uniquenessPercent b = 99.0%Q)
  \/ ((15 <= b < 18)%Q /\ uniquenessPercent b = 95.0%Q)
  \/ ((10 <= b < 15)%Q /\ uniquenessPercent b = 80.0%Q)
  \/ ((b < 10)%Q /\ uniquenessPercent b = 50.0%Q).
Proof.
  unfold uniquenessPercent, Js.geb.
  destruct (Js.leb 33 b) eqn:H1;
    [apply leb_true in H1; left; now split | apply leb_false in H1; right].
  destruct (Js.leb 25 b) eqn:H2;
    [apply leb_true in H2; left; now split | apply leb_false in H2; right].
  destruct (Js.leb 20 b) eqn:H3;
    [apply leb_true in H3; left; now split | apply leb_false in H3; right].
  destruct (Js.leb 18 b) eqn:H4;
    [apply leb_true in H4; left; now split | apply leb_false in H4; right].
  destruct (Js.leb 15 b) eqn:H5;
    [apply leb_true in H5; left; now split | apply leb_false in H5; right].
  destruct (Js.leb 10 b) eqn:H6;
    [apply leb_true in H6; left; now split | apply leb_false in H6; right].
  now split.
Qed.

(** X22: the uniqueness percentage is one of seven steps from 50 to
    99.99 and never decreases when the bits grow; it reaches 99 exactly
    from 18 bits on (the threshold of the "likely unique" wording). *)
Theorem uniqueness_steps (b b' : Q) :
  (50 <= uniquenessPercent b <= 99.99)%Q
  /\ ((b <= b')%Q -> (uniquenessPercent b <= uniquenessPercent b')%Q)
  /\ ((99 <= uniquenessPercent b)%Q <-> (18 <= b)%Q).
Proof.
  destruct (uniquenessPercent_cases b)
    as [[Hb ->] | [[Hb ->] | [[Hb ->] | [[Hb ->] | [[Hb ->] | [[Hb ->] | [Hb ->]]]]]]];
    (split; [split; lra |]);
    (split; [| split; intros; lra]);
    intros Hle;
    destruct (uniquenessPercent_cases b')
      as [[Hb' ->] | [[Hb' ->] | [[Hb' ->] | [[Hb' ->] | [[Hb' ->]
         | [[Hb' ->] | [Hb' ->]]]]]]];
    lra.
Qed.

End EntropyFacts.

(** ** The generated world: its geometry *)

Section WorldGeometry.
Import World.
Context (trig : Trig).

Lemma forEach_valid {A B} (f : A -> Gen B) (P : B -> Prop) (xs : list A) (s : Z) :
  (forall v s0, In v xs -> Rng.valid s0 ->
                P (fst (f v s0)) /\ Rng.valid (snd (f v s0))) ->
  Rng.valid s ->
  Forall P (fst (forEach f xs s)) /\ Rng.valid (snd (forEach f xs s)).
Proof.
  revert s. induction xs as [| v rest IH]; intros s Hf Hs; [now split |].
  cbn [forEach]. unfold bind, ret.
  destruct (Hf v s (or_introl eq_refl) Hs) as [Hp Hv].
  destruct (f v s) as [y s1]. cbn [fst snd] in Hp, Hv.
  destruct (IH s1 (fun v0 s0 Hin => Hf v0 s0 (or_intror Hin)) Hv) as [IH1 IH2].
  destruct (forEach f rest s1) as [ys s2]. cbn [fst snd] in *.
  split; [now constructor | exact IH2].
Qed.

Lemma forFilter_valid {A B} (f : A -> Gen (option B)) (P : B -> Prop)
      (xs : list A) (s : Z) :
  (forall v s0, Rng.valid s0 ->
                (forall w, fst (f v s0) = Some w -> P w)
                /\ Rng.valid (snd (f v s0))) ->
  Rng.valid s ->
  Forall P (fst (forFilter f xs s)) /\ Rng.valid (snd (forFilter f xs s)).
Proof.
  intros Hf. revert s. induction xs as [| v rest IH]; intros s Hs; [now split |].
  cbn [forFilter]. unfold bind, ret.
  destruct (Hf v s Hs) as [Hp Hv].
  destruct (f v s) as [y s1]. cbn [fst snd] in Hp, Hv.
  destruct (IH s1 Hv) as [IH1 IH2].
  destruct (forFilter f rest s1) as [ys s2]. cbn [fst snd] in *.
  split; [| exact IH2].
  destruct y as [w |]; [constructor; [now apply Hp | exact IH1] | exact IH1].
Qed.

Lemma forEach_lookup {A B} (f : A -> Gen B) (xs : list A) (s : Z) :
  (forall v s0, Rng.valid s0 -> Rng.valid (snd (f v s0))) ->
  Rng.valid s ->
  (forall j y, fst (forEach f xs s) !! j = Some y ->
     exists v s0, xs !! j = Some v /\ Rng.valid s0 /\ y = fst (f v s0))
  /\ Rng.valid (snd (forEach f xs s)).
Proof.
  intros Hf. revert s. induction xs as [| v rest IH]; intros s Hs.
  - split; [intros j y Hj; destruct j; discriminate | exact Hs].
  - cbn [forEach]. unfold bind, ret.
    pose proof (Hf v s Hs) as Hv.
    destruct (f v s) as [y0 s1] eqn:Hfv. cbn [snd] in Hv.
    destruct (IH s1 Hv) as [IH1 IH2].
    destruct (forEach f rest s1) as [ys s2]. cbn [fst snd] in *.
    split; [| exact IH2].
    intros [| j] y Hj; cbn [lookup list_lookup] in *.
    + injection Hj as <-. exists v, s.
      split; [reflexivity | split; [exact Hs | now rewrite Hfv]].
    + exact (IH1 j y Hj).
Qed.

Lemma lookup_combine_seq {A} (l : list A) (a j i : nat) (x : A) :
  combine (seq a (List.length l)) l !! j = Some (i, x) ->
  i = (a + j)%nat /\ l !! j = Some x.
Proof.
  revert a j. induction l as [| y l IH]; intros a j; [destruct j; discriminate |].
  cbn [List.length seq combine]. destruct j as [| j]; cbn [lookup list_lookup].
  - intros [= <- <-]. split; [lia | reflexivity].
  - intros Hj. destruct (IH (S a) j Hj) as [-> Hl]. split; [lia | exact Hl].
Qed.

Lemma rng_draw (s : Z) :
  Rng.valid s ->
  (0 <= fst (Rng.rng s) < 1)%Q /\ Rng.valid (snd (Rng.rng s)).
Proof.
  intros Hs. split; [apply rng_unit_interval | apply rng_valid]; exact Hs.
Qed.

Lemma maxBitsOf_bound (cs : list Contribution) :
  (1 <= maxBitsOf cs)%Q /\ Forall (fun c => (cbits c <= maxBitsOf cs)%Q) cs.
Proof.
  induction cs as [| c cs [IH1 IH2]]; cbn [maxBitsOf fold_right].
  - split; [discriminate | constructor].
  - fold (maxBitsOf cs). unfold Js.max. split.
    + apply Qle_trans with (maxBitsOf cs); [exact IH1 | apply Q.le_max_r].
    + constructor; [apply Q.le_max_l |].
      eapply Forall_impl; [exact IH2 |]. intros x Hx. cbv beta in *.
      apply Qle_trans with (maxBitsOf cs); [exact Hx | apply Q.le_max_r].
Qed.

Lemma ratio_unit (b m : Q) :
  (0 <= b)%Q -> (b <= m)%Q -> (1 <= m)%Q -> (0 <= b / m <= 1)%Q.
Proof.
  intros H0 Hb Hm. split.
  - apply Qle_shift_div_l; lra.
  - apply Qle_shift_div_r; lra.
Qed.

Lemma dataNode_geometry (n : nat) (m : Q) (i : nat) (c : Contribution) (s : Z) :
  (0 <= cbits c)%Q -> (cbits c <= m)%Q -> (1 <= m)%Q -> Rng.valid s ->
  let nd := fst (dataNode trig n m (i, c) s) in
  ((2 <= r nd <= 7)%Q
   /\ (140 + 130 * inject_Z (Z.of_nat (i / 4)) <= orbit nd
       <= 200 + 130 * inject_Z (Z.of_nat (i / 4)))%Q
   /\ (0.002 <= speed nd < 0.006)%Q
   /\ bits nd = cbits c /\ label nd = clabel c
   /\ x nd = (CX + cos trig (angle nd) * orbit nd)%Q
   /\ y nd = (CY + sin trig (angle nd) * orbit nd)%Q)
  /\ Rng.valid (snd (dataNode trig n m (i, c) s)).
Proof.
  intros H0 Hb Hm Hs. cbv zeta. unfold dataNode, bind, ret, rng.
  destruct (rng_draw s Hs) as [Hu Hv].
  destruct (Rng.rng s) as [u s1]. cbn [fst snd] in *.
  cbn [r orbit speed bits label x y angle].
  pose proof (ratio_unit (cbits c) m H0 Hb Hm) as Hr.
  set (q := (cbits c / m)%Q) in *. clearbody q.
  set (l := inject_Z (Z.of_nat (i / 4))) in *. clearbody l.
  repeat match goal with |- _ /\ _ => split end; try reflexivity; try lra.
  exact Hv.
Qed.

Lemma ambientNode_geometry (i : nat) (s : Z) :
  Rng.valid s ->
  let nd := fst (ambientNode trig i s) in
  ((0.5 <= r nd < 2)%Q /\ (80 <= orbit nd < 500)%Q
   /\ (0.001 <= speed nd < 0.006)%Q
   /\ bits nd = 0%Q /\ label nd = ""
   /\ x nd = (CX + cos trig (angle nd) * orbit nd)%Q
   /\ y nd = (CY + sin trig (angle nd) * orbit nd)%Q)
  /\ Rng.valid (snd (ambientNode trig i s)).
Proof.
  intros Hs. cbv zeta. unfold ambientNode, bind, ret, rng.
  destruct (rng_draw s Hs) as [Hu1 Hv1]. destruct (Rng.rng s) as [u1 s1].
  cbn [fst snd] in *.
  destruct (rng_draw s1 Hv1) as [Hu2 Hv2]. destruct (Rng.rng s1) as [u2 s2].
  cbn [fst snd] in *.
  destruct (rng_draw s2 Hv2) as [Hu3 Hv3]. destruct (Rng.rng s2) as [u3 s3].
  cbn [fst snd] in *.
  destruct (rng_draw s3 Hv3) as [Hu4 Hv4]. destruct (Rng.rng s3) as [u4 s4].
  cbn [fst snd] in *.
  cbn [r orbit speed bits label x y angle].
  repeat match goal with |- _ /\ _ => split end; try reflexivity; try lra.
  exact Hv4.
Qed.

Lemma particle_geometry (i : nat) (s : Z) :
  Rng.valid s ->
  let p := fst (particle i s) in
  ((0 <= px p < W)%Q /\ (0 <= py p < H)%Q
   /\ (-0.25 <= vx p < 0.25)%Q /\ (-0.25 <= vy p < 0.25)%Q
   /\ (0.5 <= pr p < 2)%Q /\ (0 <= life p < 1)%Q)
  /\ Rng.valid (snd (particle i s)).
Proof.
  intros Hs. cbv zeta. unfold particle, bind, ret, rng.
  destruct (rng_draw s Hs) as [Hu1 Hv1]. destruct (Rng.rng s) as [u1 s1].
  cbn [fst snd] in *.
  destruct (rng_draw s1 Hv1) as [Hu2 Hv2]. destruct (Rng.rng s1) as [u2 s2].
  cbn [fst snd] in *.
  destruct (rng_draw s2 Hv2) as [Hu3 Hv3]. destruct (Rng.rng s2) as [u3 s3].
  cbn [fst snd] in *.
  destruct (rng_draw s3 Hv3) as [Hu4 Hv4]. destruct (Rng.rng s3) as [u4 s4].
  cbn [fst snd] in *.
  destruct (rng_draw s4 Hv4) as [Hu5 Hv5]. destruct (Rng.rng s4) as [u5 s5].
  cbn [fst snd] in *.
  destruct (rng_draw s5 Hv5) as [Hu6 Hv6]. destruct (Rng.rng s5) as [u6 s6].
  cbn [fst snd] in *.
  cbn [px py vx vy pr life]. unfold W, H.
  repeat match goal with |- _ /\ _ => split end; try lra.
  exact Hv6.
Qed.

Lemma connect_near (ns : list Node) (ij : nat * nat) (s : Z) :
  Rng.valid s ->
  (forall c, fst (connect trig ns ij s) = Some c -> (dist c < 220)%Q)
  /\ Rng.valid (snd (connect trig ns ij s)).
Proof.
  intros Hs. unfold connect. destruct ij as [i j].
  destruct (ns !! i) as [ni |]; [| split; [discriminate | exact Hs]].
  destruct (ns !! j) as [nj |]; [| split; [discriminate | exact Hs]].
  destruct (Js.ltb _ 220) eqn:Hd; [| split; [discriminate | exact Hs]].
  apply ltb_true in Hd.
  destruct (Js.gtb (bits ni) 0 || Js.gtb (bits nj) 0).
  - cbn. split; [| exact Hs]. intros c [= <-]. exact Hd.
  - unfold bind, ret, rng. destruct (rng_draw s Hs) as [_ Hv].
    destruct (Rng.rng s) as [u s1]. cbn [fst snd] in *. split; [| exact Hv].
    destruct (Js.gtb u 0.7); [| discriminate]. intros c [= <-]. exact Hd.
Qed.

(** X23: the world that [generateNetwork] builds from contributions
    with non-negative bits: a data node has a radius in [2, 7], bits
    and label of its contribution and an orbit in [140, 200] plus 130
    per layer of four; the 30 ambient nodes have a radius in [0.5, 2)
    and an orbit in [80, 500); every node but the center moves with a
    speed in [0.001, 0.006) and sits on its orbit; a connection joins
    nodes less than 220 apart; the 60 particles start inside the canvas
    with velocities in [-0.25, 0.25). *)
Theorem world_geometry (e : Entropy) (prior : World) :
  Forall (fun c => (0 <= cbits c)%Q) (presentContribs e) ->
  let w := generateNetwork trig e prior in
  let k := List.length (presentContribs e) in
  let onOrbit nd :=
    x nd = (CX + cos trig (angle nd) * orbit nd)%Q
    /\ y nd = (CY + sin trig (angle nd) * orbit nd)%Q
    /\ (0.001 <= speed nd < 0.006)%Q in
  (forall i nd c, (i < k)%nat -> nodes w !! S i = Some nd ->
     presentContribs e !! i = Some c ->
     (2 <= r nd <= 7)%Q /\ bits nd = cbits c /\ label nd = clabel c
     /\ (140 + 130 * inject_Z (Z.of_nat (i / 4)) <= orbit nd
         <= 200 + 130 * inject_Z (Z.of_nat (i / 4)))%Q
     /\ onOrbit nd)
  /\ (forall i nd, (k <= i)%nat -> nodes w !! S i = Some nd ->
        (0.5 <= r nd < 2)%Q /\ (80 <= orbit nd < 500)%Q /\ bits nd = 0%Q
        /\ onOrbit nd)
  /\ Forall (fun c => (dist c < 220)%Q) (connections w)
  /\ Forall (fun p => (0 <= px p < W)%Q /\ (0 <= py p < H)%Q
                      /\ (-0.25 <= vx p < 0.25)%Q /\ (-0.25 <= vy p < 0.25)%Q
                      /\ (0.5 <= pr p < 2)%Q)
            (particles w)
  /\ Rng.valid (seed w).
Proof.
  intros Hbits. cbv zeta. unfold generateNetwork. fold (presentContribs e).
  set (contribs := presentContribs e) in *.
  set (n := List.length contribs).
  destruct (maxBitsOf_bound contribs) as [Hm1 Hmax].
  assert (H42 : Rng.valid 42) by (unfold Rng.valid, Rng.MODULUS; lia).
  destruct (forEach_lookup (dataNode trig n (maxBitsOf contribs))
              (combine (seq 0 n) contribs) 42) as [Hdata Hv1]; [| exact H42 |].
  { intros [i c] s0 Hs0. unfold dataNode, bind, ret, rng.
    destruct (rng_draw s0 Hs0) as [_ Hv]. now destruct (Rng.rng s0). }
  pose proof (forEach_length (dataNode trig n (maxBitsOf contribs))
                (combine (seq 0 n) contribs) 42) as Hlen1.
  rewrite length_combine, length_seq, Nat.min_id in Hlen1.
  destruct (forEach (dataNode trig n (maxBitsOf contribs))
                    (combine (seq 0 n) contribs) 42) as [dataNodes seed1].
  cbn [fst snd] in Hdata, Hv1, Hlen1.
  destruct (forEach_lookup (ambientNode trig) (seq 0 30) seed1) as [Hamb Hv2];
    [| exact Hv1 |].
  { intros i s0 Hs0. exact (proj2 (ambientNode_geometry i s0 Hs0)). }
  destruct (forEach (ambientNode trig) (seq 0 30) seed1) as [ambient seed2].
  cbn [fst snd] in Hamb, Hv2.
  set (ns := centerNode e :: dataNodes ++ ambient).
  destruct (forFilter_valid (connect trig ns) (fun c => (dist c < 220)%Q)
              (pairs (List.length ns)) seed2) as [Hconn Hv3]; [| exact Hv2 |].
  { intros ij s0 Hs0. exact (connect_near ns ij s0 Hs0). }
  destruct (forFilter (connect trig ns) (pairs (List.length ns)) seed2)
    as [conns seed3].
  cbn [fst snd] in Hconn, Hv3.
  destruct (forEach_valid particle
              (fun p => (0 <= px p < W)%Q /\ (0 <= py p < H)%Q
                        /\ (-0.25 <= vx p < 0.25)%Q /\ (-0.25 <= vy p < 0.25)%Q
                        /\ (0.5 <= pr p < 2)%Q)
              (seq 0 60) seed3) as [Hpart Hv4]; [| exact Hv3 |].
  { intros i s0 _ Hs0.
    destruct (particle_geometry i s0 Hs0) as [(H1 & H2 & H3 & H4 & H5 & _) Hv].
    exact (conj (conj H1 (conj H2 (conj H3 (conj H4 H5)))) Hv). }
  destruct (forEach particle (seq 0 60) seed3) as [ps seed4].
  cbn [fst snd] in Hpart, Hv4.
  cbn [nodes connections particles seed].
  split; [| split; [| split; [exact Hconn | split; [exact Hpart | exact Hv4]]]].
  - intros i nd c Hi Hnd Hc. subst ns.
    change ((dataNodes ++ ambient) !! i = Some nd) in Hnd.
    rewrite lookup_app_l in Hnd by lia.
    destruct (Hdata i nd Hnd) as ([i' c'] & s0 & Hx & Hs0 & ->).
    apply lookup_combine_seq in Hx as [-> Hc'].
    rewrite Hc in Hc'. injection Hc' as <-.
    rewrite Forall_forall in Hbits, Hmax.
    pose proof (list_elem_of_lookup_2 _ _ _ Hc) as Hel.
    destruct (dataNode_geometry n (maxBitsOf contribs) i c s0
                (Hbits c Hel) (Hmax c Hel) Hm1 Hs0)
      as [(H1 & H2 & H3 & H4 & H5 & H6 & H7) _].
    assert (H3' : (0.001 <= speed (fst (dataNode trig n (maxBitsOf contribs) (i, c) s0))
                   < 0.006)%Q) by lra.
    exact (conj H1 (conj H4 (conj H5 (conj H2 (conj H6 (conj H7 H3')))))).
  - intros i nd Hi Hnd. subst ns.
    change ((dataNodes ++ ambient) !! i = Some nd) in Hnd.
    rewrite lookup_app_r in Hnd by lia.
    destruct (Hamb _ nd Hnd) as (j & s0 & _ & Hs0 & ->).
    destruct (ambientNode_geometry j s0 Hs0)
      as [(H1 & H2 & H3 & H4 & H5 & H6 & H7) _].
    exact (conj H1 (conj H2 (conj H4 (conj H6 (conj H7 H3))))).
Qed.

End WorldGeometry.

(** ** The film of v1 *)

Section V1Film.
Import Profile V1Monolog.

Lemma timingsFrom_sum (c : Timeline.Consts) (bs : list Timeline.Block) (s : Z) :
  snd (Timeline.timingsFrom c s bs)
  = s + fold_right Z.add 0 (map (Timeline.blockDuration c) bs).
Proof.
  revert s. induction bs as [| b bs IH]; intros s.
  - cbn. lia.
  - rewrite timingsFrom_cons. cbn [snd map fold_right]. rewrite IH. lia.
Qed.

(** X24: the v1 film has the same length for every record: 14 blocks
    and 1197 frames (39.9 s), or 15 blocks and 1290 frames (43 s) for an
    English speaker outside the United States and the United Kingdom.
    Every block has lines and a positive hold, so the rasterizer
    completes every frame. *)
Theorem v1_film_length (host : Host) (fp : FpData) (p : Profile) (sc : Scores)
        (primary : string) (measure : Z -> string -> Q) :
  let bs := buildMonolog host fp p sc primary in
  List.length bs = (if langInCZ fp p then 15 else 14)%nat
  /\ Timeline.totalFrames Timeline.v1 bs = (if langInCZ fp p then 1290 else 1197)
  /\ Forall (fun b => Timeline.lines b <> [] /\ (0.8 <= Timeline.hold b <= 2.5)%Q) bs
  /\ forall gf, is_Some (Raster.paintFrame measure Raster.v1 bs gf).
Proof.
  cbv zeta.
  assert (Hshape :
    Forall (fun b => Timeline.lines b <> []
                     /\ (0.8 <= Timeline.hold b <= 2.5)%Q)
           (buildMonolog host fp p sc primary)).
  { unfold buildMonolog. destruct (langInCZ fp p);
      repeat (apply Forall_app; split);
      repeat constructor; cbn [Timeline.lines Timeline.hold];
      try discriminate. }
  split; [unfold buildMonolog; destruct (langInCZ fp p); reflexivity |].
  split.
  { unfold Timeline.totalFrames. rewrite timingsFrom_sum.
    unfold buildMonolog.
    destruct (langInCZ fp p); cbn [app map];
      unfold Timeline.blockDuration, Timeline.linesFramesOf,
             Timeline.holdFramesOf;
      cbn [Timeline.lines Timeline.hold List.length];
      reflexivity. }
  split; [exact Hshape |].
  apply paintFrame_total; [now left | |].
  - eapply Forall_impl; [exact Hshape |]. intros b [_ Hh]. cbv beta. lra.
  - eapply Forall_impl; [exact Hshape |]. intros b [Hl _]. exact Hl.
Qed.

End V1Film.

(** ** Output paths without the .mp4 extension (v2, v4) *)

Section OutputPaths.
Import Render.

Lemma replaceMp4_other (out suffix : string) :
  Js.endsWith out ".mp4" = false -> replaceMp4 out suffix = out.
Proof. intros Hend. unfold replaceMp4. now rewrite Hend. Qed.

(** X25: for an output path that does not end in .mp4 the two
    [replace] calls of v4 change nothing, so the WAV, the silent video
    and the output are one file.  After a good encode that file holds
    the video (or still the WAV when the encoder wrote nothing); when
    the mux succeeds, [unlinkSync(silentPath)] deletes the merged
    output and the run ends in the error of [statSync]; when the mux
    throws, the rename onto itself keeps what the path held. *)
Theorem v4_other_extension (env : V4Env) (fs : FS) (out : string)
        (wav : Bytes) (err : string) (wrote : option Bytes) :
  Js.endsWith out ".mp4" = false ->
  audioWrite env = AudioWritten wav ->
  encode4 env = Closed (Some 0) err wrote ->
  img2sound env = None ->
  let video := default wav wrote in
  silentPathOf out = out /\ audioPathOf out = out
  /\ match mux4 env (<[out := video]> fs) out out with
     | MuxOk _ => exists msg, v4Main env fs out = (Failed msg, delete out fs)
     | MuxFail w => v4Main env fs out = (Done, <[out := default video w]> fs)
     end.
Proof.
  intros Hend Haudio Henc Himg video.
  assert (Hs : silentPathOf out = out) by now apply replaceMp4_other.
  assert (Ha : audioPathOf out = out) by now apply replaceMp4_other.
  split; [exact Hs |]. split; [exact Ha |].
  unfold v4Main. rewrite Hs, Ha, Haudio, Henc, Himg.
  cbn [frameWrites encodeEffect awaitEncode].
  assert (H1 : applyWrote out wrote (<[out := wav]> fs) = <[out := video]> fs).
  { subst video. destruct wrote as [b |]; cbn [applyWrote default];
      [apply insert_insert_eq | reflexivity]. }
  rewrite H1.
  destruct (mux4 env (<[out := video]> fs) out out) as [merged | w].
  - unfold unlinkQuiet. rewrite !delete_insert_eq.
    unfold statSync. rewrite lookup_delete_eq. eauto.
  - assert (H2 : applyWrote out w (<[out := video]> fs)
                 = <[out := default video w]> fs).
    { destruct w as [b |]; cbn [applyWrote default];
        [apply insert_insert_eq | reflexivity]. }
    rewrite H2. unfold fallbackToSilent, renameSync.
    rewrite lookup_insert_eq, delete_insert_eq, insert_delete_eq.
    unfold statSync. now rewrite lookup_insert_eq.
Qed.

(** X25 on a run where every tool succeeds: the render of out.mov ends
    in the error of [statSync]. *)
Lemma v4_other_extension_witness :
  exists msg, v4Main Cases.v4AllGood ∅ "out.mov" = (Failed msg, delete "out.mov" ∅).
Proof.
  exact (proj2 (proj2 (v4_other_extension Cases.v4AllGood ∅ "out.mov" "wav" ""
                         (Some "video") eq_refl eq_refl eq_refl eq_refl))).
Defined.

(** X26: for an output path that does not end in .mp4, v2's encoder
    writes to the output path itself.  When the sonifier throws, the
    fallback renames the file onto itself and the run ends as the stat
    of what the encoder and the sonifier left; when the sonifier, the
    scan for its wav and the mux all succeed, [unlinkSync(silentPath)]
    deletes the merged output and the run ends in the error of
    [statSync]. *)
Theorem v2_other_extension (env : V2Env) (fs : FS) (out : string)
        (err : string) (wrote : option Bytes) :
  Js.endsWith out ".mp4" = false ->
  encode2 env = Closed (Some 0) err wrote ->
  let fs1 := applyWrote out wrote fs in
  let fsS := snd (sonify env fs1) in
  silentPathOf out = out
  /\ (fst (sonify env fs1) = false ->
      v2Main env fs out = (statSync out fsS, fsS))
  /\ (forall wavPath b merged,
        fst (sonify env fs1) = true ->
        wavSearch env fsS = Some (Some wavPath) ->
        fsS !! wavPath = Some b ->
        mux2 env fsS out wavPath = MuxOk merged ->
        exists msg, v2Main env fs out = (Failed msg, delete out fsS)).
Proof.
  intros Hend Henc fs1 fsS.
  assert (Hs : silentPathOf out = out) by now apply replaceMp4_other.
  split; [exact Hs |].
  unfold v2Main. rewrite Hs, Henc. cbn [frameWrites encodeEffect awaitEncode].
  fold fs1. unfold v2Try. subst fsS.
  destruct (sonify env fs1) as [ok fsS]. cbn [fst snd]. split.
  - intros ->. unfold fallbackToSilent, renameSync.
    destruct (fsS !! out) as [b |] eqn:Hout; [| reflexivity].
    rewrite insert_delete_eq, (insert_id fsS out b Hout). reflexivity.
  - intros wavPath b merged -> Hscan Hwav Hmux.
    rewrite Hscan, Hwav, Hmux. unfold unlinkQuiet.
    rewrite delete_insert_eq. unfold statSync. rewrite lookup_delete_eq.
    eauto.
Qed.

(** X26 on a run where every tool succeeds: the render of out.mov ends
    in the error of [statSync]. *)
Lemma v2_other_extension_witness :
  exists msg, fst (v2Main Cases.v2AllGood ∅ "out.mov") = Failed msg.
Proof.
  destruct (proj2 (proj2 (v2_other_extension Cases.v2AllGood ∅ "out.mov" ""
                            (Some "video") eq_refl eq_refl))
              "additive.wav" "wav" "merged" eq_refl eq_refl
              (lookup_insert_eq _ _ _) eq_refl)
    as [msg Hmsg].
  exists msg. now rewrite Hmsg.
Defined.

End OutputPaths.

(** ** The inference engine *)

Section InferenceFacts.
Import Profile Inference.

Lemma includes_empty (p : string) : p <> "" -> Js.includes "" p = false.
Proof. destruct p as [| c r]; [congruence | reflexivity]. Qed.

(** The OS chain on a user agent that holds the text Linux. *)
Lemma osOf_linux (ua : string) :
  Js.includes ua "Linux" = true ->
  In (fst (fst (osOf ua))) ["Windows"; "macOS"; "Chrome OS"; "Linux"]
  /\ (Js.includes ua "Windows NT 10" = false ->
      Js.includes ua "Windows NT 6.3" = false ->
      Js.includes ua "Windows NT 6.1" = false ->
      capture "Mac OS X " digitUnderscore ua = None ->
      Js.includes ua "CrOS" = false ->
      osOf ua = ("Linux", "", false)).
Proof.
  intros Hl. unfold osOf. rewrite Hl.
  destruct (Js.includes ua "Windows NT 10");
    [split; [cbn; tauto | discriminate] |].
  destruct (Js.includes ua "Windows NT 6.3");
    [split; [cbn; tauto | discriminate] |].
  destruct (Js.includes ua "Windows NT 6.1");
    [split; [cbn; tauto | discriminate] |].
  destruct (capture "Mac OS X " digitUnderscore ua);
    [split; [cbn; tauto | discriminate] |].
  destruct (Js.includes ua "CrOS");
    [split; [cbn; tauto | discriminate] |].
  split; [cbn; tauto | reflexivity].
Qed.

Lemma parseUserAgent_os (ua : string) :
  ua <> "" -> os (parseUserAgent ua) = fst (fst (osOf ua))
              /\ osVersion (parseUserAgent ua) = snd (fst (osOf ua)).
Proof.
  intros Hne. unfold parseUserAgent.
  destruct (String.eqb_spec ua ""); [contradiction |].
  destruct (osOf ua) as [[o ov] m]. destruct (browserOf ua) as [b bv].
  split; reflexivity.
Qed.

Lemma parseUserAgent_mobile (ua : string) :
  Js.includes ua "Android" = true -> mobile (parseUserAgent ua) = true.
Proof.
  intros Ha. unfold parseUserAgent.
  destruct (String.eqb_spec ua "") as [-> | _]; [discriminate |].
  destruct (osOf ua) as [[o ov] m]. destruct (browserOf ua) as [b bv].
  cbn [mobile]. rewrite Ha. now rewrite !orb_true_r.
Qed.

(** The guess and the tier depend on the parsed OS only through these
    cases. *)
Lemma inferDeviceType_guess (d : Data) :
  let dev := inferDeviceType d in
  let o := os (dparsed dev) in
  In (deviceTier dev) ["Premium"; "Mid-range"; "Budget"]
  /\ In (deviceType dev) ["Desktop"; "Tablet"; "Phone"]
  /\ (In (deviceGuess dev)
         ["High-end Android"; "Mid-range Android"; "Budget Android"] ->
      o = "Android")
  /\ (o = "Linux" ->
      deviceGuess dev = "Linux Workstation" /\ deviceTier dev = "Mid-range")
  /\ (mobile (dparsed dev) = true -> deviceType dev <> "Desktop").
Proof.
  cbv zeta. unfold inferDeviceType.
  set (parsed := parseUserAgent (uaOf d)).
  set (touch := match maxTouchPoints _ with Some t => Js.gtb t 0 | None => false end).
  set (big := Js.geb _ 600).
  repeat match goal with
         | |- context [Js.includes ?a ?b] =>
             let v := fresh "inc" in set (v := Js.includes a b)
         | |- context [Js.geb ?a ?b] =>
             let v := fresh "ge" in set (v := Js.geb a b)
         end.
  assert (Htype : In (if mobile parsed || touch
                      then if big then "Tablet" else "Phone" else "Desktop")
                     ["Desktop"; "Tablet"; "Phone"]).
  { destruct (mobile parsed || touch), big; cbn; tauto. }
  assert (Hmob : mobile parsed = true ->
                 (if mobile parsed || touch
                  then if big then "Tablet" else "Phone" else "Desktop")
                 <> "Desktop").
  { intros ->. cbn [orb]. destruct big; discriminate. }
  destruct (String.eqb_spec (os parsed) "macOS") as [Ho | _].
  { destruct (inc || inc0 || inc1 || inc2); [| destruct (inc3 || inc4)];
      cbn [deviceTier deviceType deviceGuess dparsed];
      (split; [cbn; tauto |]); (split; [exact Htype |]);
      (split; [intros [H | [H | [H | []]]]; discriminate |]);
      (split; [rewrite Ho; discriminate | exact Hmob]). }
  destruct (String.eqb_spec (os parsed) "iOS") as [Ho | _].
  { cbn [deviceTier deviceType deviceGuess dparsed].
    (split; [cbn; tauto |]); (split; [exact Htype |]);
      (split; [intros [H | [H | [H | []]]]; discriminate |]);
      (split; [rewrite Ho; discriminate | exact Hmob]). }
  destruct (String.eqb_spec (os parsed) "Windows") as [Ho | _].
  { destruct (inc5 || inc6); [destruct (inc7 || inc8) |
                              destruct inc3; [| destruct inc4]];
      cbn [deviceTier deviceType deviceGuess dparsed];
      (split; [cbn; tauto |]); (split; [exact Htype |]);
      (split; [intros [H | [H | [H | []]]]; discriminate |]);
      (split; [rewrite Ho; discriminate | exact Hmob]). }
  destruct (String.eqb_spec (os parsed) "Android") as [Ho | _].
  { destruct ge; [| destruct ge0];
      cbn [deviceTier deviceType deviceGuess dparsed];
      (split; [cbn; tauto |]); (split; [exact Htype |]);
      (split; [intros _; exact Ho |]);
      (split; [rewrite Ho; discriminate | exact Hmob]). }
  destruct (String.eqb_spec (os parsed) "Linux") as [Ho | Hno].
  { cbn [deviceTier deviceType deviceGuess dparsed].
    (split; [cbn; tauto |]); (split; [exact Htype |]);
      (split; [intros [H | [H | [H | []]]]; discriminate |]);
      (split; [intros _; split; reflexivity | exact Hmob]). }
  destruct (String.eqb_spec (os parsed) "Chrome OS") as [Ho | _];
    cbn [deviceTier deviceType deviceGuess dparsed];
    (split; [cbn; tauto |]); (split; [exact Htype |]);
    (split; [intros [H | [H | [H | []]]]; discriminate |]);
    (split; [intros Hl; contradiction | exact Hmob]).
Qed.

(** X27: a user agent that holds the text Linux is never classified as
    Android: the test for Linux comes first in [parseUserAgent], so the
    OS is one of Windows, macOS, Chrome OS and Linux and
    [inferDeviceType] never guesses an Android device; if it also holds
    Android, the device is mobile and not a desktop; without the
    earlier patterns (Windows NT, Mac OS X, CrOS) the OS is Linux with
    no version and the guess is a Linux workstation of the mid-range
    tier, whatever the memory. *)
Theorem linux_shadows_android (d : Data) :
  Js.includes (uaOf d) "Linux" = true ->
  let ua := uaOf d in
  let dev := inferDeviceType d in
  In (os (dparsed dev)) ["Windows"; "macOS"; "Chrome OS"; "Linux"]
  /\ ~ In (deviceGuess dev)
          ["High-end Android"; "Mid-range Android"; "Budget Android"]
  /\ (Js.includes ua "Android" = true ->
      mobile (dparsed dev) = true /\ deviceType dev <> "Desktop")
  /\ (Js.includes ua "Windows NT 10" = false ->
      Js.includes ua "Windows NT 6.3" = false ->
      Js.includes ua "Windows NT 6.1" = false ->
      capture "Mac OS X " digitUnderscore ua = None ->
      Js.includes ua "CrOS" = false ->
      os (dparsed dev) = "Linux" /\ osVersion (dparsed dev) = ""
      /\ deviceGuess dev = "Linux Workstation"
      /\ deviceTier dev = "Mid-range").
Proof.
  intros Hl. cbv zeta.
  assert (Hne : uaOf d <> "").
  { intros He. rewrite He in Hl. discriminate. }
  destruct (osOf_linux _ Hl) as [Hos Hplain].
  destruct (parseUserAgent_os _ Hne) as [Ho Hv].
  destruct (inferDeviceType_guess d) as (_ & _ & Hguess & Hlinux & Hmob).
  cbv zeta in Hguess, Hlinux, Hmob.
  assert (Hp : dparsed (inferDeviceType d) = parseUserAgent (uaOf d))
    by (unfold inferDeviceType;
        destruct (if String.eqb (os (parseUserAgent (uaOf d))) "macOS"
                  then _ else _); reflexivity).
  rewrite Hp in *. rewrite Ho. split; [exact Hos |]. split.
  - intros Hin. apply Hguess in Hin. rewrite Ho in Hin. rewrite Hin in Hos.
    destruct Hos as [H | [H | [H | [H | []]]]]; discriminate.
  - split.
    + intros Ha. pose proof (parseUserAgent_mobile _ Ha) as Hm.
      split; [exact Hm | exact (Hmob Hm)].
    + intros H1 H2 H3 H4 H5. specialize (Hplain H1 H2 H3 H4 H5).
      rewrite Hv, Hplain. cbn [fst snd].
      rewrite Ho, Hplain in Hlinux. cbn [fst] in Hlinux.
      destruct (Hlinux eq_refl) as [Hg Ht]. now repeat split.
Qed.

End InferenceFacts.

Section InferenceScores.
Import Profile Inference.

Lemma bonus_inv (cond : bool) (pts : Z) (reason : string)
      (acc : Z * list string) (k : Z) :
  5 <= pts <= 25 ->
  (let len := Z.of_nat (List.length (snd acc)) in
   50 + 5 * len <= fst acc <= 50 + 25 * len /\ len <= k) ->
  let len := Z.of_nat (List.length (snd (bonus cond pts reason acc))) in
  50 + 5 * len <= fst (bonus cond pts reason acc) <= 50 + 25 * len
  /\ len <= k + 1.
Proof.
  cbv zeta. intros Hp Hacc. unfold bonus. destruct cond; cbn [fst snd].
  - rewrite length_app. cbn [List.length]. lia.
  - lia.
Qed.

(** X28: the tech-literacy score is 50 plus the bonuses, capped at 100:
    it is never below 50, so the level is never Below Average; Expert
    means a score from 80, Above Average one from 60 to 79 and Average
    one below 60; there is a reason per bonus, none exactly at 50. *)
Theorem techLiteracy_never_below (d : Data) :
  let t := inferTechLiteracy d in
  50 <= score t <= 100
  /\ level t <> "Below Average"
  /\ (level t = "Expert" <-> 80 <= score t)
  /\ (level t = "Above Average" <-> 60 <= score t < 80)
  /\ (level t = "Average" <-> score t < 60)
  /\ (reasons t = [] <-> score t = 50)
  /\ (List.length (reasons t) <= 7)%nat.
Proof.
  cbv zeta. unfold inferTechLiteracy. cbv zeta. cbn [score level reasons].
  match goal with
  | |- context [fst ?a] =>
      assert (Hinv : let len := Z.of_nat (List.length (snd a)) in
                     50 + 5 * len <= fst a <= 50 + 25 * len /\ len <= 7);
      [| set (acc := a) in *; clearbody acc]
  end.
  { change 7 with (0 + 1 + 1 + 1 + 1 + 1 + 1 + 1).
    repeat (apply bonus_inv; [lia |]). cbn. lia. }
  cbv zeta in Hinv. destruct acc as [total rs]. cbn [fst snd] in *.
  assert (Hnil : rs = [] <-> Z.of_nat (List.length rs) = 0)
    by (destruct rs; cbn [List.length]; split; intros; (congruence || lia)).
  rewrite Hnil. set (len := Z.of_nat (List.length rs)) in *.
  assert (Hlen : (List.length rs <= 7)%nat) by lia.
  clearbody len.
  destruct (Z.leb_spec 80 (Z.min 100 (Z.max 0 total)));
    [| destruct (Z.leb_spec 60 (Z.min 100 (Z.max 0 total)));
       [| destruct (Z.ltb_spec (Z.min 100 (Z.max 0 total)) 30)]];
    (split; [lia |]); (split; [discriminate || lia |]);
    (split; [split; [intros; (lia || discriminate) | intros; (reflexivity || lia)] |]);
    (split; [split; [intros; (lia || discriminate) | intros; (reflexivity || lia)] |]);
    (split; [split; [intros; (lia || discriminate) | intros; (reflexivity || lia)] |]);
    (split; [lia | exact Hlen]).
Qed.

Lemma geb_inject (a b : Z) : Js.geb (inject_Z a) (inject_Z b) = (b <=? a).
Proof.
  unfold Js.geb, Js.leb.
  destruct (Z.leb_spec b a) as [H | H].
  - apply Qle_bool_iff. now rewrite <- Zle_Qle.
  - destruct (Qle_bool (inject_Z b) (inject_Z a)) eqn:E; [| reflexivity].
    apply Qle_bool_iff in E. rewrite <- Zle_Qle in E. lia.
Qed.

Lemma lookupKey_In {A : Type} (key : string) (table : list (string * A)) (v : A) :
  lookupKey key table = Some v -> In v (map snd table).
Proof.
  induction table as [| [k u] rest IH]; [discriminate |].
  cbn [lookupKey map snd]. destruct (String.eqb k key).
  - intros [= <-]. now left.
  - intros H. right. exact (IH H).
Qed.

Lemma market_tiers (d : Data) :
  In (market (place (inferLocation d))) ["Tier 1"; "Tier 2"; "Tier 3"; "Tier 4"].
Proof.
  unfold inferLocation. cbv zeta. cbn [place].
  destruct (lookupKey _ tzToRegion) as [p |] eqn:Hp.
  - apply lookupKey_In in Hp.
    assert (Hall : Forall (fun q => In (market q)
                                       ["Tier 1"; "Tier 2"; "Tier 3"; "Tier 4"])
                          (map snd tzToRegion)).
    { unfold tzToRegion. cbn [map snd].
      repeat (apply List.Forall_cons; [cbn; tauto |]). apply List.Forall_nil. }
    rewrite List.Forall_forall in Hall. exact (Hall p Hp).
  - cbn. tauto.
Qed.

(** X29: for a profile that [generateFullProfile] builds, the price
    before the clamp is the market midpoint times the device and
    platform multipliers, times 0.85 from a tech score of 70, times an
    income factor fixed by tier and market: 1.3 for a Premium device in
    Tier 1 or 2, 0.7 for every Budget device, 1 otherwise.  The
    connection boost of 1.1 is never applied, because [inferLocation]
    sets no [connectionType]; the market is always one of the four
    tiers of the table. *)
Theorem generated_profile_cpm (d : Data) :
  let f := generateFullProfile d in
  let p := toPricing f in
  let base := Pricing.baseOf p in
  let tier := deviceTier (device f) in
  let mk := market (place (location f)) in
  In mk ["Tier 1"; "Tier 2"; "Tier 3"; "Tier 4"]
  /\ In tier ["Premium"; "Mid-range"; "Budget"]
  /\ Pricing.MARKET_CPMS mk = Some base
  /\ (Pricing.rawCPM p
      == (Pricing.min base + Pricing.max base) / 2
         * Pricing.deviceMultOf p * Pricing.platformMultOf p
         * (if 70 <=? score (techLiteracy f) then 0.85 else 1)
         * (if String.eqb tier "Premium"
            then if String.eqb mk "Tier 1" || String.eqb mk "Tier 2"
                 then 1.3 else 1
            else if String.eqb tier "Budget" then 0.7 else 1))%Q.
Proof.
  cbv zeta.
  pose proof (market_tiers d) as Hm.
  destruct (inferDeviceType_guess d) as (Ht & _). cbv zeta in Ht.
  unfold generateFullProfile. cbn [device location techLiteracy income].
  split; [exact Hm |]. split; [exact Ht |].
  unfold Pricing.rawCPM, Pricing.adResistant, Pricing.richBracket,
    Pricing.poorBracket, Pricing.baseOf, Pricing.marketTierOf, toPricing.
  cbn [Pricing.market Pricing.connectionType Pricing.mobile Pricing.score
       Pricing.bracket device location techLiteracy income].
  rewrite andb_false_r. rewrite (geb_inject _ 70).
  set (dm := Pricing.deviceMultOf _). set (pm := Pricing.platformMultOf _).
  set (tech := if 70 <=? _ then _ else _).
  unfold inferIncome. cbv zeta.
  set (tier := deviceTier (inferDeviceType d)) in *.
  set (mk := market (place (inferLocation d))) in *.
  clearbody tier mk dm pm.
  destruct (70 <=? score (inferTechLiteracy d));
    destruct Hm as [<- | [<- | [<- | [<- | []]]]];
    destruct Ht as [<- | [<- | [<- | []]]];
    (split; [reflexivity |]);
    cbv -[Qeq Qmult Qplus Qdiv]; field.
Qed.

End InferenceScores.

Section InferenceProfession.
Import Profile Inference.

Lemma insertByConfidence_perm (s : Profession) (l : list Profession) :
  insertByConfidence s l ≡ₚ s :: l.
Proof.
  induction l as [| u l IH]; cbn [insertByConfidence]; [reflexivity |].
  destruct (Js.leb (confidence u) (confidence s)); [reflexivity |].
  rewrite IH. apply perm_swap.
Qed.

Lemma sortByConfidence_perm (l : list Profession) : sortByConfidence l ≡ₚ l.
Proof.
  unfold sortByConfidence.
  induction l as [| t l IH]; cbn [fold_right]; [reflexivity |].
  rewrite insertByConfidence_perm. now rewrite IH.
Qed.

Lemma insertByConfidence_sorted (s : Profession) (l : list Profession) :
  StronglySorted (fun a b => (confidence b <= confidence a)%Q) l ->
  StronglySorted (fun a b => (confidence b <= confidence a)%Q)
                 (insertByConfidence s l).
Proof.
  induction 1 as [| u l Hs IH Hu]; cbn [insertByConfidence].
  - repeat constructor.
  - destruct (Js.leb (confidence u) (confidence s)) eqn:Hc.
    + apply leb_true in Hc. constructor; [now constructor |].
      constructor; [exact Hc |].
      eapply Forall_impl; [exact Hu |]. intros x Hx. cbv beta in *. lra.
    + apply leb_false in Hc. constructor; [exact IH |].
      rewrite insertByConfidence_perm. constructor; [lra | exact Hu].
Qed.

Lemma sortByConfidence_sorted (l : list Profession) :
  StronglySorted (fun a b => (confidence b <= confidence a)%Q)
                 (sortByConfidence l).
Proof.
  unfold sortByConfidence.
  induction l as [| t l IH]; cbn [fold_right]; [constructor |].
  now apply insertByConfidence_sorted.
Qed.

Lemma sortedConfidence_lookup (l : list Profession) (i j : nat)
      (si sj : Profession) :
  StronglySorted (fun a b => (confidence b <= confidence a)%Q) l ->
  (i <= j)%nat -> l !! i = Some si -> l !! j = Some sj ->
  (confidence sj <= confidence si)%Q.
Proof.
  intros Hs. revert i j.
  induction Hs as [| t l Hs IH Ht]; intros i j Hij Hi Hj; [discriminate |].
  destruct i as [| i], j as [| j]; cbn in Hi, Hj.
  - injection Hi as <-. injection Hj as <-. lra.
  - injection Hi as <-. rewrite Forall_forall in Ht. apply Ht.
    eapply list_elem_of_lookup_2. exact Hj.
  - lia.
  - apply (IH i j); [lia | assumption | assumption].
Qed.

(** The head of the stable sort is the first entry of the greatest
    confidence. *)
Lemma sortByConfidence_head (l : list Profession) :
  l <> [] ->
  exists l1 s l2,
    l = l1 ++ s :: l2 /\ head (sortByConfidence l) = Some s
    /\ Forall (fun u => (confidence u < confidence s)%Q) l1
    /\ Forall (fun u => (confidence u <= confidence s)%Q) l2.
Proof.
  induction l as [| x l IH]; [congruence |]. intros _.
  destruct l as [| y l'].
  { exists [], x, []. repeat split; constructor. }
  destruct IH as (l1 & s & l2 & Hl & Hh & H1 & H2); [discriminate |].
  set (l := y :: l') in *. clearbody l.
  unfold sortByConfidence in *. cbn [fold_right].
  destruct (fold_right insertByConfidence [] l) as [| u rest] eqn:Hs;
    [discriminate |].
  cbn [head] in Hh. apply (inj Some) in Hh. subst u.
  cbn [insertByConfidence].
  destruct (Js.leb (confidence s) (confidence x)) eqn:Hc.
  - apply leb_true in Hc. exists [], x, l. cbn [app head].
    split; [reflexivity |]. split; [reflexivity |]. split; [constructor |].
    rewrite Hl. apply Forall_app. split.
    + eapply Forall_impl; [exact H1 |]. intros u Hu. cbv beta in *. lra.
    + constructor; [exact Hc |].
      eapply Forall_impl; [exact H2 |]. intros u Hu. cbv beta in *. lra.
  - apply leb_false in Hc. exists (x :: l1), s, l2. cbn [app head].
    split; [now rewrite Hl |]. split; [reflexivity |].
    split; [constructor; [exact Hc | exact H1] | exact H2].
Qed.

Lemma signalIf_length (cond : bool) (l : string) (c : Q) :
  (List.length (signalIf cond l c) <= 1)%nat
  /\ Forall (fun s => label s = l) (signalIf cond l c).
Proof.
  unfold signalIf. destruct cond; cbn [List.length].
  - split; [lia |]. now repeat constructor.
  - split; [lia | constructor].
Qed.

(** X30: [inferProfession] returns between one and eight signals, the
    pushed ones in order of descending confidence; its primary label is
    that of the first pushed signal of the greatest confidence (the
    sort is stable); General Consumer is returned only alone. *)
Theorem profession_ranked (d : Data) :
  let r := inferProfession d in
  all r ≡ₚ professionSignals d
  /\ (1 <= List.length (all r) <= 8)%nat
  /\ (forall i j si sj, (i <= j)%nat ->
        all r !! i = Some si -> all r !! j = Some sj ->
        (confidence sj <= confidence si)%Q)
  /\ (exists l1 s l2,
        professionSignals d = l1 ++ s :: l2
        /\ head (all r) = Some s /\ primary r = Some (label s)
        /\ Forall (fun u => (confidence u < confidence s)%Q) l1
        /\ Forall (fun u => (confidence u <= confidence s)%Q) l2)
  /\ (In "General Consumer" (map label (all r)) ->
      all r = [{| label := "General Consumer"; confidence := 0.5 |}]).
Proof.
  cbv zeta. unfold inferProfession. cbn [all primary].
  pose proof (sortByConfidence_perm (professionSignals d)) as Hperm.
  assert (Hshape : (1 <= List.length (professionSignals d) <= 8)%nat
                   /\ (In "General Consumer" (map label (professionSignals d)) ->
                       professionSignals d
                       = [{| label := "General Consumer"; confidence := 0.5 |}])).
  { unfold professionSignals. cbv zeta.
    repeat match goal with
           | |- context [signalIf ?c ?l ?q] =>
               tryif is_var c then fail
               else (let b := fresh "b" in set (b := c); clearbody b)
           end.
    destruct b, b0, b1, b2, b3, b4, b5, b6; cbn [signalIf app List.length map];
      (split; [lia |]); intros Hin; try reflexivity;
      cbn [In label] in Hin;
      repeat (destruct Hin as [Hin | Hin]; [discriminate |]); destruct Hin. }
  destruct Hshape as [Hlen Hgc].
  split; [exact Hperm |]. split; [now rewrite Hperm |]. split.
  { intros i j si sj. apply sortedConfidence_lookup, sortByConfidence_sorted. }
  split.
  { destruct (sortByConfidence_head (professionSignals d))
      as (l1 & s & l2 & Hl & Hh & H1 & H2).
    - intros He. rewrite He in Hlen. cbn in Hlen. lia.
    - exists l1, s, l2. rewrite Hh. now repeat split. }
  intros Hin.
  assert (Hin' : In "General Consumer" (map label (professionSignals d))).
  { apply list_elem_of_In. rewrite <- Hperm. now apply list_elem_of_In. }
  rewrite (Hgc Hin'). reflexivity.
Qed.

End InferenceProfession.

(** ** The properties above at concrete inputs *)

Section ConcreteRuns.

(** X7 on the sample record: its monolog has between 21 and 52 blocks. *)
Lemma monolog_blocks_witness :
  exists bs,
    Monolog.buildMonolog Examples.sampleHost Examples.sampleFp
                         Examples.sampleProfile Examples.sampleScores = Some bs
    /\ (21 <= List.length bs <= 52)%nat.
Proof.
  destruct (Monolog.buildMonolog Examples.sampleHost Examples.sampleFp
              Examples.sampleProfile Examples.sampleScores) as [bs |] eqn:Hbs.
  - exists bs. split; [reflexivity |].
    exact (proj1 (proj2 (monolog_blocks _ _ _ _ bs Hbs))).
  - vm_compute in Hbs. discriminate.
Defined.

(** X11 on a track of 0.0001 s (5 samples) over two blocks: the first
    sample. *)
Lemma samples_in_range_witness :
  exists file s,
    Audio.generateAudio Cases.quietHost Cases.twoBlocks (1 # 10000) = Some file
    /\ Audio.readInt16LE 44 file = Some s /\ -31129 <= s <= 31128.
Proof.
  destruct (Audio.generateAudio Cases.quietHost Cases.twoBlocks (1 # 10000))
    as [file |] eqn:Hfile.
  - destruct (samples_in_range Cases.quietHost Cases.twoBlocks (1 # 10000)
                file Hfile 0 ltac:(vm_compute; split; [discriminate | reflexivity]))
      as (s & Hread & Hrange).
    exists file, s. split; [reflexivity |]. split; [exact Hread | exact Hrange].
  - vm_compute in Hfile. discriminate.
Defined.

(** X12 on two blocks: the second transient is queued at sample 52920
    (1.2 s), the second block starts at frame 47 (1.567 s). *)
Lemma transients_lead_blocks_witness :
  15435 * 1 - 1 <= 47 * 1470 - 52920 <= 16905 * 1 + 1.
Proof.
  exact (transients_lead_blocks Cases.twoBlocks 1
           {| Audio.sample := 52920; Audio.intensity := 0.7%Q |}
           {| Timeline.start := 47; Timeline.duration := 107;
              Timeline.linesFrames := 14; Timeline.holdFrames := 75 |}
           eq_refl eq_refl).
Defined.

(** X17 at frame 667 of the film: scene 5 (the outro) at its frame 22. *)
Lemma scene_of_frame_witness :
  exists i fi d,
    Scenes.tick Scenes.durations 667 = Scenes.Draw i fi
    /\ Scenes.durations !! i = Some d /\ 0 <= fi < d
    /\ 667 = Scenes.totalFrames (firstn i Scenes.durations) + fi.
Proof.
  apply (proj1 (proj2 (scene_of_frame Scenes.durations 667 ltac:(lia)))).
  reflexivity.
Defined.

(** X23 on the entropy of a browser in which every check succeeds. *)
Lemma world_geometry_witness :
  Forall (fun c => (World.dist c < 220)%Q)
         (World.connections
            (World.generateNetwork Cases.flatTrig Cases.fullEntropy
                                   Cases.emptyWorld)).
Proof.
  assert (Hbits : Forall (fun c => (0 <= World.cbits c)%Q)
                         (World.presentContribs Cases.fullEntropy)).
  { apply Forall_forall. intros c Hc. apply list_elem_of_In in Hc.
    vm_compute in Hc.
    repeat (destruct Hc as [<- | Hc]; [vm_compute; discriminate |]).
    destruct Hc. }
  exact (proj1 (proj2 (proj2 (world_geometry Cases.flatTrig Cases.fullEntropy
                                Cases.emptyWorld Hbits)))).
Defined.

(** X27 on the user agent of Chrome on an Android phone: the OS is
    Linux and the guess a Linux workstation. *)
Lemma linux_shadows_android_witness :
  let dev := Inference.inferDeviceType Cases.androidPhone in
  Profile.os (Inference.dparsed dev) = "Linux"
  /\ Profile.osVersion (Inference.dparsed dev) = ""
  /\ Inference.deviceGuess dev = "Linux Workstation"
  /\ Inference.deviceTier dev = "Mid-range".
Proof.
  exact (proj2 (proj2 (proj2 (linux_shadows_android Cases.androidPhone eq_refl)))
           eq_refl eq_refl eq_refl eq_refl eq_refl).
Defined.

(** X13 on three cookies: one session cookie, one zombie, one in no
    lifetime class. *)
Lemma lifetimes_partition_witness :
  exists a,
    CookieAnalyzer.analyze CookieAnalyzer.knownTrackers 1700000000
                           CookieAnalyzer.threeCookies = Some a
    /\ CookieAnalyzer.lsession (CookieAnalyzer.lifetimes a) = 1
    /\ CookieAnalyzer.lsession (CookieAnalyzer.lifetimes a)
       + CookieAnalyzer.shortLived (CookieAnalyzer.lifetimes a)
       + CookieAnalyzer.persistent (CookieAnalyzer.lifetimes a)
       + CookieAnalyzer.zombie (CookieAnalyzer.lifetimes a) = 2.
Proof.
  destruct (CookieAnalyzer.analyze CookieAnalyzer.knownTrackers 1700000000
              CookieAnalyzer.threeCookies) as [a |] eqn:Ha;
    [| vm_compute in Ha; discriminate Ha].
  exists a. split; [reflexivity |].
  destruct (lifetimes_partition _ _ _ a Ha) as (_ & _ & _ & Hs & Hd & _).
  split; [exact Hs | exact Hd].
Defined.

Lemma knownTrackers_categories (d c : string) :
  CookieAnalyzer.knownTrackers d = Some c -> CookieAnalyzer.inherited c = false.
Proof.
  unfold CookieAnalyzer.knownTrackers.
  destruct (String.eqb d "doubleclick.net"); [now intros [= <-] |].
  destruct (String.eqb d "facebook.com"); [now intros [= <-] | discriminate].
Qed.

(** X14 on three cookies: the counters add up to 3. *)
Lemma categories_partition_witness :
  exists a,
    CookieAnalyzer.analyze CookieAnalyzer.knownTrackers 1700000000
                           CookieAnalyzer.threeCookies = Some a
    /\ map_fold (fun _ n s => n + s) 0 (CookieAnalyzer.byCategory a)
       = CookieAnalyzer.total a.
Proof.
  destruct (CookieAnalyzer.analyze CookieAnalyzer.knownTrackers 1700000000
              CookieAnalyzer.threeCookies) as [a |] eqn:Ha;
    [| vm_compute in Ha; discriminate Ha].
  exists a. split; [reflexivity |].
  exact (proj1 (categories_partition _ _ _ a knownTrackers_categories Ha)).
Defined.

(** X15 on forty cookies, twelve of one tracker: at most 20 entries. *)
Lemma topTrackers_ranked_witness :
  exists a,
    CookieAnalyzer.analyze CookieAnalyzer.knownTrackers 1700000000
                           CookieAnalyzer.fortyCookies = Some a
    /\ (List.length (CookieAnalyzer.topTrackers a) <= 20)%nat.
Proof.
  destruct (CookieAnalyzer.analyze CookieAnalyzer.knownTrackers 1700000000
              CookieAnalyzer.fortyCookies) as [a |] eqn:Ha;
    [| vm_compute in Ha; discriminate Ha].
  exists a. split; [reflexivity |].
  exact (proj1 (topTrackers_ranked _ _ _ a Ha)).
Defined.

(** X16 on three cookies: at most three domains. *)
Lemma uniqueDomains_distinct_witness :
  exists a,
    CookieAnalyzer.analyze CookieAnalyzer.knownTrackers 1700000000
                           CookieAnalyzer.threeCookies = Some a
    /\ CookieAnalyzer.uniqueDomains a <= CookieAnalyzer.total a.
Proof.
  destruct (CookieAnalyzer.analyze CookieAnalyzer.knownTrackers 1700000000
              CookieAnalyzer.threeCookies) as [a |] eqn:Ha;
    [| vm_compute in Ha; discriminate Ha].
  exists a. split; [reflexivity |].
  exact (proj1 (proj2 (uniqueDomains_distinct _ _ _ a Ha))).
Defined.

End ConcreteRuns.
